(** * Catalog-scheme resolution for modular femoral implants

    Shallow embedding of the per-product implant schemes
    (Corail, Amistem, Ecofit, Actis, Optimys, FIT): label classification,
    similar-label search, landmark tables, stem-to-stem / head-to-stem
    transforms and the configuration facade, followed by the properties
    verified about them.

    Conventions.
    - A [SboShape3Label] wraps an integer uid; it is modelled by that uid
      in [Z].  The uids involved are a product base plus at most a few
      hundred, far from any machine-integer bound, so no wrap-around is
      written out.
    - Coordinates are C++ floating-point numbers initialised from decimal
      literals.  They are modelled as exact rationals in [Q]; rounding is
      not modelled.  Vector normalisation ([SboML::unit3]) needs a square
      root and is kept as a parameter of the functions that use it. *)

From Stdlib Require Import ZArith Lia Bool List String QArith Lqa.
Import ListNotations.

Local Open Scope Z_scope.

(** ** Shape labels *)

Definition SboShape3UID := Z.
Definition SboShape3Label := Z.

(** Modelled from the spec: [SboShape3Label] is declared in a header that is
    not part of the sources at hand.  A default-constructed label [{}] is the
    unset label; it is modelled as uid 0, [isSet] tests for it, [next] moves
    by a signed number of positions and [uid] reads the integer back. *)
Definition nullLabel : SboShape3Label := 0.
Definition isSet (l : SboShape3Label) : bool := negb (l =? nullLabel).
Definition next (l : SboShape3Label) (n : Z) : SboShape3Label := l + n.
Definition uid (l : SboShape3Label) : Z := l.

(** [aNext ? 1 : -1] *)
Definition stepOf (aNext : bool) : Z := if aNext then 1 else -1.

(** ** The math helpers used by the schemes *)

Module SboML.

(** Modelled from the spec: [SboML::in_closed_range] lives in
    SboMathLibBase.h, which is not part of the sources at hand; it is the
    closed-range membership test. *)
Definition in_closed_range (l lo hi : Z) : bool := (lo <=? l) && (l <=? hi).

(** Modelled from the spec: [SboML::clamp<int>] lives in SboMathLibBase.h,
    which is not part of the sources at hand; it clamps a value into
    [[lo, hi]]. *)
Definition clamp (v lo hi : Z) : Z :=
  if v <? lo then lo else if hi <? v then hi else v.

End SboML.

(** ** Anatomical side and the implant configuration record *)

Module SboAnatomLocation.
Inductive t : Set := None | Left | Right.

Definition eqb (a b : t) : bool :=
  match a, b with
  | None, None | Left, Left | Right, Right => true
  | _, _ => false
  end.
End SboAnatomLocation.

(** The configuration record the facade reads and writes.  The class itself
    is declared outside the sources at hand; the fields are the ones the
    schemes get and set. *)
Record SboFemImplantConfig : Set := mkFemIC {
  requestedSide : SboAnatomLocation.t;
  implantSide : SboAnatomLocation.t;
  stemLabel : SboShape3Label;
  headLabel : SboShape3Label;
  neckLabel : SboShape3Label;
  cutPlaneLabel : SboShape3Label;
  stemProductName : string;
  distalShaftProductName : string;
  headProductName : string;
  neckProductName : string;
  isValidAssembly : bool
}.

Definition setStemLabel (l : SboShape3Label) (c : SboFemImplantConfig) :=
  mkFemIC (requestedSide c) (implantSide c) l (headLabel c) (neckLabel c)
          (cutPlaneLabel c) (stemProductName c) (distalShaftProductName c)
          (headProductName c) (neckProductName c) (isValidAssembly c).

Definition setCutPlaneLabel (l : SboShape3Label) (c : SboFemImplantConfig) :=
  mkFemIC (requestedSide c) (implantSide c) (stemLabel c) (headLabel c)
          (neckLabel c) l (stemProductName c) (distalShaftProductName c)
          (headProductName c) (neckProductName c) (isValidAssembly c).

Definition setStemProductName (s : string) (c : SboFemImplantConfig) :=
  mkFemIC (requestedSide c) (implantSide c) (stemLabel c) (headLabel c)
          (neckLabel c) (cutPlaneLabel c) s (distalShaftProductName c)
          (headProductName c) (neckProductName c) (isValidAssembly c).

Definition setDistalShaftProductName (s : string) (c : SboFemImplantConfig) :=
  mkFemIC (requestedSide c) (implantSide c) (stemLabel c) (headLabel c)
          (neckLabel c) (cutPlaneLabel c) (stemProductName c) s
          (headProductName c) (neckProductName c) (isValidAssembly c).

Definition setHeadProductName (s : string) (c : SboFemImplantConfig) :=
  mkFemIC (requestedSide c) (implantSide c) (stemLabel c) (headLabel c)
          (neckLabel c) (cutPlaneLabel c) (stemProductName c)
          (distalShaftProductName c) s (neckProductName c)
          (isValidAssembly c).

Definition setNeckProductName (s : string) (c : SboFemImplantConfig) :=
  mkFemIC (requestedSide c) (implantSide c) (stemLabel c) (headLabel c)
          (neckLabel c) (cutPlaneLabel c) (stemProductName c)
          (distalShaftProductName c) (headProductName c) s
          (isValidAssembly c).

Definition setImplantSide (s : SboAnatomLocation.t) (c : SboFemImplantConfig) :=
  mkFemIC (requestedSide c) s (stemLabel c) (headLabel c) (neckLabel c)
          (cutPlaneLabel c) (stemProductName c) (distalShaftProductName c)
          (headProductName c) (neckProductName c) (isValidAssembly c).

Definition setValidAssembly (b : bool) (c : SboFemImplantConfig) :=
  mkFemIC (requestedSide c) (implantSide c) (stemLabel c) (headLabel c)
          (neckLabel c) (cutPlaneLabel c) (stemProductName c)
          (distalShaftProductName c) (headProductName c)
          (neckProductName c) b.

(** What the product registry supplies for one product: the start of its
    label range and its names.  The registry is outside the sources at hand,
    so every scheme that reads it takes it as a parameter. *)
Record ProductInfo : Set := mkProductInfo {
  productRangeStartsAt : Z;
  companyName : string;
  productName : string
}.

(** One entry of a scheme's [ranges()] table
    ([SboTPCPartMonoStem::CCD::RT]): first and last index of the family in
    the flat label space, the range-marker label and the display name. *)
Record RT : Set := mkRT {
  startIdx : Z;
  endIdx : Z;
  label : SboShape3Label;
  name : string
}.

(** [std::find_if] over a [ranges()] vector, by marker label. *)
Fixpoint find_range (v : list RT) (l : SboShape3Label) : option RT :=
  match v with
  | [] => None
  | x :: rest => if label x =? l then Some x else find_range rest l
  end.

(** An entry of a [ranges()] table with its marker moved by [b]. *)
Definition shiftRT (b : Z) (rt : RT) : RT :=
  mkRT (startIdx rt) (endIdx rt) (label rt + b) (name rt).

(** ** Points, vectors and rigid transforms

    Coordinates are rationals: a decimal literal of the source stands for
    its exact value, and sums, differences and products are exact, where
    the source computes them in floating point.  What is stated about
    coordinates below is limited to what the rounding of the source cannot
    change: entries of the landmark tables, the way a transform is built
    from them, strict comparisons with a margin, and sums with an opposite
    or with zero.  Identities between separately rounded results, such as
    one computed difference being the sum of two others, hold in this model
    but are not claimed of the source. *)

Record SboPoint3 : Set := Point3 { px : Q; py : Q; pz : Q }.
Definition SboVector3 := SboPoint3.

Definition padd (a b : SboPoint3) : SboPoint3 :=
  Point3 (px a + px b) (py a + py b) (pz a + pz b).
Definition psub (a b : SboPoint3) : SboPoint3 :=
  Point3 (px a - px b) (py a - py b) (pz a - pz b).
Definition pscale (a : SboPoint3) (k : Q) : SboPoint3 :=
  Point3 (px a * k) (py a * k) (pz a * k).
Definition pdot (a b : SboPoint3) : Q :=
  (px a * px b + py a * py b + pz a * pz b)%Q.

(** A transform is a linear part (three rows) and a translation. *)
Record SboMatrix3 : Set := Matrix3 {
  row1 : SboVector3;
  row2 : SboVector3;
  row3 : SboVector3;
  translation : SboVector3
}.

Definition idMat3 : SboMatrix3 :=
  Matrix3 (Point3 1 0 0) (Point3 0 1 0) (Point3 0 0 1) (Point3 0 0 0).

Definition transMat3 (v : SboVector3) : SboMatrix3 :=
  Matrix3 (Point3 1 0 0) (Point3 0 1 0) (Point3 0 0 1) v.

Definition applyLin (m : SboMatrix3) (v : SboVector3) : SboVector3 :=
  Point3 (pdot (row1 m) v) (pdot (row2 m) v) (pdot (row3 m) v).

Definition col (m : SboMatrix3) (i : nat) : SboVector3 :=
  match i with
  | O => Point3 (px (row1 m)) (px (row2 m)) (px (row3 m))
  | S O => Point3 (py (row1 m)) (py (row2 m)) (py (row3 m))
  | _ => Point3 (pz (row1 m)) (pz (row2 m)) (pz (row3 m))
  end.

(** [a * b]: the rightmost transform is applied first. *)
Definition mulMat3 (a b : SboMatrix3) : SboMatrix3 :=
  Matrix3
    (Point3 (pdot (row1 a) (col b 0)) (pdot (row1 a) (col b 1)) (pdot (row1 a) (col b 2)))
    (Point3 (pdot (row2 a) (col b 0)) (pdot (row2 a) (col b 1)) (pdot (row2 a) (col b 2)))
    (Point3 (pdot (row3 a) (col b 0)) (pdot (row3 a) (col b 1)) (pdot (row3 a) (col b 2)))
    (padd (applyLin a (translation b)) (translation a)).

(** Coordinate-wise rational equality of points and of transforms. *)
Definition peq (a b : SboPoint3) : Prop :=
  (px a == px b)%Q /\ (py a == py b)%Q /\ (pz a == pz b)%Q.

Definition meq (a b : SboMatrix3) : Prop :=
  peq (row1 a) (row1 b) /\ peq (row2 a) (row2 b) /\
  peq (row3 a) (row3 b) /\ peq (translation a) (translation b).

(** A plane by a point on it and its normal, and an axis-aligned box by its
    two corners: the classes behind [SboPlane3] and [SboBbox3] are declared
    outside the sources at hand and are modelled by the data the schemes
    build them from. *)
Record SboPlane3 : Set := Plane3 { planePoint : SboPoint3; planeNormal : SboVector3 }.
Record SboBbox3 : Set := makeBbox3 { bboxMin : SboPoint3; bboxMax : SboPoint3 }.

(** A transform applied to a point, [m(p)]. *)
Definition applyMat3 (m : SboMatrix3) (p : SboPoint3) : SboPoint3 :=
  padd (applyLin m p) (translation m).

(** The point lies in the box, bounds included. *)
Definition inBbox (p : SboPoint3) (b : SboBbox3) : Prop :=
  (px (bboxMin b) <= px p <= px (bboxMax b))%Q
  /\ (py (bboxMin b) <= py p <= py (bboxMax b))%Q
  /\ (pz (bboxMin b) <= pz p <= pz (bboxMax b))%Q.

(** Boolean versions, for evaluation. *)
Definition peqb (a b : SboPoint3) : bool :=
  Qeq_bool (px a) (px b) && Qeq_bool (py a) (py b) && Qeq_bool (pz a) (pz b).

Definition meqb (a b : SboMatrix3) : bool :=
  peqb (row1 a) (row1 b) && peqb (row2 a) (row2 b)
  && peqb (row3 a) (row3 b) && peqb (translation a) (translation b).

(** * The Corail scheme (johnson_corail_scheme.h) *)

Module Corail.

Module S3UID.
Inductive t : Set :=
  | STEM_KHO_A_135_0 | STEM_KHO_A_135_1 | STEM_KHO_A_135_2
  | STEM_KHO_A_135_3 | STEM_KHO_A_135_4 | STEM_KHO_A_135_5
  | STEM_KHO_A_135_6 | STEM_KHO_A_135_7 | STEM_KHO_A_135_8
  | STEM_KHO_A_135_9 | STEM_KS_STD135_0 | STEM_KS_STD135_1
  | STEM_KS_STD135_2 | STEM_KS_STD135_3 | STEM_KS_STD135_4
  | STEM_KS_STD135_5 | STEM_KS_STD135_6 | STEM_KS_STD135_7
  | STEM_KS_STD135_8 | STEM_KS_STD135_9 | STEM_KS_STD135_10
  | STEM_KA_STD135_0 | STEM_KA_STD135_1 | STEM_KA_STD135_2
  | STEM_KA_STD135_3 | STEM_KA_STD135_4 | STEM_KA_STD135_5
  | STEM_KA_STD135_6 | STEM_KA_STD135_7 | STEM_KA_STD135_8
  | STEM_KA_STD135_9 | STEM_KA_STD135_10 | STEM_KHO_S_135_0
  | STEM_KHO_S_135_1 | STEM_KHO_S_135_2 | STEM_KHO_S_135_3
  | STEM_KHO_S_135_4 | STEM_KHO_S_135_5 | STEM_KHO_S_135_6
  | STEM_KHO_S_135_7 | STEM_KHO_S_135_8 | STEM_KHO_S_135_9
  | STEM_KLA_125_0 | STEM_KLA_125_1 | STEM_KLA_125_2 | STEM_KLA_125_3
  | STEM_KLA_125_4 | STEM_KLA_125_5 | STEM_KLA_125_6 | STEM_KLA_125_7
  | STEM_KLA_125_8 | STEM_KLA_125_9 | STEM_STD125_S_0 | STEM_STD125_S_1
  | STEM_STD125_S_2 | STEM_STD125_S_3 | STEM_STD125_A_0 | STEM_STD125_A_1
  | STEM_STD125_A_2 | STEM_STD125_A_3 | STEM_STD125_A_4 | STEM_STD125_A_5
  | STEM_STD125_A_6 | STEM_STD125_A_7 | STEM_SN_S_0 | STEM_SN_S_1
  | STEM_SN_S_2 | STEM_SN_S_3 | STEM_SN_A_0 | STEM_SN_A_1 | STEM_SN_A_2
  | STEM_SN_A_3 | STEM_SN_A_4 | STEM_SN_A_5 | STEM_SN_A_6 | STEM_SN_A_7
  | CUTPLANE | HEAD_M4 | HEAD_P0 | HEAD_P4 | HEAD_P8 | RANGE_CCD_KS_STD135
  | RANGE_CCD_KA_STD135 | RANGE_CCD_KHO_S_135 | RANGE_CCD_KHO_A_135
  | RANGE_CCD_KLA_125 | RANGE_CCD_STD125_S | RANGE_CCD_STD125_A
  | RANGE_CCD_SN_S | RANGE_CCD_SN_A.

(** Position of an enumerator after the first one. *)
Definition index (e : t) : Z :=
  match e with
  | STEM_KHO_A_135_0 => 0 | STEM_KHO_A_135_1 => 1 | STEM_KHO_A_135_2 => 2
  | STEM_KHO_A_135_3 => 3 | STEM_KHO_A_135_4 => 4 | STEM_KHO_A_135_5 => 5
  | STEM_KHO_A_135_6 => 6 | STEM_KHO_A_135_7 => 7 | STEM_KHO_A_135_8 => 8
  | STEM_KHO_A_135_9 => 9 | STEM_KS_STD135_0 => 10
  | STEM_KS_STD135_1 => 11 | STEM_KS_STD135_2 => 12
  | STEM_KS_STD135_3 => 13 | STEM_KS_STD135_4 => 14
  | STEM_KS_STD135_5 => 15 | STEM_KS_STD135_6 => 16
  | STEM_KS_STD135_7 => 17 | STEM_KS_STD135_8 => 18
  | STEM_KS_STD135_9 => 19 | STEM_KS_STD135_10 => 20
  | STEM_KA_STD135_0 => 21 | STEM_KA_STD135_1 => 22
  | STEM_KA_STD135_2 => 23 | STEM_KA_STD135_3 => 24
  | STEM_KA_STD135_4 => 25 | STEM_KA_STD135_5 => 26
  | STEM_KA_STD135_6 => 27 | STEM_KA_STD135_7 => 28
  | STEM_KA_STD135_8 => 29 | STEM_KA_STD135_9 => 30
  | STEM_KA_STD135_10 => 31 | STEM_KHO_S_135_0 => 32
  | STEM_KHO_S_135_1 => 33 | STEM_KHO_S_135_2 => 34
  | STEM_KHO_S_135_3 => 35 | STEM_KHO_S_135_4 => 36
  | STEM_KHO_S_135_5 => 37 | STEM_KHO_S_135_6 => 38
  | STEM_KHO_S_135_7 => 39 | STEM_KHO_S_135_8 => 40
  | STEM_KHO_S_135_9 => 41 | STEM_KLA_125_0 => 42 | STEM_KLA_125_1 => 43
  | STEM_KLA_125_2 => 44 | STEM_KLA_125_3 => 45 | STEM_KLA_125_4 => 46
  | STEM_KLA_125_5 => 47 | STEM_KLA_125_6 => 48 | STEM_KLA_125_7 => 49
  | STEM_KLA_125_8 => 50 | STEM_KLA_125_9 => 51 | STEM_STD125_S_0 => 52
  | STEM_STD125_S_1 => 53 | STEM_STD125_S_2 => 54 | STEM_STD125_S_3 => 55
  | STEM_STD125_A_0 => 56 | STEM_STD125_A_1 => 57 | STEM_STD125_A_2 => 58
  | STEM_STD125_A_3 => 59 | STEM_STD125_A_4 => 60 | STEM_STD125_A_5 => 61
  | STEM_STD125_A_6 => 62 | STEM_STD125_A_7 => 63 | STEM_SN_S_0 => 64
  | STEM_SN_S_1 => 65 | STEM_SN_S_2 => 66 | STEM_SN_S_3 => 67
  | STEM_SN_A_0 => 68 | STEM_SN_A_1 => 69 | STEM_SN_A_2 => 70
  | STEM_SN_A_3 => 71 | STEM_SN_A_4 => 72 | STEM_SN_A_5 => 73
  | STEM_SN_A_6 => 74 | STEM_SN_A_7 => 75 | CUTPLANE => 76 | HEAD_M4 => 77
  | HEAD_P0 => 78 | HEAD_P4 => 79 | HEAD_P8 => 80
  | RANGE_CCD_KS_STD135 => 81 | RANGE_CCD_KA_STD135 => 82
  | RANGE_CCD_KHO_S_135 => 83 | RANGE_CCD_KHO_A_135 => 84
  | RANGE_CCD_KLA_125 => 85 | RANGE_CCD_STD125_S => 86
  | RANGE_CCD_STD125_A => 87 | RANGE_CCD_SN_S => 88 | RANGE_CCD_SN_A => 89
  end.
End S3UID.

Section Scheme.

Variable info : ProductInfo.

Definition ProductRangeStartsAt : Z := productRangeStartsAt info.
Definition ProductName : string := productName info.

(** [STEM_KHO_A_135_0 = ProductRangeStartsAt + 90L], the following
    enumerators count up from there. *)
Definition utype (e : S3UID.t) : SboShape3UID :=
  ProductRangeStartsAt + 90 + S3UID.index e.

Definition lowerS3UID := S3UID.STEM_KHO_A_135_0.
Definition upperS3UID := S3UID.RANGE_CCD_SN_A.
Definition defaultS3StemRUID := S3UID.STEM_KA_STD135_5.
Definition defaultS3HeadUID := S3UID.HEAD_P0.

Definition s3 (e : S3UID.t) : SboShape3Label := utype e.

Definition isCCD_KS_STD135 (l : SboShape3Label) : bool :=
  SboML.in_closed_range l (s3 S3UID.STEM_KS_STD135_0) (s3 S3UID.STEM_KS_STD135_10).
Definition isCCD_KA_STD135 (l : SboShape3Label) : bool :=
  SboML.in_closed_range l (s3 S3UID.STEM_KA_STD135_0) (s3 S3UID.STEM_KA_STD135_10).
Definition isCCD_KHO_S_135 (l : SboShape3Label) : bool :=
  SboML.in_closed_range l (s3 S3UID.STEM_KHO_S_135_0) (s3 S3UID.STEM_KHO_S_135_9).
Definition isCCD_KHO_A_135 (l : SboShape3Label) : bool :=
  SboML.in_closed_range l (s3 S3UID.STEM_KHO_A_135_0) (s3 S3UID.STEM_KHO_A_135_9).
Definition isCCD_KLA_125 (l : SboShape3Label) : bool :=
  SboML.in_closed_range l (s3 S3UID.STEM_KLA_125_0) (s3 S3UID.STEM_KLA_125_9).
Definition isCCD_STD125_S (l : SboShape3Label) : bool :=
  SboML.in_closed_range l (s3 S3UID.STEM_STD125_S_0) (s3 S3UID.STEM_STD125_S_3).
Definition isCCD_STD125_A (l : SboShape3Label) : bool :=
  SboML.in_closed_range l (s3 S3UID.STEM_STD125_A_0) (s3 S3UID.STEM_STD125_A_7).
Definition isCCD_SN_S (l : SboShape3Label) : bool :=
  SboML.in_closed_range l (s3 S3UID.STEM_SN_S_0) (s3 S3UID.STEM_SN_S_3).
Definition isCCD_SN_A (l : SboShape3Label) : bool :=
  SboML.in_closed_range l (s3 S3UID.STEM_SN_A_0) (s3 S3UID.STEM_SN_A_7).

Definition isStem (l : SboShape3Label) : bool :=
  SboML.in_closed_range l (s3 S3UID.STEM_KHO_A_135_0) (s3 S3UID.STEM_SN_A_7).

Definition isHead (l : SboShape3Label) : bool :=
  SboML.in_closed_range l (s3 S3UID.HEAD_M4) (s3 S3UID.HEAD_P8).

Definition hasCollar (l : SboShape3Label) : bool :=
  isCCD_KHO_A_135 l || isCCD_KA_STD135 l || isCCD_KLA_125 l
  || isCCD_STD125_A l || isCCD_SN_A l.

(** The debug-only check [HPROJ_DCHECK2(isStem(aL), ...)] that opens this
    and the following functions is compiled out of release builds and is
    not part of the model; the properties state [isStem] where they need
    it. *)
Definition nextPrevStem (aL : SboShape3Label) (aNext : bool) : SboShape3Label :=
  let nL := next aL (stepOf aNext) in
  if isCCD_KS_STD135 aL then (if isCCD_KS_STD135 nL then nL else aL) else
  if isCCD_KA_STD135 aL then (if isCCD_KA_STD135 nL then nL else aL) else
  if isCCD_KHO_S_135 aL then (if isCCD_KHO_S_135 nL then nL else aL) else
  if isCCD_KHO_A_135 aL then (if isCCD_KHO_A_135 nL then nL else aL) else
  if isCCD_STD125_S aL then (if isCCD_STD125_S nL then nL else aL) else
  if isCCD_STD125_A aL then (if isCCD_STD125_A nL then nL else aL) else
  if isCCD_SN_S aL then (if isCCD_SN_S nL then nL else aL) else
  if isCCD_SN_A aL then (if isCCD_SN_A nL then nL else aL) else
  if isCCD_KLA_125 nL then nL else aL.

Definition getCCDRange (aL : SboShape3Label) : SboShape3Label :=
  if isCCD_KS_STD135 aL then s3 S3UID.RANGE_CCD_KS_STD135 else
  if isCCD_KA_STD135 aL then s3 S3UID.RANGE_CCD_KA_STD135 else
  if isCCD_KHO_S_135 aL then s3 S3UID.RANGE_CCD_KHO_S_135 else
  if isCCD_KHO_A_135 aL then s3 S3UID.RANGE_CCD_KHO_A_135 else
  if isCCD_KLA_125 aL then s3 S3UID.RANGE_CCD_KLA_125 else
  if isCCD_STD125_S aL then s3 S3UID.RANGE_CCD_STD125_S else
  if isCCD_STD125_A aL then s3 S3UID.RANGE_CCD_STD125_A else
  if isCCD_SN_S aL then s3 S3UID.RANGE_CCD_SN_S else
  if isCCD_SN_A aL then s3 S3UID.RANGE_CCD_SN_A else
  nullLabel.

Definition getCCDStartIdx (aL : SboShape3Label) : Z :=
  if isCCD_KHO_A_135 aL then 0 else
  if isCCD_KS_STD135 aL then 10 else
  if isCCD_KA_STD135 aL then 21 else
  if isCCD_KHO_S_135 aL then 32 else
  if isCCD_KLA_125 aL then 42 else
  if isCCD_STD125_S aL then 52 else
  if isCCD_STD125_A aL then 56 else
  if isCCD_SN_S aL then 64 else
  if isCCD_SN_A aL then 68 else
  0.

(** One [if (aTargetR == r) aOffset = v;] statement. *)
Definition assignIf (aTargetR r : SboShape3Label) (v aOffset : Z) : Z :=
  if aTargetR =? r then v else aOffset.

Definition getSimilarOffset (aOffset : Z) (aSourceR aTargetR : SboShape3Label) : Z :=
  if aSourceR =? s3 S3UID.RANGE_CCD_KS_STD135 then
    let aOffset := assignIf aTargetR (s3 S3UID.RANGE_CCD_KHO_S_135) (SboML.clamp (aOffset - 1) 0 9) aOffset in
    let aOffset := assignIf aTargetR (s3 S3UID.RANGE_CCD_KHO_A_135) (SboML.clamp (aOffset - 1) 0 9) aOffset in
    let aOffset := assignIf aTargetR (s3 S3UID.RANGE_CCD_KLA_125) (SboML.clamp (aOffset - 1) 0 9) aOffset in
    let aOffset := assignIf aTargetR (s3 S3UID.RANGE_CCD_STD125_S) (SboML.clamp (aOffset + 1) 0 3) aOffset in
    let aOffset := assignIf aTargetR (s3 S3UID.RANGE_CCD_STD125_A) (SboML.clamp (aOffset + 1) 0 7) aOffset in
    let aOffset := assignIf aTargetR (s3 S3UID.RANGE_CCD_SN_S) (SboML.clamp (aOffset + 1) 0 3) aOffset in
    let aOffset := assignIf aTargetR (s3 S3UID.RANGE_CCD_SN_A) (SboML.clamp (aOffset + 1) 0 7) aOffset in
    aOffset
  else if aSourceR =? s3 S3UID.RANGE_CCD_KA_STD135 then
    let aOffset := assignIf aTargetR (s3 S3UID.RANGE_CCD_KHO_S_135) (SboML.clamp (aOffset - 1) 0 9) aOffset in
    let aOffset := assignIf aTargetR (s3 S3UID.RANGE_CCD_KHO_A_135) (SboML.clamp (aOffset - 1) 0 9) aOffset in
    let aOffset := assignIf aTargetR (s3 S3UID.RANGE_CCD_KLA_125) (SboML.clamp (aOffset - 1) 0 9) aOffset in
    let aOffset := assignIf aTargetR (s3 S3UID.RANGE_CCD_STD125_S) (SboML.clamp (aOffset + 1) 0 3) aOffset in
    let aOffset := assignIf aTargetR (s3 S3UID.RANGE_CCD_STD125_A) (SboML.clamp (aOffset + 1) 0 7) aOffset in
    let aOffset := assignIf aTargetR (s3 S3UID.RANGE_CCD_SN_S) (SboML.clamp (aOffset + 1) 0 3) aOffset in
    let aOffset := assignIf aTargetR (s3 S3UID.RANGE_CCD_SN_A) (SboML.clamp (aOffset + 1) 0 7) aOffset in
    aOffset
  else if (aSourceR =? s3 S3UID.RANGE_CCD_KHO_S_135)
          || (aSourceR =? s3 S3UID.RANGE_CCD_KHO_A_135)
          || (aSourceR =? s3 S3UID.RANGE_CCD_KLA_125) then
    let aOffset := assignIf aTargetR (s3 S3UID.RANGE_CCD_KS_STD135) (SboML.clamp (aOffset + 1) 0 10) aOffset in
    let aOffset := assignIf aTargetR (s3 S3UID.RANGE_CCD_KA_STD135) (SboML.clamp (aOffset + 1) 0 10) aOffset in
    let aOffset := assignIf aTargetR (s3 S3UID.RANGE_CCD_STD125_S) (SboML.clamp (aOffset + 2) 0 3) aOffset in
    let aOffset := assignIf aTargetR (s3 S3UID.RANGE_CCD_STD125_A) (SboML.clamp (aOffset + 2) 0 7) aOffset in
    let aOffset := assignIf aTargetR (s3 S3UID.RANGE_CCD_SN_S) (SboML.clamp (aOffset + 2) 0 3) aOffset in
    let aOffset := assignIf aTargetR (s3 S3UID.RANGE_CCD_SN_A) (SboML.clamp (aOffset + 2) 0 7) aOffset in
    aOffset
  else if aSourceR =? s3 S3UID.RANGE_CCD_STD125_S then
    let aOffset := assignIf aTargetR (s3 S3UID.RANGE_CCD_KS_STD135) (SboML.clamp (aOffset - 1) 0 10) aOffset in
    let aOffset := assignIf aTargetR (s3 S3UID.RANGE_CCD_KA_STD135) (SboML.clamp (aOffset - 1) 0 10) aOffset in
    let aOffset := assignIf aTargetR (s3 S3UID.RANGE_CCD_KHO_S_135) (SboML.clamp (aOffset - 2) 0 9) aOffset in
    let aOffset := assignIf aTargetR (s3 S3UID.RANGE_CCD_KHO_A_135) (SboML.clamp (aOffset - 2) 0 9) aOffset in
    let aOffset := assignIf aTargetR (s3 S3UID.RANGE_CCD_KLA_125) (SboML.clamp (aOffset - 2) 0 9) aOffset in
    let aOffset := assignIf aTargetR (s3 S3UID.RANGE_CCD_STD125_A) (SboML.clamp aOffset 0 7) aOffset in
    let aOffset := assignIf aTargetR (s3 S3UID.RANGE_CCD_SN_A) (SboML.clamp aOffset 0 7) aOffset in
    aOffset
  else if aSourceR =? s3 S3UID.RANGE_CCD_STD125_A then
    let aOffset := assignIf aTargetR (s3 S3UID.RANGE_CCD_KS_STD135) (SboML.clamp (aOffset - 1) 0 10) aOffset in
    let aOffset := assignIf aTargetR (s3 S3UID.RANGE_CCD_KA_STD135) (SboML.clamp (aOffset - 1) 0 10) aOffset in
    let aOffset := assignIf aTargetR (s3 S3UID.RANGE_CCD_KHO_S_135) (SboML.clamp (aOffset - 2) 0 9) aOffset in
    let aOffset := assignIf aTargetR (s3 S3UID.RANGE_CCD_KHO_A_135) (SboML.clamp (aOffset - 2) 0 9) aOffset in
    let aOffset := assignIf aTargetR (s3 S3UID.RANGE_CCD_KLA_125) (SboML.clamp (aOffset - 2) 0 9) aOffset in
    let aOffset := assignIf aTargetR (s3 S3UID.RANGE_CCD_STD125_S) (SboML.clamp aOffset 0 3) aOffset in
    let aOffset := assignIf aTargetR (s3 S3UID.RANGE_CCD_SN_S) (SboML.clamp aOffset 0 3) aOffset in
    aOffset
  else if aSourceR =? s3 S3UID.RANGE_CCD_SN_S then
    let aOffset := assignIf aTargetR (s3 S3UID.RANGE_CCD_KS_STD135) (SboML.clamp (aOffset - 1) 0 10) aOffset in
    let aOffset := assignIf aTargetR (s3 S3UID.RANGE_CCD_KA_STD135) (SboML.clamp (aOffset - 1) 0 10) aOffset in
    let aOffset := assignIf aTargetR (s3 S3UID.RANGE_CCD_KHO_S_135) (SboML.clamp (aOffset - 2) 0 9) aOffset in
    let aOffset := assignIf aTargetR (s3 S3UID.RANGE_CCD_KHO_A_135) (SboML.clamp (aOffset - 2) 0 9) aOffset in
    let aOffset := assignIf aTargetR (s3 S3UID.RANGE_CCD_KLA_125) (SboML.clamp (aOffset - 2) 0 9) aOffset in
    let aOffset := assignIf aTargetR (s3 S3UID.RANGE_CCD_STD125_A) (SboML.clamp aOffset 0 7) aOffset in
    let aOffset := assignIf aTargetR (s3 S3UID.RANGE_CCD_SN_A) (SboML.clamp aOffset 0 7) aOffset in
    aOffset
  else if aSourceR =? s3 S3UID.RANGE_CCD_SN_A then
    let aOffset := assignIf aTargetR (s3 S3UID.RANGE_CCD_KS_STD135) (SboML.clamp (aOffset - 1) 0 10) aOffset in
    let aOffset := assignIf aTargetR (s3 S3UID.RANGE_CCD_KA_STD135) (SboML.clamp (aOffset - 1) 0 10) aOffset in
    let aOffset := assignIf aTargetR (s3 S3UID.RANGE_CCD_KHO_S_135) (SboML.clamp (aOffset - 2) 0 9) aOffset in
    let aOffset := assignIf aTargetR (s3 S3UID.RANGE_CCD_KHO_A_135) (SboML.clamp (aOffset - 2) 0 9) aOffset in
    let aOffset := assignIf aTargetR (s3 S3UID.RANGE_CCD_KLA_125) (SboML.clamp (aOffset - 2) 0 9) aOffset in
    let aOffset := assignIf aTargetR (s3 S3UID.RANGE_CCD_STD125_S) (SboML.clamp aOffset 0 3) aOffset in
    let aOffset := assignIf aTargetR (s3 S3UID.RANGE_CCD_SN_S) (SboML.clamp aOffset 0 3) aOffset in
    aOffset
  else aOffset.

Definition getOffset (aL : SboShape3Label) : Z :=
  let lower := s3 lowerS3UID in
  let rIdx := getCCDStartIdx aL in
  uid aL - rIdx - uid lower.

Definition getRES_01 (aL : SboShape3Label) : SboPoint3 :=
  let offset := getOffset aL in
  if isCCD_KS_STD135 aL || isCCD_KA_STD135 aL then
    if offset =? 0 then Point3 (-11.07) 0 11.07 else
    if offset =? 1 then Point3 (-11.57) 0 11.57 else
    if offset =? 2 then Point3 (-12.32) 0 12.32 else
    if offset =? 3 then Point3 (-13.07) 0 13.07 else
    if offset =? 4 then Point3 (-13.8) 0 13.8 else
    if offset =? 5 then Point3 (-14.44) 0 14.44 else
    if offset =? 6 then Point3 (-15.07) 0 15.07 else
    if offset =? 7 then Point3 (-15.82) 0 15.82 else
    if offset =? 8 then Point3 (-16.57) 0 16.57 else
    if offset =? 9 then Point3 (-17.57) 0 17.57 else
    if offset =? 10 then Point3 (-18.57) 0 18.57 else
    Point3 0 0 0
  else if isCCD_KHO_S_135 aL || isCCD_KHO_A_135 aL then
    if offset =? 0 then Point3 (-15.1) 0 15.1 else
    if offset =? 1 then Point3 (-15.85) 0 15.85 else
    if offset =? 2 then Point3 (-16.6) 0 16.6 else
    if offset =? 3 then Point3 (-17.35) 0 17.35 else
    if offset =? 4 then Point3 (-17.98) 0 17.98 else
    if offset =? 5 then Point3 (-18.6) 0 18.6 else
    if offset =? 6 then Point3 (-19.35) 0 19.35 else
    if offset =? 7 then Point3 (-20.1) 0 20.1 else
    if offset =? 8 then Point3 (-21.1) 0 21.1 else
    if offset =? 9 then Point3 (-22.1) 0 22.1 else
    Point3 0 0 0
  else if isCCD_KLA_125 aL then
    if offset =? 0 then Point3 (-12.62) 0 8.84 else
    if offset =? 1 then Point3 (-13.37) 0 9.36 else
    if offset =? 2 then Point3 (-14.12) 0 9.89 else
    if offset =? 3 then Point3 (-14.86) 0 10.4 else
    if offset =? 4 then Point3 (-15.5) 0 10.85 else
    if offset =? 5 then Point3 (-16.12) 0 11.29 else
    if offset =? 6 then Point3 (-16.87) 0 11.81 else
    if offset =? 7 then Point3 (-17.62) 0 12.34 else
    if offset =? 8 then Point3 (-18.58) 0 13.01 else
    if offset =? 9 then Point3 (-19.59) 0 13.72 else
    Point3 0 0 0
  else if isCCD_STD125_S aL then
    if offset =? 0 then Point3 (-8.76) 0 6.13 else
    if offset =? 1 then Point3 (-9.26) 0 6.48 else
    if offset =? 2 then Point3 (-9.76) 0 6.83 else
    if offset =? 3 then Point3 (-10.51) 0 7.36 else
    Point3 0 0 0
  else if isCCD_STD125_A aL then
    if offset =? 0 then Point3 (-8.76) 0 6.13 else
    if offset =? 1 then Point3 (-9.26) 0 6.48 else
    if offset =? 2 then Point3 (-9.76) 0 6.83 else
    if offset =? 3 then Point3 (-10.51) 0 7.36 else
    if offset =? 4 then Point3 (-11.26) 0 7.88 else
    if offset =? 5 then Point3 (-12.01) 0 8.41 else
    if offset =? 6 then Point3 (-12.63) 0 8.84 else
    if offset =? 7 then Point3 (-13.26) 0 9.28 else
    Point3 0 0 0
  else if isCCD_SN_S aL then
    if offset =? 0 then Point3 (-10.22) 0 10.22 else
    if offset =? 1 then Point3 (-10.71) 0 10.71 else
    if offset =? 2 then Point3 (-11.21) 0 11.21 else
    if offset =? 3 then Point3 (-11.96) 0 11.96 else
    Point3 0 0 0
  else if isCCD_SN_A aL then
    if offset =? 0 then Point3 (-10.21) 0 10.21 else
    if offset =? 1 then Point3 (-10.71) 0 10.71 else
    if offset =? 2 then Point3 (-11.21) 0 11.21 else
    if offset =? 3 then Point3 (-11.96) 0 11.96 else
    if offset =? 4 then Point3 (-12.71) 0 12.71 else
    if offset =? 5 then Point3 (-13.46) 0 13.46 else
    if offset =? 6 then Point3 (-14.09) 0 14.09 else
    if offset =? 7 then Point3 (-14.71) 0 14.71 else
    Point3 0 0 0
  else Point3 0 0 0.

Definition getRES_02 (aL : SboShape3Label) : SboPoint3 :=
  let offset := getOffset aL in
  if isCCD_KS_STD135 aL || isCCD_KA_STD135 aL then
    if offset =? 0 then Point3 (-19.5) 0 2.64 else
    if offset =? 1 then Point3 (-20) 0 3.14 else
    if offset =? 2 then Point3 (-20.75) 0 3.89 else
    if offset =? 3 then Point3 (-21.5) 0 4.64 else
    if offset =? 4 then Point3 (-22.25) 0 5.36 else
    if offset =? 5 then Point3 (-22.87) 0 6.01 else
    if offset =? 6 then Point3 (-23.5) 0 6.64 else
    if offset =? 7 then Point3 (-24.25) 0 7.39 else
    if offset =? 8 then Point3 (-25) 0 8.14 else
    if offset =? 9 then Point3 (-26) 0 9.14 else
    if offset =? 10 then Point3 (-27) 0 10.14 else
    Point3 0 0 0
  else if isCCD_KHO_S_135 aL || isCCD_KHO_A_135 aL then
    if offset =? 0 then Point3 (-20) 0 10.21 else
    if offset =? 1 then Point3 (-20.75) 0 10.96 else
    if offset =? 2 then Point3 (-21.5) 0 11.71 else
    if offset =? 3 then Point3 (-22.25) 0 12.46 else
    if offset =? 4 then Point3 (-22.87) 0 13.08 else
    if offset =? 5 then Point3 (-23.5) 0 13.71 else
    if offset =? 6 then Point3 (-24.25) 0 14.46 else
    if offset =? 7 then Point3 (-25) 0 15.21 else
    if offset =? 8 then Point3 (-26) 0 16.21 else
    if offset =? 9 then Point3 (-27) 0 17.21 else
    Point3 0 0 0
  else if isCCD_KLA_125 aL then
    if offset =? 0 then Point3 (-19.99) 0 1.46 else
    if offset =? 1 then Point3 (-20.74) 0 1.99 else
    if offset =? 2 then Point3 (-21.5) 0 2.51 else
    if offset =? 3 then Point3 (-22.26) 0 3 else
    if offset =? 4 then Point3 (-22.88) 0 3.47 else
    if offset =? 5 then Point3 (-23.49) 0 3.92 else
    if offset =? 6 then Point3 (-24.21) 0 4.47 else
    if offset =? 7 then Point3 (-24.96) 0 5.01 else
    if offset =? 8 then Point3 (-25.85) 0 5.74 else
    if offset =? 9 then Point3 (-26.78) 0 6.53 else
    Point3 0 0 0
  else if isCCD_STD125_S aL then
    if offset =? 0 then Point3 (-19) 0 (-4.11) else
    if offset =? 1 then Point3 (-19.5) 0 (-3.76) else
    if offset =? 2 then Point3 (-20) 0 (-3.41) else
    if offset =? 3 then Point3 (-20.75) 0 (-2.89) else
    Point3 0 0 0
  else if isCCD_STD125_A aL then
    if offset =? 0 then Point3 (-19) 0 (-4.11) else
    if offset =? 1 then Point3 (-19.5) 0 (-3.76) else
    if offset =? 2 then Point3 (-20) 0 (-3.41) else
    if offset =? 3 then Point3 (-20.75) 0 (-2.89) else
    if offset =? 4 then Point3 (-21.5) 0 (-2.36) else
    if offset =? 5 then Point3 (-22.25) 0 (-1.84) else
    if offset =? 6 then Point3 (-22.87) 0 (-1.4) else
    if offset =? 7 then Point3 (-23.5) 0 (-0.96) else
    Point3 0 0 0
  else if isCCD_SN_S aL then
    if offset =? 0 then Point3 (-19) 0 1.43 else
    if offset =? 1 then Point3 (-19.5) 0 1.93 else
    if offset =? 2 then Point3 (-20) 0 2.43 else
    if offset =? 3 then Point3 (-20.75) 0 3.18 else
    Point3 0 0 0
  else if isCCD_SN_A aL then
    if offset =? 0 then Point3 (-19) 0 1.43 else
    if offset =? 1 then Point3 (-19.5) 0 1.93 else
    if offset =? 2 then Point3 (-20) 0 2.43 else
    if offset =? 3 then Point3 (-20.75) 0 3.18 else
    if offset =? 4 then Point3 (-21.5) 0 3.93 else
    if offset =? 5 then Point3 (-22.25) 0 4.68 else
    if offset =? 6 then Point3 (-22.87) 0 5.3 else
    if offset =? 7 then Point3 (-23.5) 0 5.93 else
    Point3 0 0 0
  else Point3 0 0 0.

Definition getTPR_01 (aL : SboShape3Label) : SboPoint3 :=
  let offset := getOffset aL in
  if isCCD_KS_STD135 aL || isCCD_KA_STD135 aL then
    if offset =? 0 then Point3 (-38.29) 0 38.29 else
    if offset =? 1 then Point3 (-38.79) 0 38.79 else
    if offset =? 2 then Point3 (-39.54) 0 39.54 else
    if offset =? 3 then Point3 (-40.29) 0 40.29 else
    if offset =? 4 then Point3 (-41.03) 0 41.03 else
    if offset =? 5 then Point3 (-41.67) 0 41.67 else
    if offset =? 6 then Point3 (-42.29) 0 42.29 else
    if offset =? 7 then Point3 (-43.04) 0 43.04 else
    if offset =? 8 then Point3 (-43.79) 0 43.79 else
    if offset =? 9 then Point3 (-44.78) 0 44.78 else
    if offset =? 10 then Point3 (-45.79) 0 45.79 else
    Point3 0 0 0
  else if isCCD_KHO_S_135 aL || isCCD_KHO_A_135 aL then
    if offset =? 0 then Point3 (-45.65) 0 45.65 else
    if offset =? 1 then Point3 (-46.4) 0 46.4 else
    if offset =? 2 then Point3 (-47.15) 0 47.15 else
    if offset =? 3 then Point3 (-47.9) 0 47.9 else
    if offset =? 4 then Point3 (-48.53) 0 48.53 else
    if offset =? 5 then Point3 (-49.15) 0 49.15 else
    if offset =? 6 then Point3 (-49.9) 0 49.9 else
    if offset =? 7 then Point3 (-50.65) 0 50.65 else
    if offset =? 8 then Point3 (-51.83) 0 51.83 else
    if offset =? 9 then Point3 (-52.86) 0 52.86 else
    Point3 0 0 0
  else if isCCD_KLA_125 aL then
    if offset =? 0 then Point3 (-45.59) 0 31.92 else
    if offset =? 1 then Point3 (-46.35) 0 32.45 else
    if offset =? 2 then Point3 (-47.09) 0 32.98 else
    if offset =? 3 then Point3 (-47.83) 0 33.49 else
    if offset =? 4 then Point3 (-48.46) 0 33.93 else
    if offset =? 5 then Point3 (-49.08) 0 34.37 else
    if offset =? 6 then Point3 (-49.83) 0 34.89 else
    if offset =? 7 then Point3 (-50.58) 0 35.41 else
    if offset =? 8 then Point3 (-51.78) 0 36.26 else
    if offset =? 9 then Point3 (-52.79) 0 36.97 else
    Point3 0 0 0
  else if isCCD_STD125_S aL then
    if offset =? 0 then Point3 (-37.87) 0 26.52 else
    if offset =? 1 then Point3 (-38.37) 0 26.87 else
    if offset =? 2 then Point3 (-38.87) 0 27.22 else
    if offset =? 3 then Point3 (-39.62) 0 27.74 else
    Point3 0 0 0
  else if isCCD_STD125_A aL then
    if offset =? 0 then Point3 (-37.87) 0 26.52 else
    if offset =? 1 then Point3 (-38.37) 0 26.87 else
    if offset =? 2 then Point3 (-38.87) 0 27.22 else
    if offset =? 3 then Point3 (-39.62) 0 27.74 else
    if offset =? 4 then Point3 (-40.37) 0 28.27 else
    if offset =? 5 then Point3 (-41.12) 0 28.79 else
    if offset =? 6 then Point3 (-41.74) 0 29.23 else
    if offset =? 7 then Point3 (-42.37) 0 29.67 else
    Point3 0 0 0
  else if isCCD_SN_S aL then
    if offset =? 0 then Point3 (-32.49) 0 32.49 else
    if offset =? 1 then Point3 (-32.99) 0 32.99 else
    if offset =? 2 then Point3 (-33.49) 0 33.49 else
    if offset =? 3 then Point3 (-34.24) 0 34.24 else
    Point3 0 0 0
  else if isCCD_SN_A aL then
    if offset =? 0 then Point3 (-32.49) 0 32.49 else
    if offset =? 1 then Point3 (-32.99) 0 32.99 else
    if offset =? 2 then Point3 (-33.49) 0 33.49 else
    if offset =? 3 then Point3 (-34.24) 0 34.24 else
    if offset =? 4 then Point3 (-34.99) 0 34.99 else
    if offset =? 5 then Point3 (-35.74) 0 35.74 else
    if offset =? 6 then Point3 (-36.36) 0 36.36 else
    if offset =? 7 then Point3 (-36.99) 0 36.99 else
    Point3 0 0 0
  else Point3 0 0 0.

(** *** The [CCD_CORAIL] part: range table and similar-label search *)

Definition _rKS_STD135 := mkRT 10 20 (s3 S3UID.RANGE_CCD_KS_STD135) "135 STD".
Definition _rKA_STD135 := mkRT 21 31 (s3 S3UID.RANGE_CCD_KA_STD135) "135 STD COLLAR".
Definition _rKHO_S_135 := mkRT 32 41 (s3 S3UID.RANGE_CCD_KHO_S_135) "135 KHO".
Definition _rKHO_A_135 := mkRT 0 9 (s3 S3UID.RANGE_CCD_KHO_A_135) "135 KHO COLLAR".
Definition _rKLA_125 := mkRT 42 51 (s3 S3UID.RANGE_CCD_KLA_125) "125 KLA".
Definition _rSTD125_S := mkRT 52 55 (s3 S3UID.RANGE_CCD_STD125_S) "125 STD".
Definition _rSTD125_A := mkRT 56 63 (s3 S3UID.RANGE_CCD_STD125_A) "125 STD COLLAR".
Definition _rSN_S := mkRT 64 67 (s3 S3UID.RANGE_CCD_SN_S) "135 SN".
Definition _rSN_A := mkRT 68 75 (s3 S3UID.RANGE_CCD_SN_A) "135 SN COLLAR".

Definition ranges : list RT :=
  [_rKS_STD135; _rKA_STD135; _rKHO_S_135; _rKHO_A_135; _rKLA_125;
   _rSTD125_S; _rSTD125_A; _rSN_S; _rSN_A].

(** [CCD_CORAIL::similarLabel].  Both ranges are looked up with
    [std::find_if] and the iterators are dereferenced unchecked; a lookup
    that fails (undefined behaviour in the source) is [None] here. *)
Definition similarLabel (aL aNextCCDRange : SboShape3Label) : option SboShape3Label :=
  match find_range ranges (getCCDRange aL), find_range ranges aNextCCDRange with
  | Some itCurrR, Some itNextR =>
      let lower := s3 lowerS3UID in
      let offset := getOffset aL in
      let offset := getSimilarOffset offset (label itCurrR) (label itNextR) in
      Some (next lower (offset + startIdx itNextR))
  | _, _ => None
  end.

(** *** Notions used to state properties of the search *)

(** The families with their range markers, in the order in which
    [CCD_CORAIL::range] tests them. *)
Definition families : list ((SboShape3Label -> bool) * SboShape3Label) :=
  [(isCCD_KS_STD135, s3 S3UID.RANGE_CCD_KS_STD135);
   (isCCD_KA_STD135, s3 S3UID.RANGE_CCD_KA_STD135);
   (isCCD_KHO_S_135, s3 S3UID.RANGE_CCD_KHO_S_135);
   (isCCD_KHO_A_135, s3 S3UID.RANGE_CCD_KHO_A_135);
   (isCCD_KLA_125, s3 S3UID.RANGE_CCD_KLA_125);
   (isCCD_STD125_S, s3 S3UID.RANGE_CCD_STD125_S);
   (isCCD_STD125_A, s3 S3UID.RANGE_CCD_STD125_A);
   (isCCD_SN_S, s3 S3UID.RANGE_CCD_SN_S);
   (isCCD_SN_A, s3 S3UID.RANGE_CCD_SN_A)].

(** The three groups of markers that [getSimilarOffset] tells apart. *)
Definition isRange135 (r : SboShape3Label) : bool :=
  (r =? s3 S3UID.RANGE_CCD_KS_STD135) || (r =? s3 S3UID.RANGE_CCD_KA_STD135).
Definition isRangeKHO (r : SboShape3Label) : bool :=
  (r =? s3 S3UID.RANGE_CCD_KHO_S_135) || (r =? s3 S3UID.RANGE_CCD_KHO_A_135)
  || (r =? s3 S3UID.RANGE_CCD_KLA_125).
Definition isRangeShort (r : SboShape3Label) : bool :=
  (r =? s3 S3UID.RANGE_CCD_STD125_S) || (r =? s3 S3UID.RANGE_CCD_STD125_A)
  || (r =? s3 S3UID.RANGE_CCD_SN_S) || (r =? s3 S3UID.RANGE_CCD_SN_A).

(** The amount the rule of [getSimilarOffset] for a pair of markers adds
    to the offset before it clamps; 0 for a pair without a rule. *)
Definition similarShift (aSourceR aTargetR : SboShape3Label) : Z :=
  if isRange135 aSourceR then
    if isRangeKHO aTargetR then -1 else if isRangeShort aTargetR then 1 else 0
  else if isRangeKHO aSourceR then
    if isRange135 aTargetR then 1 else if isRangeShort aTargetR then 2 else 0
  else if isRangeShort aSourceR then
    if isRange135 aTargetR then -1 else if isRangeKHO aTargetR then -2 else 0
  else 0.

(** Last offset of the family of a marker, from the [ranges()] table. *)
Definition lastOffset (aR : SboShape3Label) : Z :=
  match find_range ranges aR with
  | Some rt => endIdx rt - startIdx rt
  | None => 0
  end.

(** First label of the family of a marker. *)
Definition firstLabel (aR : SboShape3Label) : SboShape3Label :=
  match find_range ranges aR with
  | Some rt => next (s3 lowerS3UID) (startIdx rt)
  | None => nullLabel
  end.

(** The offset the rule aims at, before clamping. *)
Definition adjustedOffset (aL aTargetR : SboShape3Label) : Z :=
  getOffset aL + similarShift (getCCDRange aL) aTargetR.

Definition getShaftAngle (aL : SboShape3Label) : Q :=
  if isCCD_KLA_125 aL then 55%Q else 45%Q.

Definition inRange (aL : SboShape3Label) : bool :=
  SboML.in_closed_range aL (s3 lowerS3UID) (s3 upperS3UID).

(** *** Transforms *)

Variable unit3 : SboVector3 -> SboVector3.

Definition headToStemMatrix (aHeadLabel aStemLabel : SboShape3Label) : SboMatrix3 :=
  let neckO := getRES_01 aStemLabel in
  let headO := getTPR_01 aStemLabel in
  let neckAxis := unit3 (psub headO neckO) in
  let l : Q :=
    if aHeadLabel =? s3 S3UID.HEAD_M4 then (-3.5)%Q
    else if aHeadLabel =? s3 S3UID.HEAD_P4 then 3.5%Q
    else if aHeadLabel =? s3 S3UID.HEAD_P8 then 7.0%Q
    else 0%Q in
  transMat3 (padd headO (pscale neckAxis l)).

Definition cutPlaneBbox (aStemLabel : SboShape3Label) : SboBbox3 :=
  let pmin := Point3 (-25.0) (-25.0) (-25.0) in
  let pmax := Point3 25.0 25.0 25.0 in
  let neckO := Point3 0 0 0 in
  let m := transMat3 neckO in
  makeBbox3 (applyMat3 m pmin) (applyMat3 m pmax).

Definition stemToStemMatrix (aOriginFemIC aTargetFemIC : SboFemImplantConfig) : SboMatrix3 :=
  let neck2 := getRES_02 (stemLabel aOriginFemIC) in
  let neckT2 := getRES_02 (stemLabel aTargetFemIC) in
  transMat3 (psub neck2 neckT2).

(** *** Configuration facade *)

Definition fillAndValidAssembly (aFemIC : SboFemImplantConfig) : SboFemImplantConfig :=
  let myFemIC := setValidAssembly false aFemIC in
  if negb (SboAnatomLocation.eqb (requestedSide myFemIC) SboAnatomLocation.None) then
    let bs := isStem (stemLabel myFemIC) in
    let bh := isHead (headLabel myFemIC) in
    let bn := negb (isSet (neckLabel myFemIC)) in
    let myFemIC :=
      if negb (isSet (cutPlaneLabel myFemIC))
      then setCutPlaneLabel (s3 S3UID.CUTPLANE) myFemIC else myFemIC in
    let b := bs && bh && bn in
    if b then
      let myFemIC := setStemProductName ProductName myFemIC in
      let myFemIC := setDistalShaftProductName EmptyString myFemIC in
      let myFemIC := setHeadProductName ProductName myFemIC in
      let myFemIC := setNeckProductName EmptyString myFemIC in
      let myFemIC := setImplantSide SboAnatomLocation.None myFemIC in
      setValidAssembly true myFemIC
    else myFemIC
  else myFemIC.

(** [defaultFemIC]; the part name is not read.  The three-argument
    constructor of the configuration is taken to leave the neck label
    unset. *)
Definition defaultFemIC (aRequestedSide : SboAnatomLocation.t) : SboFemImplantConfig :=
  let myFemIC :=
    mkFemIC aRequestedSide SboAnatomLocation.None (s3 defaultS3StemRUID)
            (s3 defaultS3HeadUID) nullLabel (s3 S3UID.CUTPLANE)
            ProductName ProductName ProductName EmptyString false in
  fillAndValidAssembly myFemIC.

Definition nextPrev (aFemIC : SboFemImplantConfig) (aNext : bool) : SboFemImplantConfig :=
  let fc := aFemIC in
  setStemLabel (nextPrevStem (stemLabel fc) aNext) fc.

End Scheme.

End Corail.

(** * The Amistem scheme (amistem_scheme.h) *)

Module Amistem.

Module S3UID.
Inductive t : Set :=
  | STEM_STD_0 | STEM_STD_1 | STEM_STD_2 | STEM_STD_3 | STEM_STD_4
  | STEM_STD_5 | STEM_STD_6 | STEM_STD_7 | STEM_STD_8 | STEM_STD_9
  | STEM_STD_10 | STEM_LAT_0 | STEM_LAT_1 | STEM_LAT_2 | STEM_LAT_3
  | STEM_LAT_4 | STEM_LAT_5 | STEM_LAT_6 | STEM_LAT_7 | STEM_LAT_8
  | STEM_STD_SN_0 | STEM_STD_SN_1 | STEM_STD_SN_2 | STEM_STD_SN_3
  | STEM_STD_SN_4 | STEM_STD_SN_5 | STEM_STD_SN_6 | STEM_STD_SN_7
  | STEM_STD_SN_8 | STEM_STD_SN_9 | STEM_STD_SN_10 | STEM_LAT_SN_0
  | STEM_LAT_SN_1 | STEM_LAT_SN_2 | STEM_LAT_SN_3 | STEM_LAT_SN_4
  | STEM_LAT_SN_5 | STEM_LAT_SN_6 | STEM_LAT_SN_7 | STEM_LAT_SN_8
  | CUTPLANE | HEAD_M4 | HEAD_P0 | HEAD_P4 | HEAD_P8 | HEAD_P12
  | RANGE_CCD_STD | RANGE_CCD_LAT | RANGE_CCD_STD_SN | RANGE_CCD_LAT_SN.

(** Position of an enumerator after the first one. *)
Definition index (e : t) : Z :=
  match e with
  | STEM_STD_0 => 0 | STEM_STD_1 => 1 | STEM_STD_2 => 2 | STEM_STD_3 => 3
  | STEM_STD_4 => 4 | STEM_STD_5 => 5 | STEM_STD_6 => 6 | STEM_STD_7 => 7
  | STEM_STD_8 => 8 | STEM_STD_9 => 9 | STEM_STD_10 => 10
  | STEM_LAT_0 => 11 | STEM_LAT_1 => 12 | STEM_LAT_2 => 13
  | STEM_LAT_3 => 14 | STEM_LAT_4 => 15 | STEM_LAT_5 => 16
  | STEM_LAT_6 => 17 | STEM_LAT_7 => 18 | STEM_LAT_8 => 19
  | STEM_STD_SN_0 => 20 | STEM_STD_SN_1 => 21 | STEM_STD_SN_2 => 22
  | STEM_STD_SN_3 => 23 | STEM_STD_SN_4 => 24 | STEM_STD_SN_5 => 25
  | STEM_STD_SN_6 => 26 | STEM_STD_SN_7 => 27 | STEM_STD_SN_8 => 28
  | STEM_STD_SN_9 => 29 | STEM_STD_SN_10 => 30 | STEM_LAT_SN_0 => 31
  | STEM_LAT_SN_1 => 32 | STEM_LAT_SN_2 => 33 | STEM_LAT_SN_3 => 34
  | STEM_LAT_SN_4 => 35 | STEM_LAT_SN_5 => 36 | STEM_LAT_SN_6 => 37
  | STEM_LAT_SN_7 => 38 | STEM_LAT_SN_8 => 39 | CUTPLANE => 40
  | HEAD_M4 => 41 | HEAD_P0 => 42 | HEAD_P4 => 43 | HEAD_P8 => 44
  | HEAD_P12 => 45 | RANGE_CCD_STD => 46 | RANGE_CCD_LAT => 47
  | RANGE_CCD_STD_SN => 48 | RANGE_CCD_LAT_SN => 49
  end.
End S3UID.

(** The local [struct R] of [getRangeStats]. *)
Record R : Set := mkR {
  r0 : Z;
  r1 : Z;
  l : Z;
  s : Z;
  label0 : SboShape3Label
}.

Section Scheme.

Variable info : ProductInfo.

Definition ProductRangeStartsAt : Z := productRangeStartsAt info.
Definition ProductName : string := productName info.

(** [STEM_STD_0 = ProductRangeStartsAt + 50L]. *)
Definition utype (e : S3UID.t) : SboShape3UID :=
  ProductRangeStartsAt + 50 + S3UID.index e.

Definition lowerS3UID := S3UID.STEM_STD_0.
Definition upperS3UID := S3UID.RANGE_CCD_LAT_SN.
Definition defaultS3StemRUID := S3UID.STEM_STD_5.
Definition defaultS3HeadUID := S3UID.HEAD_P0.

Definition s3 (e : S3UID.t) : SboShape3Label := utype e.

Definition isCCD_STD (l : SboShape3Label) : bool :=
  SboML.in_closed_range l (s3 S3UID.STEM_STD_0) (s3 S3UID.STEM_STD_10).
Definition isCCD_LAT (l : SboShape3Label) : bool :=
  SboML.in_closed_range l (s3 S3UID.STEM_LAT_0) (s3 S3UID.STEM_LAT_8).
Definition isCCD_STD_SN (l : SboShape3Label) : bool :=
  SboML.in_closed_range l (s3 S3UID.STEM_STD_SN_0) (s3 S3UID.STEM_STD_SN_10).
Definition isCCD_LAT_SN (l : SboShape3Label) : bool :=
  SboML.in_closed_range l (s3 S3UID.STEM_LAT_SN_0) (s3 S3UID.STEM_LAT_SN_8).

Definition isSTD (l : SboShape3Label) : bool := isCCD_STD l || isCCD_STD_SN l.
Definition isLAT (l : SboShape3Label) : bool := isCCD_LAT l || isCCD_LAT_SN l.

Definition isStem (l : SboShape3Label) : bool :=
  isCCD_STD l || isCCD_LAT l || isCCD_STD_SN l || isCCD_LAT_SN l.

Definition isHead (l : SboShape3Label) : bool :=
  SboML.in_closed_range l (s3 S3UID.HEAD_M4) (s3 S3UID.HEAD_P12).

Definition isRange (l : SboShape3Label) : bool :=
  SboML.in_closed_range l (s3 S3UID.RANGE_CCD_STD) (s3 S3UID.RANGE_CCD_LAT_SN).

Definition nextPrevStem (aL : SboShape3Label) (aNext : bool) : SboShape3Label :=
  let nL := next aL (stepOf aNext) in
  if isCCD_STD_SN aL then (if isCCD_STD_SN nL then nL else aL) else
  if isCCD_LAT_SN aL then (if isCCD_LAT_SN nL then nL else aL) else
  if isCCD_LAT aL then (if isCCD_LAT nL then nL else aL) else
  if isCCD_STD nL then nL else aL.

Definition getCCDRange (aL : SboShape3Label) : SboShape3Label :=
  if isCCD_STD aL then s3 S3UID.RANGE_CCD_STD else
  if isCCD_LAT aL then s3 S3UID.RANGE_CCD_LAT else
  if isCCD_STD_SN aL then s3 S3UID.RANGE_CCD_STD_SN else
  if isCCD_LAT_SN aL then s3 S3UID.RANGE_CCD_LAT_SN else
  nullLabel.

Definition getRangeStats (aL : SboShape3Label) : R :=
  if isStem aL && isCCD_STD aL then mkR 0 10 0 10 (s3 S3UID.STEM_STD_0) else
  if isStem aL && isCCD_LAT aL then mkR 0 8 11 19 (s3 S3UID.STEM_LAT_0) else
  if isStem aL && isCCD_STD_SN aL then mkR 0 10 20 30 (s3 S3UID.STEM_STD_SN_0) else
  if isStem aL && isCCD_LAT_SN aL then mkR 0 8 31 39 (s3 S3UID.STEM_LAT_SN_0) else
  if aL =? s3 S3UID.RANGE_CCD_STD then mkR 0 10 0 10 (s3 S3UID.STEM_STD_0) else
  if aL =? s3 S3UID.RANGE_CCD_LAT then mkR 0 8 11 19 (s3 S3UID.STEM_LAT_0) else
  if aL =? s3 S3UID.RANGE_CCD_STD_SN then mkR 0 10 20 30 (s3 S3UID.STEM_STD_SN_0) else
  if aL =? s3 S3UID.RANGE_CCD_LAT_SN then mkR 0 8 31 39 (s3 S3UID.STEM_LAT_SN_0) else
  mkR 0 0 0 0 nullLabel.

Definition getStemSize (aL : SboShape3Label) : Z :=
  if aL =? s3 S3UID.STEM_STD_0 then 0 else
  if aL =? s3 S3UID.STEM_STD_1 then 1 else
  if aL =? s3 S3UID.STEM_STD_2 then 2 else
  if aL =? s3 S3UID.STEM_STD_3 then 3 else
  if aL =? s3 S3UID.STEM_STD_4 then 4 else
  if aL =? s3 S3UID.STEM_STD_5 then 5 else
  if aL =? s3 S3UID.STEM_STD_6 then 6 else
  if aL =? s3 S3UID.STEM_STD_7 then 7 else
  if aL =? s3 S3UID.STEM_STD_8 then 8 else
  if aL =? s3 S3UID.STEM_STD_9 then 9 else
  if aL =? s3 S3UID.STEM_STD_10 then 10 else
  if aL =? s3 S3UID.STEM_LAT_0 then 0 else
  if aL =? s3 S3UID.STEM_LAT_1 then 1 else
  if aL =? s3 S3UID.STEM_LAT_2 then 2 else
  if aL =? s3 S3UID.STEM_LAT_3 then 3 else
  if aL =? s3 S3UID.STEM_LAT_4 then 4 else
  if aL =? s3 S3UID.STEM_LAT_5 then 5 else
  if aL =? s3 S3UID.STEM_LAT_6 then 6 else
  if aL =? s3 S3UID.STEM_LAT_7 then 7 else
  if aL =? s3 S3UID.STEM_LAT_8 then 8 else
  if aL =? s3 S3UID.STEM_STD_SN_0 then 0 else
  if aL =? s3 S3UID.STEM_STD_SN_1 then 1 else
  if aL =? s3 S3UID.STEM_STD_SN_2 then 2 else
  if aL =? s3 S3UID.STEM_STD_SN_3 then 3 else
  if aL =? s3 S3UID.STEM_STD_SN_4 then 4 else
  if aL =? s3 S3UID.STEM_STD_SN_5 then 5 else
  if aL =? s3 S3UID.STEM_STD_SN_6 then 6 else
  if aL =? s3 S3UID.STEM_STD_SN_7 then 7 else
  if aL =? s3 S3UID.STEM_STD_SN_8 then 8 else
  if aL =? s3 S3UID.STEM_STD_SN_9 then 9 else
  if aL =? s3 S3UID.STEM_STD_SN_10 then 10 else
  if aL =? s3 S3UID.STEM_LAT_SN_0 then 0 else
  if aL =? s3 S3UID.STEM_LAT_SN_1 then 1 else
  if aL =? s3 S3UID.STEM_LAT_SN_2 then 2 else
  if aL =? s3 S3UID.STEM_LAT_SN_3 then 3 else
  if aL =? s3 S3UID.STEM_LAT_SN_4 then 4 else
  if aL =? s3 S3UID.STEM_LAT_SN_5 then 5 else
  if aL =? s3 S3UID.STEM_LAT_SN_6 then 6 else
  if aL =? s3 S3UID.STEM_LAT_SN_7 then 7 else
  if aL =? s3 S3UID.STEM_LAT_SN_8 then 8 else
  0.

(** One [if (aTargetR == r) tsz = v;] statement. *)
Definition assignIf (aTargetR r : SboShape3Label) (v tsz : Z) : Z :=
  if aTargetR =? r then v else tsz.

(** [getSimilarLabel].  The two [return aLabel] statements leave the
    function early; every other path ends in [T.label0.next(tsz)]. *)
Definition getSimilarLabel (aLabel aTargetR : SboShape3Label) : SboShape3Label :=
  let sourceR := getCCDRange aLabel in
  let sz := getStemSize aLabel in
  let T := getRangeStats aTargetR in
  let tsz := sz in
  if sourceR =? s3 S3UID.RANGE_CCD_STD then
    if aTargetR =? s3 S3UID.RANGE_CCD_STD_SN then
      let tsz := SboML.clamp sz (r0 T) (r1 T) in
      let tsz := assignIf aTargetR (s3 S3UID.RANGE_CCD_LAT) (SboML.clamp (sz - 1) (r0 T) (r1 T)) tsz in
      let tsz := assignIf aTargetR (s3 S3UID.RANGE_CCD_LAT_SN) (SboML.clamp (sz - 1) (r0 T) (r1 T)) tsz in
      next (label0 T) tsz
    else if (sz =? 0) || (sz =? 10) then aLabel
    else
      let tsz := assignIf aTargetR (s3 S3UID.RANGE_CCD_LAT) (SboML.clamp (sz - 1) (r0 T) (r1 T)) tsz in
      let tsz := assignIf aTargetR (s3 S3UID.RANGE_CCD_LAT_SN) (SboML.clamp (sz - 1) (r0 T) (r1 T)) tsz in
      next (label0 T) tsz
  else if sourceR =? s3 S3UID.RANGE_CCD_LAT then
    let tsz := assignIf aTargetR (s3 S3UID.RANGE_CCD_STD) (SboML.clamp (sz + 1) (r0 T) (r1 T)) tsz in
    let tsz := assignIf aTargetR (s3 S3UID.RANGE_CCD_STD_SN) (SboML.clamp (sz + 1) (r0 T) (r1 T)) tsz in
    next (label0 T) tsz
  else if sourceR =? s3 S3UID.RANGE_CCD_STD_SN then
    if aTargetR =? s3 S3UID.RANGE_CCD_STD then
      let tsz := SboML.clamp sz (r0 T) (r1 T) in
      let tsz := assignIf aTargetR (s3 S3UID.RANGE_CCD_LAT) (SboML.clamp (sz - 1) (r0 T) (r1 T)) tsz in
      let tsz := assignIf aTargetR (s3 S3UID.RANGE_CCD_LAT_SN) (SboML.clamp (sz - 1) (r0 T) (r1 T)) tsz in
      next (label0 T) tsz
    else if (sz =? 0) || (sz =? 10) then aLabel
    else
      let tsz := assignIf aTargetR (s3 S3UID.RANGE_CCD_LAT) (SboML.clamp (sz - 1) (r0 T) (r1 T)) tsz in
      let tsz := assignIf aTargetR (s3 S3UID.RANGE_CCD_LAT_SN) (SboML.clamp (sz - 1) (r0 T) (r1 T)) tsz in
      next (label0 T) tsz
  else if sourceR =? s3 S3UID.RANGE_CCD_LAT_SN then
    let tsz := assignIf aTargetR (s3 S3UID.RANGE_CCD_STD) (SboML.clamp (sz + 1) (r0 T) (r1 T)) tsz in
    let tsz := assignIf aTargetR (s3 S3UID.RANGE_CCD_STD_SN) (SboML.clamp (sz + 1) (r0 T) (r1 T)) tsz in
    next (label0 T) tsz
  else next (label0 T) tsz.

Definition getRES_01 (aLabel : SboShape3Label) : SboPoint3 :=
  let sourceR := getCCDRange aLabel in
  let sz := getStemSize aLabel in
  let yz : Q * Q :=
    if sourceR =? s3 S3UID.RANGE_CCD_STD then
      if sz =? 0 then (14.52, 14.52)%Q else
      if sz =? 1 then (14.78, 14.78)%Q else
      if sz =? 2 then (15.49, 15.49)%Q else
      if sz =? 3 then (16.19, 16.19)%Q else
      if sz =? 4 then (16.90, 16.90)%Q else
      if sz =? 5 then (17.54, 17.54)%Q else
      if sz =? 6 then (18.17, 18.17)%Q else
      if sz =? 7 then (18.80, 18.80)%Q else
      if sz =? 8 then (19.37, 19.37)%Q else
      if sz =? 9 then (20.07, 20.07)%Q else
      if sz =? 10 then (20.78, 20.78)%Q else
      (0, 0)%Q
    else if sourceR =? s3 S3UID.RANGE_CCD_LAT then
      if sz =? 0 then (13.99, 10.54)%Q else
      if sz =? 1 then (14.70, 11.08)%Q else
      if sz =? 2 then (15.40, 11.61)%Q else
      if sz =? 3 then (16.35, 12.32)%Q else
      if sz =? 4 then (16.76, 12.63)%Q else
      if sz =? 5 then (17.38, 13.1)%Q else
      if sz =? 6 then (17.88, 13.55)%Q else
      if sz =? 7 then (18.59, 14.01)%Q else
      if sz =? 8 then (19.2, 14.47)%Q else
      (0, 0)%Q
    else if sourceR =? s3 S3UID.RANGE_CCD_STD_SN then
      if sz =? 0 then (14.51, 14.51)%Q else
      if sz =? 1 then (14.77, 14.77)%Q else
      if sz =? 2 then (15.48, 15.48)%Q else
      if sz =? 3 then (16.19, 16.19)%Q else
      if sz =? 4 then (16.9, 16.9)%Q else
      if sz =? 5 then (17.53, 17.53)%Q else
      if sz =? 6 then (18.17, 18.17)%Q else
      if sz =? 7 then (18.8, 18.8)%Q else
      if sz =? 8 then (19.36, 19.36)%Q else
      if sz =? 9 then (20.07, 20.07)%Q else
      if sz =? 10 then (20.78, 20.78)%Q else
      (0, 0)%Q
    else if sourceR =? s3 S3UID.RANGE_CCD_LAT_SN then
      if sz =? 0 then (13.99, 10.54)%Q else
      if sz =? 1 then (14.7, 11.08)%Q else
      if sz =? 2 then (15.4, 11.61)%Q else
      if sz =? 3 then (16.35, 12.32)%Q else
      if sz =? 4 then (16.76, 12.63)%Q else
      if sz =? 5 then (17.38, 13.1)%Q else
      if sz =? 6 then (17.98, 13.55)%Q else
      if sz =? 7 then (18.59, 14.01)%Q else
      if sz =? 8 then (19.2, 14.47)%Q else
      (0, 0)%Q
    else (0, 0)%Q in
  Point3 0 (fst yz) (snd yz).

Definition getRES_02 (aLabel : SboShape3Label) : SboPoint3 := Point3 0 0 0.

Definition getTPR_01 (aLabel : SboShape3Label) : SboPoint3 :=
  let sourceR := getCCDRange aLabel in
  let sz := getStemSize aLabel in
  let yz : Q * Q :=
    if sourceR =? s3 S3UID.RANGE_CCD_STD then
      if sz =? 0 then (41.50, 41.50)%Q else
      if sz =? 1 then (41.95, 41.95)%Q else
      if sz =? 2 then (43.19, 43.19)%Q else
      if sz =? 3 then (44.44, 44.44)%Q else
      if sz =? 4 then (45.70, 45.70)%Q else
      if sz =? 5 then (46.84, 46.84)%Q else
      if sz =? 6 then (48.00, 48.00)%Q else
      if sz =? 7 then (49.18, 49.18)%Q else
      if sz =? 8 then (50.25, 50.25)%Q else
      if sz =? 9 then (51.48, 51.48)%Q else
      if sz =? 10 then (52.87, 52.87)%Q else
      (0, 0)%Q
    else if sourceR =? s3 S3UID.RANGE_CCD_LAT then
      if sz =? 0 then (43.73, 32.96)%Q else
      if sz =? 1 then (45.13, 34.01)%Q else
      if sz =? 2 then (46.54, 35.07)%Q else
      if sz =? 3 then (47.94, 36.13)%Q else
      if sz =? 4 then (49.3, 37.15)%Q else
      if sz =? 5 then (50.61, 38.14)%Q else
      if sz =? 6 then (51.91, 39.12)%Q else
      if sz =? 7 then (53.26, 40.13)%Q else
      if sz =? 8 then (54.41, 41.00)%Q else
      (0, 0)%Q
    else if sourceR =? s3 S3UID.RANGE_CCD_STD_SN then
      if sz =? 0 then (37.96, 37.96)%Q else
      if sz =? 1 then (38.42, 38.42)%Q else
      if sz =? 2 then (39.65, 39.65)%Q else
      if sz =? 3 then (40.91, 40.91)%Q else
      if sz =? 4 then (42.16, 42.16)%Q else
      if sz =? 5 then (43.30, 43.30)%Q else
      if sz =? 6 then (44.46, 44.46)%Q else
      if sz =? 7 then (45.64, 45.64)%Q else
      if sz =? 8 then (46.72, 46.72)%Q else
      if sz =? 9 then (47.94, 47.94)%Q else
      if sz =? 10 then (49.33, 49.33)%Q else
      (0, 0)%Q
    else if sourceR =? s3 S3UID.RANGE_CCD_LAT_SN then
      if sz =? 0 then (43.73, 32.96)%Q else
      if sz =? 1 then (45.13, 34.01)%Q else
      if sz =? 2 then (45.64, 35.07)%Q else
      if sz =? 3 then (47.94, 36.13)%Q else
      if sz =? 4 then (49.3, 37.15)%Q else
      if sz =? 5 then (50.61, 38.14)%Q else
      if sz =? 6 then (51.91, 39.12)%Q else
      if sz =? 7 then (53.26, 40.13)%Q else
      if sz =? 8 then (54.41, 41.00)%Q else
      (0, 0)%Q
    else (0, 0)%Q in
  Point3 0 (fst yz) (snd yz).

Definition getShift (aSourceL aTargetL : SboShape3Label) : SboMatrix3 :=
  let neckOS := getRES_01 aSourceL in
  let neckOT := getRES_01 aTargetL in
  let sz := getStemSize aSourceL in
  if isSTD aSourceL && isSTD aTargetL then
    transMat3 (psub neckOS neckOT)
  else
  if isCCD_LAT aSourceL && isCCD_LAT aTargetL then
    transMat3 (psub neckOS neckOT)
  else
  if isCCD_LAT_SN aSourceL && isCCD_LAT_SN aTargetL then
    transMat3 (psub neckOS neckOT)
  else
  if isCCD_STD aSourceL && isCCD_LAT aTargetL then
    let t : Q :=
      if sz =? 1 then 5.89%Q else
      if sz =? 2 then 6.03%Q else
      if sz =? 3 then 6.22%Q else
      if sz =? 4 then 6.39%Q else
      if sz =? 5 then 6.55%Q else
      if sz =? 6 then 6.71%Q else
      if sz =? 7 then 6.85%Q else
      if sz =? 8 then 7.0%Q else
      if sz =? 9 then 7.26%Q else
      0%Q in
    transMat3 (Point3 0 0 t)
  else
  if isCCD_LAT aSourceL && isCCD_STD aTargetL then
    let t : Q :=
      if sz =? 0 then 5.89%Q else
      if sz =? 1 then 6.03%Q else
      if sz =? 2 then 6.22%Q else
      if sz =? 3 then 6.39%Q else
      if sz =? 4 then 6.55%Q else
      if sz =? 5 then 6.71%Q else
      if sz =? 6 then 6.85%Q else
      if sz =? 7 then 7.0%Q else
      if sz =? 8 then 7.26%Q else
      0%Q in
    transMat3 (Point3 0 0 (- t))
  else
  if isCCD_STD_SN aSourceL && isCCD_LAT_SN aTargetL then
    let t : Q :=
      if sz =? 1 then 5.01%Q else
      if sz =? 2 then 5.19%Q else
      if sz =? 3 then 5.38%Q else
      if sz =? 4 then 5.58%Q else
      if sz =? 5 then 5.69%Q else
      if sz =? 6 then 5.87%Q else
      if sz =? 7 then 6.07%Q else
      if sz =? 8 then 6.13%Q else
      if sz =? 9 then 6.48%Q else
      0%Q in
    transMat3 (Point3 0 0 t)
  else
  if isCCD_LAT_SN aSourceL && isCCD_STD_SN aTargetL then
    let t : Q :=
      if sz =? 0 then 5.01%Q else
      if sz =? 1 then 5.19%Q else
      if sz =? 2 then 5.38%Q else
      if sz =? 3 then 5.58%Q else
      if sz =? 4 then 5.69%Q else
      if sz =? 5 then 5.87%Q else
      if sz =? 6 then 6.07%Q else
      if sz =? 7 then 6.13%Q else
      if sz =? 8 then 6.48%Q else
      0%Q in
    transMat3 (Point3 0 0 (- t))
  else
  idMat3.

(** [CCD_Amistem::similarLabel] forwards to [getSimilarLabel]. *)
Definition similarLabel (aL aNextCCDRange : SboShape3Label) : SboShape3Label :=
  getSimilarLabel aL aNextCCDRange.

(** *** Notions used to state properties of the search *)

(** The families with their range markers, in the order in which
    [CCD_Amistem::range] tests them. *)
Definition families : list ((SboShape3Label -> bool) * SboShape3Label) :=
  [(isCCD_STD, s3 S3UID.RANGE_CCD_STD);
   (isCCD_LAT, s3 S3UID.RANGE_CCD_LAT);
   (isCCD_STD_SN, s3 S3UID.RANGE_CCD_STD_SN);
   (isCCD_LAT_SN, s3 S3UID.RANGE_CCD_LAT_SN)].

Definition isRangeSTD (r : SboShape3Label) : bool :=
  (r =? s3 S3UID.RANGE_CCD_STD) || (r =? s3 S3UID.RANGE_CCD_STD_SN).
Definition isRangeLAT (r : SboShape3Label) : bool :=
  (r =? s3 S3UID.RANGE_CCD_LAT) || (r =? s3 S3UID.RANGE_CCD_LAT_SN).

(** The amount the rule of [getSimilarLabel] for a pair of markers adds to
    the size before it clamps; 0 for a pair without such a rule. *)
Definition similarShift (aSourceR aTargetR : SboShape3Label) : Z :=
  if isRangeSTD aSourceR && isRangeLAT aTargetR then -1
  else if isRangeLAT aSourceR && isRangeSTD aTargetR then 1
  else 0.

Definition lastOffset (aR : SboShape3Label) : Z := r1 (getRangeStats aR).
Definition firstLabel (aR : SboShape3Label) : SboShape3Label :=
  label0 (getRangeStats aR).

(** The size the rule aims at, before clamping. *)
Definition adjustedOffset (aL aTargetR : SboShape3Label) : Z :=
  getStemSize aL + similarShift (getCCDRange aL) aTargetR.

(** *** Transforms *)

Definition cutPlaneBbox (aStemLabel : SboShape3Label) : SboBbox3 :=
  let pmin := Point3 (-40.0) (-80.0) (-40.0) in
  let pmax := Point3 40.0 80.0 40.0 in
  let neckO := getRES_01 aStemLabel in
  let m := transMat3 neckO in
  makeBbox3 (applyMat3 m pmin) (applyMat3 m pmax).

Definition stemToStemMatrix (aOriginFemIC aTargetFemIC : SboFemImplantConfig) : SboMatrix3 :=
  let o := stemLabel aOriginFemIC in
  let t := stemLabel aTargetFemIC in
  if isCCD_STD o && isCCD_LAT_SN t then
    let sno := getSimilarLabel o (s3 S3UID.RANGE_CCD_STD_SN) in
    mulMat3 (getShift sno t) (getShift o sno)
  else if isCCD_LAT_SN o && isCCD_STD t then
    let snt := getSimilarLabel t (s3 S3UID.RANGE_CCD_STD_SN) in
    mulMat3 (getShift snt t) (getShift o snt)
  else if isCCD_LAT_SN o && isCCD_LAT t then
    let sno := getSimilarLabel o (s3 S3UID.RANGE_CCD_STD_SN) in
    let stdt := getSimilarLabel t (s3 S3UID.RANGE_CCD_STD) in
    mulMat3 (mulMat3 (getShift stdt t) (getShift sno stdt)) (getShift o sno)
  else if isCCD_STD_SN o && isCCD_LAT t then
    let stdo := getSimilarLabel o (s3 S3UID.RANGE_CCD_STD) in
    mulMat3 (getShift stdo t) (getShift o stdo)
  else if isCCD_LAT o && isCCD_STD_SN t then
    let stdo := getSimilarLabel o (s3 S3UID.RANGE_CCD_STD) in
    mulMat3 (getShift stdo t) (getShift o stdo)
  else if isCCD_LAT o && isCCD_LAT_SN t then
    let stdo := getSimilarLabel o (s3 S3UID.RANGE_CCD_STD) in
    let snt := getSimilarLabel t (s3 S3UID.RANGE_CCD_STD_SN) in
    mulMat3 (mulMat3 (getShift snt t) (getShift stdo snt)) (getShift o stdo)
  else getShift o t.

(** *** Notions used to state properties of [stemToStemMatrix] *)

(** [getShift] has a branch for the pair (it does not fall through to the
    identity). *)
Definition directShift (a b : SboShape3Label) : bool :=
  (isSTD a && isSTD b) || (isCCD_LAT a && isCCD_LAT b)
  || (isCCD_LAT_SN a && isCCD_LAT_SN b) || (isCCD_STD a && isCCD_LAT b)
  || (isCCD_LAT a && isCCD_STD b) || (isCCD_STD_SN a && isCCD_LAT_SN b)
  || (isCCD_LAT_SN a && isCCD_STD_SN b).

(** The intermediate labels [stemToStemMatrix] computes for a pair, in the
    order in which the chain visits them. *)
Definition intermediates (o t : SboShape3Label) : list SboShape3Label :=
  if isCCD_STD o && isCCD_LAT_SN t then
    [getSimilarLabel o (s3 S3UID.RANGE_CCD_STD_SN)]
  else if isCCD_LAT_SN o && isCCD_STD t then
    [getSimilarLabel t (s3 S3UID.RANGE_CCD_STD_SN)]
  else if isCCD_LAT_SN o && isCCD_LAT t then
    [getSimilarLabel o (s3 S3UID.RANGE_CCD_STD_SN);
     getSimilarLabel t (s3 S3UID.RANGE_CCD_STD)]
  else if isCCD_STD_SN o && isCCD_LAT t then
    [getSimilarLabel o (s3 S3UID.RANGE_CCD_STD)]
  else if isCCD_LAT o && isCCD_STD_SN t then
    [getSimilarLabel o (s3 S3UID.RANGE_CCD_STD)]
  else if isCCD_LAT o && isCCD_LAT_SN t then
    [getSimilarLabel o (s3 S3UID.RANGE_CCD_STD);
     getSimilarLabel t (s3 S3UID.RANGE_CCD_STD_SN)]
  else [].

(** The families the chain of a pair of families passes through, as the
    comments of [stemToStemMatrix] spell them out. *)
Definition viaFamilies (aSourceR aTargetR : SboShape3Label) : list SboShape3Label :=
  if (aSourceR =? s3 S3UID.RANGE_CCD_STD) && (aTargetR =? s3 S3UID.RANGE_CCD_LAT_SN) then
    [s3 S3UID.RANGE_CCD_STD_SN]
  else if (aSourceR =? s3 S3UID.RANGE_CCD_LAT_SN) && (aTargetR =? s3 S3UID.RANGE_CCD_STD) then
    [s3 S3UID.RANGE_CCD_STD_SN]
  else if (aSourceR =? s3 S3UID.RANGE_CCD_LAT_SN) && (aTargetR =? s3 S3UID.RANGE_CCD_LAT) then
    [s3 S3UID.RANGE_CCD_STD_SN; s3 S3UID.RANGE_CCD_STD]
  else if (aSourceR =? s3 S3UID.RANGE_CCD_STD_SN) && (aTargetR =? s3 S3UID.RANGE_CCD_LAT) then
    [s3 S3UID.RANGE_CCD_STD]
  else if (aSourceR =? s3 S3UID.RANGE_CCD_LAT) && (aTargetR =? s3 S3UID.RANGE_CCD_STD_SN) then
    [s3 S3UID.RANGE_CCD_STD]
  else if (aSourceR =? s3 S3UID.RANGE_CCD_LAT) && (aTargetR =? s3 S3UID.RANGE_CCD_LAT_SN) then
    [s3 S3UID.RANGE_CCD_STD; s3 S3UID.RANGE_CCD_STD_SN]
  else [].

(** The product of the shifts along [o], the intermediate labels and [t],
    associated as [stemToStemMatrix] writes it. *)
Definition shiftAlong (o : SboShape3Label) (via : list SboShape3Label)
           (t : SboShape3Label) : SboMatrix3 :=
  match via with
  | [] => getShift o t
  | [m] => mulMat3 (getShift m t) (getShift o m)
  | m1 :: m2 :: _ =>
      mulMat3 (mulMat3 (getShift m2 t) (getShift m1 m2)) (getShift o m1)
  end.

(** Every hop of the path is a pair [getShift] has a branch for. *)
Fixpoint allDirect (path : list SboShape3Label) : bool :=
  match path with
  | a :: (b :: _) as rest => directShift a b && allDirect rest
  | _ => true
  end.

Definition inRange (aL : SboShape3Label) : bool :=
  SboML.in_closed_range aL (s3 lowerS3UID) (s3 upperS3UID).

(** *** Configuration facade *)

Definition fillAndValidAssembly (aFemIC : SboFemImplantConfig) : SboFemImplantConfig :=
  let myFemIC := setValidAssembly false aFemIC in
  if negb (SboAnatomLocation.eqb (requestedSide myFemIC) SboAnatomLocation.None) then
    let bs := isStem (stemLabel myFemIC) in
    let bh := isHead (headLabel myFemIC) in
    let bn := negb (isSet (neckLabel myFemIC)) in
    let myFemIC :=
      if negb (isSet (cutPlaneLabel myFemIC))
      then setCutPlaneLabel (s3 S3UID.CUTPLANE) myFemIC else myFemIC in
    let b := bs && bh && bn in
    if b then
      let myFemIC := setStemProductName ProductName myFemIC in
      let myFemIC := setDistalShaftProductName EmptyString myFemIC in
      let myFemIC := setHeadProductName ProductName myFemIC in
      let myFemIC := setNeckProductName EmptyString myFemIC in
      let myFemIC := setImplantSide SboAnatomLocation.None myFemIC in
      setValidAssembly true myFemIC
    else myFemIC
  else myFemIC.

Definition defaultFemIC (aRequestedSide : SboAnatomLocation.t) : SboFemImplantConfig :=
  let myFemIC :=
    mkFemIC aRequestedSide SboAnatomLocation.None (s3 defaultS3StemRUID)
            (s3 defaultS3HeadUID) nullLabel (s3 S3UID.CUTPLANE)
            ProductName ProductName ProductName EmptyString false in
  fillAndValidAssembly myFemIC.

Definition nextPrev (aFemIC : SboFemImplantConfig) (aNext : bool) : SboFemImplantConfig :=
  let fc := aFemIC in
  setStemLabel (nextPrevStem (stemLabel fc) aNext) fc.

End Scheme.

End Amistem.

(** * The Ecofit scheme (implantcast_ecofit_scheme.h) *)

Module Ecofit.

Module S3UID.
Inductive t : Set :=
  | STEM_STD_133_0 | STEM_STD_133_1 | STEM_STD_133_2 | STEM_STD_133_3
  | STEM_STD_133_4 | STEM_STD_133_5 | STEM_STD_133_6 | STEM_STD_133_7
  | STEM_STD_133_8 | STEM_STD_133_9 | STEM_STD_133_10 | STEM_STD_133_11
  | STEM_LAT_133_0 | STEM_LAT_133_1 | STEM_LAT_133_2 | STEM_LAT_133_3
  | STEM_LAT_133_4 | STEM_LAT_133_5 | STEM_LAT_133_6 | STEM_LAT_133_7
  | STEM_LAT_133_8 | STEM_LAT_133_9 | STEM_LAT_133_10 | STEM_LAT_133_11
  | STEM_STD_138_0 | STEM_STD_138_1 | STEM_STD_138_2 | STEM_STD_138_3
  | STEM_STD_138_4 | STEM_STD_138_5 | STEM_STD_138_6 | STEM_STD_138_7
  | STEM_STD_138_8 | STEM_STD_138_9 | STEM_LAT_138_0 | STEM_LAT_138_1
  | STEM_LAT_138_2 | STEM_LAT_138_3 | STEM_LAT_138_4 | STEM_LAT_138_5
  | STEM_LAT_138_6 | STEM_LAT_138_7 | STEM_LAT_138_8 | STEM_LAT_138_9
  | STEM_CV_0 | STEM_CV_1 | STEM_CV_2 | STEM_CV_3 | STEM_CV_4 | STEM_CV_5
  | STEM_CV_6 | STEM_CV_7 | STEM_CV_8 | STEM_CV_9 | CUTPLANE | HEAD_M4
  | HEAD_P0 | HEAD_P4 | HEAD_P8 | RANGE_CCD_STD_133 | RANGE_CCD_LAT_133
  | RANGE_CCD_STD_138 | RANGE_CCD_LAT_138 | RANGE_CCD_CV.

(** Position of an enumerator after the first one. *)
Definition index (e : t) : Z :=
  match e with
  | STEM_STD_133_0 => 0 | STEM_STD_133_1 => 1 | STEM_STD_133_2 => 2
  | STEM_STD_133_3 => 3 | STEM_STD_133_4 => 4 | STEM_STD_133_5 => 5
  | STEM_STD_133_6 => 6 | STEM_STD_133_7 => 7 | STEM_STD_133_8 => 8
  | STEM_STD_133_9 => 9 | STEM_STD_133_10 => 10 | STEM_STD_133_11 => 11
  | STEM_LAT_133_0 => 12 | STEM_LAT_133_1 => 13 | STEM_LAT_133_2 => 14
  | STEM_LAT_133_3 => 15 | STEM_LAT_133_4 => 16 | STEM_LAT_133_5 => 17
  | STEM_LAT_133_6 => 18 | STEM_LAT_133_7 => 19 | STEM_LAT_133_8 => 20
  | STEM_LAT_133_9 => 21 | STEM_LAT_133_10 => 22 | STEM_LAT_133_11 => 23
  | STEM_STD_138_0 => 24 | STEM_STD_138_1 => 25 | STEM_STD_138_2 => 26
  | STEM_STD_138_3 => 27 | STEM_STD_138_4 => 28 | STEM_STD_138_5 => 29
  | STEM_STD_138_6 => 30 | STEM_STD_138_7 => 31 | STEM_STD_138_8 => 32
  | STEM_STD_138_9 => 33 | STEM_LAT_138_0 => 34 | STEM_LAT_138_1 => 35
  | STEM_LAT_138_2 => 36 | STEM_LAT_138_3 => 37 | STEM_LAT_138_4 => 38
  | STEM_LAT_138_5 => 39 | STEM_LAT_138_6 => 40 | STEM_LAT_138_7 => 41
  | STEM_LAT_138_8 => 42 | STEM_LAT_138_9 => 43 | STEM_CV_0 => 44
  | STEM_CV_1 => 45 | STEM_CV_2 => 46 | STEM_CV_3 => 47 | STEM_CV_4 => 48
  | STEM_CV_5 => 49 | STEM_CV_6 => 50 | STEM_CV_7 => 51 | STEM_CV_8 => 52
  | STEM_CV_9 => 53 | CUTPLANE => 54 | HEAD_M4 => 55 | HEAD_P0 => 56
  | HEAD_P4 => 57 | HEAD_P8 => 58 | RANGE_CCD_STD_133 => 59
  | RANGE_CCD_LAT_133 => 60 | RANGE_CCD_STD_138 => 61
  | RANGE_CCD_LAT_138 => 62 | RANGE_CCD_CV => 63
  end.
End S3UID.

(** [struct R]: bounds of the sizes of a family, its first label and its
    range marker, with the member functions of the source. *)
Module R.
Record t : Set := mk {
  r0 : Z;
  r1 : Z;
  label0 : SboShape3Label;
  subRange : SboShape3Label
}.

Definition idx (r : t) (aL : SboShape3Label) : Z := aL - label0 r.

Definition inSubRange (r : t) (aL : SboShape3Label) : bool :=
  let sz := idx r aL in
  (r0 r <=? sz) && (sz <=? r1 r).

Definition next (r : t) (aL : SboShape3Label) (aStep : Z) : SboShape3Label :=
  let l := next aL aStep in
  if inSubRange r l then l else aL.

Definition size (r : t) (aL : SboShape3Label) : Z :=
  if inSubRange r aL then idx r aL else 0.

Definition clampSize (r : t) (sz : Z) : Z := SboML.clamp sz (r0 r) (r1 r).
End R.

Section Scheme.

Variable info : ProductInfo.

Definition ProductRangeStartsAt : Z := productRangeStartsAt info.
Definition ProductName : string := productName info.

(** [STEM_STD_133_0 = ProductRangeStartsAt + 90L]. *)
Definition utype (e : S3UID.t) : SboShape3UID :=
  ProductRangeStartsAt + 90 + S3UID.index e.

Definition lowerS3UID := S3UID.STEM_STD_133_0.
Definition upperS3UID := S3UID.RANGE_CCD_CV.
Definition defaultS3StemUID := S3UID.STEM_STD_133_5.
Definition defaultS3HeadUID := S3UID.HEAD_P0.

Definition s3 (e : S3UID.t) : SboShape3Label := utype e.

Definition isCCD_STD_133 (l : SboShape3Label) : bool :=
  SboML.in_closed_range l (s3 S3UID.STEM_STD_133_0) (s3 S3UID.STEM_STD_133_11).
Definition isCCD_LAT_133 (l : SboShape3Label) : bool :=
  SboML.in_closed_range l (s3 S3UID.STEM_LAT_133_0) (s3 S3UID.STEM_LAT_133_11).
Definition isCCD_STD_138 (l : SboShape3Label) : bool :=
  SboML.in_closed_range l (s3 S3UID.STEM_STD_138_0) (s3 S3UID.STEM_STD_138_9).
Definition isCCD_LAT_138 (l : SboShape3Label) : bool :=
  SboML.in_closed_range l (s3 S3UID.STEM_LAT_138_0) (s3 S3UID.STEM_LAT_138_9).
Definition isCCD_CV (l : SboShape3Label) : bool :=
  SboML.in_closed_range l (s3 S3UID.STEM_CV_0) (s3 S3UID.STEM_CV_9).

Definition isCCD_133 (l : SboShape3Label) : bool :=
  isCCD_STD_133 l || isCCD_LAT_133 l.

Definition isStem (l : SboShape3Label) : bool :=
  isCCD_STD_133 l || isCCD_LAT_133 l || isCCD_STD_138 l
  || isCCD_LAT_138 l || isCCD_CV l.

Definition isHead (l : SboShape3Label) : bool :=
  SboML.in_closed_range l (s3 S3UID.HEAD_M4) (s3 S3UID.HEAD_P8).

Definition isSubRange (l : SboShape3Label) : bool :=
  SboML.in_closed_range l (s3 S3UID.RANGE_CCD_STD_133) (s3 S3UID.RANGE_CCD_CV).

Definition isSubRange133 (l : SboShape3Label) : bool :=
  (l =? s3 S3UID.RANGE_CCD_STD_133) || (l =? s3 S3UID.RANGE_CCD_LAT_133).

(** [getRangeStats]: [myRL] starts as the argument and is overwritten by
    the marker of the family of a stem label. *)
Definition getRangeStats (aL : SboShape3Label) : R.t :=
  let myRL := aL in
  let myRL :=
    if isStem aL then
      let myRL := if isCCD_STD_133 aL then s3 S3UID.RANGE_CCD_STD_133 else myRL in
      let myRL := if isCCD_LAT_133 aL then s3 S3UID.RANGE_CCD_LAT_133 else myRL in
      let myRL := if isCCD_STD_138 aL then s3 S3UID.RANGE_CCD_STD_138 else myRL in
      let myRL := if isCCD_LAT_138 aL then s3 S3UID.RANGE_CCD_LAT_138 else myRL in
      let myRL := if isCCD_CV aL then s3 S3UID.RANGE_CCD_CV else myRL in
      myRL
    else myRL in
  if isSubRange myRL && (myRL =? s3 S3UID.RANGE_CCD_STD_133) then
    R.mk 0 11 (s3 S3UID.STEM_STD_133_0) myRL
  else if isSubRange myRL && (myRL =? s3 S3UID.RANGE_CCD_LAT_133) then
    R.mk 0 11 (s3 S3UID.STEM_LAT_133_0) myRL
  else if isSubRange myRL && (myRL =? s3 S3UID.RANGE_CCD_STD_138) then
    R.mk 0 9 (s3 S3UID.STEM_STD_138_0) myRL
  else if isSubRange myRL && (myRL =? s3 S3UID.RANGE_CCD_LAT_138) then
    R.mk 0 9 (s3 S3UID.STEM_LAT_138_0) myRL
  else if isSubRange myRL && (myRL =? s3 S3UID.RANGE_CCD_CV) then
    R.mk 0 9 (s3 S3UID.STEM_CV_0) myRL
  else R.mk 0 0 nullLabel nullLabel.

Definition nextPrevStem (aL : SboShape3Label) (aNext : bool) : SboShape3Label :=
  R.next (getRangeStats aL) aL (stepOf aNext).

Definition getSimilarLabel (aLabel aTargetR : SboShape3Label) : SboShape3Label :=
  let S := getRangeStats aLabel in
  let sourceR := R.subRange S in
  let sz := R.size S aLabel in
  let T := getRangeStats aTargetR in
  let tsz := sz in
  let tsz :=
    if negb (isSubRange133 sourceR) && isSubRange133 aTargetR then
      if sz =? 8 then 9 else if sz =? 9 then 11 else tsz
    else if isSubRange133 sourceR && negb (isSubRange133 aTargetR) then
      if sz =? 9 then 8 else if sz =? 11 then 9 else tsz
    else tsz in
  let tsz := R.clampSize T tsz in
  next (R.label0 T) tsz.

Definition getRES_01 (aLabel : SboShape3Label) : SboPoint3 := Point3 0 0 0.

Definition getRES_02 (aLabel : SboShape3Label) : SboPoint3 :=
  if isCCD_STD_133 aLabel then Point3 10.69 (-9.21) 0
  else if isCCD_STD_138 aLabel then Point3 10.5 (-9.45) 0
  else if isCCD_CV aLabel then Point3 10.27 (-9.93) 0
  else if isCCD_LAT_133 aLabel then Point3 6.55 (-5.9) 0
  else if isCCD_LAT_138 aLabel then Point3 6.54 (-5.89) 0
  else Point3 0 0 0.

Definition getTPR_01 (aLabel : SboShape3Label) : SboPoint3 :=
  if isCCD_STD_133 aLabel then Point3 25.09 23.39 0
  else if isCCD_STD_138 aLabel then Point3 23.02 25.56 0
  else if isCCD_CV aLabel then Point3 27.12 17.61 0
  else if isCCD_LAT_133 aLabel then Point3 29.25 27.28 0
  else if isCCD_LAT_138 aLabel then Point3 26.77 29.74 0
  else Point3 0 0 0.

(** [CCD_SUPER::similarLabel] forwards to [getSimilarLabel]. *)
Definition similarLabel (aL aNextCCDRange : SboShape3Label) : SboShape3Label :=
  getSimilarLabel aL aNextCCDRange.

(** *** Notions used to state properties of the search *)

(** The families with their range markers, in the order in which
    [CCD_SUPER::range] tests them. *)
Definition families : list ((SboShape3Label -> bool) * SboShape3Label) :=
  [(isCCD_STD_133, s3 S3UID.RANGE_CCD_STD_133);
   (isCCD_LAT_133, s3 S3UID.RANGE_CCD_LAT_133);
   (isCCD_STD_138, s3 S3UID.RANGE_CCD_STD_138);
   (isCCD_LAT_138, s3 S3UID.RANGE_CCD_LAT_138);
   (isCCD_CV, s3 S3UID.RANGE_CCD_CV)].

(** One of the two remapping branches of [getSimilarLabel] applies to the
    pair of markers. *)
Definition authoredRule (aSourceR aTargetR : SboShape3Label) : bool :=
  (negb (isSubRange133 aSourceR) && isSubRange133 aTargetR)
  || (isSubRange133 aSourceR && negb (isSubRange133 aTargetR)).

Definition lastOffset (aR : SboShape3Label) : Z := R.r1 (getRangeStats aR).
Definition firstLabel (aR : SboShape3Label) : SboShape3Label :=
  R.label0 (getRangeStats aR).

(** The size [getSimilarLabel] aims at: [tsz] before [T.clampSize]. *)
Definition adjustedOffset (aLabel aTargetR : SboShape3Label) : Z :=
  let S := getRangeStats aLabel in
  let sourceR := R.subRange S in
  let sz := R.size S aLabel in
  if negb (isSubRange133 sourceR) && isSubRange133 aTargetR then
    if sz =? 8 then 9 else if sz =? 9 then 11 else sz
  else if isSubRange133 sourceR && negb (isSubRange133 aTargetR) then
    if sz =? 9 then 8 else if sz =? 11 then 9 else sz
  else sz.

Definition cutPlaneBbox (aStemLabel : SboShape3Label) : SboBbox3 :=
  let pmin := Point3 (-25.0) (-25.0) (-25.0) in
  let pmax := Point3 25.0 25.0 25.0 in
  let neckO := getRES_01 aStemLabel in
  let m := transMat3 neckO in
  makeBbox3 (applyMat3 m pmin) (applyMat3 m pmax).

Definition stemToStemMatrix (aOriginFemIC aTargetFemIC : SboFemImplantConfig) : SboMatrix3 :=
  let neck2 := getRES_02 (stemLabel aOriginFemIC) in
  let neckT2 := getRES_02 (stemLabel aTargetFemIC) in
  transMat3 (psub neck2 neckT2).

Definition inRange (aL : SboShape3Label) : bool :=
  SboML.in_closed_range aL (s3 lowerS3UID) (s3 upperS3UID).

Definition fillAndValidAssembly (aFemIC : SboFemImplantConfig) : SboFemImplantConfig :=
  let myFemIC := setValidAssembly false aFemIC in
  if negb (SboAnatomLocation.eqb (requestedSide myFemIC) SboAnatomLocation.None) then
    let bs := isStem (stemLabel myFemIC) in
    let bh := isHead (headLabel myFemIC) in
    let bn := negb (isSet (neckLabel myFemIC)) in
    let myFemIC :=
      if negb (isSet (cutPlaneLabel myFemIC))
      then setCutPlaneLabel (s3 S3UID.CUTPLANE) myFemIC else myFemIC in
    let okSide := true in
    let b := bs && bh && bn && okSide in
    if b then
      let myFemIC := setStemProductName ProductName myFemIC in
      let myFemIC := setDistalShaftProductName EmptyString myFemIC in
      let myFemIC := setHeadProductName ProductName myFemIC in
      let myFemIC := setNeckProductName EmptyString myFemIC in
      let myFemIC := setImplantSide (requestedSide myFemIC) myFemIC in
      setValidAssembly true myFemIC
    else myFemIC
  else myFemIC.

Definition defaultFemIC (aRequestedSide : SboAnatomLocation.t) : SboFemImplantConfig :=
  let myFemIC :=
    mkFemIC aRequestedSide aRequestedSide (s3 defaultS3StemUID)
            (s3 defaultS3HeadUID) nullLabel (s3 S3UID.CUTPLANE)
            ProductName ProductName ProductName EmptyString false in
  fillAndValidAssembly myFemIC.

Definition nextPrev (aFemIC : SboFemImplantConfig) (aNext : bool) : SboFemImplantConfig :=
  let fc := aFemIC in
  setStemLabel (nextPrevStem (stemLabel fc) aNext) fc.

(** *** Head transform *)

Variable unit3 : SboVector3 -> SboVector3.

Definition headToStemMatrix (aHeadLabel aStemLabel : SboShape3Label) : SboMatrix3 :=
  let neckO := getRES_01 aStemLabel in
  let headO := getTPR_01 aStemLabel in
  let neckAxis := unit3 (psub headO neckO) in
  let l : Q :=
    if aHeadLabel =? s3 S3UID.HEAD_M4 then (0 - 3.53)%Q
    else if aHeadLabel =? s3 S3UID.HEAD_P0 then 0.0%Q
    else if aHeadLabel =? s3 S3UID.HEAD_P4 then (0 + 3.53)%Q
    else if aHeadLabel =? s3 S3UID.HEAD_P8 then (0 + 7.1)%Q
    else 0%Q in
  transMat3 (padd headO (pscale neckAxis l)).

End Scheme.

End Ecofit.

(** * The Actis scheme (johnson_actis_scheme.h) *)

Module Actis.

Module S3UID.
Inductive t : Set :=
  | STEM_STD_0 | STEM_STD_1 | STEM_STD_2 | STEM_STD_3 | STEM_STD_4
  | STEM_STD_5 | STEM_STD_6 | STEM_STD_7 | STEM_STD_8 | STEM_STD_9
  | STEM_STD_10 | STEM_STD_11 | STEM_STD_12 | STEM_HO_0 | STEM_HO_1
  | STEM_HO_2 | STEM_HO_3 | STEM_HO_4 | STEM_HO_5 | STEM_HO_6 | STEM_HO_7
  | STEM_HO_8 | STEM_HO_9 | STEM_HO_10 | STEM_HO_11 | STEM_HO_12
  | CUTPLANE | HEAD_M4 | HEAD_P0 | HEAD_P4 | HEAD_P8 | RANGE_CCD_STD
  | RANGE_CCD_HO.

(** Position of an enumerator after the first one. *)
Definition index (e : t) : Z :=
  match e with
  | STEM_STD_0 => 0 | STEM_STD_1 => 1 | STEM_STD_2 => 2 | STEM_STD_3 => 3
  | STEM_STD_4 => 4 | STEM_STD_5 => 5 | STEM_STD_6 => 6 | STEM_STD_7 => 7
  | STEM_STD_8 => 8 | STEM_STD_9 => 9 | STEM_STD_10 => 10
  | STEM_STD_11 => 11 | STEM_STD_12 => 12 | STEM_HO_0 => 13
  | STEM_HO_1 => 14 | STEM_HO_2 => 15 | STEM_HO_3 => 16 | STEM_HO_4 => 17
  | STEM_HO_5 => 18 | STEM_HO_6 => 19 | STEM_HO_7 => 20 | STEM_HO_8 => 21
  | STEM_HO_9 => 22 | STEM_HO_10 => 23 | STEM_HO_11 => 24
  | STEM_HO_12 => 25 | CUTPLANE => 26 | HEAD_M4 => 27 | HEAD_P0 => 28
  | HEAD_P4 => 29 | HEAD_P8 => 30 | RANGE_CCD_STD => 31
  | RANGE_CCD_HO => 32
  end.
End S3UID.

(** [struct R], as in the Ecofit scheme. *)
Module R.
Record t : Set := mk {
  r0 : Z;
  r1 : Z;
  label0 : SboShape3Label;
  subRange : SboShape3Label
}.

Definition idx (r : t) (aL : SboShape3Label) : Z := aL - label0 r.

Definition inSubRange (r : t) (aL : SboShape3Label) : bool :=
  let sz := idx r aL in
  (r0 r <=? sz) && (sz <=? r1 r).

Definition next (r : t) (aL : SboShape3Label) (aStep : Z) : SboShape3Label :=
  let l := next aL aStep in
  if inSubRange r l then l else aL.

Definition size (r : t) (aL : SboShape3Label) : Z :=
  if inSubRange r aL then idx r aL else 0.

Definition clampSize (r : t) (sz : Z) : Z := SboML.clamp sz (r0 r) (r1 r).
End R.

Section Scheme.

Variable info : ProductInfo.

Definition ProductRangeStartsAt : Z := productRangeStartsAt info.
Definition ProductName : string := productName info.

(** [STEM_STD_0 = ProductRangeStartsAt + 90L]. *)
Definition utype (e : S3UID.t) : SboShape3UID :=
  ProductRangeStartsAt + 90 + S3UID.index e.

Definition lowerS3UID := S3UID.STEM_STD_0.
Definition upperS3UID := S3UID.RANGE_CCD_HO.
Definition defaultS3StemUID := S3UID.STEM_STD_6.
Definition defaultS3HeadUID := S3UID.HEAD_P0.

Definition s3 (e : S3UID.t) : SboShape3Label := utype e.

Definition isCCD_STD (l : SboShape3Label) : bool :=
  SboML.in_closed_range l (s3 S3UID.STEM_STD_0) (s3 S3UID.STEM_STD_12).
Definition isCCD_HO (l : SboShape3Label) : bool :=
  SboML.in_closed_range l (s3 S3UID.STEM_HO_0) (s3 S3UID.STEM_HO_12).

Definition isStem (l : SboShape3Label) : bool := isCCD_STD l || isCCD_HO l.

Definition isHead (l : SboShape3Label) : bool :=
  SboML.in_closed_range l (s3 S3UID.HEAD_M4) (s3 S3UID.HEAD_P8).

Definition isSubRange (l : SboShape3Label) : bool :=
  SboML.in_closed_range l (s3 S3UID.RANGE_CCD_STD) (s3 S3UID.RANGE_CCD_HO).

Definition getRangeStats (aL : SboShape3Label) : R.t :=
  let myRL := aL in
  let myRL :=
    if isStem aL then
      let myRL := if isCCD_STD aL then s3 S3UID.RANGE_CCD_STD else myRL in
      let myRL := if isCCD_HO aL then s3 S3UID.RANGE_CCD_HO else myRL in
      myRL
    else myRL in
  if isSubRange myRL && (myRL =? s3 S3UID.RANGE_CCD_STD) then
    R.mk 0 12 (s3 S3UID.STEM_STD_0) myRL
  else if isSubRange myRL && (myRL =? s3 S3UID.RANGE_CCD_HO) then
    R.mk 0 12 (s3 S3UID.STEM_HO_0) myRL
  else R.mk 0 0 nullLabel nullLabel.

Definition nextPrevStem (aL : SboShape3Label) (aNext : bool) : SboShape3Label :=
  R.next (getRangeStats aL) aL (stepOf aNext).

Definition getSimilarLabel (aLabel aTargetR : SboShape3Label) : SboShape3Label :=
  let S := getRangeStats aLabel in
  let sz := R.size S aLabel in
  let T := getRangeStats aTargetR in
  let tsz := sz in
  next (R.label0 T) tsz.

Definition getRES_01 (aLabel : SboShape3Label) : SboPoint3 :=
  let S := getRangeStats aLabel in
  let sourceR := R.subRange S in
  if sourceR =? s3 S3UID.RANGE_CCD_STD then
    if aLabel =? s3 S3UID.STEM_STD_0 then Point3 11.94 0 10.02 else
    if aLabel =? s3 S3UID.STEM_STD_1 then Point3 12.47 0 10.46 else
    if aLabel =? s3 S3UID.STEM_STD_2 then Point3 13.27 0 11.14 else
    if aLabel =? s3 S3UID.STEM_STD_3 then Point3 13.05 0 10.95 else
    if aLabel =? s3 S3UID.STEM_STD_4 then Point3 13.56 0 11.38 else
    if aLabel =? s3 S3UID.STEM_STD_5 then Point3 13.58 0 11.4 else
    if aLabel =? s3 S3UID.STEM_STD_6 then Point3 14.12 0 11.85 else
    if aLabel =? s3 S3UID.STEM_STD_7 then Point3 14.14 0 11.87 else
    if aLabel =? s3 S3UID.STEM_STD_8 then Point3 14.68 0 12.32 else
    if aLabel =? s3 S3UID.STEM_STD_9 then Point3 14.7 0 12.34 else
    if aLabel =? s3 S3UID.STEM_STD_10 then Point3 15.29 0 12.83 else
    if aLabel =? s3 S3UID.STEM_STD_11 then Point3 15.64 0 13.12 else
    if aLabel =? s3 S3UID.STEM_STD_12 then Point3 16.04 0 13.46 else
    Point3 0 0 0
  else
    if aLabel =? s3 S3UID.STEM_HO_0 then Point3 15.1 0 12.67 else
    if aLabel =? s3 S3UID.STEM_HO_1 then Point3 15.47 0 12.98 else
    if aLabel =? s3 S3UID.STEM_HO_2 then Point3 16.27 0 13.65 else
    if aLabel =? s3 S3UID.STEM_HO_3 then Point3 16.05 0 13.46 else
    if aLabel =? s3 S3UID.STEM_HO_4 then Point3 17.57 0 14.74 else
    if aLabel =? s3 S3UID.STEM_HO_5 then Point3 17.58 0 14.76 else
    if aLabel =? s3 S3UID.STEM_HO_6 then Point3 18.12 0 15.21 else
    if aLabel =? s3 S3UID.STEM_HO_7 then Point3 18.14 0 15.22 else
    if aLabel =? s3 S3UID.STEM_HO_8 then Point3 18.68 0 15.68 else
    if aLabel =? s3 S3UID.STEM_HO_9 then Point3 18.7 0 15.69 else
    if aLabel =? s3 S3UID.STEM_HO_10 then Point3 19.29 0 16.19 else
    if aLabel =? s3 S3UID.STEM_HO_11 then Point3 19.64 0 16.48 else
    if aLabel =? s3 S3UID.STEM_HO_12 then Point3 20.04 0 16.82 else
    Point3 0 0 0.

Definition getRES_02 (aLabel : SboShape3Label) : SboPoint3 :=
  let S := getRangeStats aLabel in
  let sourceR := R.subRange S in
  if sourceR =? s3 S3UID.RANGE_CCD_STD then
    if aLabel =? s3 S3UID.STEM_STD_0 then Point3 20.01 0 3.17 else
    if aLabel =? s3 S3UID.STEM_STD_1 then Point3 21.01 0 3.3 else
    if aLabel =? s3 S3UID.STEM_STD_2 then Point3 21.81 0 3.98 else
    if aLabel =? s3 S3UID.STEM_STD_3 then Point3 22.51 0 3.01 else
    if aLabel =? s3 S3UID.STEM_STD_4 then Point3 23.3 0 3.21 else
    if aLabel =? s3 S3UID.STEM_STD_5 then Point3 24.1 0 2.57 else
    if aLabel =? s3 S3UID.STEM_STD_6 then Point3 24.81 0 2.89 else
    if aLabel =? s3 S3UID.STEM_STD_7 then Point3 25.61 0 2.25 else
    if aLabel =? s3 S3UID.STEM_STD_8 then Point3 26.31 0 2.57 else
    if aLabel =? s3 S3UID.STEM_STD_9 then Point3 27.11 0 1.93 else
    if aLabel =? s3 S3UID.STEM_STD_10 then Point3 27.91 0 2.24 else
    if aLabel =? s3 S3UID.STEM_STD_11 then Point3 28.61 0 2.24 else
    if aLabel =? s3 S3UID.STEM_STD_12 then Point3 29.41 0 2.24 else
    Point3 0 0 0
  else
    if aLabel =? s3 S3UID.STEM_HO_0 then Point3 20.21 0 8.39 else
    if aLabel =? s3 S3UID.STEM_HO_1 then Point3 21.01 0 8.33 else
    if aLabel =? s3 S3UID.STEM_HO_2 then Point3 21.81 0 9.01 else
    if aLabel =? s3 S3UID.STEM_HO_3 then Point3 22.51 0 8.04 else
    if aLabel =? s3 S3UID.STEM_HO_4 then Point3 23.31 0 9.92 else
    if aLabel =? s3 S3UID.STEM_HO_5 then Point3 24.11 0 9.28 else
    if aLabel =? s3 S3UID.STEM_HO_6 then Point3 24.82 0 9.59 else
    if aLabel =? s3 S3UID.STEM_HO_7 then Point3 25.61 0 8.96 else
    if aLabel =? s3 S3UID.STEM_HO_8 then Point3 26.31 0 9.28 else
    if aLabel =? s3 S3UID.STEM_HO_9 then Point3 27.11 0 8.64 else
    if aLabel =? s3 S3UID.STEM_HO_10 then Point3 27.91 0 8.96 else
    if aLabel =? s3 S3UID.STEM_HO_11 then Point3 28.61 0 8.96 else
    if aLabel =? s3 S3UID.STEM_HO_12 then Point3 29.41 0 8.96 else
    Point3 0 0 0.

Definition getTPR_01 (aLabel : SboShape3Label) : SboPoint3 :=
  let S := getRangeStats aLabel in
  let sourceR := R.subRange S in
  if sourceR =? s3 S3UID.RANGE_CCD_STD then
    if aLabel =? s3 S3UID.STEM_STD_0 then Point3 36.29 0 30.45 else
    if aLabel =? s3 S3UID.STEM_STD_1 then Point3 36.44 0 30.58 else
    if aLabel =? s3 S3UID.STEM_STD_2 then Point3 38.44 0 32.26 else
    if aLabel =? s3 S3UID.STEM_STD_3 then Point3 38.24 0 32.09 else
    if aLabel =? s3 S3UID.STEM_STD_4 then Point3 39.85 0 33.44 else
    if aLabel =? s3 S3UID.STEM_STD_5 then Point3 39.66 0 33.28 else
    if aLabel =? s3 S3UID.STEM_STD_6 then Point3 41.66 0 34.96 else
    if aLabel =? s3 S3UID.STEM_STD_7 then Point3 41.66 0 34.96 else
    if aLabel =? s3 S3UID.STEM_STD_8 then Point3 43.66 0 36.64 else
    if aLabel =? s3 S3UID.STEM_STD_9 then Point3 43.66 0 36.64 else
    if aLabel =? s3 S3UID.STEM_STD_10 then Point3 45.66 0 38.32 else
    if aLabel =? s3 S3UID.STEM_STD_11 then Point3 45.66 0 38.32 else
    if aLabel =? s3 S3UID.STEM_STD_12 then Point3 45.66 0 38.32 else
    Point3 0 0 0
  else
    if aLabel =? s3 S3UID.STEM_HO_0 then Point3 42.44 0 35.61 else
    if aLabel =? s3 S3UID.STEM_HO_1 then Point3 42.44 0 35.61 else
    if aLabel =? s3 S3UID.STEM_HO_2 then Point3 44.44 0 37.29 else
    if aLabel =? s3 S3UID.STEM_HO_3 then Point3 44.24 0 37.12 else
    if aLabel =? s3 S3UID.STEM_HO_4 then Point3 47.85 0 40.15 else
    if aLabel =? s3 S3UID.STEM_HO_5 then Point3 47.66 0 39.99 else
    if aLabel =? s3 S3UID.STEM_HO_6 then Point3 49.66 0 41.67 else
    if aLabel =? s3 S3UID.STEM_HO_7 then Point3 49.66 0 41.67 else
    if aLabel =? s3 S3UID.STEM_HO_8 then Point3 51.66 0 43.35 else
    if aLabel =? s3 S3UID.STEM_HO_9 then Point3 51.66 0 43.35 else
    if aLabel =? s3 S3UID.STEM_HO_10 then Point3 53.66 0 45.03 else
    if aLabel =? s3 S3UID.STEM_HO_11 then Point3 53.66 0 45.03 else
    if aLabel =? s3 S3UID.STEM_HO_12 then Point3 53.66 0 45.03 else
    Point3 0 0 0.

(** [CCD_SUPER::similarLabel] forwards to [getSimilarLabel]. *)
Definition similarLabel (aL aNextCCDRange : SboShape3Label) : SboShape3Label :=
  getSimilarLabel aL aNextCCDRange.

(** *** Notions used to state properties of the search *)

(** The families with their range markers, in the order in which
    [CCD_SUPER::range] tests them. *)
Definition families : list ((SboShape3Label -> bool) * SboShape3Label) :=
  [(isCCD_STD, s3 S3UID.RANGE_CCD_STD); (isCCD_HO, s3 S3UID.RANGE_CCD_HO)].

Definition lastOffset (aR : SboShape3Label) : Z := R.r1 (getRangeStats aR).
Definition firstLabel (aR : SboShape3Label) : SboShape3Label :=
  R.label0 (getRangeStats aR).

(** The size [getSimilarLabel] aims at: the size of the source label. *)
Definition adjustedOffset (aLabel aTargetR : SboShape3Label) : Z :=
  R.size (getRangeStats aLabel) aLabel.

Definition cutPlaneBbox (aStemLabel : SboShape3Label) : SboBbox3 :=
  let pmin := Point3 (-50.0) (-25.0) (-25.0) in
  let pmax := Point3 50.0 25.0 25.0 in
  let neckO := getRES_01 aStemLabel in
  let m := transMat3 neckO in
  makeBbox3 (applyMat3 m pmin) (applyMat3 m pmax).

Definition stemToStemMatrix (aOriginFemIC aTargetFemIC : SboFemImplantConfig) : SboMatrix3 :=
  let neck2 := getRES_02 (stemLabel aOriginFemIC) in
  let neckT2 := getRES_02 (stemLabel aTargetFemIC) in
  transMat3 (psub neck2 neckT2).

Definition inRange (aL : SboShape3Label) : bool :=
  SboML.in_closed_range aL (s3 lowerS3UID) (s3 upperS3UID).

Definition fillAndValidAssembly (aFemIC : SboFemImplantConfig) : SboFemImplantConfig :=
  let myFemIC := setValidAssembly false aFemIC in
  if negb (SboAnatomLocation.eqb (requestedSide myFemIC) SboAnatomLocation.None) then
    let bs := isStem (stemLabel myFemIC) in
    let bh := isHead (headLabel myFemIC) in
    let bn := negb (isSet (neckLabel myFemIC)) in
    let myFemIC :=
      if negb (isSet (cutPlaneLabel myFemIC))
      then setCutPlaneLabel (s3 S3UID.CUTPLANE) myFemIC else myFemIC in
    let b := bs && bh && bn in
    if b then
      let myFemIC := setStemProductName ProductName myFemIC in
      let myFemIC := setDistalShaftProductName EmptyString myFemIC in
      let myFemIC := setHeadProductName ProductName myFemIC in
      let myFemIC := setNeckProductName EmptyString myFemIC in
      let myFemIC := setImplantSide (requestedSide myFemIC) myFemIC in
      setValidAssembly true myFemIC
    else myFemIC
  else myFemIC.

Definition defaultFemIC (aRequestedSide : SboAnatomLocation.t) : SboFemImplantConfig :=
  let myFemIC :=
    mkFemIC aRequestedSide aRequestedSide (s3 defaultS3StemUID)
            (s3 defaultS3HeadUID) nullLabel (s3 S3UID.CUTPLANE)
            ProductName ProductName ProductName EmptyString false in
  fillAndValidAssembly myFemIC.

Definition nextPrev (aFemIC : SboFemImplantConfig) (aNext : bool) : SboFemImplantConfig :=
  let fc := aFemIC in
  setStemLabel (nextPrevStem (stemLabel fc) aNext) fc.

(** *** Head transform *)

Variable unit3 : SboVector3 -> SboVector3.

Definition headToStemMatrix (aHeadLabel aStemLabel : SboShape3Label) : SboMatrix3 :=
  let neckO := getRES_01 aStemLabel in
  let headO := getTPR_01 aStemLabel in
  let neckAxis := unit3 (psub headO neckO) in
  let l : Q :=
    if aHeadLabel =? s3 S3UID.HEAD_M4 then (0 - 3.5)%Q
    else if aHeadLabel =? s3 S3UID.HEAD_P0 then (0 + 0.0)%Q
    else if aHeadLabel =? s3 S3UID.HEAD_P4 then (0 + 3.5)%Q
    else if aHeadLabel =? s3 S3UID.HEAD_P8 then (0 + 7.0)%Q
    else 0%Q in
  transMat3 (padd headO (pscale neckAxis l)).

End Scheme.

End Actis.

(** * The Optimys scheme (mathys_optimys_scheme.h) *)

Module Optimys.

Module S3UID.
Inductive t : Set :=
  | STEM_STD_1 | STEM_STD_2 | STEM_STD_3 | STEM_STD_4 | STEM_STD_5
  | STEM_STD_6 | STEM_STD_7 | STEM_STD_8 | STEM_STD_9 | STEM_STD_10
  | STEM_STD_11 | STEM_STD_12 | STEM_STD_13 | STEM_STD_14 | STEM_LAT_1
  | STEM_LAT_2 | STEM_LAT_3 | STEM_LAT_4 | STEM_LAT_5 | STEM_LAT_6
  | STEM_LAT_7 | STEM_LAT_8 | STEM_LAT_9 | STEM_LAT_10 | STEM_LAT_11
  | STEM_LAT_12 | STEM_LAT_13 | STEM_LAT_14 | CUTPLANE | HEAD_M4 | HEAD_P0
  | HEAD_P4 | HEAD_P8 | RANGE_CCD_STD | RANGE_CCD_LAT.

(** Position of an enumerator after the first one. *)
Definition index (e : t) : Z :=
  match e with
  | STEM_STD_1 => 0 | STEM_STD_2 => 1 | STEM_STD_3 => 2 | STEM_STD_4 => 3
  | STEM_STD_5 => 4 | STEM_STD_6 => 5 | STEM_STD_7 => 6 | STEM_STD_8 => 7
  | STEM_STD_9 => 8 | STEM_STD_10 => 9 | STEM_STD_11 => 10
  | STEM_STD_12 => 11 | STEM_STD_13 => 12 | STEM_STD_14 => 13
  | STEM_LAT_1 => 14 | STEM_LAT_2 => 15 | STEM_LAT_3 => 16
  | STEM_LAT_4 => 17 | STEM_LAT_5 => 18 | STEM_LAT_6 => 19
  | STEM_LAT_7 => 20 | STEM_LAT_8 => 21 | STEM_LAT_9 => 22
  | STEM_LAT_10 => 23 | STEM_LAT_11 => 24 | STEM_LAT_12 => 25
  | STEM_LAT_13 => 26 | STEM_LAT_14 => 27 | CUTPLANE => 28 | HEAD_M4 => 29
  | HEAD_P0 => 30 | HEAD_P4 => 31 | HEAD_P8 => 32 | RANGE_CCD_STD => 33
  | RANGE_CCD_LAT => 34
  end.
End S3UID.

Definition MYSRangeStartAt : SboShape3UID := 130000 + 500.
Definition CompanyName : string := "MYS".
Definition ProductName : string := "MYS OPTIMYS".

(** [STEM_STD_1 = MYSRangeStartAt]. *)
Definition utype (e : S3UID.t) : SboShape3UID := MYSRangeStartAt + S3UID.index e.

Definition lowerS3UID := S3UID.STEM_STD_1.
Definition upperS3UID := S3UID.RANGE_CCD_LAT.
Definition defaultS3StemUID := S3UID.STEM_STD_7.
Definition defaultS3HeadUID := S3UID.HEAD_P0.

Definition s3 (e : S3UID.t) : SboShape3Label := utype e.

Definition isCCD_STD (l : SboShape3Label) : bool :=
  SboML.in_closed_range l (s3 S3UID.STEM_STD_1) (s3 S3UID.STEM_STD_14).
Definition isCCD_LAT (l : SboShape3Label) : bool :=
  SboML.in_closed_range l (s3 S3UID.STEM_LAT_1) (s3 S3UID.STEM_LAT_14).

Definition isStem (l : SboShape3Label) : bool := isCCD_STD l || isCCD_LAT l.

Definition isHead (l : SboShape3Label) : bool :=
  SboML.in_closed_range l (s3 S3UID.HEAD_M4) (s3 S3UID.HEAD_P8).

Definition nextPrevStem (aL : SboShape3Label) (aNext : bool) : SboShape3Label :=
  let nL := next aL (stepOf aNext) in
  if isCCD_LAT aL then (if isCCD_LAT nL then nL else aL) else
  if isCCD_STD nL then nL else aL.

Definition getCCDRange (aL : SboShape3Label) : SboShape3Label :=
  if isCCD_STD aL then s3 S3UID.RANGE_CCD_STD else
  if isCCD_LAT aL then s3 S3UID.RANGE_CCD_LAT else
  nullLabel.

Definition getSimilarOffset (aOffset : Z) (aSourceR aTargetR : SboShape3Label) : Z :=
  aOffset.

Definition getSize (aL : SboShape3Label) : Z :=
  if isCCD_STD aL then uid aL - uid (s3 S3UID.STEM_STD_1) else
  if isCCD_LAT aL then uid aL - uid (s3 S3UID.STEM_LAT_1) else
  0.

(** [getHeadTop] returns a [float] that the source evaluates in single
    precision; the model keeps the exact value of the expression, from
    which the computed one differs by the rounding of one product and one
    sum (the computed head tops of STD_3 and LAT_3, for instance, differ by
    a little less than 4, those of STD_4 and LAT_4 by a little more).  Only
    comparisons with a margin are stated about it. *)
Definition getHeadTop (aL : SboShape3Label) : Q :=
  if aL =? s3 S3UID.STEM_STD_1 then (27.0 + 0 * 1.05)%Q else
  if aL =? s3 S3UID.STEM_STD_2 then (27.0 + 1 * 1.05)%Q else
  if aL =? s3 S3UID.STEM_STD_3 then (27.0 + 2 * 1.05)%Q else
  if aL =? s3 S3UID.STEM_STD_4 then (27.0 + 3 * 1.05)%Q else
  if aL =? s3 S3UID.STEM_STD_5 then (27.0 + 4 * 1.05)%Q else
  if aL =? s3 S3UID.STEM_STD_6 then (27.0 + 5 * 1.05)%Q else
  if aL =? s3 S3UID.STEM_STD_7 then (27.0 + 6 * 1.15)%Q else
  if aL =? s3 S3UID.STEM_STD_8 then (27.0 + 7 * 1.15)%Q else
  if aL =? s3 S3UID.STEM_STD_9 then (27.0 + 8 * 1.15)%Q else
  if aL =? s3 S3UID.STEM_STD_10 then (27.0 + 9 * 1.25)%Q else
  if aL =? s3 S3UID.STEM_STD_11 then (27.0 + 10 * 1.25)%Q else
  if aL =? s3 S3UID.STEM_STD_12 then (27.0 + 11 * 1.25)%Q else
  if aL =? s3 S3UID.STEM_STD_13 then (27.0 + 12 * 1.25)%Q else
  if aL =? s3 S3UID.STEM_STD_14 then (27.0 + 13 * 1.25)%Q else
  if aL =? s3 S3UID.STEM_LAT_1 then (31.0 + 0 * 1.05)%Q else
  if aL =? s3 S3UID.STEM_LAT_2 then (31.0 + 1 * 1.05)%Q else
  if aL =? s3 S3UID.STEM_LAT_3 then (31.0 + 2 * 1.05)%Q else
  if aL =? s3 S3UID.STEM_LAT_4 then (31.0 + 3 * 1.05)%Q else
  if aL =? s3 S3UID.STEM_LAT_5 then (31.0 + 4 * 1.05)%Q else
  if aL =? s3 S3UID.STEM_LAT_6 then (31.0 + 5 * 1.05)%Q else
  if aL =? s3 S3UID.STEM_LAT_7 then (31.0 + 6 * 1.15)%Q else
  if aL =? s3 S3UID.STEM_LAT_8 then (31.0 + 7 * 1.15)%Q else
  if aL =? s3 S3UID.STEM_LAT_9 then (31.0 + 8 * 1.15)%Q else
  if aL =? s3 S3UID.STEM_LAT_10 then (31.0 + 9 * 1.25)%Q else
  if aL =? s3 S3UID.STEM_LAT_11 then (31.0 + 10 * 1.25)%Q else
  if aL =? s3 S3UID.STEM_LAT_12 then (31.0 + 11 * 1.25)%Q else
  if aL =? s3 S3UID.STEM_LAT_13 then (31.0 + 12 * 1.25)%Q else
  if aL =? s3 S3UID.STEM_LAT_14 then (31.0 + 13 * 1.25)%Q else
  0%Q.

Definition _rSTD := mkRT 0 13 (s3 S3UID.RANGE_CCD_STD) "STD".
Definition _rLAT := mkRT 14 27 (s3 S3UID.RANGE_CCD_LAT) "LAT".

Definition ranges : list RT := [_rSTD; _rLAT].

(** [CCD_Optimys::similarLabel]; a failed [std::find_if] lookup
    (undefined behaviour in the source) is [None]. *)
Definition similarLabel (aL aNextCCDRange : SboShape3Label) : option SboShape3Label :=
  match find_range ranges (getCCDRange aL), find_range ranges aNextCCDRange with
  | Some itCurrR, Some itNextR =>
      let lower := s3 lowerS3UID in
      let offset := uid aL - startIdx itCurrR - uid lower in
      let offset := getSimilarOffset offset (label itCurrR) (label itNextR) in
      Some (next lower (offset + startIdx itNextR))
  | _, _ => None
  end.

(** *** Notions used to state properties of the search *)

(** The families with their range markers, in the order in which
    [CCD_Optimys::range] tests them. *)
Definition families : list ((SboShape3Label -> bool) * SboShape3Label) :=
  [(isCCD_STD, s3 S3UID.RANGE_CCD_STD); (isCCD_LAT, s3 S3UID.RANGE_CCD_LAT)].

Definition lastOffset (aR : SboShape3Label) : Z :=
  match find_range ranges aR with
  | Some rt => endIdx rt - startIdx rt
  | None => 0
  end.

Definition firstLabel (aR : SboShape3Label) : SboShape3Label :=
  match find_range ranges aR with
  | Some rt => next (s3 lowerS3UID) (startIdx rt)
  | None => nullLabel
  end.

(** The offset [similarLabel] aims at: [getSimilarOffset] keeps it. *)
Definition adjustedOffset (aL aTargetR : SboShape3Label) : Z := getSize aL.

Definition stemToStemMatrix (aOriginFemIC aTargetFemIC : SboFemImplantConfig) : SboMatrix3 :=
  idMat3.

Definition inRange (aL : SboShape3Label) : bool :=
  SboML.in_closed_range aL (s3 lowerS3UID) (s3 upperS3UID).

Definition fillAndValidAssembly (aFemIC : SboFemImplantConfig) : SboFemImplantConfig :=
  let myFemIC := setValidAssembly false aFemIC in
  if negb (SboAnatomLocation.eqb (requestedSide myFemIC) SboAnatomLocation.None) then
    let bs := isStem (stemLabel myFemIC) in
    let bh := isHead (headLabel myFemIC) in
    let bn := negb (isSet (neckLabel myFemIC)) in
    let myFemIC :=
      if negb (isSet (cutPlaneLabel myFemIC))
      then setCutPlaneLabel (s3 S3UID.CUTPLANE) myFemIC else myFemIC in
    let b := bs && bh && bn in
    if b then
      let myFemIC := setStemProductName ProductName myFemIC in
      let myFemIC := setDistalShaftProductName EmptyString myFemIC in
      let myFemIC := setHeadProductName ProductName myFemIC in
      let myFemIC := setNeckProductName EmptyString myFemIC in
      let myFemIC := setImplantSide SboAnatomLocation.None myFemIC in
      setValidAssembly true myFemIC
    else myFemIC
  else myFemIC.

Definition defaultFemIC (aRequestedSide : SboAnatomLocation.t) : SboFemImplantConfig :=
  let myFemIC :=
    mkFemIC aRequestedSide SboAnatomLocation.None (s3 defaultS3StemUID)
            (s3 defaultS3HeadUID) nullLabel (s3 S3UID.CUTPLANE)
            ProductName ProductName ProductName EmptyString false in
  fillAndValidAssembly myFemIC.

Definition nextPrev (aFemIC : SboFemImplantConfig) (aNext : bool) : SboFemImplantConfig :=
  let fc := aFemIC in
  setStemLabel (nextPrevStem (stemLabel fc) aNext) fc.

End Optimys.

(** * The FIT scheme (lima_fit_scheme.h)

    A side-specific stem: seven right and seven left sizes. *)

Module Fit.

Module S3UID.
Inductive t : Set :=
  | STEM_1_R | STEM_2_R | STEM_3_R | STEM_4_R | STEM_5_R | STEM_6_R |
  STEM_7_R | STEM_1_L | STEM_2_L | STEM_3_L | STEM_4_L | STEM_5_L | STEM_6_L
  | STEM_7_L | CUTPLANE | HEAD_M4 | HEAD_P0 | HEAD_P4 | HEAD_P8.

(** Position of an enumerator after the first one. *)
Definition index (e : t) : Z :=
  match e with
  | STEM_1_R => 0
  | STEM_2_R => 1
  | STEM_3_R => 2
  | STEM_4_R => 3
  | STEM_5_R => 4
  | STEM_6_R => 5
  | STEM_7_R => 6
  | STEM_1_L => 7
  | STEM_2_L => 8
  | STEM_3_L => 9
  | STEM_4_L => 10
  | STEM_5_L => 11
  | STEM_6_L => 12
  | STEM_7_L => 13
  | CUTPLANE => 14
  | HEAD_M4 => 15
  | HEAD_P0 => 16
  | HEAD_P4 => 17
  | HEAD_P8 => 18
  end.
End S3UID.

Definition LimaRangeStartAt : SboShape3UID := 60000 + 750.
Definition CompanyName : string := "LC".
Definition ProductName : string := "LC FIT".

(** [STEM_1_R = LimaRangeStartAt]. *)
Definition utype (e : S3UID.t) : SboShape3UID := LimaRangeStartAt + S3UID.index e.

Definition lowerS3UID := S3UID.STEM_1_R.
Definition upperS3UID := S3UID.HEAD_P8.
Definition defaultS3UID_R := S3UID.STEM_7_R.
Definition defaultS3UID_L := S3UID.STEM_7_L.

Definition s3 (e : S3UID.t) : SboShape3Label := utype e.

Definition getItemSize (aLabel : SboShape3Label) : Z :=
  if (aLabel =? s3 S3UID.STEM_1_R) || (aLabel =? s3 S3UID.STEM_1_L) then 1 else
  if (aLabel =? s3 S3UID.STEM_2_R) || (aLabel =? s3 S3UID.STEM_2_L) then 2 else
  if (aLabel =? s3 S3UID.STEM_3_R) || (aLabel =? s3 S3UID.STEM_3_L) then 3 else
  if (aLabel =? s3 S3UID.STEM_4_R) || (aLabel =? s3 S3UID.STEM_4_L) then 4 else
  if (aLabel =? s3 S3UID.STEM_5_R) || (aLabel =? s3 S3UID.STEM_5_L) then 5 else
  if (aLabel =? s3 S3UID.STEM_6_R) || (aLabel =? s3 S3UID.STEM_6_L) then 6 else
  7.

(** [isRight] returns the truth value of the range test as an [int]. *)
Definition isRight (aLabel : SboShape3Label) : bool :=
  SboML.in_closed_range aLabel (s3 lowerS3UID) (s3 S3UID.STEM_7_R).

Definition inRange (aL : SboShape3Label) : bool :=
  SboML.in_closed_range aL (s3 lowerS3UID) (s3 upperS3UID).

Definition headToNeckMatrix (aHeadLabel aNeckLabel : SboShape3Label) : SboMatrix3 :=
  idMat3.

Definition headToStemMatrix (aHeadLabel aStemLabel : SboShape3Label) : SboMatrix3 :=
  let l : Q :=
    if aHeadLabel =? s3 S3UID.HEAD_M4 then (0.0 + - 8.0)%Q
    else if aHeadLabel =? s3 S3UID.HEAD_P0 then (0.0 + - 4.0)%Q
    else if aHeadLabel =? s3 S3UID.HEAD_P4 then (0.0 + 0.0)%Q
    else if aHeadLabel =? s3 S3UID.HEAD_P8 then (0.0 + 4.3)%Q
    else 0.0%Q in
  transMat3 (Point3 l 0 0).

Definition cutPlane (aStemLabel : SboShape3Label) : SboPlane3 :=
  let l : Q :=
    if getItemSize aStemLabel =? 2 then (-36.5)%Q else
    if getItemSize aStemLabel =? 3 then (-38.0)%Q else
    if getItemSize aStemLabel =? 4 then (-39.5)%Q else
    if getItemSize aStemLabel =? 5 then (-41.5)%Q else
    if getItemSize aStemLabel =? 6 then (-43.4)%Q else
    if getItemSize aStemLabel =? 7 then (-45.6)%Q else
    (-34.4)%Q in
  Plane3 (Point3 l 0 0) (Point3 1 0 0).

Definition cutPlaneBbox (aStemLabel : SboShape3Label) : SboBbox3 :=
  let pmin := Point3 (-25.0) (-25.0) (-25.0) in
  let pmax := Point3 25.0 25.0 25.0 in
  let l : Q :=
    if getItemSize aStemLabel =? 2 then (-36.5)%Q else
    if getItemSize aStemLabel =? 3 then (-38.0)%Q else
    if getItemSize aStemLabel =? 4 then (-39.5)%Q else
    if getItemSize aStemLabel =? 5 then (-41.5)%Q else
    if getItemSize aStemLabel =? 6 then (-43.4)%Q else
    if getItemSize aStemLabel =? 7 then (-45.6)%Q else
    (-34.4)%Q in
  let t := transMat3 (Point3 l 0 0) in
  makeBbox3 (applyMat3 t pmin) (applyMat3 t pmax).

Definition offsetFF (aStemLabel : SboShape3Label) : SboVector3 :=
  let l : Q :=
    if getItemSize aStemLabel =? 2 then (36.5 - 34.4 + 14.0)%Q else
    if getItemSize aStemLabel =? 3 then (38.0 - 34.4 + 13.0)%Q else
    if getItemSize aStemLabel =? 4 then (39.5 - 34.4 + 12.0)%Q else
    if getItemSize aStemLabel =? 5 then (41.5 - 34.4 + 11.0)%Q else
    if getItemSize aStemLabel =? 6 then (43.4 - 34.4 + 10.0)%Q else
    if getItemSize aStemLabel =? 7 then (45.6 - 34.4 + 9.0)%Q else
    15.0%Q in
  Point3 l 0 0.

End Fit.

(** * The common interface of the schemes

    Every scheme class implements the same virtual interface; the functions
    below dispatch on the product.  The registry gives the product
    information of the four products that read it (Optimys carries its own
    constants). *)

Inductive Product : Set := CORAIL | AMISTEM | ECOFIT | ACTIS | OPTIMYS.

Module ProductScheme.

Section Dispatch.

Variable reg : Product -> ProductInfo.

Definition isStem (p : Product) (l : SboShape3Label) : bool :=
  match p with
  | CORAIL => Corail.isStem (reg CORAIL) l
  | AMISTEM => Amistem.isStem (reg AMISTEM) l
  | ECOFIT => Ecofit.isStem (reg ECOFIT) l
  | ACTIS => Actis.isStem (reg ACTIS) l
  | OPTIMYS => Optimys.isStem l
  end.

Definition isHead (p : Product) (l : SboShape3Label) : bool :=
  match p with
  | CORAIL => Corail.isHead (reg CORAIL) l
  | AMISTEM => Amistem.isHead (reg AMISTEM) l
  | ECOFIT => Ecofit.isHead (reg ECOFIT) l
  | ACTIS => Actis.isHead (reg ACTIS) l
  | OPTIMYS => Optimys.isHead l
  end.

(** The label [s3(S3UID::CUTPLANE)] of the product. *)
Definition cutPlaneS3 (p : Product) : SboShape3Label :=
  match p with
  | CORAIL => Corail.s3 (reg CORAIL) Corail.S3UID.CUTPLANE
  | AMISTEM => Amistem.s3 (reg AMISTEM) Amistem.S3UID.CUTPLANE
  | ECOFIT => Ecofit.s3 (reg ECOFIT) Ecofit.S3UID.CUTPLANE
  | ACTIS => Actis.s3 (reg ACTIS) Actis.S3UID.CUTPLANE
  | OPTIMYS => Optimys.s3 Optimys.S3UID.CUTPLANE
  end.

Definition families (p : Product) : list ((SboShape3Label -> bool) * SboShape3Label) :=
  match p with
  | CORAIL => Corail.families (reg CORAIL)
  | AMISTEM => Amistem.families (reg AMISTEM)
  | ECOFIT => Ecofit.families (reg ECOFIT)
  | ACTIS => Actis.families (reg ACTIS)
  | OPTIMYS => Optimys.families
  end.

(** The range markers of the product: the valid targets of the search. *)
Definition rangeMarkers (p : Product) : list SboShape3Label :=
  map snd (families p).

(** The markers of the families whose membership test accepts [l]. *)
Definition memberships (p : Product) (l : SboShape3Label) : list SboShape3Label :=
  map snd (filter (fun f => fst f l) (families p)).

(** The marker of the family of a label, as each scheme computes it. *)
Definition subRangeOf (p : Product) (l : SboShape3Label) : SboShape3Label :=
  match p with
  | CORAIL => Corail.getCCDRange (reg CORAIL) l
  | AMISTEM => Amistem.getCCDRange (reg AMISTEM) l
  | ECOFIT => Ecofit.R.subRange (Ecofit.getRangeStats (reg ECOFIT) l)
  | ACTIS => Actis.R.subRange (Actis.getRangeStats (reg ACTIS) l)
  | OPTIMYS => Optimys.getCCDRange l
  end.

(** The offset of a label within its family, as each scheme computes it. *)
Definition offsetWithin (p : Product) (l : SboShape3Label) : Z :=
  match p with
  | CORAIL => Corail.getOffset (reg CORAIL) l
  | AMISTEM => Amistem.getStemSize (reg AMISTEM) l
  | ECOFIT => Ecofit.R.size (Ecofit.getRangeStats (reg ECOFIT) l) l
  | ACTIS => Actis.R.size (Actis.getRangeStats (reg ACTIS) l) l
  | OPTIMYS => Optimys.getSize l
  end.

Definition nextPrevStem (p : Product) (l : SboShape3Label) (aNext : bool) : SboShape3Label :=
  match p with
  | CORAIL => Corail.nextPrevStem (reg CORAIL) l aNext
  | AMISTEM => Amistem.nextPrevStem (reg AMISTEM) l aNext
  | ECOFIT => Ecofit.nextPrevStem (reg ECOFIT) l aNext
  | ACTIS => Actis.nextPrevStem (reg ACTIS) l aNext
  | OPTIMYS => Optimys.nextPrevStem l aNext
  end.

Definition similarLabel (p : Product) (l aNextCCDRange : SboShape3Label) : option SboShape3Label :=
  match p with
  | CORAIL => Corail.similarLabel (reg CORAIL) l aNextCCDRange
  | AMISTEM => Some (Amistem.similarLabel (reg AMISTEM) l aNextCCDRange)
  | ECOFIT => Some (Ecofit.similarLabel (reg ECOFIT) l aNextCCDRange)
  | ACTIS => Some (Actis.similarLabel (reg ACTIS) l aNextCCDRange)
  | OPTIMYS => Optimys.similarLabel l aNextCCDRange
  end.

Definition fillAndValidAssembly (p : Product) (c : SboFemImplantConfig) : SboFemImplantConfig :=
  match p with
  | CORAIL => Corail.fillAndValidAssembly (reg CORAIL) c
  | AMISTEM => Amistem.fillAndValidAssembly (reg AMISTEM) c
  | ECOFIT => Ecofit.fillAndValidAssembly (reg ECOFIT) c
  | ACTIS => Actis.fillAndValidAssembly (reg ACTIS) c
  | OPTIMYS => Optimys.fillAndValidAssembly c
  end.

Definition nextPrev (p : Product) (c : SboFemImplantConfig) (aNext : bool) : SboFemImplantConfig :=
  match p with
  | CORAIL => Corail.nextPrev (reg CORAIL) c aNext
  | AMISTEM => Amistem.nextPrev (reg AMISTEM) c aNext
  | ECOFIT => Ecofit.nextPrev (reg ECOFIT) c aNext
  | ACTIS => Actis.nextPrev (reg ACTIS) c aNext
  | OPTIMYS => Optimys.nextPrev c aNext
  end.

Definition inRange (p : Product) (l : SboShape3Label) : bool :=
  match p with
  | CORAIL => Corail.inRange (reg CORAIL) l
  | AMISTEM => Amistem.inRange (reg AMISTEM) l
  | ECOFIT => Ecofit.inRange (reg ECOFIT) l
  | ACTIS => Actis.inRange (reg ACTIS) l
  | OPTIMYS => Optimys.inRange l
  end.

Definition defaultFemIC (p : Product) (aRequestedSide : SboAnatomLocation.t)
  : SboFemImplantConfig :=
  match p with
  | CORAIL => Corail.defaultFemIC (reg CORAIL) aRequestedSide
  | AMISTEM => Amistem.defaultFemIC (reg AMISTEM) aRequestedSide
  | ECOFIT => Ecofit.defaultFemIC (reg ECOFIT) aRequestedSide
  | ACTIS => Actis.defaultFemIC (reg ACTIS) aRequestedSide
  | OPTIMYS => Optimys.defaultFemIC aRequestedSide
  end.

Definition stemToStemMatrix (p : Product) (aOriginFemIC aTargetFemIC : SboFemImplantConfig)
  : SboMatrix3 :=
  match p with
  | CORAIL => Corail.stemToStemMatrix (reg CORAIL) aOriginFemIC aTargetFemIC
  | AMISTEM => Amistem.stemToStemMatrix (reg AMISTEM) aOriginFemIC aTargetFemIC
  | ECOFIT => Ecofit.stemToStemMatrix (reg ECOFIT) aOriginFemIC aTargetFemIC
  | ACTIS => Actis.stemToStemMatrix (reg ACTIS) aOriginFemIC aTargetFemIC
  | OPTIMYS => Optimys.stemToStemMatrix aOriginFemIC aTargetFemIC
  end.

(** The label is the cut-plane label of the product. *)
Definition isCutPlane (p : Product) (l : SboShape3Label) : bool :=
  l =? cutPlaneS3 p.

(** The label is one of the range markers of the product. *)
Definition isRangeMarker (p : Product) (l : SboShape3Label) : bool :=
  existsb (Z.eqb l) (rangeMarkers p).

(** How many of the four classes accept the label. *)
Definition classCount (p : Product) (l : SboShape3Label) : Z :=
  (if isStem p l then 1 else 0) + (if isHead p l then 1 else 0)
  + (if isCutPlane p l then 1 else 0) + (if isRangeMarker p l then 1 else 0).

(** The product name each scheme stamps on a valid assembly. *)
Definition productNameOf (p : Product) : string :=
  match p with
  | CORAIL => Corail.ProductName (reg CORAIL)
  | AMISTEM => Amistem.ProductName (reg AMISTEM)
  | ECOFIT => Ecofit.ProductName (reg ECOFIT)
  | ACTIS => Actis.ProductName (reg ACTIS)
  | OPTIMYS => Optimys.ProductName
  end.

(** *** Notions used to state the properties *)

(** [n] is a stem label of the family of [l]. *)
Definition sameSubRange (p : Product) (l n : SboShape3Label) : bool :=
  isStem p n && (subRangeOf p n =? subRangeOf p l).

Definition adjustedOffset (p : Product) (l aTargetR : SboShape3Label) : Z :=
  match p with
  | CORAIL => Corail.adjustedOffset (reg CORAIL) l aTargetR
  | AMISTEM => Amistem.adjustedOffset (reg AMISTEM) l aTargetR
  | ECOFIT => Ecofit.adjustedOffset (reg ECOFIT) l aTargetR
  | ACTIS => Actis.adjustedOffset (reg ACTIS) l aTargetR
  | OPTIMYS => Optimys.adjustedOffset l aTargetR
  end.

Definition lastOffset (p : Product) (aR : SboShape3Label) : Z :=
  match p with
  | CORAIL => Corail.lastOffset (reg CORAIL) aR
  | AMISTEM => Amistem.lastOffset (reg AMISTEM) aR
  | ECOFIT => Ecofit.lastOffset (reg ECOFIT) aR
  | ACTIS => Actis.lastOffset (reg ACTIS) aR
  | OPTIMYS => Optimys.lastOffset aR
  end.

Definition firstLabel (p : Product) (aR : SboShape3Label) : SboShape3Label :=
  match p with
  | CORAIL => Corail.firstLabel (reg CORAIL) aR
  | AMISTEM => Amistem.firstLabel (reg AMISTEM) aR
  | ECOFIT => Ecofit.firstLabel (reg ECOFIT) aR
  | ACTIS => Actis.firstLabel (reg ACTIS) aR
  | OPTIMYS => Optimys.firstLabel aR
  end.

(** The size of [l] has no correspondent in the family of [aTargetR]: the
    offset the rule aims at falls outside the offsets of that family. *)
Definition noCorrespondent (p : Product) (l aTargetR : SboShape3Label) : bool :=
  let a := adjustedOffset p l aTargetR in
  (a <? 0) || (lastOffset p aTargetR <? a).

(** What clamping into the target family costs, in offsets. *)
Definition clampLoss (p : Product) (l aTargetR : SboShape3Label) : Z :=
  let a := adjustedOffset p l aTargetR in
  Z.abs (a - SboML.clamp a 0 (lastOffset p aTargetR)).

(** Forward into [aTargetR], then back into the family of [l]. *)
Definition roundTrip (p : Product) (l aTargetR : SboShape3Label) : option SboShape3Label :=
  match similarLabel p l aTargetR with
  | Some m => similarLabel p m (subRangeOf p l)
  | None => None
  end.

(** The one place where the Ecofit remapping sends two sizes of the
    12-size families to one size of a 10-size family: size 8. *)
Definition mergedSize (p : Product) (l aTargetR : SboShape3Label) : bool :=
  match p with
  | ECOFIT =>
      Ecofit.isCCD_133 (reg ECOFIT) l
      && (offsetWithin p l =? 8)
      && negb (Ecofit.isSubRange133 (reg ECOFIT) aTargetR)
  | _ => false
  end.

End Dispatch.

(** The schemes whose facade stamps the implant side [None] ("straight
    stem"): the side-free products. *)
Definition sideFree (p : Product) : bool :=
  match p with
  | CORAIL | AMISTEM | OPTIMYS => true
  | ECOFIT | ACTIS => false
  end.

(** The side requirement as the specification words it. *)
Definition sideRequirement (p : Product) (c : SboFemImplantConfig) : Prop :=
  if sideFree p then True else requestedSide c <> SboAnatomLocation.None.

End ProductScheme.

(** A registry with base 0, against which label arithmetic is evaluated, and
    a sample registry for concrete instances. *)
Definition originInfo : ProductInfo := mkProductInfo 0 EmptyString EmptyString.

Definition sampleRegistry (p : Product) : ProductInfo :=
  match p with
  | CORAIL => mkProductInfo 20000 "JNJ" "JNJ CORAIL"
  | AMISTEM => mkProductInfo 30000 "MDCA" "MDCA AMISTEM"
  | ECOFIT => mkProductInfo 40000 "ICAST" "ICAST ECOFIT"
  | ACTIS => mkProductInfo 21000 "JNJ" "JNJ ACTIS"
  | OPTIMYS => mkProductInfo 130500 "MYS" "MYS OPTIMYS"
  end.

(** A configuration with the given requested side, stem label and head
    label, and nothing else set. *)
Definition sampleConfig (side : SboAnatomLocation.t) (st hd : SboShape3Label)
  : SboFemImplantConfig :=
  mkFemIC side SboAnatomLocation.None st hd nullLabel nullLabel
          EmptyString EmptyString EmptyString EmptyString false.

(** A label moved by [b]; the unset label stays unset. *)
Definition shiftLabel (b : Z) (y : SboShape3Label) : SboShape3Label :=
  if y =? nullLabel then nullLabel else y + b.

(** Range statistics with their labels moved by [b]. *)
Definition Amistem_shiftR (b : Z) (r : Amistem.R) : Amistem.R :=
  Amistem.mkR (Amistem.r0 r) (Amistem.r1 r) (Amistem.l r) (Amistem.s r)
              (shiftLabel b (Amistem.label0 r)).

Definition Ecofit_shiftR (b : Z) (r : Ecofit.R.t) : Ecofit.R.t :=
  Ecofit.R.mk (Ecofit.R.r0 r) (Ecofit.R.r1 r)
              (shiftLabel b (Ecofit.R.label0 r)) (shiftLabel b (Ecofit.R.subRange r)).

Definition Actis_shiftR (b : Z) (r : Actis.R.t) : Actis.R.t :=
  Actis.R.mk (Actis.R.r0 r) (Actis.R.r1 r)
             (shiftLabel b (Actis.R.label0 r)) (shiftLabel b (Actis.R.subRange r)).

(** Exhaustive check of a boolean property over [n] consecutive integers. *)
Fixpoint allInRange (f : Z -> bool) (lo : Z) (n : nat) : bool :=
  match n with
  | O => true
  | S n' => f lo && allInRange f (lo + 1) n'
  end.

(** ** Evaluation at base 0

    The registry that puts every product at base 0, the amount by which the
    labels of a product are moved under a registry (Optimys carries its own
    base and is not moved), and the exhaustive check of a boolean property
    over the stem labels of every product at base 0. *)
Definition originRegistry (p : Product) : ProductInfo := originInfo.

Definition registryBase (reg : Product -> ProductInfo) (p : Product) : Z :=
  match p with
  | OPTIMYS => 0
  | _ => productRangeStartsAt (reg p)
  end.

Definition allProducts : list Product := [CORAIL; AMISTEM; ECOFIT; ACTIS; OPTIMYS].

Definition firstStemAtOrigin (p : Product) : Z :=
  match p with
  | CORAIL => Corail.s3 originInfo Corail.lowerS3UID
  | AMISTEM => Amistem.s3 originInfo Amistem.lowerS3UID
  | ECOFIT => Ecofit.s3 originInfo Ecofit.lowerS3UID
  | ACTIS => Actis.s3 originInfo Actis.lowerS3UID
  | OPTIMYS => Optimys.s3 Optimys.lowerS3UID
  end.

Definition stemCount (p : Product) : nat :=
  match p with
  | CORAIL => 76
  | AMISTEM => 40
  | ECOFIT => 54
  | ACTIS => 26
  | OPTIMYS => 28
  end.

Definition allStems (f : Product -> Z -> bool) : bool :=
  forallb (fun p => allInRange (f p) (firstStemAtOrigin p) (stemCount p)) allProducts.

(** The first label of a product at base 0 and the number of its labels. *)
Definition labelCount (p : Product) : nat :=
  match p with
  | CORAIL => 90
  | AMISTEM => 50
  | ECOFIT => 64
  | ACTIS => 33
  | OPTIMYS => 35
  end.

(** * Properties *)

(** ** Arithmetic of shifted labels

    Every scheme reads its product base only to number its labels, so a
    scheme at an arbitrary base behaves as the scheme at base 0 on labels
    moved by the base.  The lemmas of this part make that precise; the
    properties are then checked exhaustively over the finitely many stem
    labels at base 0. *)

Lemma in_closed_range_shift (b l lo hi : Z) :
  SboML.in_closed_range l (b + lo) (b + hi) = SboML.in_closed_range (l - b) lo hi.
Proof.
  unfold SboML.in_closed_range.
  destruct (Z.leb_spec (b + lo) l), (Z.leb_spec lo (l - b)),
           (Z.leb_spec l (b + hi)), (Z.leb_spec (l - b) hi);
    try reflexivity; lia.
Qed.

Lemma in_closed_range_bounds (l lo hi : Z) :
  SboML.in_closed_range l lo hi = true <-> lo <= l <= hi.
Proof.
  unfold SboML.in_closed_range. rewrite andb_true_iff, !Z.leb_le. tauto.
Qed.

Lemma eqb_shift (b x c : Z) : (x =? b + c) = (x - b =? c).
Proof.
  destruct (Z.eqb_spec x (b + c)), (Z.eqb_spec (x - b) c); try reflexivity; lia.
Qed.

Lemma eqb_shift_l (b x c : Z) : (b + c =? x) = (c =? x - b).
Proof.
  destruct (Z.eqb_spec (b + c) x), (Z.eqb_spec c (x - b)); try reflexivity; lia.
Qed.

Lemma eqb_add_cancel (b x y : Z) : (x + b =? y + b) = (x =? y).
Proof.
  destruct (Z.eqb_spec (x + b) (y + b)), (Z.eqb_spec x y); try reflexivity; lia.
Qed.

Lemma next_shift (l s b : Z) : next l s - b = next (l - b) s.
Proof. unfold next. lia. Qed.

Lemma add_sub_cancel (x b : Z) : x + b - b = x.
Proof. lia. Qed.

Lemma clamp_bounds (v lo hi : Z) : lo <= hi -> lo <= SboML.clamp v lo hi <= hi.
Proof.
  intros H. unfold SboML.clamp.
  destruct (Z.ltb_spec v lo); [lia|]. destruct (Z.ltb_spec hi v); lia.
Qed.

Lemma clamp_inside (v lo hi : Z) : lo <= v <= hi -> SboML.clamp v lo hi = v.
Proof.
  intros H. unfold SboML.clamp.
  destruct (Z.ltb_spec v lo); [lia|]. destruct (Z.ltb_spec hi v); lia.
Qed.

Lemma allInRange_spec (f : Z -> bool) (n : nat) :
  forall lo, allInRange f lo n = true ->
  forall k, lo <= k < lo + Z.of_nat n -> f k = true.
Proof.
  induction n as [|n IH]; intros lo H k Hk.
  - simpl in Hk. lia.
  - simpl in H. apply andb_true_iff in H. destruct H as [H0 H1].
    destruct (Z.eq_dec k lo) as [->|Hne]; [assumption|].
    apply (IH (lo + 1)); [assumption|lia].
Qed.

(** Two family tables that agree up to the base yield the same memberships
    up to the base. *)
Lemma memberships_shift (b l : Z) (fs gs : list ((SboShape3Label -> bool) * SboShape3Label)) :
  Forall2 (fun f g => fst f l = fst g (l - b) /\ snd f = snd g + b) fs gs ->
  map snd (filter (fun f => fst f l) fs)
  = map (fun x => x + b) (map snd (filter (fun g => fst g (l - b)) gs))
  /\ existsb (fun f => fst f l) fs = existsb (fun g => fst g (l - b)) gs
  /\ map snd fs = map (fun x => x + b) (map snd gs).
Proof.
  unfold SboShape3Label in *.
  induction 1 as [|f g fs gs [Hp Hm] _ IH]; [repeat split|].
  destruct IH as (IH1 & IH2 & IH3). cbn [filter existsb map].
  split; [|split].
  - rewrite Hp. destruct (fst g (l - b)); cbn [map]; rewrite IH1, ?Hm; reflexivity.
  - rewrite Hp, IH2. reflexivity.
  - rewrite Hm, IH3. reflexivity.
Qed.

Lemma In_map_shift (b r : Z) (ms : list Z) :
  In r (map (fun x => x + b) ms) -> In (r - b) ms.
Proof.
  intros H. apply in_map_iff in H. destruct H as (x & Hx & Hin).
  replace (r - b) with x by lia. exact Hin.
Qed.

Lemma shiftLabel_set (b y : Z) : y <> nullLabel -> shiftLabel b y = y + b.
Proof.
  intros H. unfold shiftLabel. destruct (Z.eqb_spec y nullLabel); [contradiction|reflexivity].
Qed.

Lemma eqb_shift_sum (b x c : Z) : (x + b =? b + c) = (x =? c).
Proof.
  destruct (Z.eqb_spec (x + b) (b + c)), (Z.eqb_spec x c); try reflexivity; lia.
Qed.

Lemma memberships_incl (l x : Z) (fs : list ((SboShape3Label -> bool) * SboShape3Label)) :
  map snd (filter (fun f => fst f l) fs) = [x] -> In x (map snd fs).
Proof.
  intros H. assert (Hin : In x (map snd (filter (fun f => fst f l) fs)))
    by (rewrite H; left; reflexivity).
  apply in_map_iff in Hin. destruct Hin as (f & Hf & Hin).
  apply filter_In in Hin. apply in_map_iff. exists f. tauto.
Qed.

Lemma add_sub_cancel_l (x b : Z) : b + x - b = x.
Proof. lia. Qed.

Lemma if_sub (c : bool) (u v b : Z) :
  (if c then u else v) - b = if c then u - b else v - b.
Proof. destruct c; reflexivity. Qed.

Ltac split_ifs :=
  repeat match goal with
  | |- context [if ?c then _ else _] => destruct c
  end.

(** ** Corail relative to its base *)

Lemma Corail_s3_shift (info : ProductInfo) (e : Corail.S3UID.t) :
  Corail.s3 info e = productRangeStartsAt info + Corail.s3 originInfo e.
Proof.
  unfold Corail.s3, Corail.utype, Corail.ProductRangeStartsAt, originInfo.
  cbn [productRangeStartsAt]. lia.
Qed.

Ltac corail_range info :=
  rewrite !(Corail_s3_shift info); apply in_closed_range_shift.

Lemma Corail_isCCD_KS_STD135_shift info l :
  Corail.isCCD_KS_STD135 info l = Corail.isCCD_KS_STD135 originInfo (l - productRangeStartsAt info).
Proof. unfold Corail.isCCD_KS_STD135. corail_range info. Qed.

Lemma Corail_isCCD_KA_STD135_shift info l :
  Corail.isCCD_KA_STD135 info l = Corail.isCCD_KA_STD135 originInfo (l - productRangeStartsAt info).
Proof. unfold Corail.isCCD_KA_STD135. corail_range info. Qed.

Lemma Corail_isCCD_KHO_S_135_shift info l :
  Corail.isCCD_KHO_S_135 info l = Corail.isCCD_KHO_S_135 originInfo (l - productRangeStartsAt info).
Proof. unfold Corail.isCCD_KHO_S_135. corail_range info. Qed.

Lemma Corail_isCCD_KHO_A_135_shift info l :
  Corail.isCCD_KHO_A_135 info l = Corail.isCCD_KHO_A_135 originInfo (l - productRangeStartsAt info).
Proof. unfold Corail.isCCD_KHO_A_135. corail_range info. Qed.

Lemma Corail_isCCD_KLA_125_shift info l :
  Corail.isCCD_KLA_125 info l = Corail.isCCD_KLA_125 originInfo (l - productRangeStartsAt info).
Proof. unfold Corail.isCCD_KLA_125. corail_range info. Qed.

Lemma Corail_isCCD_STD125_S_shift info l :
  Corail.isCCD_STD125_S info l = Corail.isCCD_STD125_S originInfo (l - productRangeStartsAt info).
Proof. unfold Corail.isCCD_STD125_S. corail_range info. Qed.

Lemma Corail_isCCD_STD125_A_shift info l :
  Corail.isCCD_STD125_A info l = Corail.isCCD_STD125_A originInfo (l - productRangeStartsAt info).
Proof. unfold Corail.isCCD_STD125_A. corail_range info. Qed.

Lemma Corail_isCCD_SN_S_shift info l :
  Corail.isCCD_SN_S info l = Corail.isCCD_SN_S originInfo (l - productRangeStartsAt info).
Proof. unfold Corail.isCCD_SN_S. corail_range info. Qed.

Lemma Corail_isCCD_SN_A_shift info l :
  Corail.isCCD_SN_A info l = Corail.isCCD_SN_A originInfo (l - productRangeStartsAt info).
Proof. unfold Corail.isCCD_SN_A. corail_range info. Qed.

Lemma Corail_isStem_shift info l :
  Corail.isStem info l = Corail.isStem originInfo (l - productRangeStartsAt info).
Proof. unfold Corail.isStem. corail_range info. Qed.

Lemma Corail_isHead_shift info l :
  Corail.isHead info l = Corail.isHead originInfo (l - productRangeStartsAt info).
Proof. unfold Corail.isHead. corail_range info. Qed.

Ltac corail_preds info :=
  rewrite ?(Corail_isCCD_KS_STD135_shift info), ?(Corail_isCCD_KA_STD135_shift info),
    ?(Corail_isCCD_KHO_S_135_shift info), ?(Corail_isCCD_KHO_A_135_shift info),
    ?(Corail_isCCD_KLA_125_shift info), ?(Corail_isCCD_STD125_S_shift info),
    ?(Corail_isCCD_STD125_A_shift info), ?(Corail_isCCD_SN_S_shift info),
    ?(Corail_isCCD_SN_A_shift info), ?(Corail_isStem_shift info),
    ?(Corail_isHead_shift info).

(** The stem labels at base 0 are the 76 integers from 90 on. *)
Lemma Corail_origin_stems (f : Z -> bool) :
  allInRange f 90 76 = true ->
  forall k, Corail.isStem originInfo k = true -> f k = true.
Proof.
  intros Hall k Hk. apply (allInRange_spec f 76 90 Hall).
  apply in_closed_range_bounds in Hk. change (90 <= k <= 165) in Hk.
  change (Z.of_nat 76) with 76. lia.
Qed.

Lemma Corail_nextPrevStem_shift info l a :
  Corail.nextPrevStem info l a
  = Corail.nextPrevStem originInfo (l - productRangeStartsAt info) a + productRangeStartsAt info.
Proof.
  unfold Corail.nextPrevStem. cbv zeta. corail_preds info.
  rewrite !next_shift. split_ifs; unfold next; lia.
Qed.

Lemma Corail_getCCDStartIdx_shift info l :
  Corail.getCCDStartIdx info l = Corail.getCCDStartIdx originInfo (l - productRangeStartsAt info).
Proof. unfold Corail.getCCDStartIdx. corail_preds info. reflexivity. Qed.

Lemma Corail_getOffset_shift info l :
  Corail.getOffset info l = Corail.getOffset originInfo (l - productRangeStartsAt info).
Proof.
  unfold Corail.getOffset. cbv zeta. rewrite (Corail_getCCDStartIdx_shift info).
  rewrite (Corail_s3_shift info). unfold uid. lia.
Qed.

Lemma Corail_getCCDRange_origin_set k :
  Corail.isStem originInfo k = true -> Corail.getCCDRange originInfo k <> nullLabel.
Proof.
  intros H.
  assert (Hf : negb (Corail.getCCDRange originInfo k =? nullLabel) = true)
    by (apply (Corail_origin_stems (fun k => negb (Corail.getCCDRange originInfo k =? nullLabel)));
        [vm_compute; reflexivity|exact H]).
  apply negb_true_iff, Z.eqb_neq in Hf. exact Hf.
Qed.

Lemma Corail_getCCDRange_shift info l :
  Corail.isStem info l = true ->
  Corail.getCCDRange info l
  = Corail.getCCDRange originInfo (l - productRangeStartsAt info) + productRangeStartsAt info.
Proof.
  rewrite (Corail_isStem_shift info). intros H.
  apply Corail_getCCDRange_origin_set in H. revert H.
  unfold Corail.getCCDRange. corail_preds info. rewrite !(Corail_s3_shift info).
  split_ifs; intros H; first [lia | contradiction].
Qed.

Lemma Corail_find_range_shift info r :
  find_range (Corail.ranges info) r
  = option_map (shiftRT (productRangeStartsAt info))
      (find_range (Corail.ranges originInfo) (r - productRangeStartsAt info)).
Proof.
  unfold Corail.ranges, Corail._rKS_STD135, Corail._rKA_STD135, Corail._rKHO_S_135,
    Corail._rKHO_A_135, Corail._rKLA_125, Corail._rSTD125_S, Corail._rSTD125_A,
    Corail._rSN_S, Corail._rSN_A.
  cbn [find_range label]. rewrite !(Corail_s3_shift info), !eqb_shift_l.
  split_ifs; cbn [option_map]; unfold shiftRT; cbn [startIdx endIdx label name];
    try reflexivity; f_equal; f_equal; lia.
Qed.

Lemma Corail_getSimilarOffset_shift info off s t :
  Corail.getSimilarOffset info off s t
  = Corail.getSimilarOffset originInfo off
      (s - productRangeStartsAt info) (t - productRangeStartsAt info).
Proof.
  unfold Corail.getSimilarOffset, Corail.assignIf.
  rewrite !(Corail_s3_shift info), !eqb_shift. reflexivity.
Qed.

Lemma Corail_similarLabel_shift info l r :
  Corail.isStem info l = true ->
  Corail.similarLabel info l r
  = option_map (fun x => x + productRangeStartsAt info)
      (Corail.similarLabel originInfo
         (l - productRangeStartsAt info) (r - productRangeStartsAt info)).
Proof.
  intros H. unfold Corail.similarLabel.
  rewrite (Corail_getCCDRange_shift info l H), !(Corail_find_range_shift info).
  rewrite add_sub_cancel.
  destruct (find_range (Corail.ranges originInfo)
              (Corail.getCCDRange originInfo (l - productRangeStartsAt info)))
    as [c|]; [|reflexivity].
  destruct (find_range (Corail.ranges originInfo) (r - productRangeStartsAt info)) as [n|];
    [|reflexivity].
  cbn [option_map]. cbv zeta. f_equal.
  rewrite (Corail_getOffset_shift info), (Corail_getSimilarOffset_shift info).
  unfold shiftRT; cbn [label startIdx]. rewrite !add_sub_cancel.
  rewrite (Corail_s3_shift info). unfold next. lia.
Qed.

Lemma Corail_similarShift_shift info s t :
  Corail.similarShift info s t
  = Corail.similarShift originInfo (s - productRangeStartsAt info) (t - productRangeStartsAt info).
Proof.
  unfold Corail.similarShift, Corail.isRange135, Corail.isRangeKHO, Corail.isRangeShort.
  rewrite !(Corail_s3_shift info), !eqb_shift. reflexivity.
Qed.

Lemma Corail_lastOffset_shift info r :
  Corail.lastOffset info r = Corail.lastOffset originInfo (r - productRangeStartsAt info).
Proof.
  unfold Corail.lastOffset. rewrite (Corail_find_range_shift info).
  destruct (find_range (Corail.ranges originInfo) (r - productRangeStartsAt info));
    reflexivity.
Qed.

Lemma Corail_families_shift info l :
  Forall2 (fun f g => fst f l = fst g (l - productRangeStartsAt info)
                      /\ snd f = snd g + productRangeStartsAt info)
    (Corail.families info) (Corail.families originInfo).
Proof.
  unfold Corail.families.
  repeat (constructor; [cbn [fst snd]; split;
                        [corail_preds info; reflexivity
                        |rewrite (Corail_s3_shift info); lia]|]).
  constructor.
Qed.

Lemma Corail_markers_shift info r :
  In r (map snd (Corail.families info)) ->
  In (r - productRangeStartsAt info) (map snd (Corail.families originInfo)).
Proof.
  intros H. apply In_map_shift.
  destruct (memberships_shift _ r _ _ (Corail_families_shift info r)) as (_ & _ & <-).
  exact H.
Qed.

Lemma Corail_firstLabel_shift info r :
  In r (map snd (Corail.families info)) ->
  Corail.firstLabel info r
  = Corail.firstLabel originInfo (r - productRangeStartsAt info) + productRangeStartsAt info.
Proof.
  intros H. apply Corail_markers_shift in H.
  unfold Corail.firstLabel. rewrite (Corail_find_range_shift info).
  revert H. generalize (r - productRangeStartsAt info). intros r0 H.
  assert (Hsome : find_range (Corail.ranges originInfo) r0 <> None).
  { cbn in H. repeat (destruct H as [<-|H]; [vm_compute; discriminate|]). contradiction. }
  destruct (find_range (Corail.ranges originInfo) r0); [|contradiction].
  cbn [option_map]. unfold shiftRT; cbn [startIdx]. rewrite (Corail_s3_shift info).
  unfold next. lia.
Qed.

Lemma Corail_adjustedOffset_shift info l r :
  Corail.isStem info l = true ->
  Corail.adjustedOffset info l r
  = Corail.adjustedOffset originInfo
      (l - productRangeStartsAt info) (r - productRangeStartsAt info).
Proof.
  intros H. unfold Corail.adjustedOffset.
  rewrite (Corail_getOffset_shift info), (Corail_getCCDRange_shift info l H),
    (Corail_similarShift_shift info), add_sub_cancel. reflexivity.
Qed.

(** ** Corail: properties of the label functions *)

Lemma Corail_self_origin k :
  Corail.isStem originInfo k = true ->
  Corail.similarLabel originInfo k (Corail.getCCDRange originInfo k) = Some k.
Proof.
  intros H.
  pose (f := fun k =>
    match Corail.similarLabel originInfo k (Corail.getCCDRange originInfo k) with
    | Some r => r =? k
    | None => false
    end).
  assert (Hf : f k = true) by (apply Corail_origin_stems; [vm_compute; reflexivity|exact H]).
  unfold f in Hf.
  destruct (Corail.similarLabel originInfo k (Corail.getCCDRange originInfo k));
    [|discriminate].
  apply Z.eqb_eq in Hf. congruence.
Qed.

Lemma Corail_self info l :
  Corail.isStem info l = true ->
  Corail.similarLabel info l (Corail.getCCDRange info l) = Some l.
Proof.
  intros H. rewrite (Corail_similarLabel_shift info l _ H).
  rewrite (Corail_getCCDRange_shift info l H), add_sub_cancel.
  rewrite Corail_self_origin by (rewrite <- Corail_isStem_shift; exact H).
  cbn. f_equal. lia.
Qed.

Lemma Corail_nextPrev_origin k a :
  Corail.isStem originInfo k = true ->
  Corail.nextPrevStem originInfo k a
  = (if Corail.isStem originInfo (next k (stepOf a))
        && (Corail.getCCDRange originInfo (next k (stepOf a))
            =? Corail.getCCDRange originInfo k)
     then next k (stepOf a) else k)
  /\ Corail.isStem originInfo (Corail.nextPrevStem originInfo k a) = true
  /\ Corail.getCCDRange originInfo (Corail.nextPrevStem originInfo k a)
     = Corail.getCCDRange originInfo k.
Proof.
  intros H.
  pose (f := fun k =>
    forallb (fun a =>
      (Corail.nextPrevStem originInfo k a
       =? (if Corail.isStem originInfo (next k (stepOf a))
              && (Corail.getCCDRange originInfo (next k (stepOf a))
                  =? Corail.getCCDRange originInfo k)
           then next k (stepOf a) else k))
      && Corail.isStem originInfo (Corail.nextPrevStem originInfo k a)
      && (Corail.getCCDRange originInfo (Corail.nextPrevStem originInfo k a)
          =? Corail.getCCDRange originInfo k)) [true; false]).
  assert (Hf : f k = true) by (apply Corail_origin_stems; [vm_compute; reflexivity|exact H]).
  unfold f in Hf. rewrite forallb_forall in Hf.
  specialize (Hf a (ltac:(destruct a; cbn; auto))).
  apply andb_true_iff in Hf. destruct Hf as [Hf H3].
  apply andb_true_iff in Hf. destruct Hf as [H1 H2].
  apply Z.eqb_eq in H1, H3. auto.
Qed.

Lemma Corail_nextPrev_char info l a :
  Corail.isStem info l = true ->
  Corail.nextPrevStem info l a
  = (if Corail.isStem info (next l (stepOf a))
        && (Corail.getCCDRange info (next l (stepOf a)) =? Corail.getCCDRange info l)
     then next l (stepOf a) else l)
  /\ Corail.isStem info (Corail.nextPrevStem info l a) = true
  /\ Corail.getCCDRange info (Corail.nextPrevStem info l a) = Corail.getCCDRange info l.
Proof.
  intros H. pose proof H as H0. rewrite (Corail_isStem_shift info) in H0.
  destruct (Corail_nextPrev_origin _ a H0) as (E1 & E2 & E3).
  assert (Hs : Corail.isStem info (Corail.nextPrevStem info l a) = true).
  { rewrite (Corail_isStem_shift info), (Corail_nextPrevStem_shift info), add_sub_cancel.
    exact E2. }
  split; [|split; [exact Hs|]].
  - rewrite (Corail_nextPrevStem_shift info), E1.
    rewrite (Corail_isStem_shift info (next l (stepOf a))), next_shift.
    destruct (Corail.isStem originInfo (next (l - productRangeStartsAt info) (stepOf a))) eqn:En;
      cbn [andb]; [|lia].
    rewrite (Corail_getCCDRange_shift info (next l (stepOf a)))
      by (rewrite (Corail_isStem_shift info), next_shift; exact En).
    rewrite (Corail_getCCDRange_shift info l H), eqb_add_cancel, next_shift.
    destruct (_ =? _); unfold next; lia.
  - rewrite (Corail_getCCDRange_shift info _ Hs), (Corail_getCCDRange_shift info l H).
    rewrite (Corail_nextPrevStem_shift info), add_sub_cancel, E3. reflexivity.
Qed.

Lemma Corail_memberships_origin k :
  Corail.isStem originInfo k = existsb (fun f => fst f k) (Corail.families originInfo)
  /\ (Corail.isStem originInfo k = true ->
      map snd (filter (fun f => fst f k) (Corail.families originInfo))
      = [Corail.getCCDRange originInfo k]).
Proof.
  split.
  - unfold Corail.families. cbn [existsb fst].
    unfold Corail.isStem, Corail.isCCD_KS_STD135, Corail.isCCD_KA_STD135,
      Corail.isCCD_KHO_S_135, Corail.isCCD_KHO_A_135, Corail.isCCD_KLA_125,
      Corail.isCCD_STD125_S, Corail.isCCD_STD125_A, Corail.isCCD_SN_S, Corail.isCCD_SN_A,
      SboML.in_closed_range.
    change (Corail.s3 originInfo) with (fun e => 90 + Corail.S3UID.index e).
    cbv beta. cbn [Corail.S3UID.index].
    apply eq_iff_eq_true.
    rewrite ?orb_true_iff, ?andb_true_iff, ?Z.leb_le. lia.
  - intros H.
    pose (f := fun k =>
      match map snd (filter (fun f => fst f k) (Corail.families originInfo)) with
      | [m] => m =? Corail.getCCDRange originInfo k
      | _ => false
      end).
    assert (Hf : f k = true) by (apply Corail_origin_stems; [vm_compute; reflexivity|exact H]).
    unfold f in Hf.
    destruct (map snd (filter (fun f => fst f k) (Corail.families originInfo)))
      as [|m [|? ?]]; try discriminate.
    apply Z.eqb_eq in Hf. congruence.
Qed.

Lemma Corail_memberships info l :
  Corail.isStem info l = existsb (fun f => fst f l) (Corail.families info)
  /\ (Corail.isStem info l = true ->
      map snd (filter (fun f => fst f l) (Corail.families info))
      = [Corail.getCCDRange info l]).
Proof.
  destruct (memberships_shift _ l _ _ (Corail_families_shift info l)) as (E1 & E2 & _).
  destruct (Corail_memberships_origin (l - productRangeStartsAt info)) as [O1 O2].
  split.
  - etransitivity; [apply Corail_isStem_shift|].
    etransitivity; [exact O1|]. symmetry. exact E2.
  - intros H. etransitivity; [exact E1|].
    rewrite (Corail_isStem_shift info) in H. specialize (O2 H).
    etransitivity; [exact (f_equal (map (fun x => x + productRangeStartsAt info)) O2)|].
    rewrite <- (Corail_isStem_shift info) in H.
    rewrite (Corail_getCCDRange_shift info l H). reflexivity.
Qed.

Lemma Corail_similar_origin k r :
  Corail.isStem originInfo k = true ->
  In r (map snd (Corail.families originInfo)) ->
  Corail.similarLabel originInfo k r
  = Some (next (Corail.firstLabel originInfo r)
            (SboML.clamp (Corail.adjustedOffset originInfo k r) 0
               (Corail.lastOffset originInfo r))).
Proof.
  intros H Hr.
  pose (f := fun k =>
    forallb (fun r =>
      match Corail.similarLabel originInfo k r with
      | Some x =>
          x =? next (Corail.firstLabel originInfo r)
                 (SboML.clamp (Corail.adjustedOffset originInfo k r) 0
                    (Corail.lastOffset originInfo r))
      | None => false
      end) (map snd (Corail.families originInfo))).
  assert (Hf : f k = true) by (apply Corail_origin_stems; [vm_compute; reflexivity|exact H]).
  unfold f in Hf. rewrite forallb_forall in Hf. specialize (Hf r Hr).
  destruct (Corail.similarLabel originInfo k r); [|discriminate].
  apply Z.eqb_eq in Hf. congruence.
Qed.

Lemma Corail_similar_closed info l r :
  Corail.isStem info l = true ->
  In r (map snd (Corail.families info)) ->
  Corail.similarLabel info l r
  = Some (next (Corail.firstLabel info r)
            (SboML.clamp (Corail.adjustedOffset info l r) 0 (Corail.lastOffset info r))).
Proof.
  intros H Hr.
  rewrite (Corail_similarLabel_shift info l r H).
  rewrite Corail_similar_origin
    by (first [rewrite <- Corail_isStem_shift; exact H | apply Corail_markers_shift; exact Hr]).
  rewrite (Corail_firstLabel_shift info r Hr), (Corail_adjustedOffset_shift info l r H),
    (Corail_lastOffset_shift info r).
  cbn [option_map]. f_equal. unfold next. lia.
Qed.

Lemma Corail_roundTrip_origin k r :
  Corail.isStem originInfo k = true ->
  In r (map snd (Corail.families originInfo)) ->
  exists m x,
    Corail.similarLabel originInfo k r = Some m
    /\ Corail.isStem originInfo m = true
    /\ Corail.similarLabel originInfo m (Corail.getCCDRange originInfo k) = Some x
    /\ Corail.isStem originInfo x = true
    /\ Corail.getCCDRange originInfo x = Corail.getCCDRange originInfo k
    /\ Z.abs (Corail.getOffset originInfo x - Corail.getOffset originInfo k)
       <= Z.abs (Corail.adjustedOffset originInfo k r
                 - SboML.clamp (Corail.adjustedOffset originInfo k r) 0
                     (Corail.lastOffset originInfo r)).
Proof.
  intros H Hr.
  pose (f := fun k =>
    forallb (fun r =>
      match Corail.similarLabel originInfo k r with
      | Some m =>
          Corail.isStem originInfo m
          && match Corail.similarLabel originInfo m (Corail.getCCDRange originInfo k) with
             | Some x =>
                 Corail.isStem originInfo x
                 && (Corail.getCCDRange originInfo x =? Corail.getCCDRange originInfo k)
                 && (Z.abs (Corail.getOffset originInfo x - Corail.getOffset originInfo k)
                     <=? Z.abs (Corail.adjustedOffset originInfo k r
                                - SboML.clamp (Corail.adjustedOffset originInfo k r) 0
                                    (Corail.lastOffset originInfo r)))
             | None => false
             end
      | None => false
      end) (map snd (Corail.families originInfo))).
  assert (Hf : f k = true) by (apply Corail_origin_stems; [vm_compute; reflexivity|exact H]).
  unfold f in Hf. rewrite forallb_forall in Hf. specialize (Hf r Hr).
  destruct (Corail.similarLabel originInfo k r) as [m|] eqn:E1; [|discriminate].
  apply andb_true_iff in Hf. destruct Hf as [Hm Hf].
  destruct (Corail.similarLabel originInfo m (Corail.getCCDRange originInfo k))
    as [x|] eqn:E2; [|discriminate].
  apply andb_true_iff in Hf. destruct Hf as [Hf H3].
  apply andb_true_iff in Hf. destruct Hf as [H1 H2].
  apply Z.eqb_eq in H2. apply Z.leb_le in H3.
  exists m, x.
  repeat (split; [first [reflexivity | assumption]|]). assumption.
Qed.

Lemma Corail_roundTrip info l r :
  Corail.isStem info l = true ->
  In r (map snd (Corail.families info)) ->
  exists m x,
    Corail.similarLabel info l r = Some m
    /\ Corail.similarLabel info m (Corail.getCCDRange info l) = Some x
    /\ Corail.isStem info x = true
    /\ Corail.getCCDRange info x = Corail.getCCDRange info l
    /\ Z.abs (Corail.getOffset info x - Corail.getOffset info l)
       <= Z.abs (Corail.adjustedOffset info l r
                 - SboML.clamp (Corail.adjustedOffset info l r) 0 (Corail.lastOffset info r)).
Proof.
  intros H Hr. pose proof H as H0. rewrite (Corail_isStem_shift info) in H0.
  destruct (Corail_roundTrip_origin _ _ H0 (Corail_markers_shift info r Hr))
    as (m & x & E1 & Sm & E2 & Sx & E3 & E4).
  set (b := productRangeStartsAt info) in *.
  assert (Hm : Corail.isStem info (m + b) = true)
    by (rewrite (Corail_isStem_shift info); fold b; rewrite add_sub_cancel; exact Sm).
  assert (Hx : Corail.isStem info (x + b) = true)
    by (rewrite (Corail_isStem_shift info); fold b; rewrite add_sub_cancel; exact Sx).
  exists (m + b), (x + b). repeat split.
  - rewrite (Corail_similarLabel_shift info l r H). fold b. rewrite E1. reflexivity.
  - rewrite (Corail_similarLabel_shift info _ _ Hm). fold b.
    rewrite (Corail_getCCDRange_shift info l H). fold b. rewrite !add_sub_cancel, E2.
    reflexivity.
  - exact Hx.
  - rewrite (Corail_getCCDRange_shift info _ Hx), (Corail_getCCDRange_shift info l H).
    fold b. rewrite add_sub_cancel, E3. reflexivity.
  - rewrite !(Corail_getOffset_shift info), (Corail_adjustedOffset_shift info l r H),
      (Corail_lastOffset_shift info r). fold b. rewrite add_sub_cancel. exact E4.
Qed.

Lemma Corail_boundary_origin k :
  Corail.isStem originInfo k = true ->
  (Corail.getOffset originInfo k = Corail.lastOffset originInfo (Corail.getCCDRange originInfo k) ->
   Corail.nextPrevStem originInfo k true = k)
  /\ (Corail.getOffset originInfo k = 0 -> Corail.nextPrevStem originInfo k false = k).
Proof.
  intros H.
  pose (f := fun k =>
    (negb (Corail.getOffset originInfo k =? Corail.lastOffset originInfo (Corail.getCCDRange originInfo k))
     || (Corail.nextPrevStem originInfo k true =? k))
    && (negb (Corail.getOffset originInfo k =? 0) || (Corail.nextPrevStem originInfo k false =? k))).
  assert (Hf : f k = true) by (apply Corail_origin_stems; [vm_compute; reflexivity|exact H]).
  unfold f in Hf. apply andb_true_iff in Hf. destruct Hf as [H1 H2].
  split; intros E; apply Z.eqb_eq in E.
  - rewrite E in H1. cbn [negb orb] in H1. apply Z.eqb_eq in H1. exact H1.
  - rewrite E in H2. cbn [negb orb] in H2. apply Z.eqb_eq in H2. exact H2.
Qed.

Lemma Corail_boundary info l :
  Corail.isStem info l = true ->
  (Corail.getOffset info l = Corail.lastOffset info (Corail.getCCDRange info l) -> Corail.nextPrevStem info l true = l)
  /\ (Corail.getOffset info l = 0 -> Corail.nextPrevStem info l false = l).
Proof.
  intros H. pose proof H as H0. rewrite (Corail_isStem_shift info) in H0.
  destruct (Corail_boundary_origin _ H0) as [B1 B2].
  rewrite (Corail_getOffset_shift info l), (Corail_lastOffset_shift info), (Corail_getCCDRange_shift info l H), add_sub_cancel,
    !(Corail_nextPrevStem_shift info l).
  split; intros E; [rewrite (B1 E)|rewrite (B2 E)]; lia.
Qed.

(** ** Amistem relative to its base *)

Lemma Amistem_s3_shift (info : ProductInfo) (e : Amistem.S3UID.t) :
  Amistem.s3 info e = productRangeStartsAt info + Amistem.s3 originInfo e.
Proof.
  unfold Amistem.s3, Amistem.utype, Amistem.ProductRangeStartsAt, originInfo.
  cbn [productRangeStartsAt]. lia.
Qed.

Ltac amistem_range info :=
  rewrite !(Amistem_s3_shift info); apply in_closed_range_shift.

Lemma Amistem_isCCD_STD_shift info l :
  Amistem.isCCD_STD info l = Amistem.isCCD_STD originInfo (l - productRangeStartsAt info).
Proof. unfold Amistem.isCCD_STD. amistem_range info. Qed.

Lemma Amistem_isCCD_LAT_shift info l :
  Amistem.isCCD_LAT info l = Amistem.isCCD_LAT originInfo (l - productRangeStartsAt info).
Proof. unfold Amistem.isCCD_LAT. amistem_range info. Qed.

Lemma Amistem_isCCD_STD_SN_shift info l :
  Amistem.isCCD_STD_SN info l = Amistem.isCCD_STD_SN originInfo (l - productRangeStartsAt info).
Proof. unfold Amistem.isCCD_STD_SN. amistem_range info. Qed.

Lemma Amistem_isCCD_LAT_SN_shift info l :
  Amistem.isCCD_LAT_SN info l = Amistem.isCCD_LAT_SN originInfo (l - productRangeStartsAt info).
Proof. unfold Amistem.isCCD_LAT_SN. amistem_range info. Qed.

Lemma Amistem_isHead_shift info l :
  Amistem.isHead info l = Amistem.isHead originInfo (l - productRangeStartsAt info).
Proof. unfold Amistem.isHead. amistem_range info. Qed.

Lemma Amistem_isRange_shift info l :
  Amistem.isRange info l = Amistem.isRange originInfo (l - productRangeStartsAt info).
Proof. unfold Amistem.isRange. amistem_range info. Qed.

Lemma Amistem_isStem_shift info l :
  Amistem.isStem info l = Amistem.isStem originInfo (l - productRangeStartsAt info).
Proof.
  unfold Amistem.isStem.
  rewrite (Amistem_isCCD_STD_shift info), (Amistem_isCCD_LAT_shift info),
    (Amistem_isCCD_STD_SN_shift info), (Amistem_isCCD_LAT_SN_shift info). reflexivity.
Qed.

Lemma Amistem_isSTD_shift info l :
  Amistem.isSTD info l = Amistem.isSTD originInfo (l - productRangeStartsAt info).
Proof.
  unfold Amistem.isSTD.
  rewrite (Amistem_isCCD_STD_shift info), (Amistem_isCCD_STD_SN_shift info). reflexivity.
Qed.

Ltac amistem_preds info :=
  rewrite ?(Amistem_isStem_shift info), ?(Amistem_isSTD_shift info),
    ?(Amistem_isCCD_STD_shift info), ?(Amistem_isCCD_LAT_shift info),
    ?(Amistem_isCCD_STD_SN_shift info), ?(Amistem_isCCD_LAT_SN_shift info),
    ?(Amistem_isHead_shift info), ?(Amistem_isRange_shift info).

(** The stem labels at base 0 are the 40 integers from 50 on. *)
Lemma Amistem_origin_stems (f : Z -> bool) :
  allInRange f 50 40 = true ->
  forall k, Amistem.isStem originInfo k = true -> f k = true.
Proof.
  intros Hall k Hk. apply (allInRange_spec f 40 50 Hall).
  unfold Amistem.isStem in Hk.
  rewrite !orb_true_iff in Hk.
  unfold Amistem.isCCD_STD, Amistem.isCCD_LAT, Amistem.isCCD_STD_SN, Amistem.isCCD_LAT_SN in Hk.
  rewrite !in_closed_range_bounds in Hk.
  change (Amistem.s3 originInfo) with (fun e => 50 + Amistem.S3UID.index e) in Hk.
  cbv beta in Hk. cbn [Amistem.S3UID.index] in Hk.
  change (Z.of_nat 40) with 40. lia.
Qed.

Lemma Amistem_nextPrevStem_shift info l a :
  Amistem.nextPrevStem info l a
  = Amistem.nextPrevStem originInfo (l - productRangeStartsAt info) a + productRangeStartsAt info.
Proof.
  unfold Amistem.nextPrevStem. cbv zeta. amistem_preds info.
  rewrite !next_shift. split_ifs; unfold next; lia.
Qed.

Lemma Amistem_getCCDRange_origin_set k :
  Amistem.isStem originInfo k = true -> Amistem.getCCDRange originInfo k <> nullLabel.
Proof.
  intros H.
  assert (Hf : negb (Amistem.getCCDRange originInfo k =? nullLabel) = true)
    by (apply (Amistem_origin_stems
                 (fun k => negb (Amistem.getCCDRange originInfo k =? nullLabel)));
        [vm_compute; reflexivity|exact H]).
  apply negb_true_iff, Z.eqb_neq in Hf. exact Hf.
Qed.

Lemma Amistem_getCCDRange_shift info l :
  Amistem.isStem info l = true ->
  Amistem.getCCDRange info l
  = Amistem.getCCDRange originInfo (l - productRangeStartsAt info) + productRangeStartsAt info.
Proof.
  rewrite (Amistem_isStem_shift info). intros H.
  apply Amistem_getCCDRange_origin_set in H. revert H.
  unfold Amistem.getCCDRange. amistem_preds info. rewrite !(Amistem_s3_shift info).
  split_ifs; intros H; first [lia | contradiction].
Qed.

Lemma Amistem_getStemSize_shift info l :
  Amistem.getStemSize info l = Amistem.getStemSize originInfo (l - productRangeStartsAt info).
Proof.
  unfold Amistem.getStemSize. rewrite !(Amistem_s3_shift info), !eqb_shift. reflexivity.
Qed.

Lemma Amistem_getRangeStats_shift info x :
  Amistem.getRangeStats info x
  = Amistem_shiftR (productRangeStartsAt info)
      (Amistem.getRangeStats originInfo (x - productRangeStartsAt info)).
Proof.
  unfold Amistem.getRangeStats. amistem_preds info.
  rewrite !(Amistem_s3_shift info), !eqb_shift.
  split_ifs; unfold Amistem_shiftR, shiftLabel;
    cbn [Amistem.r0 Amistem.r1 Amistem.l Amistem.s Amistem.label0];
    try reflexivity;
    match goal with
    | |- context [Amistem.s3 originInfo ?e =? nullLabel] =>
        change (Amistem.s3 originInfo e =? nullLabel) with false
    end; cbv iota; f_equal; lia.
Qed.

Lemma Amistem_families_shift info l :
  Forall2 (fun f g => fst f l = fst g (l - productRangeStartsAt info)
                      /\ snd f = snd g + productRangeStartsAt info)
    (Amistem.families info) (Amistem.families originInfo).
Proof.
  unfold Amistem.families.
  repeat (constructor; [cbn [fst snd]; split;
                        [amistem_preds info; reflexivity
                        |rewrite (Amistem_s3_shift info); lia]|]).
  constructor.
Qed.

Lemma Amistem_markers_shift info r :
  In r (map snd (Amistem.families info)) ->
  In (r - productRangeStartsAt info) (map snd (Amistem.families originInfo)).
Proof.
  intros H. apply In_map_shift.
  destruct (memberships_shift _ r _ _ (Amistem_families_shift info r)) as (_ & _ & <-).
  exact H.
Qed.

Lemma Amistem_marker_stats_origin r :
  In r (map snd (Amistem.families originInfo)) ->
  Amistem.label0 (Amistem.getRangeStats originInfo r) <> nullLabel.
Proof.
  intros H. cbn in H.
  repeat (destruct H as [<-|H]; [vm_compute; discriminate|]). contradiction.
Qed.

Lemma Amistem_getSimilarLabel_shift info l r :
  Amistem.isStem info l = true ->
  In r (map snd (Amistem.families info)) ->
  Amistem.getSimilarLabel info l r
  = Amistem.getSimilarLabel originInfo
      (l - productRangeStartsAt info) (r - productRangeStartsAt info)
    + productRangeStartsAt info.
Proof.
  intros H Hr. apply Amistem_markers_shift in Hr. apply Amistem_marker_stats_origin in Hr.
  unfold Amistem.getSimilarLabel, Amistem.assignIf. cbv zeta.
  rewrite (Amistem_getCCDRange_shift info l H), (Amistem_getStemSize_shift info),
    (Amistem_getRangeStats_shift info).
  rewrite !(Amistem_s3_shift info), !eqb_shift_sum, !eqb_shift.
  unfold Amistem_shiftR; cbn [Amistem.r0 Amistem.r1 Amistem.label0].
  rewrite (shiftLabel_set _ _ Hr).
  split_ifs; unfold next; lia.
Qed.

Lemma Amistem_similarShift_shift info s t :
  Amistem.similarShift info s t
  = Amistem.similarShift originInfo
      (s - productRangeStartsAt info) (t - productRangeStartsAt info).
Proof.
  unfold Amistem.similarShift, Amistem.isRangeSTD, Amistem.isRangeLAT.
  rewrite !(Amistem_s3_shift info), !eqb_shift. reflexivity.
Qed.

Lemma Amistem_lastOffset_shift info r :
  Amistem.lastOffset info r = Amistem.lastOffset originInfo (r - productRangeStartsAt info).
Proof.
  unfold Amistem.lastOffset. rewrite (Amistem_getRangeStats_shift info). reflexivity.
Qed.

Lemma Amistem_firstLabel_shift info r :
  In r (map snd (Amistem.families info)) ->
  Amistem.firstLabel info r
  = Amistem.firstLabel originInfo (r - productRangeStartsAt info) + productRangeStartsAt info.
Proof.
  intros Hr. apply Amistem_markers_shift in Hr. apply Amistem_marker_stats_origin in Hr.
  unfold Amistem.firstLabel. rewrite (Amistem_getRangeStats_shift info).
  unfold Amistem_shiftR; cbn [Amistem.label0]. apply shiftLabel_set. exact Hr.
Qed.

Lemma Amistem_adjustedOffset_shift info l r :
  Amistem.isStem info l = true ->
  Amistem.adjustedOffset info l r
  = Amistem.adjustedOffset originInfo
      (l - productRangeStartsAt info) (r - productRangeStartsAt info).
Proof.
  intros H. unfold Amistem.adjustedOffset.
  rewrite (Amistem_getStemSize_shift info), (Amistem_getCCDRange_shift info l H),
    (Amistem_similarShift_shift info), add_sub_cancel. reflexivity.
Qed.

(** ** Amistem: properties of the label functions *)

Lemma Amistem_self_origin k :
  Amistem.isStem originInfo k = true ->
  Amistem.getSimilarLabel originInfo k (Amistem.getCCDRange originInfo k) = k.
Proof.
  intros H.
  pose (f := fun k =>
    Amistem.getSimilarLabel originInfo k (Amistem.getCCDRange originInfo k) =? k).
  assert (Hf : f k = true) by (apply Amistem_origin_stems; [vm_compute; reflexivity|exact H]).
  apply Z.eqb_eq in Hf. exact Hf.
Qed.

Lemma Amistem_nextPrev_origin k a :
  Amistem.isStem originInfo k = true ->
  Amistem.nextPrevStem originInfo k a
  = (if Amistem.isStem originInfo (next k (stepOf a))
        && (Amistem.getCCDRange originInfo (next k (stepOf a))
            =? Amistem.getCCDRange originInfo k)
     then next k (stepOf a) else k)
  /\ Amistem.isStem originInfo (Amistem.nextPrevStem originInfo k a) = true
  /\ Amistem.getCCDRange originInfo (Amistem.nextPrevStem originInfo k a)
     = Amistem.getCCDRange originInfo k.
Proof.
  intros H.
  pose (f := fun k =>
    forallb (fun a =>
      (Amistem.nextPrevStem originInfo k a
       =? (if Amistem.isStem originInfo (next k (stepOf a))
              && (Amistem.getCCDRange originInfo (next k (stepOf a))
                  =? Amistem.getCCDRange originInfo k)
           then next k (stepOf a) else k))
      && Amistem.isStem originInfo (Amistem.nextPrevStem originInfo k a)
      && (Amistem.getCCDRange originInfo (Amistem.nextPrevStem originInfo k a)
          =? Amistem.getCCDRange originInfo k)) [true; false]).
  assert (Hf : f k = true) by (apply Amistem_origin_stems; [vm_compute; reflexivity|exact H]).
  unfold f in Hf. rewrite forallb_forall in Hf.
  specialize (Hf a (ltac:(destruct a; cbn; auto))).
  apply andb_true_iff in Hf. destruct Hf as [Hf H3].
  apply andb_true_iff in Hf. destruct Hf as [H1 H2].
  apply Z.eqb_eq in H1, H3. auto.
Qed.

Lemma Amistem_nextPrev_char info l a :
  Amistem.isStem info l = true ->
  Amistem.nextPrevStem info l a
  = (if Amistem.isStem info (next l (stepOf a))
        && (Amistem.getCCDRange info (next l (stepOf a)) =? Amistem.getCCDRange info l)
     then next l (stepOf a) else l)
  /\ Amistem.isStem info (Amistem.nextPrevStem info l a) = true
  /\ Amistem.getCCDRange info (Amistem.nextPrevStem info l a) = Amistem.getCCDRange info l.
Proof.
  intros H. pose proof H as H0. rewrite (Amistem_isStem_shift info) in H0.
  destruct (Amistem_nextPrev_origin _ a H0) as (E1 & E2 & E3).
  assert (Hs : Amistem.isStem info (Amistem.nextPrevStem info l a) = true).
  { rewrite (Amistem_isStem_shift info), (Amistem_nextPrevStem_shift info), add_sub_cancel.
    exact E2. }
  split; [|split; [exact Hs|]].
  - rewrite (Amistem_nextPrevStem_shift info), E1.
    rewrite (Amistem_isStem_shift info (next l (stepOf a))), next_shift.
    destruct (Amistem.isStem originInfo (next (l - productRangeStartsAt info) (stepOf a)))
      eqn:En; cbn [andb]; [|lia].
    rewrite (Amistem_getCCDRange_shift info (next l (stepOf a)))
      by (rewrite (Amistem_isStem_shift info), next_shift; exact En).
    rewrite (Amistem_getCCDRange_shift info l H), eqb_add_cancel, next_shift.
    destruct (_ =? _); unfold next; lia.
  - rewrite (Amistem_getCCDRange_shift info _ Hs), (Amistem_getCCDRange_shift info l H).
    rewrite (Amistem_nextPrevStem_shift info), add_sub_cancel, E3. reflexivity.
Qed.

Lemma Amistem_memberships_origin k :
  Amistem.isStem originInfo k = existsb (fun f => fst f k) (Amistem.families originInfo)
  /\ (Amistem.isStem originInfo k = true ->
      map snd (filter (fun f => fst f k) (Amistem.families originInfo))
      = [Amistem.getCCDRange originInfo k]).
Proof.
  split.
  - unfold Amistem.families, Amistem.isStem. cbn [existsb fst].
    rewrite orb_false_r, !orb_assoc. reflexivity.
  - intros H.
    pose (f := fun k =>
      match map snd (filter (fun f => fst f k) (Amistem.families originInfo)) with
      | [m] => m =? Amistem.getCCDRange originInfo k
      | _ => false
      end).
    assert (Hf : f k = true)
      by (apply Amistem_origin_stems; [vm_compute; reflexivity|exact H]).
    unfold f in Hf.
    destruct (map snd (filter (fun f => fst f k) (Amistem.families originInfo)))
      as [|m [|? ?]]; try discriminate.
    apply Z.eqb_eq in Hf. congruence.
Qed.

Lemma Amistem_memberships info l :
  Amistem.isStem info l = existsb (fun f => fst f l) (Amistem.families info)
  /\ (Amistem.isStem info l = true ->
      map snd (filter (fun f => fst f l) (Amistem.families info))
      = [Amistem.getCCDRange info l]).
Proof.
  destruct (memberships_shift _ l _ _ (Amistem_families_shift info l)) as (E1 & E2 & _).
  destruct (Amistem_memberships_origin (l - productRangeStartsAt info)) as [O1 O2].
  split.
  - etransitivity; [apply Amistem_isStem_shift|].
    etransitivity; [exact O1|]. symmetry. exact E2.
  - intros H. etransitivity; [exact E1|].
    rewrite (Amistem_isStem_shift info) in H. specialize (O2 H).
    etransitivity; [exact (f_equal (map (fun x => x + productRangeStartsAt info)) O2)|].
    rewrite <- (Amistem_isStem_shift info) in H.
    rewrite (Amistem_getCCDRange_shift info l H). reflexivity.
Qed.

Lemma Amistem_range_is_marker info l :
  Amistem.isStem info l = true ->
  In (Amistem.getCCDRange info l) (map snd (Amistem.families info)).
Proof.
  intros H. destruct (Amistem_memberships info l) as [_ M].
  exact (memberships_incl _ _ _ (M H)).
Qed.

Lemma Amistem_self info l :
  Amistem.isStem info l = true ->
  Amistem.getSimilarLabel info l (Amistem.getCCDRange info l) = l.
Proof.
  intros H.
  rewrite (Amistem_getSimilarLabel_shift info l _ H (Amistem_range_is_marker info l H)).
  rewrite (Amistem_getCCDRange_shift info l H), add_sub_cancel.
  rewrite Amistem_self_origin by (rewrite <- Amistem_isStem_shift; exact H). lia.
Qed.

Lemma Amistem_similar_origin k r :
  Amistem.isStem originInfo k = true ->
  In r (map snd (Amistem.families originInfo)) ->
  Amistem.getSimilarLabel originInfo k r
  = if (Amistem.adjustedOffset originInfo k r <? 0)
       || (Amistem.lastOffset originInfo r <? Amistem.adjustedOffset originInfo k r)
    then k
    else next (Amistem.firstLabel originInfo r) (Amistem.adjustedOffset originInfo k r).
Proof.
  intros H Hr.
  pose (f := fun k =>
    forallb (fun r =>
      Amistem.getSimilarLabel originInfo k r
      =? (if (Amistem.adjustedOffset originInfo k r <? 0)
             || (Amistem.lastOffset originInfo r <? Amistem.adjustedOffset originInfo k r)
          then k
          else next (Amistem.firstLabel originInfo r) (Amistem.adjustedOffset originInfo k r)))
      (map snd (Amistem.families originInfo))).
  assert (Hf : f k = true) by (apply Amistem_origin_stems; [vm_compute; reflexivity|exact H]).
  unfold f in Hf. rewrite forallb_forall in Hf. specialize (Hf r Hr).
  apply Z.eqb_eq in Hf. exact Hf.
Qed.

Lemma Amistem_similar_closed info l r :
  Amistem.isStem info l = true ->
  In r (map snd (Amistem.families info)) ->
  Amistem.getSimilarLabel info l r
  = if (Amistem.adjustedOffset info l r <? 0)
       || (Amistem.lastOffset info r <? Amistem.adjustedOffset info l r)
    then l
    else next (Amistem.firstLabel info r) (Amistem.adjustedOffset info l r).
Proof.
  intros H Hr.
  rewrite (Amistem_getSimilarLabel_shift info l r H Hr).
  rewrite Amistem_similar_origin
    by (first [rewrite <- Amistem_isStem_shift; exact H
              | apply Amistem_markers_shift; exact Hr]).
  rewrite (Amistem_firstLabel_shift info r Hr), (Amistem_adjustedOffset_shift info l r H),
    (Amistem_lastOffset_shift info r).
  destruct (_ || _); unfold next; lia.
Qed.

Lemma Amistem_roundTrip_origin k r :
  Amistem.isStem originInfo k = true ->
  In r (map snd (Amistem.families originInfo)) ->
  let m := Amistem.getSimilarLabel originInfo k r in
  let x := Amistem.getSimilarLabel originInfo m (Amistem.getCCDRange originInfo k) in
  Amistem.isStem originInfo m = true /\ x = k.
Proof.
  intros H Hr.
  pose (f := fun k =>
    forallb (fun r =>
      let m := Amistem.getSimilarLabel originInfo k r in
      let x := Amistem.getSimilarLabel originInfo m (Amistem.getCCDRange originInfo k) in
      Amistem.isStem originInfo m && (x =? k))
      (map snd (Amistem.families originInfo))).
  assert (Hf : f k = true) by (apply Amistem_origin_stems; [vm_compute; reflexivity|exact H]).
  unfold f in Hf. rewrite forallb_forall in Hf. specialize (Hf r Hr). cbv zeta in Hf.
  apply andb_true_iff in Hf. destruct Hf as [H1 H2]. apply Z.eqb_eq in H2.
  cbv zeta. auto.
Qed.

(** In Amistem, forward and back is the identity for every pair. *)
Lemma Amistem_roundTrip info l r :
  Amistem.isStem info l = true ->
  In r (map snd (Amistem.families info)) ->
  Amistem.getSimilarLabel info (Amistem.getSimilarLabel info l r) (Amistem.getCCDRange info l)
  = l.
Proof.
  intros H Hr. pose proof H as H0. rewrite (Amistem_isStem_shift info) in H0.
  destruct (Amistem_roundTrip_origin _ _ H0 (Amistem_markers_shift info r Hr)) as [Sm Ex].
  cbv zeta in Ex.
  rewrite (Amistem_getSimilarLabel_shift info l r H Hr).
  set (b := productRangeStartsAt info) in *.
  set (m := Amistem.getSimilarLabel originInfo (l - b) (r - b)) in *.
  assert (Hm : Amistem.isStem info (m + b) = true)
    by (rewrite (Amistem_isStem_shift info); fold b; rewrite add_sub_cancel; exact Sm).
  rewrite (Amistem_getSimilarLabel_shift info _ _ Hm (Amistem_range_is_marker info l H)).
  fold b. rewrite (Amistem_getCCDRange_shift info l H). fold b.
  rewrite !add_sub_cancel, Ex. lia.
Qed.

Lemma Amistem_boundary_origin k :
  Amistem.isStem originInfo k = true ->
  (Amistem.getStemSize originInfo k = Amistem.lastOffset originInfo (Amistem.getCCDRange originInfo k) ->
   Amistem.nextPrevStem originInfo k true = k)
  /\ (Amistem.getStemSize originInfo k = 0 -> Amistem.nextPrevStem originInfo k false = k).
Proof.
  intros H.
  pose (f := fun k =>
    (negb (Amistem.getStemSize originInfo k =? Amistem.lastOffset originInfo (Amistem.getCCDRange originInfo k))
     || (Amistem.nextPrevStem originInfo k true =? k))
    && (negb (Amistem.getStemSize originInfo k =? 0) || (Amistem.nextPrevStem originInfo k false =? k))).
  assert (Hf : f k = true) by (apply Amistem_origin_stems; [vm_compute; reflexivity|exact H]).
  unfold f in Hf. apply andb_true_iff in Hf. destruct Hf as [H1 H2].
  split; intros E; apply Z.eqb_eq in E.
  - rewrite E in H1. cbn [negb orb] in H1. apply Z.eqb_eq in H1. exact H1.
  - rewrite E in H2. cbn [negb orb] in H2. apply Z.eqb_eq in H2. exact H2.
Qed.

Lemma Amistem_boundary info l :
  Amistem.isStem info l = true ->
  (Amistem.getStemSize info l = Amistem.lastOffset info (Amistem.getCCDRange info l) -> Amistem.nextPrevStem info l true = l)
  /\ (Amistem.getStemSize info l = 0 -> Amistem.nextPrevStem info l false = l).
Proof.
  intros H. pose proof H as H0. rewrite (Amistem_isStem_shift info) in H0.
  destruct (Amistem_boundary_origin _ H0) as [B1 B2].
  rewrite (Amistem_getStemSize_shift info l), (Amistem_lastOffset_shift info), (Amistem_getCCDRange_shift info l H), add_sub_cancel,
    !(Amistem_nextPrevStem_shift info l).
  split; intros E; [rewrite (B1 E)|rewrite (B2 E)]; lia.
Qed.

(** ** Ecofit relative to its base *)

Lemma Ecofit_s3_shift (info : ProductInfo) (e : Ecofit.S3UID.t) :
  Ecofit.s3 info e = productRangeStartsAt info + Ecofit.s3 originInfo e.
Proof.
  unfold Ecofit.s3, Ecofit.utype, Ecofit.ProductRangeStartsAt, originInfo.
  cbn [productRangeStartsAt]. lia.
Qed.

Ltac ecofit_range info :=
  rewrite !(Ecofit_s3_shift info); apply in_closed_range_shift.

Lemma Ecofit_isCCD_STD_133_shift info l :
  Ecofit.isCCD_STD_133 info l = Ecofit.isCCD_STD_133 originInfo (l - productRangeStartsAt info).
Proof. unfold Ecofit.isCCD_STD_133. ecofit_range info. Qed.

Lemma Ecofit_isCCD_LAT_133_shift info l :
  Ecofit.isCCD_LAT_133 info l = Ecofit.isCCD_LAT_133 originInfo (l - productRangeStartsAt info).
Proof. unfold Ecofit.isCCD_LAT_133. ecofit_range info. Qed.

Lemma Ecofit_isCCD_STD_138_shift info l :
  Ecofit.isCCD_STD_138 info l = Ecofit.isCCD_STD_138 originInfo (l - productRangeStartsAt info).
Proof. unfold Ecofit.isCCD_STD_138. ecofit_range info. Qed.

Lemma Ecofit_isCCD_LAT_138_shift info l :
  Ecofit.isCCD_LAT_138 info l = Ecofit.isCCD_LAT_138 originInfo (l - productRangeStartsAt info).
Proof. unfold Ecofit.isCCD_LAT_138. ecofit_range info. Qed.

Lemma Ecofit_isCCD_CV_shift info l :
  Ecofit.isCCD_CV info l = Ecofit.isCCD_CV originInfo (l - productRangeStartsAt info).
Proof. unfold Ecofit.isCCD_CV. ecofit_range info. Qed.

Lemma Ecofit_isHead_shift info l :
  Ecofit.isHead info l = Ecofit.isHead originInfo (l - productRangeStartsAt info).
Proof. unfold Ecofit.isHead. ecofit_range info. Qed.

Lemma Ecofit_isSubRange_shift info l :
  Ecofit.isSubRange info l = Ecofit.isSubRange originInfo (l - productRangeStartsAt info).
Proof. unfold Ecofit.isSubRange. ecofit_range info. Qed.

Lemma Ecofit_isSubRange133_shift info l :
  Ecofit.isSubRange133 info l = Ecofit.isSubRange133 originInfo (l - productRangeStartsAt info).
Proof.
  unfold Ecofit.isSubRange133. rewrite !(Ecofit_s3_shift info), !eqb_shift. reflexivity.
Qed.

Lemma Ecofit_isCCD_133_shift info l :
  Ecofit.isCCD_133 info l = Ecofit.isCCD_133 originInfo (l - productRangeStartsAt info).
Proof.
  unfold Ecofit.isCCD_133.
  rewrite (Ecofit_isCCD_STD_133_shift info), (Ecofit_isCCD_LAT_133_shift info). reflexivity.
Qed.

Lemma Ecofit_isStem_shift info l :
  Ecofit.isStem info l = Ecofit.isStem originInfo (l - productRangeStartsAt info).
Proof.
  unfold Ecofit.isStem.
  rewrite (Ecofit_isCCD_STD_133_shift info), (Ecofit_isCCD_LAT_133_shift info),
    (Ecofit_isCCD_STD_138_shift info), (Ecofit_isCCD_LAT_138_shift info),
    (Ecofit_isCCD_CV_shift info). reflexivity.
Qed.

Ltac ecofit_preds info :=
  rewrite ?(Ecofit_isStem_shift info), ?(Ecofit_isCCD_133_shift info),
    ?(Ecofit_isCCD_STD_133_shift info), ?(Ecofit_isCCD_LAT_133_shift info),
    ?(Ecofit_isCCD_STD_138_shift info), ?(Ecofit_isCCD_LAT_138_shift info),
    ?(Ecofit_isCCD_CV_shift info), ?(Ecofit_isHead_shift info),
    ?(Ecofit_isSubRange_shift info), ?(Ecofit_isSubRange133_shift info).

(** The stem labels at base 0 are the 54 integers from 90 on. *)
Lemma Ecofit_origin_stems (f : Z -> bool) :
  allInRange f 90 54 = true ->
  forall k, Ecofit.isStem originInfo k = true -> f k = true.
Proof.
  intros Hall k Hk. apply (allInRange_spec f 54 90 Hall).
  unfold Ecofit.isStem in Hk.
  rewrite !orb_true_iff in Hk.
  unfold Ecofit.isCCD_STD_133, Ecofit.isCCD_LAT_133, Ecofit.isCCD_STD_138,
    Ecofit.isCCD_LAT_138, Ecofit.isCCD_CV in Hk.
  rewrite !in_closed_range_bounds in Hk.
  change (Ecofit.s3 originInfo) with (fun e => 90 + Ecofit.S3UID.index e) in Hk.
  cbv beta in Hk. cbn [Ecofit.S3UID.index] in Hk.
  change (Z.of_nat 54) with 54. lia.
Qed.

Lemma Ecofit_getRangeStats_shift info x :
  Ecofit.getRangeStats info x
  = Ecofit_shiftR (productRangeStartsAt info)
      (Ecofit.getRangeStats originInfo (x - productRangeStartsAt info)).
Proof.
  unfold Ecofit.getRangeStats. cbv zeta.
  rewrite (Ecofit_isStem_shift info x), (Ecofit_isCCD_STD_133_shift info x),
    (Ecofit_isCCD_LAT_133_shift info x), (Ecofit_isCCD_STD_138_shift info x),
    (Ecofit_isCCD_LAT_138_shift info x), (Ecofit_isCCD_CV_shift info x).
  set (b := productRangeStartsAt info).
  match goal with
  | |- context [Ecofit.isSubRange info ?m] => set (mi := m)
  end.
  match goal with
  | |- context [Ecofit.isSubRange originInfo ?m] => set (mo := m)
  end.
  assert (Hm : mi - b = mo).
  { subst mi mo. rewrite !(Ecofit_s3_shift info). fold b.
    rewrite !if_sub, !add_sub_cancel_l. reflexivity. }
  rewrite (Ecofit_isSubRange_shift info mi), !(Ecofit_s3_shift info). fold b.
  rewrite !eqb_shift, Hm.
  assert (Hmi : mi = mo + b) by lia. clearbody mi mo. subst mi.
  unfold Ecofit_shiftR.
  destruct (Ecofit.isSubRange originInfo mo); cbn [andb]; cbv iota;
    [|cbn [Ecofit.R.r0 Ecofit.R.r1 Ecofit.R.label0 Ecofit.R.subRange]; reflexivity].
  repeat match goal with
  | |- context [mo =? Ecofit.s3 originInfo ?e] =>
      destruct (Z.eqb_spec mo (Ecofit.s3 originInfo e)) as [E|NE];
      [cbv iota; cbn [Ecofit.R.r0 Ecofit.R.r1 Ecofit.R.label0 Ecofit.R.subRange];
       rewrite !shiftLabel_set by (first [rewrite E|idtac]; vm_compute; discriminate);
       f_equal; lia
      |cbv iota; clear NE]
  end.
  cbn [Ecofit.R.r0 Ecofit.R.r1 Ecofit.R.label0 Ecofit.R.subRange]. reflexivity.
Qed.

Lemma Ecofit_stem_stats_origin k :
  Ecofit.isStem originInfo k = true ->
  Ecofit.R.label0 (Ecofit.getRangeStats originInfo k) <> nullLabel
  /\ Ecofit.R.subRange (Ecofit.getRangeStats originInfo k) <> nullLabel.
Proof.
  intros H.
  pose (f := fun k =>
    negb (Ecofit.R.label0 (Ecofit.getRangeStats originInfo k) =? nullLabel)
    && negb (Ecofit.R.subRange (Ecofit.getRangeStats originInfo k) =? nullLabel)).
  assert (Hf : f k = true) by (apply Ecofit_origin_stems; [vm_compute; reflexivity|exact H]).
  apply andb_true_iff in Hf. destruct Hf as [H1 H2].
  apply negb_true_iff, Z.eqb_neq in H1. apply negb_true_iff, Z.eqb_neq in H2. auto.
Qed.

Lemma Ecofit_families_shift info l :
  Forall2 (fun f g => fst f l = fst g (l - productRangeStartsAt info)
                      /\ snd f = snd g + productRangeStartsAt info)
    (Ecofit.families info) (Ecofit.families originInfo).
Proof.
  unfold Ecofit.families.
  repeat (constructor; [cbn [fst snd]; split;
                        [ecofit_preds info; reflexivity
                        |rewrite (Ecofit_s3_shift info); lia]|]).
  constructor.
Qed.

Lemma Ecofit_markers_shift info r :
  In r (map snd (Ecofit.families info)) ->
  In (r - productRangeStartsAt info) (map snd (Ecofit.families originInfo)).
Proof.
  intros H. apply In_map_shift.
  destruct (memberships_shift _ r _ _ (Ecofit_families_shift info r)) as (_ & _ & <-).
  exact H.
Qed.

Lemma Ecofit_marker_stats_origin r :
  In r (map snd (Ecofit.families originInfo)) ->
  Ecofit.R.label0 (Ecofit.getRangeStats originInfo r) <> nullLabel.
Proof.
  intros H. cbn in H.
  repeat (destruct H as [<-|H]; [vm_compute; discriminate|]). contradiction.
Qed.

Lemma Ecofit_size_shift b r l :
  Ecofit.R.label0 r <> nullLabel ->
  Ecofit.R.size (Ecofit_shiftR b r) l = Ecofit.R.size r (l - b).
Proof.
  intros H. unfold Ecofit.R.size, Ecofit.R.inSubRange, Ecofit.R.idx, Ecofit_shiftR.
  cbn [Ecofit.R.r0 Ecofit.R.r1 Ecofit.R.label0]. rewrite (shiftLabel_set _ _ H).
  replace (l - (Ecofit.R.label0 r + b)) with (l - b - Ecofit.R.label0 r) by lia.
  reflexivity.
Qed.

Lemma Ecofit_next_shift b r l s :
  Ecofit.R.label0 r <> nullLabel ->
  Ecofit.R.next (Ecofit_shiftR b r) l s = Ecofit.R.next r (l - b) s + b.
Proof.
  intros H. unfold Ecofit.R.next, Ecofit.R.inSubRange, Ecofit.R.idx, Ecofit_shiftR.
  cbn [Ecofit.R.r0 Ecofit.R.r1 Ecofit.R.label0]. rewrite (shiftLabel_set _ _ H).
  cbv zeta.
  replace (next l s - (Ecofit.R.label0 r + b)) with (next (l - b) s - Ecofit.R.label0 r)
    by (unfold next; lia).
  destruct (_ && _); unfold next; lia.
Qed.

Lemma Ecofit_nextPrevStem_shift info l a :
  Ecofit.isStem info l = true ->
  Ecofit.nextPrevStem info l a
  = Ecofit.nextPrevStem originInfo (l - productRangeStartsAt info) a + productRangeStartsAt info.
Proof.
  intros H. rewrite (Ecofit_isStem_shift info) in H.
  unfold Ecofit.nextPrevStem. rewrite (Ecofit_getRangeStats_shift info).
  apply Ecofit_next_shift. apply Ecofit_stem_stats_origin. exact H.
Qed.

Lemma Ecofit_subRange_shift info l :
  Ecofit.isStem info l = true ->
  Ecofit.R.subRange (Ecofit.getRangeStats info l)
  = Ecofit.R.subRange (Ecofit.getRangeStats originInfo (l - productRangeStartsAt info))
    + productRangeStartsAt info.
Proof.
  intros H. rewrite (Ecofit_isStem_shift info) in H.
  rewrite (Ecofit_getRangeStats_shift info). unfold Ecofit_shiftR. cbn [Ecofit.R.subRange].
  apply shiftLabel_set. apply Ecofit_stem_stats_origin. exact H.
Qed.

Lemma Ecofit_offset_shift info l :
  Ecofit.isStem info l = true ->
  Ecofit.R.size (Ecofit.getRangeStats info l) l
  = Ecofit.R.size (Ecofit.getRangeStats originInfo (l - productRangeStartsAt info))
      (l - productRangeStartsAt info).
Proof.
  intros H. rewrite (Ecofit_isStem_shift info) in H.
  rewrite (Ecofit_getRangeStats_shift info). apply Ecofit_size_shift.
  apply Ecofit_stem_stats_origin. exact H.
Qed.

Lemma Ecofit_adjustedOffset_shift info l r :
  Ecofit.isStem info l = true ->
  Ecofit.adjustedOffset info l r
  = Ecofit.adjustedOffset originInfo
      (l - productRangeStartsAt info) (r - productRangeStartsAt info).
Proof.
  intros H. unfold Ecofit.adjustedOffset. cbv zeta.
  rewrite (Ecofit_offset_shift info l H), (Ecofit_subRange_shift info l H).
  rewrite !(Ecofit_isSubRange133_shift info), add_sub_cancel. reflexivity.
Qed.

Lemma Ecofit_lastOffset_shift info r :
  Ecofit.lastOffset info r = Ecofit.lastOffset originInfo (r - productRangeStartsAt info).
Proof.
  unfold Ecofit.lastOffset. rewrite (Ecofit_getRangeStats_shift info). reflexivity.
Qed.

Lemma Ecofit_firstLabel_shift info r :
  In r (map snd (Ecofit.families info)) ->
  Ecofit.firstLabel info r
  = Ecofit.firstLabel originInfo (r - productRangeStartsAt info) + productRangeStartsAt info.
Proof.
  intros Hr. apply Ecofit_markers_shift in Hr. apply Ecofit_marker_stats_origin in Hr.
  unfold Ecofit.firstLabel. rewrite (Ecofit_getRangeStats_shift info).
  unfold Ecofit_shiftR; cbn [Ecofit.R.label0]. apply shiftLabel_set. exact Hr.
Qed.

Lemma Ecofit_getSimilarLabel_shift info l r :
  Ecofit.isStem info l = true ->
  In r (map snd (Ecofit.families info)) ->
  Ecofit.getSimilarLabel info l r
  = Ecofit.getSimilarLabel originInfo
      (l - productRangeStartsAt info) (r - productRangeStartsAt info)
    + productRangeStartsAt info.
Proof.
  intros H Hr. apply Ecofit_markers_shift in Hr. apply Ecofit_marker_stats_origin in Hr.
  unfold Ecofit.getSimilarLabel. cbv zeta.
  rewrite (Ecofit_offset_shift info l H), (Ecofit_subRange_shift info l H).
  rewrite !(Ecofit_isSubRange133_shift info), add_sub_cancel.
  rewrite (Ecofit_getRangeStats_shift info r).
  unfold Ecofit.R.clampSize, Ecofit_shiftR. cbn [Ecofit.R.r0 Ecofit.R.r1 Ecofit.R.label0].
  rewrite (shiftLabel_set _ _ Hr). unfold next. lia.
Qed.

Lemma Ecofit_authoredRule_shift info s t :
  Ecofit.authoredRule info s t
  = Ecofit.authoredRule originInfo (s - productRangeStartsAt info) (t - productRangeStartsAt info).
Proof.
  unfold Ecofit.authoredRule. rewrite !(Ecofit_isSubRange133_shift info). reflexivity.
Qed.

(** ** Ecofit: properties of the label functions *)

Lemma Ecofit_memberships_origin k :
  Ecofit.isStem originInfo k = existsb (fun f => fst f k) (Ecofit.families originInfo)
  /\ (Ecofit.isStem originInfo k = true ->
      map snd (filter (fun f => fst f k) (Ecofit.families originInfo))
      = [Ecofit.R.subRange (Ecofit.getRangeStats originInfo k)]).
Proof.
  split.
  - unfold Ecofit.families, Ecofit.isStem. cbn [existsb fst].
    rewrite orb_false_r, !orb_assoc. reflexivity.
  - intros H.
    pose (f := fun k =>
      match map snd (filter (fun f => fst f k) (Ecofit.families originInfo)) with
      | [m] => m =? Ecofit.R.subRange (Ecofit.getRangeStats originInfo k)
      | _ => false
      end).
    assert (Hf : f k = true)
      by (apply Ecofit_origin_stems; [vm_compute; reflexivity|exact H]).
    unfold f in Hf.
    destruct (map snd (filter (fun f => fst f k) (Ecofit.families originInfo)))
      as [|m [|? ?]]; try discriminate.
    apply Z.eqb_eq in Hf. congruence.
Qed.

Lemma Ecofit_memberships info l :
  Ecofit.isStem info l = existsb (fun f => fst f l) (Ecofit.families info)
  /\ (Ecofit.isStem info l = true ->
      map snd (filter (fun f => fst f l) (Ecofit.families info))
      = [Ecofit.R.subRange (Ecofit.getRangeStats info l)]).
Proof.
  destruct (memberships_shift _ l _ _ (Ecofit_families_shift info l)) as (E1 & E2 & _).
  destruct (Ecofit_memberships_origin (l - productRangeStartsAt info)) as [O1 O2].
  split.
  - etransitivity; [apply Ecofit_isStem_shift|].
    etransitivity; [exact O1|]. symmetry. exact E2.
  - intros H. etransitivity; [exact E1|].
    rewrite (Ecofit_isStem_shift info) in H. specialize (O2 H).
    etransitivity; [exact (f_equal (map (fun x => x + productRangeStartsAt info)) O2)|].
    rewrite <- (Ecofit_isStem_shift info) in H.
    rewrite (Ecofit_subRange_shift info l H). reflexivity.
Qed.

Lemma Ecofit_range_is_marker info l :
  Ecofit.isStem info l = true ->
  In (Ecofit.R.subRange (Ecofit.getRangeStats info l)) (map snd (Ecofit.families info)).
Proof.
  intros H. destruct (Ecofit_memberships info l) as [_ M].
  exact (memberships_incl _ _ _ (M H)).
Qed.

Lemma Ecofit_self_origin k :
  Ecofit.isStem originInfo k = true ->
  Ecofit.getSimilarLabel originInfo k (Ecofit.R.subRange (Ecofit.getRangeStats originInfo k))
  = k.
Proof.
  intros H.
  pose (f := fun k =>
    Ecofit.getSimilarLabel originInfo k
      (Ecofit.R.subRange (Ecofit.getRangeStats originInfo k)) =? k).
  assert (Hf : f k = true) by (apply Ecofit_origin_stems; [vm_compute; reflexivity|exact H]).
  apply Z.eqb_eq in Hf. exact Hf.
Qed.

Lemma Ecofit_self info l :
  Ecofit.isStem info l = true ->
  Ecofit.getSimilarLabel info l (Ecofit.R.subRange (Ecofit.getRangeStats info l)) = l.
Proof.
  intros H.
  rewrite (Ecofit_getSimilarLabel_shift info l _ H (Ecofit_range_is_marker info l H)).
  rewrite (Ecofit_subRange_shift info l H), add_sub_cancel.
  rewrite Ecofit_self_origin by (rewrite <- Ecofit_isStem_shift; exact H). lia.
Qed.

Lemma Ecofit_nextPrev_origin k a :
  Ecofit.isStem originInfo k = true ->
  Ecofit.nextPrevStem originInfo k a
  = (if Ecofit.isStem originInfo (next k (stepOf a))
        && (Ecofit.R.subRange (Ecofit.getRangeStats originInfo (next k (stepOf a)))
            =? Ecofit.R.subRange (Ecofit.getRangeStats originInfo k))
     then next k (stepOf a) else k)
  /\ Ecofit.isStem originInfo (Ecofit.nextPrevStem originInfo k a) = true
  /\ Ecofit.R.subRange (Ecofit.getRangeStats originInfo (Ecofit.nextPrevStem originInfo k a))
     = Ecofit.R.subRange (Ecofit.getRangeStats originInfo k).
Proof.
  intros H.
  pose (f := fun k =>
    forallb (fun a =>
      (Ecofit.nextPrevStem originInfo k a
       =? (if Ecofit.isStem originInfo (next k (stepOf a))
              && (Ecofit.R.subRange (Ecofit.getRangeStats originInfo (next k (stepOf a)))
                  =? Ecofit.R.subRange (Ecofit.getRangeStats originInfo k))
           then next k (stepOf a) else k))
      && Ecofit.isStem originInfo (Ecofit.nextPrevStem originInfo k a)
      && (Ecofit.R.subRange
            (Ecofit.getRangeStats originInfo (Ecofit.nextPrevStem originInfo k a))
          =? Ecofit.R.subRange (Ecofit.getRangeStats originInfo k))) [true; false]).
  assert (Hf : f k = true) by (apply Ecofit_origin_stems; [vm_compute; reflexivity|exact H]).
  unfold f in Hf. rewrite forallb_forall in Hf.
  specialize (Hf a (ltac:(destruct a; cbn; auto))).
  apply andb_true_iff in Hf. destruct Hf as [Hf H3].
  apply andb_true_iff in Hf. destruct Hf as [H1 H2].
  apply Z.eqb_eq in H1, H3. auto.
Qed.

Lemma Ecofit_nextPrev_char info l a :
  Ecofit.isStem info l = true ->
  Ecofit.nextPrevStem info l a
  = (if Ecofit.isStem info (next l (stepOf a))
        && (Ecofit.R.subRange (Ecofit.getRangeStats info (next l (stepOf a)))
            =? Ecofit.R.subRange (Ecofit.getRangeStats info l))
     then next l (stepOf a) else l)
  /\ Ecofit.isStem info (Ecofit.nextPrevStem info l a) = true
  /\ Ecofit.R.subRange (Ecofit.getRangeStats info (Ecofit.nextPrevStem info l a))
     = Ecofit.R.subRange (Ecofit.getRangeStats info l).
Proof.
  intros H. pose proof H as H0. rewrite (Ecofit_isStem_shift info) in H0.
  destruct (Ecofit_nextPrev_origin _ a H0) as (E1 & E2 & E3).
  assert (Hs : Ecofit.isStem info (Ecofit.nextPrevStem info l a) = true).
  { rewrite (Ecofit_isStem_shift info), (Ecofit_nextPrevStem_shift info l a H),
      add_sub_cancel. exact E2. }
  split; [|split; [exact Hs|]].
  - rewrite (Ecofit_nextPrevStem_shift info l a H), E1.
    rewrite (Ecofit_isStem_shift info (next l (stepOf a))), next_shift.
    destruct (Ecofit.isStem originInfo (next (l - productRangeStartsAt info) (stepOf a)))
      eqn:En; cbn [andb]; [|lia].
    rewrite (Ecofit_subRange_shift info (next l (stepOf a)))
      by (rewrite (Ecofit_isStem_shift info), next_shift; exact En).
    rewrite (Ecofit_subRange_shift info l H), eqb_add_cancel, next_shift.
    destruct (_ =? _); unfold next; lia.
  - rewrite (Ecofit_subRange_shift info _ Hs), (Ecofit_subRange_shift info l H).
    rewrite (Ecofit_nextPrevStem_shift info l a H), add_sub_cancel, E3. reflexivity.
Qed.

Lemma Ecofit_similar_origin k r :
  Ecofit.isStem originInfo k = true ->
  In r (map snd (Ecofit.families originInfo)) ->
  Ecofit.getSimilarLabel originInfo k r
  = next (Ecofit.firstLabel originInfo r)
      (SboML.clamp (Ecofit.adjustedOffset originInfo k r) 0 (Ecofit.lastOffset originInfo r)).
Proof.
  intros H Hr.
  pose (f := fun k =>
    forallb (fun r =>
      Ecofit.getSimilarLabel originInfo k r
      =? next (Ecofit.firstLabel originInfo r)
           (SboML.clamp (Ecofit.adjustedOffset originInfo k r) 0
              (Ecofit.lastOffset originInfo r)))
      (map snd (Ecofit.families originInfo))).
  assert (Hf : f k = true) by (apply Ecofit_origin_stems; [vm_compute; reflexivity|exact H]).
  unfold f in Hf. rewrite forallb_forall in Hf. specialize (Hf r Hr).
  apply Z.eqb_eq in Hf. exact Hf.
Qed.

Lemma Ecofit_similar_closed info l r :
  Ecofit.isStem info l = true ->
  In r (map snd (Ecofit.families info)) ->
  Ecofit.getSimilarLabel info l r
  = next (Ecofit.firstLabel info r)
      (SboML.clamp (Ecofit.adjustedOffset info l r) 0 (Ecofit.lastOffset info r)).
Proof.
  intros H Hr.
  rewrite (Ecofit_getSimilarLabel_shift info l r H Hr).
  rewrite Ecofit_similar_origin
    by (first [rewrite <- Ecofit_isStem_shift; exact H
              | apply Ecofit_markers_shift; exact Hr]).
  rewrite (Ecofit_firstLabel_shift info r Hr), (Ecofit_adjustedOffset_shift info l r H),
    (Ecofit_lastOffset_shift info r).
  unfold next; lia.
Qed.

Lemma Ecofit_roundTrip_origin k r :
  Ecofit.isStem originInfo k = true ->
  In r (map snd (Ecofit.families originInfo)) ->
  Ecofit.isCCD_133 originInfo k
  && (Ecofit.R.size (Ecofit.getRangeStats originInfo k) k =? 8)
  && negb (Ecofit.isSubRange133 originInfo r) = false ->
  let m := Ecofit.getSimilarLabel originInfo k r in
  let x := Ecofit.getSimilarLabel originInfo m
             (Ecofit.R.subRange (Ecofit.getRangeStats originInfo k)) in
  Ecofit.isStem originInfo m = true
  /\ Ecofit.isStem originInfo x = true
  /\ Ecofit.R.subRange (Ecofit.getRangeStats originInfo x)
     = Ecofit.R.subRange (Ecofit.getRangeStats originInfo k)
  /\ Z.abs (Ecofit.R.size (Ecofit.getRangeStats originInfo x) x
            - Ecofit.R.size (Ecofit.getRangeStats originInfo k) k)
     <= Z.abs (Ecofit.adjustedOffset originInfo k r
               - SboML.clamp (Ecofit.adjustedOffset originInfo k r) 0
                   (Ecofit.lastOffset originInfo r)).
Proof.
  intros H Hr Hmerged.
  pose (f := fun k =>
    forallb (fun r =>
      let m := Ecofit.getSimilarLabel originInfo k r in
      let x := Ecofit.getSimilarLabel originInfo m
                 (Ecofit.R.subRange (Ecofit.getRangeStats originInfo k)) in
      (Ecofit.isCCD_133 originInfo k
       && (Ecofit.R.size (Ecofit.getRangeStats originInfo k) k =? 8)
       && negb (Ecofit.isSubRange133 originInfo r))
      || (Ecofit.isStem originInfo m
          && Ecofit.isStem originInfo x
          && (Ecofit.R.subRange (Ecofit.getRangeStats originInfo x)
              =? Ecofit.R.subRange (Ecofit.getRangeStats originInfo k))
          && (Z.abs (Ecofit.R.size (Ecofit.getRangeStats originInfo x) x
                     - Ecofit.R.size (Ecofit.getRangeStats originInfo k) k)
              <=? Z.abs (Ecofit.adjustedOffset originInfo k r
                         - SboML.clamp (Ecofit.adjustedOffset originInfo k r) 0
                             (Ecofit.lastOffset originInfo r)))))
      (map snd (Ecofit.families originInfo))).
  assert (Hf : f k = true) by (apply Ecofit_origin_stems; [vm_compute; reflexivity|exact H]).
  unfold f in Hf. rewrite forallb_forall in Hf. specialize (Hf r Hr). cbv zeta in Hf.
  rewrite Hmerged in Hf. cbn [orb] in Hf.
  apply andb_true_iff in Hf. destruct Hf as [Hf H4].
  apply andb_true_iff in Hf. destruct Hf as [Hf H3].
  apply andb_true_iff in Hf. destruct Hf as [H1 H2].
  apply Z.eqb_eq in H3. apply Z.leb_le in H4. cbv zeta. auto.
Qed.

Lemma Ecofit_roundTrip info l r :
  Ecofit.isStem info l = true ->
  In r (map snd (Ecofit.families info)) ->
  Ecofit.isCCD_133 info l
  && (Ecofit.R.size (Ecofit.getRangeStats info l) l =? 8)
  && negb (Ecofit.isSubRange133 info r) = false ->
  let x := Ecofit.getSimilarLabel info (Ecofit.getSimilarLabel info l r)
             (Ecofit.R.subRange (Ecofit.getRangeStats info l)) in
  Ecofit.isStem info x = true
  /\ Ecofit.R.subRange (Ecofit.getRangeStats info x)
     = Ecofit.R.subRange (Ecofit.getRangeStats info l)
  /\ Z.abs (Ecofit.R.size (Ecofit.getRangeStats info x) x
            - Ecofit.R.size (Ecofit.getRangeStats info l) l)
     <= Z.abs (Ecofit.adjustedOffset info l r
               - SboML.clamp (Ecofit.adjustedOffset info l r) 0 (Ecofit.lastOffset info r)).
Proof.
  intros H Hr Hmerged. pose proof H as H0. rewrite (Ecofit_isStem_shift info) in H0.
  rewrite (Ecofit_isCCD_133_shift info), (Ecofit_offset_shift info l H),
    (Ecofit_isSubRange133_shift info) in Hmerged.
  destruct (Ecofit_roundTrip_origin _ _ H0 (Ecofit_markers_shift info r Hr) Hmerged)
    as (Sm & Sx & E3 & E4).
  cbv zeta in *.
  set (b := productRangeStartsAt info) in *.
  rewrite (Ecofit_getSimilarLabel_shift info l r H Hr). fold b.
  set (m := Ecofit.getSimilarLabel originInfo (l - b) (r - b)) in *.
  assert (Hm : Ecofit.isStem info (m + b) = true)
    by (rewrite (Ecofit_isStem_shift info); fold b; rewrite add_sub_cancel; exact Sm).
  rewrite (Ecofit_getSimilarLabel_shift info _ _ Hm (Ecofit_range_is_marker info l H)).
  fold b. rewrite (Ecofit_subRange_shift info l H). fold b. rewrite !add_sub_cancel.
  set (x := Ecofit.getSimilarLabel originInfo m
              (Ecofit.R.subRange (Ecofit.getRangeStats originInfo (l - b)))) in *.
  assert (Hx : Ecofit.isStem info (x + b) = true)
    by (rewrite (Ecofit_isStem_shift info); fold b; rewrite add_sub_cancel; exact Sx).
  split; [exact Hx|split].
  - rewrite (Ecofit_subRange_shift info _ Hx). fold b. rewrite add_sub_cancel, E3.
    reflexivity.
  - rewrite (Ecofit_offset_shift info _ Hx), (Ecofit_offset_shift info l H),
      (Ecofit_adjustedOffset_shift info l r H), (Ecofit_lastOffset_shift info r).
    fold b. rewrite add_sub_cancel. exact E4.
Qed.

Lemma Ecofit_boundary_origin k :
  Ecofit.isStem originInfo k = true ->
  (Ecofit.R.size (Ecofit.getRangeStats originInfo k) k = Ecofit.lastOffset originInfo (Ecofit.R.subRange (Ecofit.getRangeStats originInfo k)) ->
   Ecofit.nextPrevStem originInfo k true = k)
  /\ (Ecofit.R.size (Ecofit.getRangeStats originInfo k) k = 0 -> Ecofit.nextPrevStem originInfo k false = k).
Proof.
  intros H.
  pose (f := fun k =>
    (negb (Ecofit.R.size (Ecofit.getRangeStats originInfo k) k =? Ecofit.lastOffset originInfo (Ecofit.R.subRange (Ecofit.getRangeStats originInfo k)))
     || (Ecofit.nextPrevStem originInfo k true =? k))
    && (negb (Ecofit.R.size (Ecofit.getRangeStats originInfo k) k =? 0) || (Ecofit.nextPrevStem originInfo k false =? k))).
  assert (Hf : f k = true) by (apply Ecofit_origin_stems; [vm_compute; reflexivity|exact H]).
  unfold f in Hf. apply andb_true_iff in Hf. destruct Hf as [H1 H2].
  split; intros E; apply Z.eqb_eq in E.
  - rewrite E in H1. cbn [negb orb] in H1. apply Z.eqb_eq in H1. exact H1.
  - rewrite E in H2. cbn [negb orb] in H2. apply Z.eqb_eq in H2. exact H2.
Qed.

Lemma Ecofit_boundary info l :
  Ecofit.isStem info l = true ->
  (Ecofit.R.size (Ecofit.getRangeStats info l) l = Ecofit.lastOffset info (Ecofit.R.subRange (Ecofit.getRangeStats info l)) -> Ecofit.nextPrevStem info l true = l)
  /\ (Ecofit.R.size (Ecofit.getRangeStats info l) l = 0 -> Ecofit.nextPrevStem info l false = l).
Proof.
  intros H. pose proof H as H0. rewrite (Ecofit_isStem_shift info) in H0.
  destruct (Ecofit_boundary_origin _ H0) as [B1 B2].
  rewrite (Ecofit_offset_shift info l H), (Ecofit_lastOffset_shift info), (Ecofit_subRange_shift info l H), add_sub_cancel,
    !(Ecofit_nextPrevStem_shift info l _ H).
  split; intros E; [rewrite (B1 E)|rewrite (B2 E)]; lia.
Qed.

(** ** Actis relative to its base *)

Lemma Actis_s3_shift (info : ProductInfo) (e : Actis.S3UID.t) :
  Actis.s3 info e = productRangeStartsAt info + Actis.s3 originInfo e.
Proof.
  unfold Actis.s3, Actis.utype, Actis.ProductRangeStartsAt, originInfo.
  cbn [productRangeStartsAt]. lia.
Qed.

Ltac actis_range info :=
  rewrite !(Actis_s3_shift info); apply in_closed_range_shift.

Lemma Actis_isCCD_STD_shift info l :
  Actis.isCCD_STD info l = Actis.isCCD_STD originInfo (l - productRangeStartsAt info).
Proof. unfold Actis.isCCD_STD. actis_range info. Qed.

Lemma Actis_isCCD_HO_shift info l :
  Actis.isCCD_HO info l = Actis.isCCD_HO originInfo (l - productRangeStartsAt info).
Proof. unfold Actis.isCCD_HO. actis_range info. Qed.

Lemma Actis_isHead_shift info l :
  Actis.isHead info l = Actis.isHead originInfo (l - productRangeStartsAt info).
Proof. unfold Actis.isHead. actis_range info. Qed.

Lemma Actis_isSubRange_shift info l :
  Actis.isSubRange info l = Actis.isSubRange originInfo (l - productRangeStartsAt info).
Proof. unfold Actis.isSubRange. actis_range info. Qed.

Lemma Actis_isStem_shift info l :
  Actis.isStem info l = Actis.isStem originInfo (l - productRangeStartsAt info).
Proof.
  unfold Actis.isStem.
  rewrite (Actis_isCCD_STD_shift info), (Actis_isCCD_HO_shift info). reflexivity.
Qed.

Ltac actis_preds info :=
  rewrite ?(Actis_isStem_shift info), ?(Actis_isCCD_STD_shift info),
    ?(Actis_isCCD_HO_shift info), ?(Actis_isHead_shift info),
    ?(Actis_isSubRange_shift info).

(** The stem labels at base 0 are the 26 integers from 90 on. *)
Lemma Actis_origin_stems (f : Z -> bool) :
  allInRange f 90 26 = true ->
  forall k, Actis.isStem originInfo k = true -> f k = true.
Proof.
  intros Hall k Hk. apply (allInRange_spec f 26 90 Hall).
  unfold Actis.isStem in Hk.
  rewrite !orb_true_iff in Hk.
  unfold Actis.isCCD_STD, Actis.isCCD_HO in Hk.
  rewrite !in_closed_range_bounds in Hk.
  change (Actis.s3 originInfo) with (fun e => 90 + Actis.S3UID.index e) in Hk.
  cbv beta in Hk. cbn [Actis.S3UID.index] in Hk.
  change (Z.of_nat 26) with 26. lia.
Qed.

Lemma Actis_getRangeStats_shift info x :
  Actis.getRangeStats info x
  = Actis_shiftR (productRangeStartsAt info)
      (Actis.getRangeStats originInfo (x - productRangeStartsAt info)).
Proof.
  unfold Actis.getRangeStats. cbv zeta.
  rewrite (Actis_isStem_shift info x), (Actis_isCCD_STD_shift info x),
    (Actis_isCCD_HO_shift info x).
  set (b := productRangeStartsAt info).
  match goal with
  | |- context [Actis.isSubRange info ?m] => set (mi := m)
  end.
  match goal with
  | |- context [Actis.isSubRange originInfo ?m] => set (mo := m)
  end.
  assert (Hm : mi - b = mo).
  { subst mi mo. rewrite !(Actis_s3_shift info). fold b.
    rewrite !if_sub, !add_sub_cancel_l. reflexivity. }
  rewrite (Actis_isSubRange_shift info mi), !(Actis_s3_shift info). fold b.
  rewrite !eqb_shift, Hm.
  assert (Hmi : mi = mo + b) by lia. clearbody mi mo. subst mi.
  unfold Actis_shiftR.
  destruct (Actis.isSubRange originInfo mo); cbn [andb]; cbv iota;
    [|cbn [Actis.R.r0 Actis.R.r1 Actis.R.label0 Actis.R.subRange]; reflexivity].
  repeat match goal with
  | |- context [mo =? Actis.s3 originInfo ?e] =>
      destruct (Z.eqb_spec mo (Actis.s3 originInfo e)) as [E|NE];
      [cbv iota; cbn [Actis.R.r0 Actis.R.r1 Actis.R.label0 Actis.R.subRange];
       rewrite !shiftLabel_set by (first [rewrite E|idtac]; vm_compute; discriminate);
       f_equal; lia
      |cbv iota; clear NE]
  end.
  cbn [Actis.R.r0 Actis.R.r1 Actis.R.label0 Actis.R.subRange]. reflexivity.
Qed.

Lemma Actis_stem_stats_origin k :
  Actis.isStem originInfo k = true ->
  Actis.R.label0 (Actis.getRangeStats originInfo k) <> nullLabel
  /\ Actis.R.subRange (Actis.getRangeStats originInfo k) <> nullLabel.
Proof.
  intros H.
  pose (f := fun k =>
    negb (Actis.R.label0 (Actis.getRangeStats originInfo k) =? nullLabel)
    && negb (Actis.R.subRange (Actis.getRangeStats originInfo k) =? nullLabel)).
  assert (Hf : f k = true) by (apply Actis_origin_stems; [vm_compute; reflexivity|exact H]).
  apply andb_true_iff in Hf. destruct Hf as [H1 H2].
  apply negb_true_iff, Z.eqb_neq in H1. apply negb_true_iff, Z.eqb_neq in H2. auto.
Qed.

Lemma Actis_families_shift info l :
  Forall2 (fun f g => fst f l = fst g (l - productRangeStartsAt info)
                      /\ snd f = snd g + productRangeStartsAt info)
    (Actis.families info) (Actis.families originInfo).
Proof.
  unfold Actis.families.
  repeat (constructor; [cbn [fst snd]; split;
                        [actis_preds info; reflexivity
                        |rewrite (Actis_s3_shift info); lia]|]).
  constructor.
Qed.

Lemma Actis_markers_shift info r :
  In r (map snd (Actis.families info)) ->
  In (r - productRangeStartsAt info) (map snd (Actis.families originInfo)).
Proof.
  intros H. apply In_map_shift.
  destruct (memberships_shift _ r _ _ (Actis_families_shift info r)) as (_ & _ & <-).
  exact H.
Qed.

Lemma Actis_marker_stats_origin r :
  In r (map snd (Actis.families originInfo)) ->
  Actis.R.label0 (Actis.getRangeStats originInfo r) <> nullLabel.
Proof.
  intros H. cbn in H.
  repeat (destruct H as [<-|H]; [vm_compute; discriminate|]). contradiction.
Qed.

Lemma Actis_size_shift b r l :
  Actis.R.label0 r <> nullLabel ->
  Actis.R.size (Actis_shiftR b r) l = Actis.R.size r (l - b).
Proof.
  intros H. unfold Actis.R.size, Actis.R.inSubRange, Actis.R.idx, Actis_shiftR.
  cbn [Actis.R.r0 Actis.R.r1 Actis.R.label0]. rewrite (shiftLabel_set _ _ H).
  replace (l - (Actis.R.label0 r + b)) with (l - b - Actis.R.label0 r) by lia.
  reflexivity.
Qed.

Lemma Actis_next_shift b r l s :
  Actis.R.label0 r <> nullLabel ->
  Actis.R.next (Actis_shiftR b r) l s = Actis.R.next r (l - b) s + b.
Proof.
  intros H. unfold Actis.R.next, Actis.R.inSubRange, Actis.R.idx, Actis_shiftR.
  cbn [Actis.R.r0 Actis.R.r1 Actis.R.label0]. rewrite (shiftLabel_set _ _ H).
  cbv zeta.
  replace (next l s - (Actis.R.label0 r + b)) with (next (l - b) s - Actis.R.label0 r)
    by (unfold next; lia).
  destruct (_ && _); unfold next; lia.
Qed.

Lemma Actis_nextPrevStem_shift info l a :
  Actis.isStem info l = true ->
  Actis.nextPrevStem info l a
  = Actis.nextPrevStem originInfo (l - productRangeStartsAt info) a + productRangeStartsAt info.
Proof.
  intros H. rewrite (Actis_isStem_shift info) in H.
  unfold Actis.nextPrevStem. rewrite (Actis_getRangeStats_shift info).
  apply Actis_next_shift. apply Actis_stem_stats_origin. exact H.
Qed.

Lemma Actis_subRange_shift info l :
  Actis.isStem info l = true ->
  Actis.R.subRange (Actis.getRangeStats info l)
  = Actis.R.subRange (Actis.getRangeStats originInfo (l - productRangeStartsAt info))
    + productRangeStartsAt info.
Proof.
  intros H. rewrite (Actis_isStem_shift info) in H.
  rewrite (Actis_getRangeStats_shift info). unfold Actis_shiftR. cbn [Actis.R.subRange].
  apply shiftLabel_set. apply Actis_stem_stats_origin. exact H.
Qed.

Lemma Actis_offset_shift info l :
  Actis.isStem info l = true ->
  Actis.R.size (Actis.getRangeStats info l) l
  = Actis.R.size (Actis.getRangeStats originInfo (l - productRangeStartsAt info))
      (l - productRangeStartsAt info).
Proof.
  intros H. rewrite (Actis_isStem_shift info) in H.
  rewrite (Actis_getRangeStats_shift info). apply Actis_size_shift.
  apply Actis_stem_stats_origin. exact H.
Qed.

Lemma Actis_adjustedOffset_shift info l r :
  Actis.isStem info l = true ->
  Actis.adjustedOffset info l r
  = Actis.adjustedOffset originInfo
      (l - productRangeStartsAt info) (r - productRangeStartsAt info).
Proof. intros H. unfold Actis.adjustedOffset. apply Actis_offset_shift. exact H. Qed.

Lemma Actis_lastOffset_shift info r :
  Actis.lastOffset info r = Actis.lastOffset originInfo (r - productRangeStartsAt info).
Proof.
  unfold Actis.lastOffset. rewrite (Actis_getRangeStats_shift info). reflexivity.
Qed.

Lemma Actis_firstLabel_shift info r :
  In r (map snd (Actis.families info)) ->
  Actis.firstLabel info r
  = Actis.firstLabel originInfo (r - productRangeStartsAt info) + productRangeStartsAt info.
Proof.
  intros Hr. apply Actis_markers_shift in Hr. apply Actis_marker_stats_origin in Hr.
  unfold Actis.firstLabel. rewrite (Actis_getRangeStats_shift info).
  unfold Actis_shiftR; cbn [Actis.R.label0]. apply shiftLabel_set. exact Hr.
Qed.

Lemma Actis_getSimilarLabel_shift info l r :
  Actis.isStem info l = true ->
  In r (map snd (Actis.families info)) ->
  Actis.getSimilarLabel info l r
  = Actis.getSimilarLabel originInfo
      (l - productRangeStartsAt info) (r - productRangeStartsAt info)
    + productRangeStartsAt info.
Proof.
  intros H Hr. apply Actis_markers_shift in Hr. apply Actis_marker_stats_origin in Hr.
  unfold Actis.getSimilarLabel. cbv zeta.
  rewrite (Actis_offset_shift info l H).
  rewrite (Actis_getRangeStats_shift info r).
  unfold Actis_shiftR. cbn [Actis.R.label0].
  rewrite (shiftLabel_set _ _ Hr). unfold next. lia.
Qed.

(** ** Actis: properties of the label functions *)

Lemma Actis_memberships_origin k :
  Actis.isStem originInfo k = existsb (fun f => fst f k) (Actis.families originInfo)
  /\ (Actis.isStem originInfo k = true ->
      map snd (filter (fun f => fst f k) (Actis.families originInfo))
      = [Actis.R.subRange (Actis.getRangeStats originInfo k)]).
Proof.
  split.
  - unfold Actis.families, Actis.isStem. cbn [existsb fst].
    rewrite orb_false_r. reflexivity.
  - intros H.
    pose (f := fun k =>
      match map snd (filter (fun f => fst f k) (Actis.families originInfo)) with
      | [m] => m =? Actis.R.subRange (Actis.getRangeStats originInfo k)
      | _ => false
      end).
    assert (Hf : f k = true)
      by (apply Actis_origin_stems; [vm_compute; reflexivity|exact H]).
    unfold f in Hf.
    destruct (map snd (filter (fun f => fst f k) (Actis.families originInfo)))
      as [|m [|? ?]]; try discriminate.
    apply Z.eqb_eq in Hf. congruence.
Qed.

Lemma Actis_memberships info l :
  Actis.isStem info l = existsb (fun f => fst f l) (Actis.families info)
  /\ (Actis.isStem info l = true ->
      map snd (filter (fun f => fst f l) (Actis.families info))
      = [Actis.R.subRange (Actis.getRangeStats info l)]).
Proof.
  destruct (memberships_shift _ l _ _ (Actis_families_shift info l)) as (E1 & E2 & _).
  destruct (Actis_memberships_origin (l - productRangeStartsAt info)) as [O1 O2].
  split.
  - etransitivity; [apply Actis_isStem_shift|].
    etransitivity; [exact O1|]. symmetry. exact E2.
  - intros H. etransitivity; [exact E1|].
    rewrite (Actis_isStem_shift info) in H. specialize (O2 H).
    etransitivity; [exact (f_equal (map (fun x => x + productRangeStartsAt info)) O2)|].
    rewrite <- (Actis_isStem_shift info) in H.
    rewrite (Actis_subRange_shift info l H). reflexivity.
Qed.

Lemma Actis_range_is_marker info l :
  Actis.isStem info l = true ->
  In (Actis.R.subRange (Actis.getRangeStats info l)) (map snd (Actis.families info)).
Proof.
  intros H. destruct (Actis_memberships info l) as [_ M].
  exact (memberships_incl _ _ _ (M H)).
Qed.

Lemma Actis_self_origin k :
  Actis.isStem originInfo k = true ->
  Actis.getSimilarLabel originInfo k (Actis.R.subRange (Actis.getRangeStats originInfo k))
  = k.
Proof.
  intros H.
  pose (f := fun k =>
    Actis.getSimilarLabel originInfo k
      (Actis.R.subRange (Actis.getRangeStats originInfo k)) =? k).
  assert (Hf : f k = true) by (apply Actis_origin_stems; [vm_compute; reflexivity|exact H]).
  apply Z.eqb_eq in Hf. exact Hf.
Qed.

Lemma Actis_self info l :
  Actis.isStem info l = true ->
  Actis.getSimilarLabel info l (Actis.R.subRange (Actis.getRangeStats info l)) = l.
Proof.
  intros H.
  rewrite (Actis_getSimilarLabel_shift info l _ H (Actis_range_is_marker info l H)).
  rewrite (Actis_subRange_shift info l H), add_sub_cancel.
  rewrite Actis_self_origin by (rewrite <- Actis_isStem_shift; exact H). lia.
Qed.

Lemma Actis_nextPrev_origin k a :
  Actis.isStem originInfo k = true ->
  Actis.nextPrevStem originInfo k a
  = (if Actis.isStem originInfo (next k (stepOf a))
        && (Actis.R.subRange (Actis.getRangeStats originInfo (next k (stepOf a)))
            =? Actis.R.subRange (Actis.getRangeStats originInfo k))
     then next k (stepOf a) else k)
  /\ Actis.isStem originInfo (Actis.nextPrevStem originInfo k a) = true
  /\ Actis.R.subRange (Actis.getRangeStats originInfo (Actis.nextPrevStem originInfo k a))
     = Actis.R.subRange (Actis.getRangeStats originInfo k).
Proof.
  intros H.
  pose (f := fun k =>
    forallb (fun a =>
      (Actis.nextPrevStem originInfo k a
       =? (if Actis.isStem originInfo (next k (stepOf a))
              && (Actis.R.subRange (Actis.getRangeStats originInfo (next k (stepOf a)))
                  =? Actis.R.subRange (Actis.getRangeStats originInfo k))
           then next k (stepOf a) else k))
      && Actis.isStem originInfo (Actis.nextPrevStem originInfo k a)
      && (Actis.R.subRange
            (Actis.getRangeStats originInfo (Actis.nextPrevStem originInfo k a))
          =? Actis.R.subRange (Actis.getRangeStats originInfo k))) [true; false]).
  assert (Hf : f k = true) by (apply Actis_origin_stems; [vm_compute; reflexivity|exact H]).
  unfold f in Hf. rewrite forallb_forall in Hf.
  specialize (Hf a (ltac:(destruct a; cbn; auto))).
  apply andb_true_iff in Hf. destruct Hf as [Hf H3].
  apply andb_true_iff in Hf. destruct Hf as [H1 H2].
  apply Z.eqb_eq in H1, H3. auto.
Qed.

Lemma Actis_nextPrev_char info l a :
  Actis.isStem info l = true ->
  Actis.nextPrevStem info l a
  = (if Actis.isStem info (next l (stepOf a))
        && (Actis.R.subRange (Actis.getRangeStats info (next l (stepOf a)))
            =? Actis.R.subRange (Actis.getRangeStats info l))
     then next l (stepOf a) else l)
  /\ Actis.isStem info (Actis.nextPrevStem info l a) = true
  /\ Actis.R.subRange (Actis.getRangeStats info (Actis.nextPrevStem info l a))
     = Actis.R.subRange (Actis.getRangeStats info l).
Proof.
  intros H. pose proof H as H0. rewrite (Actis_isStem_shift info) in H0.
  destruct (Actis_nextPrev_origin _ a H0) as (E1 & E2 & E3).
  assert (Hs : Actis.isStem info (Actis.nextPrevStem info l a) = true).
  { rewrite (Actis_isStem_shift info), (Actis_nextPrevStem_shift info l a H),
      add_sub_cancel. exact E2. }
  split; [|split; [exact Hs|]].
  - rewrite (Actis_nextPrevStem_shift info l a H), E1.
    rewrite (Actis_isStem_shift info (next l (stepOf a))), next_shift.
    destruct (Actis.isStem originInfo (next (l - productRangeStartsAt info) (stepOf a)))
      eqn:En; cbn [andb]; [|lia].
    rewrite (Actis_subRange_shift info (next l (stepOf a)))
      by (rewrite (Actis_isStem_shift info), next_shift; exact En).
    rewrite (Actis_subRange_shift info l H), eqb_add_cancel, next_shift.
    destruct (_ =? _); unfold next; lia.
  - rewrite (Actis_subRange_shift info _ Hs), (Actis_subRange_shift info l H).
    rewrite (Actis_nextPrevStem_shift info l a H), add_sub_cancel, E3. reflexivity.
Qed.

Lemma Actis_similar_origin k r :
  Actis.isStem originInfo k = true ->
  In r (map snd (Actis.families originInfo)) ->
  Actis.getSimilarLabel originInfo k r
  = next (Actis.firstLabel originInfo r)
      (SboML.clamp (Actis.adjustedOffset originInfo k r) 0 (Actis.lastOffset originInfo r)).
Proof.
  intros H Hr.
  pose (f := fun k =>
    forallb (fun r =>
      Actis.getSimilarLabel originInfo k r
      =? next (Actis.firstLabel originInfo r)
           (SboML.clamp (Actis.adjustedOffset originInfo k r) 0
              (Actis.lastOffset originInfo r)))
      (map snd (Actis.families originInfo))).
  assert (Hf : f k = true) by (apply Actis_origin_stems; [vm_compute; reflexivity|exact H]).
  unfold f in Hf. rewrite forallb_forall in Hf. specialize (Hf r Hr).
  apply Z.eqb_eq in Hf. exact Hf.
Qed.

Lemma Actis_similar_closed info l r :
  Actis.isStem info l = true ->
  In r (map snd (Actis.families info)) ->
  Actis.getSimilarLabel info l r
  = next (Actis.firstLabel info r)
      (SboML.clamp (Actis.adjustedOffset info l r) 0 (Actis.lastOffset info r)).
Proof.
  intros H Hr.
  rewrite (Actis_getSimilarLabel_shift info l r H Hr).
  rewrite Actis_similar_origin
    by (first [rewrite <- Actis_isStem_shift; exact H
              | apply Actis_markers_shift; exact Hr]).
  rewrite (Actis_firstLabel_shift info r Hr), (Actis_adjustedOffset_shift info l r H),
    (Actis_lastOffset_shift info r).
  unfold next; lia.
Qed.

Lemma Actis_roundTrip_origin k r :
  Actis.isStem originInfo k = true ->
  In r (map snd (Actis.families originInfo)) ->
  let m := Actis.getSimilarLabel originInfo k r in
  let x := Actis.getSimilarLabel originInfo m
             (Actis.R.subRange (Actis.getRangeStats originInfo k)) in
  Actis.isStem originInfo m = true
  /\ Actis.isStem originInfo x = true
  /\ Actis.R.subRange (Actis.getRangeStats originInfo x)
     = Actis.R.subRange (Actis.getRangeStats originInfo k)
  /\ Z.abs (Actis.R.size (Actis.getRangeStats originInfo x) x
            - Actis.R.size (Actis.getRangeStats originInfo k) k)
     <= Z.abs (Actis.adjustedOffset originInfo k r
               - SboML.clamp (Actis.adjustedOffset originInfo k r) 0
                   (Actis.lastOffset originInfo r)).
Proof.
  intros H Hr.
  pose (f := fun k =>
    forallb (fun r =>
      let m := Actis.getSimilarLabel originInfo k r in
      let x := Actis.getSimilarLabel originInfo m
                 (Actis.R.subRange (Actis.getRangeStats originInfo k)) in
      (Actis.isStem originInfo m
          && Actis.isStem originInfo x
          && (Actis.R.subRange (Actis.getRangeStats originInfo x)
              =? Actis.R.subRange (Actis.getRangeStats originInfo k))
          && (Z.abs (Actis.R.size (Actis.getRangeStats originInfo x) x
                     - Actis.R.size (Actis.getRangeStats originInfo k) k)
              <=? Z.abs (Actis.adjustedOffset originInfo k r
                         - SboML.clamp (Actis.adjustedOffset originInfo k r) 0
                             (Actis.lastOffset originInfo r)))))
      (map snd (Actis.families originInfo))).
  assert (Hf : f k = true) by (apply Actis_origin_stems; [vm_compute; reflexivity|exact H]).
  unfold f in Hf. rewrite forallb_forall in Hf. specialize (Hf r Hr). cbv zeta in Hf.
  apply andb_true_iff in Hf. destruct Hf as [Hf H4].
  apply andb_true_iff in Hf. destruct Hf as [Hf H3].
  apply andb_true_iff in Hf. destruct Hf as [H1 H2].
  apply Z.eqb_eq in H3. apply Z.leb_le in H4. cbv zeta. auto.
Qed.

Lemma Actis_roundTrip info l r :
  Actis.isStem info l = true ->
  In r (map snd (Actis.families info)) ->
  let x := Actis.getSimilarLabel info (Actis.getSimilarLabel info l r)
             (Actis.R.subRange (Actis.getRangeStats info l)) in
  Actis.isStem info x = true
  /\ Actis.R.subRange (Actis.getRangeStats info x)
     = Actis.R.subRange (Actis.getRangeStats info l)
  /\ Z.abs (Actis.R.size (Actis.getRangeStats info x) x
            - Actis.R.size (Actis.getRangeStats info l) l)
     <= Z.abs (Actis.adjustedOffset info l r
               - SboML.clamp (Actis.adjustedOffset info l r) 0 (Actis.lastOffset info r)).
Proof.
  intros H Hr. pose proof H as H0. rewrite (Actis_isStem_shift info) in H0.
  destruct (Actis_roundTrip_origin _ _ H0 (Actis_markers_shift info r Hr))
    as (Sm & Sx & E3 & E4).
  cbv zeta in *.
  set (b := productRangeStartsAt info) in *.
  rewrite (Actis_getSimilarLabel_shift info l r H Hr). fold b.
  set (m := Actis.getSimilarLabel originInfo (l - b) (r - b)) in *.
  assert (Hm : Actis.isStem info (m + b) = true)
    by (rewrite (Actis_isStem_shift info); fold b; rewrite add_sub_cancel; exact Sm).
  rewrite (Actis_getSimilarLabel_shift info _ _ Hm (Actis_range_is_marker info l H)).
  fold b. rewrite (Actis_subRange_shift info l H). fold b. rewrite !add_sub_cancel.
  set (x := Actis.getSimilarLabel originInfo m
              (Actis.R.subRange (Actis.getRangeStats originInfo (l - b)))) in *.
  assert (Hx : Actis.isStem info (x + b) = true)
    by (rewrite (Actis_isStem_shift info); fold b; rewrite add_sub_cancel; exact Sx).
  split; [exact Hx|split].
  - rewrite (Actis_subRange_shift info _ Hx). fold b. rewrite add_sub_cancel, E3.
    reflexivity.
  - rewrite (Actis_offset_shift info _ Hx), (Actis_offset_shift info l H),
      (Actis_adjustedOffset_shift info l r H), (Actis_lastOffset_shift info r).
    fold b. rewrite add_sub_cancel. exact E4.
Qed.

Lemma Actis_boundary_origin k :
  Actis.isStem originInfo k = true ->
  (Actis.R.size (Actis.getRangeStats originInfo k) k = Actis.lastOffset originInfo (Actis.R.subRange (Actis.getRangeStats originInfo k)) ->
   Actis.nextPrevStem originInfo k true = k)
  /\ (Actis.R.size (Actis.getRangeStats originInfo k) k = 0 -> Actis.nextPrevStem originInfo k false = k).
Proof.
  intros H.
  pose (f := fun k =>
    (negb (Actis.R.size (Actis.getRangeStats originInfo k) k =? Actis.lastOffset originInfo (Actis.R.subRange (Actis.getRangeStats originInfo k)))
     || (Actis.nextPrevStem originInfo k true =? k))
    && (negb (Actis.R.size (Actis.getRangeStats originInfo k) k =? 0) || (Actis.nextPrevStem originInfo k false =? k))).
  assert (Hf : f k = true) by (apply Actis_origin_stems; [vm_compute; reflexivity|exact H]).
  unfold f in Hf. apply andb_true_iff in Hf. destruct Hf as [H1 H2].
  split; intros E; apply Z.eqb_eq in E.
  - rewrite E in H1. cbn [negb orb] in H1. apply Z.eqb_eq in H1. exact H1.
  - rewrite E in H2. cbn [negb orb] in H2. apply Z.eqb_eq in H2. exact H2.
Qed.

Lemma Actis_boundary info l :
  Actis.isStem info l = true ->
  (Actis.R.size (Actis.getRangeStats info l) l = Actis.lastOffset info (Actis.R.subRange (Actis.getRangeStats info l)) -> Actis.nextPrevStem info l true = l)
  /\ (Actis.R.size (Actis.getRangeStats info l) l = 0 -> Actis.nextPrevStem info l false = l).
Proof.
  intros H. pose proof H as H0. rewrite (Actis_isStem_shift info) in H0.
  destruct (Actis_boundary_origin _ H0) as [B1 B2].
  rewrite (Actis_offset_shift info l H), (Actis_lastOffset_shift info), (Actis_subRange_shift info l H), add_sub_cancel,
    !(Actis_nextPrevStem_shift info l _ H).
  split; intros E; [rewrite (B1 E)|rewrite (B2 E)]; lia.
Qed.

(** ** Optimys *)

(** The Optimys stem labels are the 28 integers from its fixed base on. *)
Lemma Optimys_stems (f : Z -> bool) :
  allInRange f Optimys.MYSRangeStartAt 28 = true ->
  forall k, Optimys.isStem k = true -> f k = true.
Proof.
  intros Hall k Hk. apply (allInRange_spec f 28 _ Hall).
  unfold Optimys.isStem in Hk.
  rewrite orb_true_iff in Hk.
  unfold Optimys.isCCD_STD, Optimys.isCCD_LAT in Hk.
  rewrite !in_closed_range_bounds in Hk.
  change Optimys.s3 with (fun e => 130500 + Optimys.S3UID.index e) in Hk.
  cbv beta in Hk. cbn [Optimys.S3UID.index] in Hk.
  change Optimys.MYSRangeStartAt with 130500.
  change (Z.of_nat 28) with 28. lia.
Qed.

Lemma Optimys_memberships l :
  Optimys.isStem l = existsb (fun f => fst f l) Optimys.families
  /\ (Optimys.isStem l = true ->
      map snd (filter (fun f => fst f l) Optimys.families) = [Optimys.getCCDRange l]).
Proof.
  split.
  - unfold Optimys.families, Optimys.isStem. cbn [existsb fst].
    rewrite orb_false_r. reflexivity.
  - intros H.
    pose (f := fun k =>
      match map snd (filter (fun f => fst f k) Optimys.families) with
      | [x] => x =? Optimys.getCCDRange k
      | _ => false
      end).
    assert (Hf : f l = true) by (apply Optimys_stems; [vm_compute; reflexivity|exact H]).
    unfold f in Hf.
    destruct (map snd (filter (fun f => fst f l) Optimys.families)) as [|x [|y t]];
      try discriminate.
    apply Z.eqb_eq in Hf. rewrite Hf. reflexivity.
Qed.

Lemma Optimys_self l :
  Optimys.isStem l = true ->
  Optimys.similarLabel l (Optimys.getCCDRange l) = Some l.
Proof.
  intros H.
  pose (f := fun k =>
    match Optimys.similarLabel k (Optimys.getCCDRange k) with
    | Some x => x =? k
    | None => false
    end).
  assert (Hf : f l = true) by (apply Optimys_stems; [vm_compute; reflexivity|exact H]).
  unfold f in Hf.
  destruct (Optimys.similarLabel l (Optimys.getCCDRange l)); [|discriminate].
  apply Z.eqb_eq in Hf. rewrite Hf. reflexivity.
Qed.

Lemma Optimys_nextPrev_char l a :
  Optimys.isStem l = true ->
  Optimys.nextPrevStem l a
  = (if Optimys.isStem (next l (stepOf a))
        && (Optimys.getCCDRange (next l (stepOf a)) =? Optimys.getCCDRange l)
     then next l (stepOf a) else l)
  /\ Optimys.isStem (Optimys.nextPrevStem l a) = true
  /\ Optimys.getCCDRange (Optimys.nextPrevStem l a) = Optimys.getCCDRange l.
Proof.
  intros H.
  pose (f := fun k =>
    (Optimys.nextPrevStem k a
     =? (if Optimys.isStem (next k (stepOf a))
            && (Optimys.getCCDRange (next k (stepOf a)) =? Optimys.getCCDRange k)
         then next k (stepOf a) else k))
    && Optimys.isStem (Optimys.nextPrevStem k a)
    && (Optimys.getCCDRange (Optimys.nextPrevStem k a) =? Optimys.getCCDRange k)).
  assert (Hf : f l = true)
    by (apply Optimys_stems; [destruct a; vm_compute; reflexivity|exact H]).
  unfold f in Hf.
  apply andb_true_iff in Hf. destruct Hf as [Hf H3].
  apply andb_true_iff in Hf. destruct Hf as [H1 H2].
  apply Z.eqb_eq in H1. apply Z.eqb_eq in H3. auto.
Qed.

Lemma Optimys_similar_closed l r :
  Optimys.isStem l = true ->
  In r (map snd Optimys.families) ->
  Optimys.similarLabel l r
  = Some (next (Optimys.firstLabel r)
            (SboML.clamp (Optimys.adjustedOffset l r) 0 (Optimys.lastOffset r))).
Proof.
  intros H Hr.
  pose (f := fun k =>
    forallb (fun r =>
      match Optimys.similarLabel k r with
      | Some x =>
          x =? next (Optimys.firstLabel r)
                 (SboML.clamp (Optimys.adjustedOffset k r) 0 (Optimys.lastOffset r))
      | None => false
      end) (map snd Optimys.families)).
  assert (Hf : f l = true) by (apply Optimys_stems; [vm_compute; reflexivity|exact H]).
  unfold f in Hf. rewrite forallb_forall in Hf. specialize (Hf r Hr).
  destruct (Optimys.similarLabel l r); [|discriminate].
  apply Z.eqb_eq in Hf. rewrite Hf. reflexivity.
Qed.

Lemma Optimys_roundTrip l r :
  Optimys.isStem l = true ->
  In r (map snd Optimys.families) ->
  exists m,
    Optimys.similarLabel l r = Some m
    /\ Optimys.similarLabel m (Optimys.getCCDRange l) = Some l.
Proof.
  intros H Hr.
  pose (f := fun k =>
    forallb (fun r =>
      match Optimys.similarLabel k r with
      | Some m =>
          match Optimys.similarLabel m (Optimys.getCCDRange k) with
          | Some x => x =? k
          | None => false
          end
      | None => false
      end) (map snd Optimys.families)).
  assert (Hf : f l = true) by (apply Optimys_stems; [vm_compute; reflexivity|exact H]).
  unfold f in Hf. rewrite forallb_forall in Hf. specialize (Hf r Hr).
  destruct (Optimys.similarLabel l r) as [m|]; [|discriminate].
  exists m. split; [reflexivity|].
  destruct (Optimys.similarLabel m (Optimys.getCCDRange l)); [|discriminate].
  apply Z.eqb_eq in Hf. rewrite Hf. reflexivity.
Qed.

Lemma Optimys_boundary l :
  Optimys.isStem l = true ->
  (Optimys.getSize l = Optimys.lastOffset (Optimys.getCCDRange l) ->
   Optimys.nextPrevStem l true = l)
  /\ (Optimys.getSize l = 0 -> Optimys.nextPrevStem l false = l).
Proof.
  intros H.
  pose (f := fun k =>
    (negb (Optimys.getSize k =? Optimys.lastOffset (Optimys.getCCDRange k))
     || (Optimys.nextPrevStem k true =? k))
    && (negb (Optimys.getSize k =? 0) || (Optimys.nextPrevStem k false =? k))).
  assert (Hf : f l = true) by (apply Optimys_stems; [vm_compute; reflexivity|exact H]).
  unfold f in Hf. apply andb_true_iff in Hf. destruct Hf as [H1 H2].
  split; intros E; apply Z.eqb_eq in E.
  - rewrite E in H1. cbn [negb orb] in H1. apply Z.eqb_eq in H1. exact H1.
  - rewrite E in H2. cbn [negb orb] in H2. apply Z.eqb_eq in H2. exact H2.
Qed.

(** ** The common interface relative to the base

    The shift lemmas of the five schemes, stated once for the dispatching
    functions; a property of all stem labels under any registry then
    follows from one exhaustive check at base 0. *)

Lemma registryBase_origin p : registryBase originRegistry p = 0.
Proof. destruct p; reflexivity. Qed.

Lemma PS_stems_at p (h : Z -> bool) :
  allInRange h (firstStemAtOrigin p) (stemCount p) = true ->
  forall k, ProductScheme.isStem originRegistry p k = true -> h k = true.
Proof.
  intros Hall k Hk.
  destruct p; unfold ProductScheme.isStem, originRegistry in Hk.
  - exact (Corail_origin_stems h Hall k Hk).
  - exact (Amistem_origin_stems h Hall k Hk).
  - exact (Ecofit_origin_stems h Hall k Hk).
  - exact (Actis_origin_stems h Hall k Hk).
  - exact (Optimys_stems h Hall k Hk).
Qed.

Lemma PS_stems (f : Product -> Z -> bool) :
  allStems f = true ->
  forall p k, ProductScheme.isStem originRegistry p k = true -> f p k = true.
Proof.
  intros Hall p k Hk. unfold allStems in Hall. rewrite forallb_forall in Hall.
  assert (Hp : In p allProducts) by (destruct p; cbn; tauto).
  exact (PS_stems_at p (f p) (Hall p Hp) k Hk).
Qed.

Ltac ps_unfold :=
  unfold ProductScheme.isStem, ProductScheme.isHead, ProductScheme.subRangeOf,
    ProductScheme.offsetWithin, ProductScheme.nextPrevStem, ProductScheme.similarLabel,
    ProductScheme.rangeMarkers, ProductScheme.families, ProductScheme.lastOffset,
    ProductScheme.firstLabel, ProductScheme.adjustedOffset, ProductScheme.inRange,
    ProductScheme.cutPlaneS3, registryBase, originRegistry in *.

Ltac ps_optimys := rewrite ?Z.sub_0_r, ?Z.add_0_r; try reflexivity.

Lemma PS_isStem_shift reg p l :
  ProductScheme.isStem reg p l
  = ProductScheme.isStem originRegistry p (l - registryBase reg p).
Proof.
  destruct p; ps_unfold.
  - apply Corail_isStem_shift.
  - apply Amistem_isStem_shift.
  - apply Ecofit_isStem_shift.
  - apply Actis_isStem_shift.
  - ps_optimys.
Qed.

Lemma PS_isHead_shift reg p l :
  ProductScheme.isHead reg p l
  = ProductScheme.isHead originRegistry p (l - registryBase reg p).
Proof.
  destruct p; ps_unfold.
  - apply Corail_isHead_shift.
  - apply Amistem_isHead_shift.
  - apply Ecofit_isHead_shift.
  - apply Actis_isHead_shift.
  - ps_optimys.
Qed.

Lemma PS_subRangeOf_shift reg p l :
  ProductScheme.isStem reg p l = true ->
  ProductScheme.subRangeOf reg p l
  = ProductScheme.subRangeOf originRegistry p (l - registryBase reg p)
    + registryBase reg p.
Proof.
  intros H. destruct p; ps_unfold.
  - apply Corail_getCCDRange_shift; exact H.
  - apply Amistem_getCCDRange_shift; exact H.
  - apply Ecofit_subRange_shift; exact H.
  - apply Actis_subRange_shift; exact H.
  - ps_optimys.
Qed.

Lemma PS_offsetWithin_shift reg p l :
  ProductScheme.isStem reg p l = true ->
  ProductScheme.offsetWithin reg p l
  = ProductScheme.offsetWithin originRegistry p (l - registryBase reg p).
Proof.
  intros H. destruct p; ps_unfold.
  - apply Corail_getOffset_shift.
  - apply Amistem_getStemSize_shift.
  - apply Ecofit_offset_shift; exact H.
  - apply Actis_offset_shift; exact H.
  - ps_optimys.
Qed.

Lemma PS_nextPrevStem_shift reg p l a :
  ProductScheme.isStem reg p l = true ->
  ProductScheme.nextPrevStem reg p l a
  = ProductScheme.nextPrevStem originRegistry p (l - registryBase reg p) a
    + registryBase reg p.
Proof.
  intros H. destruct p; ps_unfold.
  - apply Corail_nextPrevStem_shift.
  - apply Amistem_nextPrevStem_shift.
  - apply Ecofit_nextPrevStem_shift; exact H.
  - apply Actis_nextPrevStem_shift; exact H.
  - ps_optimys.
Qed.

Lemma PS_markers_shift reg p r :
  In r (ProductScheme.rangeMarkers reg p) ->
  In (r - registryBase reg p) (ProductScheme.rangeMarkers originRegistry p).
Proof.
  intros H. destruct p; ps_unfold.
  - apply Corail_markers_shift; exact H.
  - apply Amistem_markers_shift; exact H.
  - apply Ecofit_markers_shift; exact H.
  - apply Actis_markers_shift; exact H.
  - rewrite Z.sub_0_r. exact H.
Qed.

Lemma PS_similarLabel_shift reg p l r :
  ProductScheme.isStem reg p l = true ->
  In r (ProductScheme.rangeMarkers reg p) ->
  ProductScheme.similarLabel reg p l r
  = option_map (fun x => x + registryBase reg p)
      (ProductScheme.similarLabel originRegistry p
         (l - registryBase reg p) (r - registryBase reg p)).
Proof.
  intros H Hr. destruct p; ps_unfold.
  - apply Corail_similarLabel_shift; exact H.
  - unfold Amistem.similarLabel. cbn [option_map]. f_equal.
    apply Amistem_getSimilarLabel_shift; assumption.
  - unfold Ecofit.similarLabel. cbn [option_map]. f_equal.
    apply Ecofit_getSimilarLabel_shift; assumption.
  - unfold Actis.similarLabel. cbn [option_map]. f_equal.
    apply Actis_getSimilarLabel_shift; assumption.
  - rewrite !Z.sub_0_r. destruct (Optimys.similarLabel l r); cbn [option_map];
      rewrite ?Z.add_0_r; reflexivity.
Qed.

Lemma PS_lastOffset_shift reg p r :
  ProductScheme.lastOffset reg p r
  = ProductScheme.lastOffset originRegistry p (r - registryBase reg p).
Proof.
  destruct p; ps_unfold.
  - apply Corail_lastOffset_shift.
  - apply Amistem_lastOffset_shift.
  - apply Ecofit_lastOffset_shift.
  - apply Actis_lastOffset_shift.
  - ps_optimys.
Qed.

Lemma PS_firstLabel_shift reg p r :
  In r (ProductScheme.rangeMarkers reg p) ->
  ProductScheme.firstLabel reg p r
  = ProductScheme.firstLabel originRegistry p (r - registryBase reg p)
    + registryBase reg p.
Proof.
  intros H. destruct p; ps_unfold.
  - apply Corail_firstLabel_shift; exact H.
  - apply Amistem_firstLabel_shift; exact H.
  - apply Ecofit_firstLabel_shift; exact H.
  - apply Actis_firstLabel_shift; exact H.
  - ps_optimys.
Qed.

Lemma PS_adjustedOffset_shift reg p l r :
  ProductScheme.isStem reg p l = true ->
  ProductScheme.adjustedOffset reg p l r
  = ProductScheme.adjustedOffset originRegistry p
      (l - registryBase reg p) (r - registryBase reg p).
Proof.
  intros H. destruct p; ps_unfold.
  - apply Corail_adjustedOffset_shift; exact H.
  - apply Amistem_adjustedOffset_shift; exact H.
  - apply Ecofit_adjustedOffset_shift; exact H.
  - apply Actis_adjustedOffset_shift; exact H.
  - ps_optimys.
Qed.

Lemma PS_range_is_marker reg p l :
  ProductScheme.isStem reg p l = true ->
  In (ProductScheme.subRangeOf reg p l) (ProductScheme.rangeMarkers reg p).
Proof.
  intros H. unfold ProductScheme.rangeMarkers.
  apply (memberships_incl l).
  destruct p; ps_unfold.
  - apply Corail_memberships; exact H.
  - apply Amistem_memberships; exact H.
  - apply Ecofit_memberships; exact H.
  - apply Actis_memberships; exact H.
  - apply Optimys_memberships; exact H.
Qed.

(** A stem moved back to base 0 is a stem there, and conversely. *)
Lemma PS_isStem_unshift reg p k :
  ProductScheme.isStem originRegistry p k = true ->
  ProductScheme.isStem reg p (k + registryBase reg p) = true.
Proof.
  intros H. rewrite PS_isStem_shift, add_sub_cancel. exact H.
Qed.

(** The search always answers with a stem label, for stems and markers of
    the product. *)
Lemma PS_similar_stem_origin p k r :
  ProductScheme.isStem originRegistry p k = true ->
  In r (ProductScheme.rangeMarkers originRegistry p) ->
  exists m, ProductScheme.similarLabel originRegistry p k r = Some m
            /\ ProductScheme.isStem originRegistry p m = true.
Proof.
  intros Hk Hr.
  pose (f := fun p k =>
    forallb (fun r =>
      match ProductScheme.similarLabel originRegistry p k r with
      | Some m => ProductScheme.isStem originRegistry p m
      | None => false
      end) (ProductScheme.rangeMarkers originRegistry p)).
  assert (Hf : f p k = true) by (apply PS_stems; [vm_compute; reflexivity|exact Hk]).
  unfold f in Hf. rewrite forallb_forall in Hf. specialize (Hf r Hr).
  destruct (ProductScheme.similarLabel originRegistry p k r) as [m|]; [|discriminate].
  exists m. split; [reflexivity|exact Hf].
Qed.

Lemma PS_similar_stem reg p l r :
  ProductScheme.isStem reg p l = true ->
  In r (ProductScheme.rangeMarkers reg p) ->
  exists m0,
    ProductScheme.similarLabel originRegistry p
      (l - registryBase reg p) (r - registryBase reg p) = Some m0
    /\ ProductScheme.isStem originRegistry p m0 = true
    /\ ProductScheme.similarLabel reg p l r = Some (m0 + registryBase reg p)
    /\ ProductScheme.isStem reg p (m0 + registryBase reg p) = true.
Proof.
  intros H Hr.
  pose proof H as H0. rewrite PS_isStem_shift in H0.
  destruct (PS_similar_stem_origin _ _ _ H0 (PS_markers_shift _ _ _ Hr)) as (m0 & E & S).
  exists m0. split; [exact E|]. split; [exact S|]. split.
  - rewrite (PS_similarLabel_shift _ _ _ _ H Hr), E. reflexivity.
  - apply PS_isStem_unshift. exact S.
Qed.

Lemma PS_noCorrespondent_shift reg p l r :
  ProductScheme.isStem reg p l = true ->
  ProductScheme.noCorrespondent reg p l r
  = ProductScheme.noCorrespondent originRegistry p
      (l - registryBase reg p) (r - registryBase reg p).
Proof.
  intros H. unfold ProductScheme.noCorrespondent. cbv zeta.
  rewrite (PS_adjustedOffset_shift _ _ _ r H), (PS_lastOffset_shift reg). reflexivity.
Qed.

Lemma PS_roundTrip_shift reg p l r :
  ProductScheme.isStem reg p l = true ->
  In r (ProductScheme.rangeMarkers reg p) ->
  ProductScheme.roundTrip reg p l r
  = option_map (fun x => x + registryBase reg p)
      (ProductScheme.roundTrip originRegistry p
         (l - registryBase reg p) (r - registryBase reg p)).
Proof.
  intros H Hr.
  destruct (PS_similar_stem _ _ _ _ H Hr) as (m0 & E0 & S0 & E & S).
  unfold ProductScheme.roundTrip. rewrite E, E0.
  rewrite (PS_similarLabel_shift _ _ _ _ S (PS_range_is_marker _ _ _ H)).
  rewrite (PS_subRangeOf_shift _ _ _ H), !add_sub_cancel. reflexivity.
Qed.

(** ** The classes of labels *)

Lemma PS_inRange_shift reg p l :
  ProductScheme.inRange reg p l
  = ProductScheme.inRange originRegistry p (l - registryBase reg p).
Proof.
  destruct p; ps_unfold.
  - unfold Corail.inRange. rewrite !(Corail_s3_shift (reg CORAIL)).
    apply in_closed_range_shift.
  - unfold Amistem.inRange. rewrite !(Amistem_s3_shift (reg AMISTEM)).
    apply in_closed_range_shift.
  - unfold Ecofit.inRange. rewrite !(Ecofit_s3_shift (reg ECOFIT)).
    apply in_closed_range_shift.
  - unfold Actis.inRange. rewrite !(Actis_s3_shift (reg ACTIS)).
    apply in_closed_range_shift.
  - ps_optimys.
Qed.

Lemma PS_cutPlaneS3_shift reg p :
  ProductScheme.cutPlaneS3 reg p
  = registryBase reg p + ProductScheme.cutPlaneS3 originRegistry p.
Proof.
  destruct p; ps_unfold.
  - apply Corail_s3_shift.
  - apply Amistem_s3_shift.
  - apply Ecofit_s3_shift.
  - apply Actis_s3_shift.
  - reflexivity.
Qed.

Lemma PS_isCutPlane_shift reg p l :
  ProductScheme.isCutPlane reg p l
  = ProductScheme.isCutPlane originRegistry p (l - registryBase reg p).
Proof.
  unfold ProductScheme.isCutPlane. rewrite (PS_cutPlaneS3_shift reg). apply eqb_shift.
Qed.

Lemma PS_rangeMarkers_shift reg p :
  ProductScheme.rangeMarkers reg p
  = map (fun x => x + registryBase reg p) (ProductScheme.rangeMarkers originRegistry p).
Proof.
  destruct p; ps_unfold.
  - exact (proj2 (proj2 (memberships_shift _ 0 _ _ (Corail_families_shift (reg CORAIL) 0)))).
  - exact (proj2 (proj2 (memberships_shift _ 0 _ _ (Amistem_families_shift (reg AMISTEM) 0)))).
  - exact (proj2 (proj2 (memberships_shift _ 0 _ _ (Ecofit_families_shift (reg ECOFIT) 0)))).
  - exact (proj2 (proj2 (memberships_shift _ 0 _ _ (Actis_families_shift (reg ACTIS) 0)))).
  - induction (map snd Optimys.families) as [|x xs IH]; [reflexivity|].
    cbn [map]. rewrite <- IH, Z.add_0_r. reflexivity.
Qed.

Lemma existsb_eqb_shift (b l : Z) (ms : list Z) :
  existsb (Z.eqb l) (map (fun x => x + b) ms) = existsb (Z.eqb (l - b)) ms.
Proof.
  induction ms as [|x xs IH]; [reflexivity|].
  cbn [map existsb]. rewrite IH. f_equal.
  destruct (Z.eqb_spec l (x + b)), (Z.eqb_spec (l - b) x); try reflexivity; lia.
Qed.

Lemma PS_isRangeMarker_shift reg p l :
  ProductScheme.isRangeMarker reg p l
  = ProductScheme.isRangeMarker originRegistry p (l - registryBase reg p).
Proof.
  unfold ProductScheme.isRangeMarker. rewrite (PS_rangeMarkers_shift reg).
  apply existsb_eqb_shift.
Qed.

Lemma PS_inRange_bounds p k :
  ProductScheme.inRange originRegistry p k = true
  <-> firstStemAtOrigin p <= k < firstStemAtOrigin p + Z.of_nat (labelCount p).
Proof.
  destruct p; ps_unfold;
    unfold Corail.inRange, Amistem.inRange, Ecofit.inRange, Actis.inRange, Optimys.inRange;
    rewrite in_closed_range_bounds.
  - change (Corail.s3 originInfo Corail.lowerS3UID) with 90.
    change (Corail.s3 originInfo Corail.upperS3UID) with 179.
    change (firstStemAtOrigin CORAIL) with 90. change (Z.of_nat (labelCount CORAIL)) with 90.
    lia.
  - change (Amistem.s3 originInfo Amistem.lowerS3UID) with 50.
    change (Amistem.s3 originInfo Amistem.upperS3UID) with 99.
    change (firstStemAtOrigin AMISTEM) with 50. change (Z.of_nat (labelCount AMISTEM)) with 50.
    lia.
  - change (Ecofit.s3 originInfo Ecofit.lowerS3UID) with 90.
    change (Ecofit.s3 originInfo Ecofit.upperS3UID) with 153.
    change (firstStemAtOrigin ECOFIT) with 90. change (Z.of_nat (labelCount ECOFIT)) with 64.
    lia.
  - change (Actis.s3 originInfo Actis.lowerS3UID) with 90.
    change (Actis.s3 originInfo Actis.upperS3UID) with 122.
    change (firstStemAtOrigin ACTIS) with 90. change (Z.of_nat (labelCount ACTIS)) with 33.
    lia.
  - change (Optimys.s3 Optimys.lowerS3UID) with 130500.
    change (Optimys.s3 Optimys.upperS3UID) with 130534.
    change (firstStemAtOrigin OPTIMYS) with 130500.
    change (Z.of_nat (labelCount OPTIMYS)) with 35.
    lia.
Qed.

(** At base 0 a head label lies between the first and the last head. *)
Lemma PS_head_in_range_origin p k :
  ProductScheme.isHead originRegistry p k = true ->
  ProductScheme.inRange originRegistry p k = true.
Proof.
  intros H. apply PS_inRange_bounds.
  destruct p; ps_unfold;
    unfold Corail.isHead, Amistem.isHead, Ecofit.isHead, Actis.isHead, Optimys.isHead in H;
    apply in_closed_range_bounds in H.
  - change (Corail.s3 originInfo) with (fun e => 90 + Corail.S3UID.index e) in H.
    cbv beta in H. cbn [Corail.S3UID.index] in H.
    change (firstStemAtOrigin CORAIL) with 90. change (Z.of_nat (labelCount CORAIL)) with 90.
    lia.
  - change (Amistem.s3 originInfo) with (fun e => 50 + Amistem.S3UID.index e) in H.
    cbv beta in H. cbn [Amistem.S3UID.index] in H.
    change (firstStemAtOrigin AMISTEM) with 50. change (Z.of_nat (labelCount AMISTEM)) with 50.
    lia.
  - change (Ecofit.s3 originInfo) with (fun e => 90 + Ecofit.S3UID.index e) in H.
    cbv beta in H. cbn [Ecofit.S3UID.index] in H.
    change (firstStemAtOrigin ECOFIT) with 90. change (Z.of_nat (labelCount ECOFIT)) with 64.
    lia.
  - change (Actis.s3 originInfo) with (fun e => 90 + Actis.S3UID.index e) in H.
    cbv beta in H. cbn [Actis.S3UID.index] in H.
    change (firstStemAtOrigin ACTIS) with 90. change (Z.of_nat (labelCount ACTIS)) with 33.
    lia.
  - change Optimys.s3 with (fun e => 130500 + Optimys.S3UID.index e) in H.
    cbv beta in H. cbn [Optimys.S3UID.index] in H.
    change (firstStemAtOrigin OPTIMYS) with 130500.
    change (Z.of_nat (labelCount OPTIMYS)) with 35.
    lia.
Qed.

Lemma PS_classes_origin p k :
  ProductScheme.classCount originRegistry p k
  = if ProductScheme.inRange originRegistry p k then 1 else 0.
Proof.
  destruct (ProductScheme.inRange originRegistry p k) eqn:Hin.
  - apply PS_inRange_bounds in Hin.
    pose (h := fun k => ProductScheme.classCount originRegistry p k =? 1).
    assert (Hall : allInRange h (firstStemAtOrigin p) (labelCount p) = true)
      by (destruct p; vm_compute; reflexivity).
    apply Z.eqb_eq. exact (allInRange_spec h _ _ Hall k Hin).
  - unfold ProductScheme.classCount.
    assert (Hs : ProductScheme.isStem originRegistry p k = false).
    { destruct (ProductScheme.isStem originRegistry p k) eqn:E; [|reflexivity].
      rewrite <- Hin. symmetry.
      apply (PS_stems (fun p k => ProductScheme.inRange originRegistry p k));
        [vm_compute; reflexivity|exact E]. }
    assert (Hh : ProductScheme.isHead originRegistry p k = false).
    { destruct (ProductScheme.isHead originRegistry p k) eqn:E; [|reflexivity].
      rewrite <- Hin. symmetry. apply PS_head_in_range_origin. exact E. }
    assert (Hc : ProductScheme.isCutPlane originRegistry p k = false).
    { destruct (ProductScheme.isCutPlane originRegistry p k) eqn:E; [|reflexivity].
      unfold ProductScheme.isCutPlane in E. apply Z.eqb_eq in E.
      rewrite <- Hin, E. symmetry. destruct p; vm_compute; reflexivity. }
    assert (Hm : ProductScheme.isRangeMarker originRegistry p k = false).
    { destruct (ProductScheme.isRangeMarker originRegistry p k) eqn:E; [|reflexivity].
      unfold ProductScheme.isRangeMarker in E. apply existsb_exists in E.
      destruct E as (x & Hx & E). apply Z.eqb_eq in E. subst x.
      assert (Hall : forallb (ProductScheme.inRange originRegistry p)
                       (ProductScheme.rangeMarkers originRegistry p) = true)
        by (destruct p; vm_compute; reflexivity).
      rewrite forallb_forall in Hall. rewrite <- Hin. symmetry. exact (Hall _ Hx). }
    rewrite Hs, Hh, Hc, Hm. reflexivity.
Qed.

(** ** Rational points and transforms *)

Lemma peqb_spec (a b : SboPoint3) : peqb a b = true <-> peq a b.
Proof.
  unfold peqb, peq. rewrite !andb_true_iff, !Qeq_bool_iff. tauto.
Qed.

Lemma meqb_spec (a b : SboMatrix3) : meqb a b = true <-> meq a b.
Proof.
  unfold meqb, meq. rewrite !andb_true_iff, !peqb_spec. tauto.
Qed.
(** ** One step within a family

    Away from the end of its family a stem steps to the label one uid up,
    away from the start to the label one uid down, and the offset moves
    with it. *)

Lemma PS_step_origin p k :
  ProductScheme.isStem originRegistry p k = true ->
  let o := ProductScheme.offsetWithin originRegistry p k in
  let last := ProductScheme.lastOffset originRegistry p
                (ProductScheme.subRangeOf originRegistry p k) in
  (o < last ->
   ProductScheme.nextPrevStem originRegistry p k true = k + 1
   /\ ProductScheme.isStem originRegistry p (k + 1) = true
   /\ ProductScheme.offsetWithin originRegistry p (k + 1) = o + 1)
  /\ (0 < o ->
      ProductScheme.nextPrevStem originRegistry p k false = k - 1
      /\ ProductScheme.isStem originRegistry p (k - 1) = true
      /\ ProductScheme.offsetWithin originRegistry p (k - 1) = o - 1).
Proof.
  intros H.
  pose (f := fun p k =>
    let o := ProductScheme.offsetWithin originRegistry p k in
    let last := ProductScheme.lastOffset originRegistry p
                  (ProductScheme.subRangeOf originRegistry p k) in
    (negb (o <? last)
     || ((ProductScheme.nextPrevStem originRegistry p k true =? k + 1)
         && ProductScheme.isStem originRegistry p (k + 1)
         && (ProductScheme.offsetWithin originRegistry p (k + 1) =? o + 1)))
    && (negb (0 <? o)
        || ((ProductScheme.nextPrevStem originRegistry p k false =? k - 1)
            && ProductScheme.isStem originRegistry p (k - 1)
            && (ProductScheme.offsetWithin originRegistry p (k - 1) =? o - 1)))).
  assert (Hf : f p k = true) by (apply PS_stems; [vm_compute; reflexivity|exact H]).
  unfold f in Hf. cbv zeta in Hf |- *.
  apply andb_true_iff in Hf. destruct Hf as [Hn Hp].
  split; intros Hlt.
  - apply orb_true_iff in Hn. destruct Hn as [Hn|Hn].
    + apply negb_true_iff, Z.ltb_ge in Hn. lia.
    + apply andb_true_iff in Hn. destruct Hn as [Hn H3].
      apply andb_true_iff in Hn. destruct Hn as [H1 H2].
      apply Z.eqb_eq in H1, H3. auto.
  - apply orb_true_iff in Hp. destruct Hp as [Hp|Hp].
    + apply negb_true_iff, Z.ltb_ge in Hp. lia.
    + apply andb_true_iff in Hp. destruct Hp as [Hp H3].
      apply andb_true_iff in Hp. destruct Hp as [H1 H2].
      apply Z.eqb_eq in H1, H3. auto.
Qed.

Lemma PS_offset_last_shift reg p l :
  ProductScheme.isStem reg p l = true ->
  ProductScheme.offsetWithin reg p l
  = ProductScheme.offsetWithin originRegistry p (l - registryBase reg p)
  /\ ProductScheme.lastOffset reg p (ProductScheme.subRangeOf reg p l)
     = ProductScheme.lastOffset originRegistry p
         (ProductScheme.subRangeOf originRegistry p (l - registryBase reg p)).
Proof.
  intros H. split.
  - apply PS_offsetWithin_shift. exact H.
  - rewrite (PS_lastOffset_shift reg), (PS_subRangeOf_shift _ _ _ H), add_sub_cancel.
    reflexivity.
Qed.

Lemma PS_step reg p l :
  ProductScheme.isStem reg p l = true ->
  (ProductScheme.offsetWithin reg p l
   < ProductScheme.lastOffset reg p (ProductScheme.subRangeOf reg p l) ->
   ProductScheme.nextPrevStem reg p l true = l + 1
   /\ ProductScheme.offsetWithin reg p (l + 1) = ProductScheme.offsetWithin reg p l + 1)
  /\ (0 < ProductScheme.offsetWithin reg p l ->
      ProductScheme.nextPrevStem reg p l false = l - 1
      /\ ProductScheme.offsetWithin reg p (l - 1) = ProductScheme.offsetWithin reg p l - 1).
Proof.
  intros H.
  destruct (PS_offset_last_shift reg p l H) as [Eo El].
  pose proof H as H0. rewrite PS_isStem_shift in H0.
  destruct (PS_step_origin p _ H0) as [Hn Hp]. cbv zeta in Hn, Hp.
  rewrite Eo, El. set (b := registryBase reg p) in *.
  split; intros Hlt.
  - destruct (Hn Hlt) as (N1 & N2 & N3).
    assert (S1 : ProductScheme.isStem reg p (l + 1) = true).
    { rewrite PS_isStem_shift. fold b.
      replace (l + 1 - b) with (l - b + 1) by lia. exact N2. }
    split.
    + rewrite (PS_nextPrevStem_shift _ _ _ true H). fold b. rewrite N1. lia.
    + rewrite (PS_offsetWithin_shift _ _ _ S1). fold b.
      replace (l + 1 - b) with (l - b + 1) by lia. exact N3.
  - destruct (Hp Hlt) as (N1 & N2 & N3).
    assert (S1 : ProductScheme.isStem reg p (l - 1) = true).
    { rewrite PS_isStem_shift. fold b.
      replace (l - 1 - b) with (l - b - 1) by lia. exact N2. }
    split.
    + rewrite (PS_nextPrevStem_shift _ _ _ false H). fold b. rewrite N1. lia.
    + rewrite (PS_offsetWithin_shift _ _ _ S1). fold b.
      replace (l - 1 - b) with (l - b - 1) by lia. exact N3.
Qed.

(** ** The configuration facade *)

Ltac facade_fields :=
  cbn [requestedSide implantSide stemLabel headLabel neckLabel cutPlaneLabel
       stemProductName distalShaftProductName headProductName neckProductName
       isValidAssembly setStemLabel setCutPlaneLabel setStemProductName
       setDistalShaftProductName setHeadProductName setNeckProductName
       setImplantSide setValidAssembly SboAnatomLocation.eqb negb andb].

Ltac facade_unfold :=
  unfold ProductScheme.fillAndValidAssembly, ProductScheme.isStem, ProductScheme.isHead,
    ProductScheme.cutPlaneS3,
    Corail.fillAndValidAssembly, Amistem.fillAndValidAssembly,
    Ecofit.fillAndValidAssembly, Actis.fillAndValidAssembly,
    Optimys.fillAndValidAssembly;
  cbv beta zeta; facade_fields.

Ltac facade_cases :=
  repeat match goal with
  | |- context [isSet ?l] => destruct (isSet l); facade_fields
  | |- context [Corail.isStem ?i ?l] => destruct (Corail.isStem i l); facade_fields
  | |- context [Corail.isHead ?i ?l] => destruct (Corail.isHead i l); facade_fields
  | |- context [Amistem.isStem ?i ?l] => destruct (Amistem.isStem i l); facade_fields
  | |- context [Amistem.isHead ?i ?l] => destruct (Amistem.isHead i l); facade_fields
  | |- context [Ecofit.isStem ?i ?l] => destruct (Ecofit.isStem i l); facade_fields
  | |- context [Ecofit.isHead ?i ?l] => destruct (Ecofit.isHead i l); facade_fields
  | |- context [Actis.isStem ?i ?l] => destruct (Actis.isStem i l); facade_fields
  | |- context [Actis.isHead ?i ?l] => destruct (Actis.isHead i l); facade_fields
  | |- context [Optimys.isStem ?l] => destruct (Optimys.isStem l); facade_fields
  | |- context [Optimys.isHead ?l] => destruct (Optimys.isHead l); facade_fields
  end.

(** The validity flag the facade computes. *)
Lemma fillAndValidAssembly_flag (reg : Product -> ProductInfo) p c :
  isValidAssembly (ProductScheme.fillAndValidAssembly reg p c)
  = negb (SboAnatomLocation.eqb (requestedSide c) SboAnatomLocation.None)
    && ProductScheme.isStem reg p (stemLabel c)
    && ProductScheme.isHead reg p (headLabel c)
    && negb (isSet (neckLabel c)).
Proof.
  destruct c as [rs ims sl hl nl cl spn dpn hpn npn va].
  destruct p, rs; facade_unfold; try reflexivity;
    facade_cases; reflexivity.
Qed.

(** A failed validation writes nothing but the flag and the cut-plane
    label. *)
Lemma fillAndValidAssembly_failed_frame (reg : Product -> ProductInfo) p c :
  isValidAssembly (ProductScheme.fillAndValidAssembly reg p c) = false ->
  let c' := ProductScheme.fillAndValidAssembly reg p c in
  requestedSide c' = requestedSide c
  /\ implantSide c' = implantSide c
  /\ stemLabel c' = stemLabel c
  /\ headLabel c' = headLabel c
  /\ neckLabel c' = neckLabel c
  /\ stemProductName c' = stemProductName c
  /\ distalShaftProductName c' = distalShaftProductName c
  /\ headProductName c' = headProductName c
  /\ neckProductName c' = neckProductName c.
Proof.
  destruct c as [rs ims sl hl nl cl spn dpn hpn npn va]. cbv zeta.
  destruct p, rs; facade_unfold; intros H; try (repeat split; reflexivity);
    revert H; facade_cases; intros H; try discriminate H;
    repeat split; reflexivity.
Qed.

(** With a requested side, an unset cut-plane label is replaced by the
    product's own; a set one is kept. *)
Lemma fillAndValidAssembly_cutPlane (reg : Product -> ProductInfo) p c :
  requestedSide c <> SboAnatomLocation.None ->
  cutPlaneLabel (ProductScheme.fillAndValidAssembly reg p c)
  = if isSet (cutPlaneLabel c) then cutPlaneLabel c else ProductScheme.cutPlaneS3 reg p.
Proof.
  destruct c as [rs ims sl hl nl cl spn dpn hpn npn va]. facade_fields.
  intros Hs.
  destruct p, rs; try contradiction; facade_unfold;
    destruct (isSet cl); facade_fields; facade_cases; reflexivity.
Qed.

(** ** The Corail landmark tables relative to the base *)

Lemma Corail_getRES_01_shift info l :
  Corail.getRES_01 info l = Corail.getRES_01 originInfo (l - productRangeStartsAt info).
Proof.
  unfold Corail.getRES_01. rewrite (Corail_getOffset_shift info l).
  corail_preds info. reflexivity.
Qed.

Lemma Corail_getTPR_01_shift info l :
  Corail.getTPR_01 info l = Corail.getTPR_01 originInfo (l - productRangeStartsAt info).
Proof.
  unfold Corail.getTPR_01. rewrite (Corail_getOffset_shift info l).
  corail_preds info. reflexivity.
Qed.

Lemma Corail_getRES_02_shift info l :
  Corail.getRES_02 info l = Corail.getRES_02 originInfo (l - productRangeStartsAt info).
Proof.
  unfold Corail.getRES_02. rewrite (Corail_getOffset_shift info l).
  corail_preds info. reflexivity.
Qed.

Lemma Corail_s3_eqb info (e1 e2 : Corail.S3UID.t) :
  (Corail.s3 info e1 =? Corail.s3 info e2)
  = (Corail.S3UID.index e1 =? Corail.S3UID.index e2).
Proof.
  unfold Corail.s3, Corail.utype.
  destruct (Z.eqb_spec (Corail.ProductRangeStartsAt info + 90 + Corail.S3UID.index e1)
              (Corail.ProductRangeStartsAt info + 90 + Corail.S3UID.index e2)),
           (Z.eqb_spec (Corail.S3UID.index e1) (Corail.S3UID.index e2));
    try reflexivity; lia.
Qed.

(** ** The Amistem stem-to-stem chain *)

Lemma Amistem_stemToStem_chain info co ct :
  Amistem.stemToStemMatrix info co ct
  = Amistem.shiftAlong info (stemLabel co)
      (Amistem.intermediates info (stemLabel co) (stemLabel ct)) (stemLabel ct).
Proof.
  unfold Amistem.stemToStemMatrix, Amistem.intermediates. cbv zeta.
  split_ifs; reflexivity.
Qed.

Lemma Amistem_directShift_shift info a b :
  Amistem.directShift info a b
  = Amistem.directShift originInfo
      (a - productRangeStartsAt info) (b - productRangeStartsAt info).
Proof. unfold Amistem.directShift. amistem_preds info. reflexivity. Qed.

Lemma Amistem_allDirect_shift info path :
  Amistem.allDirect info (map (fun x => x + productRangeStartsAt info) path)
  = Amistem.allDirect originInfo path.
Proof.
  induction path as [|a [|b rest] IH]; [reflexivity|reflexivity|].
  change (Amistem.directShift info (a + productRangeStartsAt info)
            (b + productRangeStartsAt info)
          && Amistem.allDirect info
               (map (fun x => x + productRangeStartsAt info) (b :: rest))
          = Amistem.directShift originInfo a b
            && Amistem.allDirect originInfo (b :: rest)).
  rewrite IH, (Amistem_directShift_shift info), !add_sub_cancel. reflexivity.
Qed.

Lemma Amistem_intermediates_shift info o t :
  Amistem.isStem info o = true ->
  Amistem.isStem info t = true ->
  Amistem.intermediates info o t
  = map (fun x => x + productRangeStartsAt info)
      (Amistem.intermediates originInfo
         (o - productRangeStartsAt info) (t - productRangeStartsAt info)).
Proof.
  intros Ho Ht. unfold Amistem.intermediates.
  amistem_preds info.
  assert (Hsn : In (Amistem.s3 info Amistem.S3UID.RANGE_CCD_STD_SN)
                  (map snd (Amistem.families info)))
    by (unfold Amistem.families; cbn [map snd In]; tauto).
  assert (Hstd : In (Amistem.s3 info Amistem.S3UID.RANGE_CCD_STD)
                   (map snd (Amistem.families info)))
    by (unfold Amistem.families; cbn [map snd In]; tauto).
  rewrite !(Amistem_getSimilarLabel_shift info _ _ Ho Hsn),
          ?(Amistem_getSimilarLabel_shift info _ _ Ho Hstd),
          ?(Amistem_getSimilarLabel_shift info _ _ Ht Hsn),
          ?(Amistem_getSimilarLabel_shift info _ _ Ht Hstd).
  rewrite !(Amistem_s3_shift info), !add_sub_cancel_l.
  split_ifs; reflexivity.
Qed.

Lemma Amistem_viaFamilies_shift info s t :
  Amistem.viaFamilies info s t
  = map (fun x => x + productRangeStartsAt info)
      (Amistem.viaFamilies originInfo
         (s - productRangeStartsAt info) (t - productRangeStartsAt info)).
Proof.
  unfold Amistem.viaFamilies.
  rewrite !(Amistem_s3_shift info), !eqb_shift.
  split_ifs; cbn [map]; rewrite ?(Z.add_comm (productRangeStartsAt info)); reflexivity.
Qed.

(** At base 0: every hop of the chain is a pair [getShift] has a branch for,
    the intermediate labels lie in the families the chain names, and the
    chain is empty exactly for the pairs [getShift] has a branch for. *)
Lemma Amistem_chain_origin o t :
  Amistem.isStem originInfo o = true ->
  Amistem.isStem originInfo t = true ->
  Amistem.allDirect originInfo (o :: Amistem.intermediates originInfo o t ++ [t]) = true
  /\ map (Amistem.getCCDRange originInfo) (Amistem.intermediates originInfo o t)
     = Amistem.viaFamilies originInfo
         (Amistem.getCCDRange originInfo o) (Amistem.getCCDRange originInfo t)
  /\ Forall (fun m => Amistem.isStem originInfo m = true)
       (Amistem.intermediates originInfo o t)
  /\ Amistem.directShift originInfo o t
     = match Amistem.intermediates originInfo o t with [] => true | _ => false end.
Proof.
  intros Ho Ht.
  pose (g := fun o t =>
    Amistem.allDirect originInfo (o :: Amistem.intermediates originInfo o t ++ [t])
    && (if list_eq_dec Z.eq_dec
             (map (Amistem.getCCDRange originInfo) (Amistem.intermediates originInfo o t))
             (Amistem.viaFamilies originInfo
                (Amistem.getCCDRange originInfo o) (Amistem.getCCDRange originInfo t))
        then true else false)
    && forallb (Amistem.isStem originInfo) (Amistem.intermediates originInfo o t)
    && Bool.eqb (Amistem.directShift originInfo o t)
         (match Amistem.intermediates originInfo o t with [] => true | _ => false end)).
  assert (Hg : allInRange (fun o => allInRange (g o) 50 40) 50 40 = true)
    by (vm_compute; reflexivity).
  assert (Hot : g o t = true).
  { apply (Amistem_origin_stems (g o)); [|exact Ht].
    apply (Amistem_origin_stems (fun o => allInRange (g o) 50 40)); assumption. }
  unfold g in Hot.
  apply andb_true_iff in Hot. destruct Hot as [Hot H4].
  apply andb_true_iff in Hot. destruct Hot as [Hot H3].
  apply andb_true_iff in Hot. destruct Hot as [H1 H2].
  split; [exact H1|]. split; [|split].
  - destruct (list_eq_dec Z.eq_dec _ _) as [E|]; [exact E|discriminate].
  - apply Forall_forall. apply forallb_forall. exact H3.
  - apply Bool.eqb_prop. exact H4.
Qed.

Lemma Amistem_chain info o t :
  Amistem.isStem info o = true ->
  Amistem.isStem info t = true ->
  Amistem.allDirect info (o :: Amistem.intermediates info o t ++ [t]) = true
  /\ map (Amistem.getCCDRange info) (Amistem.intermediates info o t)
     = Amistem.viaFamilies info (Amistem.getCCDRange info o) (Amistem.getCCDRange info t)
  /\ Amistem.directShift info o t
     = match Amistem.intermediates info o t with [] => true | _ => false end.
Proof.
  intros Ho Ht.
  pose proof Ho as Ho0. rewrite (Amistem_isStem_shift info) in Ho0.
  pose proof Ht as Ht0. rewrite (Amistem_isStem_shift info) in Ht0.
  destruct (Amistem_chain_origin _ _ Ho0 Ht0) as (C1 & C2 & C3 & C4).
  set (b := productRangeStartsAt info) in *.
  rewrite (Amistem_intermediates_shift info o t Ho Ht). fold b.
  set (via := Amistem.intermediates originInfo (o - b) (t - b)) in *.
  split; [|split].
  - assert (E : o :: map (fun x => x + b) via ++ [t]
               = map (fun x => x + b) ((o - b) :: via ++ [t - b])).
    { cbn [map]. rewrite map_app. cbn [map]. f_equal; [lia|]. f_equal. f_equal. lia. }
    refine (eq_trans (f_equal (Amistem.allDirect info) E) _).
    exact (eq_trans (Amistem_allDirect_shift info _) C1).
  - rewrite (Amistem_viaFamilies_shift info). fold b.
    rewrite (Amistem_getCCDRange_shift info o Ho), (Amistem_getCCDRange_shift info t Ht).
    fold b. rewrite !add_sub_cancel, <- C2.
    clear C1 C2 C4. induction C3 as [|m rest Hm _ IH]; [reflexivity|].
    cbn [map]. rewrite IH. f_equal.
    rewrite (Amistem_getCCDRange_shift info (m + b)); fold b.
    + rewrite add_sub_cancel. reflexivity.
    + rewrite (Amistem_isStem_shift info). fold b. rewrite add_sub_cancel. exact Hm.
  - rewrite (Amistem_directShift_shift info). fold b. rewrite C4.
    destruct via; reflexivity.
Qed.

(** ** The Amistem landmarks and shifts relative to the base *)

Lemma Amistem_range_eqb_shift info l (e : Amistem.S3UID.t) :
  Amistem.isStem info l = true ->
  (Amistem.getCCDRange info l =? Amistem.s3 info e)
  = (Amistem.getCCDRange originInfo (l - productRangeStartsAt info)
     =? Amistem.s3 originInfo e).
Proof.
  intros H. rewrite (Amistem_getCCDRange_shift info l H), (Amistem_s3_shift info).
  apply eqb_shift_sum.
Qed.

Lemma Amistem_getRES_01_shift info l :
  Amistem.isStem info l = true ->
  Amistem.getRES_01 info l = Amistem.getRES_01 originInfo (l - productRangeStartsAt info).
Proof.
  intros H. unfold Amistem.getRES_01.
  rewrite !(Amistem_range_eqb_shift info l _ H), (Amistem_getStemSize_shift info l).
  reflexivity.
Qed.

Lemma Amistem_getTPR_01_shift info l :
  Amistem.isStem info l = true ->
  Amistem.getTPR_01 info l = Amistem.getTPR_01 originInfo (l - productRangeStartsAt info).
Proof.
  intros H. unfold Amistem.getTPR_01.
  rewrite !(Amistem_range_eqb_shift info l _ H), (Amistem_getStemSize_shift info l).
  reflexivity.
Qed.

Lemma Amistem_getShift_shift info a t :
  Amistem.isStem info a = true ->
  Amistem.isStem info t = true ->
  Amistem.getShift info a t
  = Amistem.getShift originInfo
      (a - productRangeStartsAt info) (t - productRangeStartsAt info).
Proof.
  intros Ha Ht. unfold Amistem.getShift.
  rewrite (Amistem_getRES_01_shift info a Ha), (Amistem_getRES_01_shift info t Ht),
    (Amistem_getStemSize_shift info a).
  amistem_preds info. reflexivity.
Qed.

Lemma Amistem_shiftAlong_shift info o via t :
  Amistem.isStem info o = true ->
  Amistem.isStem info t = true ->
  Forall (fun m => Amistem.isStem originInfo m = true) via ->
  Amistem.shiftAlong info o (map (fun x => x + productRangeStartsAt info) via) t
  = Amistem.shiftAlong originInfo (o - productRangeStartsAt info) via
      (t - productRangeStartsAt info).
Proof.
  intros Ho Ht Hvia.
  assert (Hm : forall m, Amistem.isStem originInfo m = true ->
                         Amistem.isStem info (m + productRangeStartsAt info) = true).
  { intros m Hs. rewrite (Amistem_isStem_shift info), add_sub_cancel. exact Hs. }
  destruct Hvia as [|m1 rest H1 Hrest]; cbn [map Amistem.shiftAlong].
  - apply Amistem_getShift_shift; assumption.
  - destruct Hrest as [|m2 rest2 H2 _]; cbn [map].
    + rewrite (Amistem_getShift_shift info _ _ (Hm _ H1) Ht),
        (Amistem_getShift_shift info _ _ Ho (Hm _ H1)), !add_sub_cancel.
      reflexivity.
    + rewrite (Amistem_getShift_shift info _ _ (Hm _ H2) Ht),
        (Amistem_getShift_shift info _ _ (Hm _ H1) (Hm _ H2)),
        (Amistem_getShift_shift info _ _ Ho (Hm _ H1)), !add_sub_cancel.
      reflexivity.
Qed.

Lemma Amistem_stemToStem_shift info co ct :
  Amistem.isStem info (stemLabel co) = true ->
  Amistem.isStem info (stemLabel ct) = true ->
  Amistem.stemToStemMatrix info co ct
  = Amistem.stemToStemMatrix originInfo
      (setStemLabel (stemLabel co - productRangeStartsAt info) co)
      (setStemLabel (stemLabel ct - productRangeStartsAt info) ct).
Proof.
  intros Ho Ht.
  rewrite !Amistem_stemToStem_chain. cbn [stemLabel setStemLabel].
  rewrite (Amistem_intermediates_shift info _ _ Ho Ht).
  apply Amistem_shiftAlong_shift; try assumption.
  apply Amistem_chain_origin; rewrite <- Amistem_isStem_shift; assumption.
Qed.
(** ** The shifts of the Amistem scheme, rule by rule

    [getShift] between two stems, by the families of the two: within
    STD and STD_SN taken together, within LAT and within LAT_SN it is the
    translation by the difference of the RES_01 points; from STD to LAT and
    from STD_SN to LAT_SN it is the translation along z by the entry of the
    "Z shift" column for the size of the source stem (entry size - 1; none
    for size 0 and size 10, where the translation is zero), and from LAT to
    STD and from LAT_SN to STD_SN by the opposite of the entry of the same
    column for the size of the source stem (entry size); for the other
    pairs of families it is the identity. *)

Lemma SboMatrix3_eq_dec (x y : SboMatrix3) : {x = y} + {x <> y}.
Proof. repeat decide equality. Defined.

Lemma Amistem_getShift_rule_origin a b :
  Amistem.isStem originInfo a = true ->
  Amistem.isStem originInfo b = true ->
  Amistem.getShift originInfo a b
  = (let ra := Amistem.getCCDRange originInfo a in
     let rb := Amistem.getCCDRange originInfo b in
     let sz := Amistem.getStemSize originInfo a in
     let std := Amistem.s3 originInfo Amistem.S3UID.RANGE_CCD_STD in
     let lat := Amistem.s3 originInfo Amistem.S3UID.RANGE_CCD_LAT in
     let std_sn := Amistem.s3 originInfo Amistem.S3UID.RANGE_CCD_STD_SN in
     let lat_sn := Amistem.s3 originInfo Amistem.S3UID.RANGE_CCD_LAT_SN in
     let zs := [5.89; 6.03; 6.22; 6.39; 6.55; 6.71; 6.85; 7.0; 7.26]%Q in
     let zs_sn := [5.01; 5.19; 5.38; 5.58; 5.69; 5.87; 6.07; 6.13; 6.48]%Q in
     let up := fun tbl : list Q =>
       if sz =? 0 then 0%Q else nth (Z.to_nat (sz - 1)) tbl 0%Q in
     let down := fun tbl : list Q => (- nth (Z.to_nat sz) tbl 0)%Q in
     if ((ra =? std) || (ra =? std_sn)) && ((rb =? std) || (rb =? std_sn))
        || (ra =? lat) && (rb =? lat) || (ra =? lat_sn) && (rb =? lat_sn)
     then transMat3 (psub (Amistem.getRES_01 originInfo a) (Amistem.getRES_01 originInfo b))
     else if (ra =? std) && (rb =? lat) then transMat3 (Point3 0 0 (up zs))
     else if (ra =? lat) && (rb =? std) then transMat3 (Point3 0 0 (down zs))
     else if (ra =? std_sn) && (rb =? lat_sn) then transMat3 (Point3 0 0 (up zs_sn))
     else if (ra =? lat_sn) && (rb =? std_sn) then transMat3 (Point3 0 0 (down zs_sn))
     else idMat3).
Proof.
  intros Ha Hb.
  pose (g := fun a b : Z =>
    if SboMatrix3_eq_dec (Amistem.getShift originInfo a b)
         (let ra := Amistem.getCCDRange originInfo a in
            let rb := Amistem.getCCDRange originInfo b in
            let sz := Amistem.getStemSize originInfo a in
            let std := Amistem.s3 originInfo Amistem.S3UID.RANGE_CCD_STD in
            let lat := Amistem.s3 originInfo Amistem.S3UID.RANGE_CCD_LAT in
            let std_sn := Amistem.s3 originInfo Amistem.S3UID.RANGE_CCD_STD_SN in
            let lat_sn := Amistem.s3 originInfo Amistem.S3UID.RANGE_CCD_LAT_SN in
            let zs := [5.89; 6.03; 6.22; 6.39; 6.55; 6.71; 6.85; 7.0; 7.26]%Q in
            let zs_sn := [5.01; 5.19; 5.38; 5.58; 5.69; 5.87; 6.07; 6.13; 6.48]%Q in
            let up := fun tbl : list Q =>
              if sz =? 0 then 0%Q else nth (Z.to_nat (sz - 1)) tbl 0%Q in
            let down := fun tbl : list Q => (- nth (Z.to_nat sz) tbl 0)%Q in
            if ((ra =? std) || (ra =? std_sn)) && ((rb =? std) || (rb =? std_sn))
               || (ra =? lat) && (rb =? lat) || (ra =? lat_sn) && (rb =? lat_sn)
            then transMat3 (psub (Amistem.getRES_01 originInfo a) (Amistem.getRES_01 originInfo b))
            else if (ra =? std) && (rb =? lat) then transMat3 (Point3 0 0 (up zs))
            else if (ra =? lat) && (rb =? std) then transMat3 (Point3 0 0 (down zs))
            else if (ra =? std_sn) && (rb =? lat_sn) then transMat3 (Point3 0 0 (up zs_sn))
            else if (ra =? lat_sn) && (rb =? std_sn) then transMat3 (Point3 0 0 (down zs_sn))
            else idMat3)
    then true else false).
  assert (Hg : allInRange (fun a => allInRange (g a) 50 40) 50 40 = true)
    by (vm_compute; reflexivity).
  assert (Hab : g a b = true).
  { apply (Amistem_origin_stems (g a)); [|exact Hb].
    apply (Amistem_origin_stems (fun a => allInRange (g a) 50 40)); assumption. }
  unfold g in Hab.
  destruct (SboMatrix3_eq_dec _ _) as [E|]; [exact E|discriminate].
Qed.

Lemma Amistem_getShift_rule info a b :
  Amistem.isStem info a = true ->
  Amistem.isStem info b = true ->
  Amistem.getShift info a b
  = (let ra := Amistem.getCCDRange info a in
     let rb := Amistem.getCCDRange info b in
     let sz := Amistem.getStemSize info a in
     let std := Amistem.s3 info Amistem.S3UID.RANGE_CCD_STD in
     let lat := Amistem.s3 info Amistem.S3UID.RANGE_CCD_LAT in
     let std_sn := Amistem.s3 info Amistem.S3UID.RANGE_CCD_STD_SN in
     let lat_sn := Amistem.s3 info Amistem.S3UID.RANGE_CCD_LAT_SN in
     let zs := [5.89; 6.03; 6.22; 6.39; 6.55; 6.71; 6.85; 7.0; 7.26]%Q in
     let zs_sn := [5.01; 5.19; 5.38; 5.58; 5.69; 5.87; 6.07; 6.13; 6.48]%Q in
     let up := fun tbl : list Q =>
       if sz =? 0 then 0%Q else nth (Z.to_nat (sz - 1)) tbl 0%Q in
     let down := fun tbl : list Q => (- nth (Z.to_nat sz) tbl 0)%Q in
     if ((ra =? std) || (ra =? std_sn)) && ((rb =? std) || (rb =? std_sn))
        || (ra =? lat) && (rb =? lat) || (ra =? lat_sn) && (rb =? lat_sn)
     then transMat3 (psub (Amistem.getRES_01 info a) (Amistem.getRES_01 info b))
     else if (ra =? std) && (rb =? lat) then transMat3 (Point3 0 0 (up zs))
     else if (ra =? lat) && (rb =? std) then transMat3 (Point3 0 0 (down zs))
     else if (ra =? std_sn) && (rb =? lat_sn) then transMat3 (Point3 0 0 (up zs_sn))
     else if (ra =? lat_sn) && (rb =? std_sn) then transMat3 (Point3 0 0 (down zs_sn))
     else idMat3).
Proof.
  intros Ha Hb.
  pose proof Ha as Ha0. rewrite (Amistem_isStem_shift info) in Ha0.
  pose proof Hb as Hb0. rewrite (Amistem_isStem_shift info) in Hb0.
  rewrite (Amistem_getShift_shift info a b Ha Hb).
  rewrite (Amistem_getShift_rule_origin _ _ Ha0 Hb0).
  cbv zeta.
  rewrite !(Amistem_range_eqb_shift info a _ Ha), !(Amistem_range_eqb_shift info b _ Hb),
    (Amistem_getRES_01_shift info a Ha), (Amistem_getRES_01_shift info b Hb),
    (Amistem_getStemSize_shift info a).
  reflexivity.
Qed.

(** * The properties of the specification *)

Import ProductScheme.

(** ** C1 *)

(** C1, as the specification states it, fails: in the Corail scheme the
    stem KS_STD135 at offset 0 searched in the lateral family KLA_125 aims
    at offset -1, which that family does not have, and the search returns
    the first label of KLA_125, not the source label. *)
Lemma C1_corail_clamps_counterexample :
  let reg := sampleRegistry in
  let l := Corail.s3 (reg CORAIL) Corail.S3UID.STEM_KS_STD135_0 in
  let r := Corail.s3 (reg CORAIL) Corail.S3UID.RANGE_CCD_KLA_125 in
  isStem reg CORAIL l = true
  /\ In r (rangeMarkers reg CORAIL)
  /\ noCorrespondent reg CORAIL l r = true
  /\ similarLabel reg CORAIL l r
     = Some (Corail.s3 (reg CORAIL) Corail.S3UID.STEM_KLA_125_0)
  /\ similarLabel reg CORAIL l r <> Some l.
Proof.
  cbv zeta. split; [vm_compute; reflexivity|].
  split; [vm_compute; tauto|].
  split; [vm_compute; reflexivity|].
  split; [vm_compute; reflexivity|].
  vm_compute. intros H. discriminate H.
Qed.

(** C1 (amended).  For every stem label [l] and range marker [r] of a product
    such that the offset the search aims at does not exist in the family of
    [r]: the Amistem scheme returns [l] unchanged; the Corail, Ecofit, Actis
    and Optimys schemes return the label of the family of [r] at the aimed
    offset clamped into that family, that is its first or its last label. *)
Theorem C1_similarLabel_no_correspondent (reg : Product -> ProductInfo) p l r :
  isStem reg p l = true ->
  In r (rangeMarkers reg p) ->
  noCorrespondent reg p l r = true ->
  similarLabel reg p l r
  = Some (match p with
          | AMISTEM => l
          | _ => next (firstLabel reg p r)
                   (SboML.clamp (adjustedOffset reg p l r) 0 (lastOffset reg p r))
          end).
Proof.
  intros Hs Hr Hn. destruct p;
    unfold similarLabel, isStem, rangeMarkers, families, noCorrespondent,
      firstLabel, adjustedOffset, lastOffset in *; cbv zeta in Hn.
  - apply Corail_similar_closed; assumption.
  - unfold Amistem.similarLabel.
    rewrite (Amistem_similar_closed _ _ _ Hs Hr), Hn. reflexivity.
  - unfold Ecofit.similarLabel. rewrite (Ecofit_similar_closed _ _ _ Hs Hr). reflexivity.
  - unfold Actis.similarLabel. rewrite (Actis_similar_closed _ _ _ Hs Hr). reflexivity.
  - apply Optimys_similar_closed; assumption.
Qed.

Lemma C1_similarLabel_no_correspondent_witness :
  similarLabel sampleRegistry ECOFIT
      (Ecofit.s3 (sampleRegistry ECOFIT) Ecofit.S3UID.STEM_STD_133_10)
      (Ecofit.s3 (sampleRegistry ECOFIT) Ecofit.S3UID.RANGE_CCD_STD_138)
  = Some (Ecofit.s3 (sampleRegistry ECOFIT) Ecofit.S3UID.STEM_STD_138_9).
Proof.
  refine (eq_trans
    (C1_similarLabel_no_correspondent sampleRegistry ECOFIT
       (Ecofit.s3 (sampleRegistry ECOFIT) Ecofit.S3UID.STEM_STD_133_10)
       (Ecofit.s3 (sampleRegistry ECOFIT) Ecofit.S3UID.RANGE_CCD_STD_138) _ _ _) _).
  - vm_compute; reflexivity.
  - vm_compute; tauto.
  - vm_compute; reflexivity.
  - vm_compute; reflexivity.
Defined.

(** ** C2 *)

(** C2, as the specification states it, fails: Corail is a side-free
    product, yet a configuration without a requested side is not valid even
    with a stem, a head and no neck. *)
Lemma C2_side_free_counterexample :
  let reg := sampleRegistry in
  let c := sampleConfig SboAnatomLocation.None
             (Corail.s3 (reg CORAIL) Corail.S3UID.STEM_KA_STD135_5)
             (Corail.s3 (reg CORAIL) Corail.S3UID.HEAD_P0) in
  sideRequirement CORAIL c
  /\ isStem reg CORAIL (stemLabel c) = true
  /\ isHead reg CORAIL (headLabel c) = true
  /\ isSet (neckLabel c) = false
  /\ isValidAssembly (fillAndValidAssembly reg CORAIL c) = false.
Proof.
  cbv zeta. split; [exact I|]. repeat split; vm_compute; reflexivity.
Qed.

(** C2 (amended).  For every product, side-free or not, and every
    configuration [c], the configuration [fillAndValidAssembly] returns is
    valid if and only if the requested side of [c] is not "none", its stem
    label is a stem, its head label is a head and no neck label is set; and
    when the stem label is not a stem the result is not valid and its stem
    product name is the one [c] had. *)
Theorem C2_fillAndValidAssembly_valid_iff (reg : Product -> ProductInfo) p c :
  (isValidAssembly (fillAndValidAssembly reg p c) = true
   <-> requestedSide c <> SboAnatomLocation.None
       /\ isStem reg p (stemLabel c) = true
       /\ isHead reg p (headLabel c) = true
       /\ isSet (neckLabel c) = false)
  /\ (isStem reg p (stemLabel c) = false ->
      isValidAssembly (fillAndValidAssembly reg p c) = false
      /\ stemProductName (fillAndValidAssembly reg p c) = stemProductName c).
Proof.
  assert (Hflag := fillAndValidAssembly_flag reg p c).
  split.
  - rewrite Hflag, !andb_true_iff, !negb_true_iff.
    destruct (requestedSide c); cbn [SboAnatomLocation.eqb];
      intuition (discriminate || congruence).
  - intros Hs.
    assert (Hv : isValidAssembly (fillAndValidAssembly reg p c) = false).
    { rewrite Hflag, Hs, andb_false_r. reflexivity. }
    split; [exact Hv|].
    apply (fillAndValidAssembly_failed_frame reg p c Hv).
Qed.

Lemma C2_fillAndValidAssembly_valid_iff_witness :
  let c := sampleConfig SboAnatomLocation.Left 7
             (Ecofit.s3 (sampleRegistry ECOFIT) Ecofit.S3UID.HEAD_P0) in
  isValidAssembly (fillAndValidAssembly sampleRegistry ECOFIT c) = false
  /\ stemProductName (fillAndValidAssembly sampleRegistry ECOFIT c) = EmptyString.
Proof.
  cbv zeta.
  apply (proj2 (C2_fillAndValidAssembly_valid_iff sampleRegistry ECOFIT
                  (sampleConfig SboAnatomLocation.Left 7
                     (Ecofit.s3 (sampleRegistry ECOFIT) Ecofit.S3UID.HEAD_P0)))).
  vm_compute; reflexivity.
Defined.

(** ** C3 *)

(** C3, as the specification states it, fails: in the Ecofit scheme the
    families STD_133 and STD_138 are linked by a rule in each direction,
    neither leg of the round trip of STD_133 size 8 clamps anything, and the
    round trip ends on size 9. *)
Lemma C3_ecofit_roundTrip_counterexample :
  let reg := sampleRegistry in
  let l := Ecofit.s3 (reg ECOFIT) Ecofit.S3UID.STEM_STD_133_8 in
  let r := Ecofit.s3 (reg ECOFIT) Ecofit.S3UID.RANGE_CCD_STD_138 in
  let m := Ecofit.s3 (reg ECOFIT) Ecofit.S3UID.STEM_STD_138_8 in
  let x := Ecofit.s3 (reg ECOFIT) Ecofit.S3UID.STEM_STD_133_9 in
  isStem reg ECOFIT l = true
  /\ In r (rangeMarkers reg ECOFIT)
  /\ Ecofit.authoredRule (reg ECOFIT) (subRangeOf reg ECOFIT l) r = true
  /\ Ecofit.authoredRule (reg ECOFIT) r (subRangeOf reg ECOFIT l) = true
  /\ similarLabel reg ECOFIT l r = Some m
  /\ roundTrip reg ECOFIT l r = Some x
  /\ clampLoss reg ECOFIT l r = 0
  /\ clampLoss reg ECOFIT m (subRangeOf reg ECOFIT l) = 0
  /\ Z.abs (offsetWithin reg ECOFIT x - offsetWithin reg ECOFIT l) = 1.
Proof.
  cbv zeta. split; [vm_compute; reflexivity|].
  split; [vm_compute; tauto|].
  repeat split; vm_compute; reflexivity.
Qed.

(** C3 (amended).  For every product, every stem label [l] and every range
    marker [r], except an Ecofit stem of size 8 of a 133-degree family
    searched in a family that is not a 133-degree one: the round trip, into
    the family of [r] and back into the family of [l], returns a stem label
    of the family of [l] whose offset differs from the offset of [l] by no
    more than the forward search loses by clamping. *)
Theorem C3_roundTrip_within_clamp_loss (reg : Product -> ProductInfo) p l r :
  isStem reg p l = true ->
  In r (rangeMarkers reg p) ->
  mergedSize reg p l r = false ->
  exists x,
    roundTrip reg p l r = Some x
    /\ isStem reg p x = true
    /\ subRangeOf reg p x = subRangeOf reg p l
    /\ Z.abs (offsetWithin reg p x - offsetWithin reg p l) <= clampLoss reg p l r.
Proof.
  intros Hs Hr Hm. destruct p;
    unfold roundTrip, similarLabel, isStem, rangeMarkers, families, mergedSize,
      subRangeOf, offsetWithin, clampLoss, adjustedOffset, lastOffset in *;
    cbv zeta.
  - destruct (Corail_roundTrip _ _ _ Hs Hr) as (m & x & E1 & E2 & H1 & H2 & H3).
    exists x. rewrite E1, E2. auto.
  - exists l. unfold Amistem.similarLabel.
    rewrite (Amistem_roundTrip _ _ _ Hs Hr).
    repeat split; try assumption.
    rewrite Z.sub_diag. cbn [Z.abs]. apply Z.abs_nonneg.
  - unfold Ecofit.similarLabel.
    destruct (Ecofit_roundTrip _ _ _ Hs Hr Hm) as (H1 & H2 & H3).
    eexists; split; [reflexivity|]. auto.
  - unfold Actis.similarLabel.
    destruct (Actis_roundTrip _ _ _ Hs Hr) as (H1 & H2 & H3).
    eexists; split; [reflexivity|]. auto.
  - destruct (Optimys_roundTrip _ _ Hs Hr) as (m & E1 & E2).
    exists l. rewrite E1, E2.
    repeat split; try assumption.
    rewrite Z.sub_diag. cbn [Z.abs]. apply Z.abs_nonneg.
Qed.

Lemma C3_roundTrip_within_clamp_loss_witness :
  exists x,
    roundTrip sampleRegistry CORAIL
      (Corail.s3 (sampleRegistry CORAIL) Corail.S3UID.STEM_KS_STD135_10)
      (Corail.s3 (sampleRegistry CORAIL) Corail.S3UID.RANGE_CCD_STD125_S) = Some x
    /\ isStem sampleRegistry CORAIL x = true
    /\ subRangeOf sampleRegistry CORAIL x
       = subRangeOf sampleRegistry CORAIL
           (Corail.s3 (sampleRegistry CORAIL) Corail.S3UID.STEM_KS_STD135_10)
    /\ Z.abs (offsetWithin sampleRegistry CORAIL x
              - offsetWithin sampleRegistry CORAIL
                  (Corail.s3 (sampleRegistry CORAIL) Corail.S3UID.STEM_KS_STD135_10))
       <= clampLoss sampleRegistry CORAIL
            (Corail.s3 (sampleRegistry CORAIL) Corail.S3UID.STEM_KS_STD135_10)
            (Corail.s3 (sampleRegistry CORAIL) Corail.S3UID.RANGE_CCD_STD125_S).
Proof.
  apply (C3_roundTrip_within_clamp_loss sampleRegistry CORAIL).
  - vm_compute; reflexivity.
  - vm_compute; tauto.
  - reflexivity.
Defined.

(** ** C4 *)

(** C4.  For every stem label [l] of a product, the search of [l] in its own
    family returns [l]. *)
Theorem C4_similarLabel_self (reg : Product -> ProductInfo) p l :
  isStem reg p l = true ->
  similarLabel reg p l (subRangeOf reg p l) = Some l.
Proof.
  intros Hs. destruct p; unfold similarLabel, isStem, subRangeOf in *.
  - apply Corail_self; assumption.
  - unfold Amistem.similarLabel. rewrite (Amistem_self _ _ Hs). reflexivity.
  - unfold Ecofit.similarLabel. rewrite (Ecofit_self _ _ Hs). reflexivity.
  - unfold Actis.similarLabel. rewrite (Actis_self _ _ Hs). reflexivity.
  - apply Optimys_self; assumption.
Qed.

Lemma C4_similarLabel_self_witness :
  similarLabel sampleRegistry AMISTEM
    (Amistem.s3 (sampleRegistry AMISTEM) Amistem.S3UID.STEM_LAT_3)
    (subRangeOf sampleRegistry AMISTEM
       (Amistem.s3 (sampleRegistry AMISTEM) Amistem.S3UID.STEM_LAT_3))
  = Some (Amistem.s3 (sampleRegistry AMISTEM) Amistem.S3UID.STEM_LAT_3).
Proof.
  apply (C4_similarLabel_self sampleRegistry AMISTEM). vm_compute; reflexivity.
Defined.

(** ** C5 *)

(** C5.  For every stem label [l] of a product: stepping forward returns
    the label one uid up, [l + 1], when that label is a stem of the family
    of [l], and stepping backward the label one uid down, [l - 1], when
    that one is; otherwise [l] itself is returned.  Hence below the last
    offset of the family "next" returns [l + 1], whose offset is the offset
    of [l] plus one; above offset 0 "previous" returns [l - 1], whose
    offset is the offset of [l] minus one; at the last offset "next"
    returns [l], as "previous" does at offset 0; and the result is always a
    stem of the family of [l]. *)
Theorem C5_nextPrevStem_within_subrange (reg : Product -> ProductInfo) p l a :
  isStem reg p l = true ->
  nextPrevStem reg p l a
  = (let n := if a then l + 1 else l - 1 in
     if sameSubRange reg p l n then n else l)
  /\ isStem reg p (nextPrevStem reg p l a) = true
  /\ subRangeOf reg p (nextPrevStem reg p l a) = subRangeOf reg p l
  /\ (offsetWithin reg p l < lastOffset reg p (subRangeOf reg p l) ->
      nextPrevStem reg p l true = l + 1
      /\ offsetWithin reg p (l + 1) = offsetWithin reg p l + 1)
  /\ (0 < offsetWithin reg p l ->
      nextPrevStem reg p l false = l - 1
      /\ offsetWithin reg p (l - 1) = offsetWithin reg p l - 1)
  /\ (offsetWithin reg p l = lastOffset reg p (subRangeOf reg p l) ->
      nextPrevStem reg p l true = l)
  /\ (offsetWithin reg p l = 0 -> nextPrevStem reg p l false = l).
Proof.
  intros Hs.
  destruct (PS_step reg p l Hs) as [Hn Hp].
  assert (Hc : nextPrevStem reg p l a
               = (if sameSubRange reg p l (next l (stepOf a))
                  then next l (stepOf a) else l)
               /\ isStem reg p (nextPrevStem reg p l a) = true
               /\ subRangeOf reg p (nextPrevStem reg p l a) = subRangeOf reg p l
               /\ (offsetWithin reg p l = lastOffset reg p (subRangeOf reg p l) ->
                   nextPrevStem reg p l true = l)
               /\ (offsetWithin reg p l = 0 -> nextPrevStem reg p l false = l)).
  { clear Hn Hp. destruct p;
      unfold nextPrevStem, sameSubRange, isStem, subRangeOf, offsetWithin, lastOffset in *.
    - destruct (Corail_nextPrev_char _ _ a Hs) as (H1 & H2 & H3).
      destruct (Corail_boundary _ _ Hs) as (H4 & H5). auto.
    - destruct (Amistem_nextPrev_char _ _ a Hs) as (H1 & H2 & H3).
      destruct (Amistem_boundary _ _ Hs) as (H4 & H5). auto.
    - destruct (Ecofit_nextPrev_char _ _ a Hs) as (H1 & H2 & H3).
      destruct (Ecofit_boundary _ _ Hs) as (H4 & H5). auto.
    - destruct (Actis_nextPrev_char _ _ a Hs) as (H1 & H2 & H3).
      destruct (Actis_boundary _ _ Hs) as (H4 & H5). auto.
    - destruct (Optimys_nextPrev_char _ a Hs) as (H1 & H2 & H3).
      destruct (Optimys_boundary _ Hs) as (H4 & H5). auto. }
  destruct Hc as (H1 & H2 & H3 & H4 & H5).
  split; [|auto 10].
  cbv zeta. destruct a; exact H1.
Qed.

Lemma C5_nextPrevStem_within_subrange_witness :
  (nextPrevStem sampleRegistry ACTIS
     (Actis.s3 (sampleRegistry ACTIS) Actis.S3UID.STEM_STD_3) true
   = Actis.s3 (sampleRegistry ACTIS) Actis.S3UID.STEM_STD_4
   /\ offsetWithin sampleRegistry ACTIS
        (Actis.s3 (sampleRegistry ACTIS) Actis.S3UID.STEM_STD_4) = 4)
  /\ (nextPrevStem sampleRegistry CORAIL
        (Corail.s3 (sampleRegistry CORAIL) Corail.S3UID.STEM_KLA_125_6) false
      = Corail.s3 (sampleRegistry CORAIL) Corail.S3UID.STEM_KLA_125_5)
  /\ nextPrevStem sampleRegistry ACTIS
       (Actis.s3 (sampleRegistry ACTIS) Actis.S3UID.STEM_STD_12) true
     = Actis.s3 (sampleRegistry ACTIS) Actis.S3UID.STEM_STD_12.
Proof.
  split; [|split].
  - exact (proj1 (proj2 (proj2 (proj2
      (C5_nextPrevStem_within_subrange sampleRegistry ACTIS
         (Actis.s3 (sampleRegistry ACTIS) Actis.S3UID.STEM_STD_3) true
         ltac:(vm_compute; reflexivity)))))
      ltac:(vm_compute; reflexivity)).
  - exact (proj1 (proj1 (proj2 (proj2 (proj2 (proj2
      (C5_nextPrevStem_within_subrange sampleRegistry CORAIL
         (Corail.s3 (sampleRegistry CORAIL) Corail.S3UID.STEM_KLA_125_6) false
         ltac:(vm_compute; reflexivity))))))
      ltac:(vm_compute; reflexivity))).
  - exact (proj1 (proj2 (proj2 (proj2 (proj2 (proj2
      (C5_nextPrevStem_within_subrange sampleRegistry ACTIS
         (Actis.s3 (sampleRegistry ACTIS) Actis.S3UID.STEM_STD_12) true
         ltac:(vm_compute; reflexivity)))))))
      ltac:(vm_compute; reflexivity)).
Defined.

(** ** C6 *)

(** C6, as the specification states it, fails: in the Amistem scheme the
    pair STD size 5, LAT size 4 is one [getShift] has a rule for, and the
    transform is the translation by 6.55 along z, while the RES_02 points
    of the two stems coincide. *)
Lemma C6_amistem_direct_counterexample :
  let info := sampleRegistry AMISTEM in
  let o := Amistem.s3 info Amistem.S3UID.STEM_STD_5 in
  let t := Amistem.s3 info Amistem.S3UID.STEM_LAT_4 in
  let co := sampleConfig SboAnatomLocation.Left o nullLabel in
  let ct := sampleConfig SboAnatomLocation.Left t nullLabel in
  Amistem.directShift info o t = true
  /\ Amistem.stemToStemMatrix info co ct = transMat3 (Point3 0 0 6.55)
  /\ ~ meq (Amistem.stemToStemMatrix info co ct)
           (transMat3 (psub (Amistem.getRES_02 o) (Amistem.getRES_02 t))).
Proof.
  cbv zeta. split; [vm_compute; reflexivity|]. split; [vm_compute; reflexivity|].
  intros (_ & _ & _ & _ & _ & Hz). vm_compute in Hz. discriminate Hz.
Qed.

(** C6 (amended).  For configurations whose stem labels are stems of the
    product: in the Corail, Ecofit and Actis schemes [stemToStemMatrix] is
    the translation by RES_02(origin) - RES_02(target) for every pair; in
    the Optimys scheme it is the identity; in the Amistem scheme it is the
    product of the [getShift] transforms along the origin, the intermediate
    labels and the target, where every hop is a pair [getShift] has a rule
    for, the intermediate labels are the ones [getSimilarLabel] returns in
    the families STD_SN and STD that the code names for the pair of
    families, and there is no intermediate label exactly when [getShift] has
    a rule for the pair itself, in which case the transform is
    [getShift] of the pair.  The value of [getShift] between two stems [a]
    and [b] is: the translation by RES_01(a) - RES_01(b) when both lie in
    STD or STD_SN, both in LAT or both in LAT_SN; from STD to LAT the
    translation along z by 5.89, 6.03, 6.22, 6.39, 6.55, 6.71, 6.85, 7.0,
    7.26 for the sizes 1 to 9 of [a] (zero for the sizes 0 and 10), and from
    LAT to STD by the opposite of the same values for the sizes 0 to 8 of
    [a]; from STD_SN to LAT_SN and back likewise with 5.01, 5.19, 5.38,
    5.58, 5.69, 5.87, 6.07, 6.13, 6.48; the identity for the other pairs of
    families. *)
Theorem C6_stemToStemMatrix_structure (reg : Product -> ProductInfo) p co ct :
  isStem reg p (stemLabel co) = true ->
  isStem reg p (stemLabel ct) = true ->
  match p with
  | CORAIL =>
      Corail.stemToStemMatrix (reg CORAIL) co ct
      = transMat3 (psub (Corail.getRES_02 (reg CORAIL) (stemLabel co))
                        (Corail.getRES_02 (reg CORAIL) (stemLabel ct)))
  | ECOFIT =>
      Ecofit.stemToStemMatrix (reg ECOFIT) co ct
      = transMat3 (psub (Ecofit.getRES_02 (reg ECOFIT) (stemLabel co))
                        (Ecofit.getRES_02 (reg ECOFIT) (stemLabel ct)))
  | ACTIS =>
      Actis.stemToStemMatrix (reg ACTIS) co ct
      = transMat3 (psub (Actis.getRES_02 (reg ACTIS) (stemLabel co))
                        (Actis.getRES_02 (reg ACTIS) (stemLabel ct)))
  | OPTIMYS => Optimys.stemToStemMatrix co ct = idMat3
  | AMISTEM =>
      let info := reg AMISTEM in
      let via := Amistem.intermediates info (stemLabel co) (stemLabel ct) in
      Amistem.stemToStemMatrix info co ct
      = Amistem.shiftAlong info (stemLabel co) via (stemLabel ct)
      /\ Amistem.allDirect info (stemLabel co :: via ++ [stemLabel ct]) = true
      /\ map (Amistem.getCCDRange info) via
         = Amistem.viaFamilies info (Amistem.getCCDRange info (stemLabel co))
             (Amistem.getCCDRange info (stemLabel ct))
      /\ Amistem.directShift info (stemLabel co) (stemLabel ct)
         = match via with [] => true | _ => false end
      /\ (Amistem.directShift info (stemLabel co) (stemLabel ct) = true ->
          Amistem.stemToStemMatrix info co ct
          = Amistem.getShift info (stemLabel co) (stemLabel ct))
      /\ (forall a b : SboShape3Label,
          Amistem.isStem info a = true ->
          Amistem.isStem info b = true ->
          Amistem.getShift info a b
          = (let ra := Amistem.getCCDRange info a in
             let rb := Amistem.getCCDRange info b in
             let sz := Amistem.getStemSize info a in
             let std := Amistem.s3 info Amistem.S3UID.RANGE_CCD_STD in
             let lat := Amistem.s3 info Amistem.S3UID.RANGE_CCD_LAT in
             let std_sn := Amistem.s3 info Amistem.S3UID.RANGE_CCD_STD_SN in
             let lat_sn := Amistem.s3 info Amistem.S3UID.RANGE_CCD_LAT_SN in
             let zs := [5.89; 6.03; 6.22; 6.39; 6.55; 6.71; 6.85; 7.0; 7.26]%Q in
             let zs_sn := [5.01; 5.19; 5.38; 5.58; 5.69; 5.87; 6.07; 6.13; 6.48]%Q in
             let up := fun tbl : list Q =>
               if sz =? 0 then 0%Q else nth (Z.to_nat (sz - 1)) tbl 0%Q in
             let down := fun tbl : list Q => (- nth (Z.to_nat sz) tbl 0)%Q in
             if ((ra =? std) || (ra =? std_sn)) && ((rb =? std) || (rb =? std_sn))
                || (ra =? lat) && (rb =? lat) || (ra =? lat_sn) && (rb =? lat_sn)
             then transMat3 (psub (Amistem.getRES_01 info a) (Amistem.getRES_01 info b))
             else if (ra =? std) && (rb =? lat) then transMat3 (Point3 0 0 (up zs))
             else if (ra =? lat) && (rb =? std) then transMat3 (Point3 0 0 (down zs))
             else if (ra =? std_sn) && (rb =? lat_sn) then transMat3 (Point3 0 0 (up zs_sn))
             else if (ra =? lat_sn) && (rb =? std_sn) then transMat3 (Point3 0 0 (down zs_sn))
             else idMat3))
  end.
Proof.
  intros Ho Ht. destruct p; try reflexivity.
  cbv zeta. split; [apply Amistem_stemToStem_chain|].
  destruct (Amistem_chain (reg AMISTEM) _ _ Ho Ht) as (C1 & C2 & C3).
  split; [exact C1|]. split; [exact C2|]. split; [exact C3|]. split.
  - intros Hd. rewrite Amistem_stemToStem_chain.
    rewrite Hd in C3.
    destruct (Amistem.intermediates (reg AMISTEM) (stemLabel co) (stemLabel ct));
      [reflexivity|discriminate].
  - intros a b Ha Hb. exact (Amistem_getShift_rule (reg AMISTEM) a b Ha Hb).
Qed.

Lemma C6_stemToStemMatrix_structure_witness :
  let info := sampleRegistry AMISTEM in
  let o := Amistem.s3 info Amistem.S3UID.STEM_LAT_SN_3 in
  let t := Amistem.s3 info Amistem.S3UID.STEM_LAT_6 in
  let co := sampleConfig SboAnatomLocation.Left o nullLabel in
  let ct := sampleConfig SboAnatomLocation.Left t nullLabel in
  map (Amistem.getCCDRange info) (Amistem.intermediates info o t)
  = [Amistem.s3 info Amistem.S3UID.RANGE_CCD_STD_SN;
     Amistem.s3 info Amistem.S3UID.RANGE_CCD_STD]
  /\ Amistem.getShift info
       (Amistem.s3 info Amistem.S3UID.STEM_STD_5)
       (Amistem.s3 info Amistem.S3UID.STEM_LAT_4)
     = transMat3 (Point3 0 0 6.55)
  /\ Amistem.getShift info
       (Amistem.s3 info Amistem.S3UID.STEM_LAT_4)
       (Amistem.s3 info Amistem.S3UID.STEM_STD_5)
     = transMat3 (Point3 0 0 (- 6.55))
  /\ Amistem.getShift info
       (Amistem.s3 info Amistem.S3UID.STEM_STD_5)
       (Amistem.s3 info Amistem.S3UID.STEM_STD_SN_5)
     = transMat3 (psub (Point3 0 17.54 17.54) (Point3 0 17.53 17.53)).
Proof.
  cbv zeta.
  pose proof (C6_stemToStemMatrix_structure sampleRegistry AMISTEM
       (sampleConfig SboAnatomLocation.Left
          (Amistem.s3 (sampleRegistry AMISTEM) Amistem.S3UID.STEM_LAT_SN_3) nullLabel)
       (sampleConfig SboAnatomLocation.Left
          (Amistem.s3 (sampleRegistry AMISTEM) Amistem.S3UID.STEM_LAT_6) nullLabel)
       ltac:(vm_compute; reflexivity) ltac:(vm_compute; reflexivity)) as W.
  cbv zeta in W. destruct W as (_ & _ & W3 & _ & _ & W6).
  split; [|split; [|split]].
  - refine (eq_trans W3 _). vm_compute; reflexivity.
  - refine (eq_trans (W6 _ _ _ _) _); vm_compute; reflexivity.
  - refine (eq_trans (W6 _ _ _ _) _); vm_compute; reflexivity.
  - refine (eq_trans (W6 _ _ _ _) _); vm_compute; reflexivity.
Defined.

(** ** C7 *)

(** C7.  In the Corail scheme, for the stem KS_STD135 at offset 5 and the
    head HEAD_P4, the translation of [headToStemMatrix] is
    TPR_01(stem) + axis * 3.5 with axis = unit(TPR_01(stem) - RES_01(stem)),
    where TPR_01(stem) = (-41.67, 0, 41.67) and
    RES_01(stem) = (-14.44, 0, 14.44). *)
Theorem C7_headToStemMatrix_KS5_P4 (info : ProductInfo)
        (unit3 : SboVector3 -> SboVector3) :
  let stem := Corail.s3 info Corail.S3UID.STEM_KS_STD135_5 in
  let head := Corail.s3 info Corail.S3UID.HEAD_P4 in
  Corail.getOffset info stem = 5
  /\ Corail.getCCDRange info stem = Corail.s3 info Corail.S3UID.RANGE_CCD_KS_STD135
  /\ translation (Corail.headToStemMatrix info unit3 head stem)
     = padd (Corail.getTPR_01 info stem)
         (pscale (unit3 (psub (Corail.getTPR_01 info stem) (Corail.getRES_01 info stem)))
                 3.5)
  /\ Corail.getTPR_01 info stem = Point3 (-41.67) 0 41.67
  /\ Corail.getRES_01 info stem = Point3 (-14.44) 0 14.44.
Proof.
  cbv zeta.
  assert (Hstem : Corail.isStem info (Corail.s3 info Corail.S3UID.STEM_KS_STD135_5) = true).
  { rewrite (Corail_isStem_shift info), (Corail_s3_shift info), add_sub_cancel_l.
    vm_compute; reflexivity. }
  split; [|split; [|split; [|split]]].
  - rewrite (Corail_getOffset_shift info), (Corail_s3_shift info), add_sub_cancel_l.
    vm_compute; reflexivity.
  - rewrite (Corail_getCCDRange_shift info _ Hstem), !(Corail_s3_shift info),
      add_sub_cancel_l.
    rewrite Z.add_comm. f_equal.
  - unfold Corail.headToStemMatrix. cbv zeta. rewrite !Corail_s3_eqb.
    reflexivity.
  - rewrite (Corail_getTPR_01_shift info), (Corail_s3_shift info), add_sub_cancel_l.
    reflexivity.
  - rewrite (Corail_getRES_01_shift info), (Corail_s3_shift info), add_sub_cancel_l.
    reflexivity.
Qed.

(** ** C8 *)

(** C8.  For every stem label [l] of a product, some family of the product
    accepts [l], the families that accept [l] are exactly one, the family
    [subRangeOf l] names, and that one is a family of the product. *)
Theorem C8_stem_in_exactly_one_subrange (reg : Product -> ProductInfo) p l :
  isStem reg p l = true ->
  existsb (fun f => fst f l) (families reg p) = true
  /\ memberships reg p l = [subRangeOf reg p l]
  /\ In (subRangeOf reg p l) (rangeMarkers reg p).
Proof.
  intros Hs.
  assert (H : isStem reg p l = existsb (fun f => fst f l) (families reg p)
              /\ (isStem reg p l = true -> memberships reg p l = [subRangeOf reg p l])).
  { destruct p; unfold isStem, families, memberships, subRangeOf.
    - apply Corail_memberships.
    - apply Amistem_memberships.
    - apply Ecofit_memberships.
    - apply Actis_memberships.
    - apply Optimys_memberships. }
  destruct H as [H1 H2]. specialize (H2 Hs).
  split; [rewrite <- H1; exact Hs|]. split; [exact H2|].
  unfold rangeMarkers. apply (memberships_incl l). exact H2.
Qed.

Lemma C8_stem_in_exactly_one_subrange_witness :
  memberships sampleRegistry CORAIL
    (Corail.s3 (sampleRegistry CORAIL) Corail.S3UID.STEM_KLA_125_4)
  = [Corail.s3 (sampleRegistry CORAIL) Corail.S3UID.RANGE_CCD_KLA_125].
Proof.
  refine (eq_trans (proj1 (proj2
    (C8_stem_in_exactly_one_subrange sampleRegistry CORAIL
       (Corail.s3 (sampleRegistry CORAIL) Corail.S3UID.STEM_KLA_125_4) _))) _).
  - vm_compute; reflexivity.
  - vm_compute; reflexivity.
Defined.

(** ** C9 *)

(** C9.  For every product, configuration [c] and direction, [nextPrev]
    returns a configuration whose stem label is [nextPrevStem] of the stem
    label of [c] and whose other fields, the validity flag included, are
    those of [c]: the flag is not computed again. *)
Theorem C9_nextPrev_frame (reg : Product -> ProductInfo) p c a :
  let c' := nextPrev reg p c a in
  stemLabel c' = nextPrevStem reg p (stemLabel c) a
  /\ headLabel c' = headLabel c
  /\ neckLabel c' = neckLabel c
  /\ cutPlaneLabel c' = cutPlaneLabel c
  /\ requestedSide c' = requestedSide c
  /\ implantSide c' = implantSide c
  /\ stemProductName c' = stemProductName c
  /\ distalShaftProductName c' = distalShaftProductName c
  /\ headProductName c' = headProductName c
  /\ neckProductName c' = neckProductName c
  /\ isValidAssembly c' = isValidAssembly c.
Proof.
  destruct p; repeat split.
Qed.

(** ** C10 *)

(** C10.  For every product and configuration [c] with a requested side
    other than "none" and no cut-plane label, the configuration
    [fillAndValidAssembly] returns carries the cut-plane label of the
    product, valid or not; and when it is not valid, its fields other than
    the validity flag and the cut-plane label are those of [c]. *)
Theorem C10_fillAndValidAssembly_cutPlane (reg : Product -> ProductInfo) p c :
  requestedSide c <> SboAnatomLocation.None ->
  isSet (cutPlaneLabel c) = false ->
  let c' := fillAndValidAssembly reg p c in
  cutPlaneLabel c' = cutPlaneS3 reg p
  /\ (isValidAssembly c' = false ->
      requestedSide c' = requestedSide c
      /\ implantSide c' = implantSide c
      /\ stemLabel c' = stemLabel c
      /\ headLabel c' = headLabel c
      /\ neckLabel c' = neckLabel c
      /\ stemProductName c' = stemProductName c
      /\ distalShaftProductName c' = distalShaftProductName c
      /\ headProductName c' = headProductName c
      /\ neckProductName c' = neckProductName c).
Proof.
  intros Hside Hcut. cbv zeta. split.
  - rewrite (fillAndValidAssembly_cutPlane reg p c Hside), Hcut. reflexivity.
  - apply fillAndValidAssembly_failed_frame.
Qed.

Lemma C10_fillAndValidAssembly_cutPlane_witness :
  let c := sampleConfig SboAnatomLocation.Right 7
             (Actis.s3 (sampleRegistry ACTIS) Actis.S3UID.HEAD_P0) in
  cutPlaneLabel (fillAndValidAssembly sampleRegistry ACTIS c)
  = Actis.s3 (sampleRegistry ACTIS) Actis.S3UID.CUTPLANE
  /\ isValidAssembly (fillAndValidAssembly sampleRegistry ACTIS c) = false.
Proof.
  cbv zeta. split.
  - apply (C10_fillAndValidAssembly_cutPlane sampleRegistry ACTIS
             (sampleConfig SboAnatomLocation.Right 7
                (Actis.s3 (sampleRegistry ACTIS) Actis.S3UID.HEAD_P0))).
    + discriminate.
    + reflexivity.
  - vm_compute; reflexivity.
Defined.

(** * Further properties of the schemes *)

(** ** The search between families *)

(** The search answers with a stem of the family it was asked for; only the
    Amistem scheme, when the size has no correspondent there, does not. *)
Theorem similarLabel_lands_in_target (reg : Product -> ProductInfo) p l r :
  isStem reg p l = true ->
  In r (rangeMarkers reg p) ->
  (p = AMISTEM -> noCorrespondent reg p l r = false) ->
  exists m, similarLabel reg p l r = Some m
            /\ isStem reg p m = true
            /\ subRangeOf reg p m = r.
Proof.
  intros H Hr Hn.
  destruct (PS_similar_stem _ _ _ _ H Hr) as (m0 & E0 & S0 & E & S).
  exists (m0 + registryBase reg p). split; [exact E|]. split; [exact S|].
  rewrite (PS_subRangeOf_shift _ _ _ S), add_sub_cancel.
  pose (f := fun p k =>
    forallb (fun r =>
      (match p with AMISTEM => noCorrespondent originRegistry p k r | _ => false end)
      || match similarLabel originRegistry p k r with
         | Some m => subRangeOf originRegistry p m =? r
         | None => false
         end) (rangeMarkers originRegistry p)).
  assert (Hf : f p (l - registryBase reg p) = true).
  { apply PS_stems; [vm_compute; reflexivity|]. rewrite <- PS_isStem_shift. exact H. }
  unfold f in Hf. rewrite forallb_forall in Hf.
  specialize (Hf _ (PS_markers_shift _ _ _ Hr)). rewrite E0 in Hf.
  rewrite <- (PS_noCorrespondent_shift _ _ _ r H) in Hf.
  assert (Hsub : (subRangeOf originRegistry p m0 =? r - registryBase reg p) = true).
  { destruct p; try exact Hf.
    rewrite (Hn eq_refl) in Hf. exact Hf. }
  apply Z.eqb_eq in Hsub. rewrite Hsub. lia.
Qed.

Lemma similarLabel_lands_in_target_witness :
  exists m,
    similarLabel sampleRegistry ECOFIT
      (Ecofit.s3 (sampleRegistry ECOFIT) Ecofit.S3UID.STEM_LAT_138_9)
      (Ecofit.s3 (sampleRegistry ECOFIT) Ecofit.S3UID.RANGE_CCD_STD_133) = Some m
    /\ isStem sampleRegistry ECOFIT m = true
    /\ subRangeOf sampleRegistry ECOFIT m
       = Ecofit.s3 (sampleRegistry ECOFIT) Ecofit.S3UID.RANGE_CCD_STD_133.
Proof.
  apply (similarLabel_lands_in_target sampleRegistry ECOFIT).
  - vm_compute; reflexivity.
  - vm_compute; tauto.
  - discriminate.
Defined.

(** In the Amistem, Actis and Optimys schemes the round trip through any
    family returns the label it started from. *)
Theorem roundTrip_identity (reg : Product -> ProductInfo) p l r :
  p = AMISTEM \/ p = ACTIS \/ p = OPTIMYS ->
  isStem reg p l = true ->
  In r (rangeMarkers reg p) ->
  roundTrip reg p l r = Some l.
Proof.
  intros Hp H Hr.
  rewrite (PS_roundTrip_shift _ _ _ _ H Hr).
  pose (f := fun p k =>
    match p with
    | CORAIL | ECOFIT => true
    | _ => forallb (fun r =>
             match roundTrip originRegistry p k r with
             | Some x => x =? k
             | None => false
             end) (rangeMarkers originRegistry p)
    end).
  assert (Hf : f p (l - registryBase reg p) = true).
  { apply PS_stems; [vm_compute; reflexivity|]. rewrite <- PS_isStem_shift. exact H. }
  assert (Hall : forallb (fun r =>
             match roundTrip originRegistry p (l - registryBase reg p) r with
             | Some x => x =? l - registryBase reg p
             | None => false
             end) (rangeMarkers originRegistry p) = true).
  { destruct Hp as [->|[->| ->]]; exact Hf. }
  rewrite forallb_forall in Hall. specialize (Hall _ (PS_markers_shift _ _ _ Hr)).
  destruct (roundTrip originRegistry p _ _) as [x|]; [|discriminate].
  apply Z.eqb_eq in Hall. cbn [option_map]. f_equal. lia.
Qed.

Lemma roundTrip_identity_witness :
  roundTrip sampleRegistry AMISTEM
    (Amistem.s3 (sampleRegistry AMISTEM) Amistem.S3UID.STEM_STD_10)
    (Amistem.s3 (sampleRegistry AMISTEM) Amistem.S3UID.RANGE_CCD_LAT_SN)
  = Some (Amistem.s3 (sampleRegistry AMISTEM) Amistem.S3UID.STEM_STD_10).
Proof.
  apply (roundTrip_identity sampleRegistry AMISTEM).
  - left; reflexivity.
  - vm_compute; reflexivity.
  - vm_compute; tauto.
Defined.

(** A second search from the end of a round trip gives what the first
    search gave: going forward, back and forward again loses nothing more. *)
Theorem roundTrip_then_forward (reg : Product -> ProductInfo) p l r :
  isStem reg p l = true ->
  In r (rangeMarkers reg p) ->
  exists x, roundTrip reg p l r = Some x
            /\ similarLabel reg p x r = similarLabel reg p l r.
Proof.
  intros H Hr.
  pose (f := fun p k =>
    forallb (fun r =>
      match roundTrip originRegistry p k r with
      | Some x =>
          isStem originRegistry p x
          && match similarLabel originRegistry p x r, similarLabel originRegistry p k r with
             | Some a, Some b => a =? b
             | _, _ => false
             end
      | None => false
      end) (rangeMarkers originRegistry p)).
  assert (Hf : f p (l - registryBase reg p) = true).
  { apply PS_stems; [vm_compute; reflexivity|]. rewrite <- PS_isStem_shift. exact H. }
  unfold f in Hf. rewrite forallb_forall in Hf.
  specialize (Hf _ (PS_markers_shift _ _ _ Hr)).
  rewrite (PS_roundTrip_shift _ _ _ _ H Hr).
  destruct (roundTrip originRegistry p _ _) as [x|]; [|discriminate].
  apply andb_true_iff in Hf. destruct Hf as [Sx Hf].
  exists (x + registryBase reg p). split; [reflexivity|].
  rewrite (PS_similarLabel_shift _ _ _ _ (PS_isStem_unshift reg _ _ Sx) Hr),
    (PS_similarLabel_shift _ _ _ _ H Hr), add_sub_cancel.
  destruct (similarLabel originRegistry p x _) as [a|]; [|discriminate].
  destruct (similarLabel originRegistry p (l - _) _) as [b|]; [|discriminate].
  apply Z.eqb_eq in Hf. rewrite Hf. reflexivity.
Qed.

Lemma roundTrip_then_forward_witness :
  exists x,
    roundTrip sampleRegistry ECOFIT
      (Ecofit.s3 (sampleRegistry ECOFIT) Ecofit.S3UID.STEM_STD_133_8)
      (Ecofit.s3 (sampleRegistry ECOFIT) Ecofit.S3UID.RANGE_CCD_STD_138) = Some x
    /\ similarLabel sampleRegistry ECOFIT x
         (Ecofit.s3 (sampleRegistry ECOFIT) Ecofit.S3UID.RANGE_CCD_STD_138)
       = similarLabel sampleRegistry ECOFIT
           (Ecofit.s3 (sampleRegistry ECOFIT) Ecofit.S3UID.STEM_STD_133_8)
           (Ecofit.s3 (sampleRegistry ECOFIT) Ecofit.S3UID.RANGE_CCD_STD_138).
Proof.
  apply (roundTrip_then_forward sampleRegistry ECOFIT).
  - vm_compute; reflexivity.
  - vm_compute; tauto.
Defined.

(** The search keeps the order of sizes: of two stems of one family, the
    smaller is never sent to a larger offset than the larger. *)
Theorem similarLabel_monotone (reg : Product -> ProductInfo) p l1 l2 r :
  isStem reg p l1 = true ->
  isStem reg p l2 = true ->
  subRangeOf reg p l1 = subRangeOf reg p l2 ->
  offsetWithin reg p l1 <= offsetWithin reg p l2 ->
  In r (rangeMarkers reg p) ->
  exists m1 m2,
    similarLabel reg p l1 r = Some m1
    /\ similarLabel reg p l2 r = Some m2
    /\ offsetWithin reg p m1 <= offsetWithin reg p m2.
Proof.
  intros H1 H2 Hsub Hoff Hr.
  destruct (PS_similar_stem _ _ _ _ H1 Hr) as (a & Ea0 & Sa0 & Ea & Sa).
  destruct (PS_similar_stem _ _ _ _ H2 Hr) as (b & Eb0 & Sb0 & Eb & Sb).
  exists (a + registryBase reg p), (b + registryBase reg p).
  split; [exact Ea|]. split; [exact Eb|].
  rewrite (PS_offsetWithin_shift _ _ _ Sa), (PS_offsetWithin_shift _ _ _ Sb),
    !add_sub_cancel.
  rewrite (PS_subRangeOf_shift _ _ _ H1), (PS_subRangeOf_shift _ _ _ H2) in Hsub.
  rewrite (PS_offsetWithin_shift _ _ _ H1), (PS_offsetWithin_shift _ _ _ H2) in Hoff.
  pose (g := fun p k1 k2 =>
    negb ((subRangeOf originRegistry p k1 =? subRangeOf originRegistry p k2)
          && (offsetWithin originRegistry p k1 <=? offsetWithin originRegistry p k2))
    || forallb (fun r =>
         match similarLabel originRegistry p k1 r, similarLabel originRegistry p k2 r with
         | Some x, Some y =>
             offsetWithin originRegistry p x <=? offsetWithin originRegistry p y
         | _, _ => false
         end) (rangeMarkers originRegistry p)).
  pose (f := fun p k1 => allInRange (g p k1) (firstStemAtOrigin p) (stemCount p)).
  assert (Hf : f p (l1 - registryBase reg p) = true).
  { apply PS_stems; [vm_compute; reflexivity|]. rewrite <- PS_isStem_shift. exact H1. }
  assert (Hg : g p (l1 - registryBase reg p) (l2 - registryBase reg p) = true).
  { apply (PS_stems_at p (g p (l1 - registryBase reg p))); [exact Hf|].
    rewrite <- PS_isStem_shift. exact H2. }
  unfold g in Hg.
  assert (Hc : (subRangeOf originRegistry p (l1 - registryBase reg p)
                =? subRangeOf originRegistry p (l2 - registryBase reg p))
               && (offsetWithin originRegistry p (l1 - registryBase reg p)
                   <=? offsetWithin originRegistry p (l2 - registryBase reg p)) = true).
  { apply andb_true_iff. split; [apply Z.eqb_eq; lia|apply Z.leb_le; exact Hoff]. }
  rewrite Hc in Hg. cbn [negb orb] in Hg.
  rewrite forallb_forall in Hg. specialize (Hg _ (PS_markers_shift _ _ _ Hr)).
  rewrite Ea0, Eb0 in Hg. apply Z.leb_le in Hg. exact Hg.
Qed.

Lemma similarLabel_monotone_witness :
  exists m1 m2,
    similarLabel sampleRegistry CORAIL
      (Corail.s3 (sampleRegistry CORAIL) Corail.S3UID.STEM_KS_STD135_2)
      (Corail.s3 (sampleRegistry CORAIL) Corail.S3UID.RANGE_CCD_SN_A) = Some m1
    /\ similarLabel sampleRegistry CORAIL
         (Corail.s3 (sampleRegistry CORAIL) Corail.S3UID.STEM_KS_STD135_9)
         (Corail.s3 (sampleRegistry CORAIL) Corail.S3UID.RANGE_CCD_SN_A) = Some m2
    /\ offsetWithin sampleRegistry CORAIL m1 <= offsetWithin sampleRegistry CORAIL m2.
Proof.
  apply (similarLabel_monotone sampleRegistry CORAIL).
  - vm_compute; reflexivity.
  - vm_compute; reflexivity.
  - vm_compute; reflexivity.
  - vm_compute; discriminate.
  - vm_compute; tauto.
Defined.

(** ** Stepping within a family *)

(** Stepping forward adds one to the offset and stepping backward
    subtracts one, and the result is clamped into the offsets 0 .. last of
    the family: the offset after the step is
    max 0 (min last (offset + 1)), respectively
    max 0 (min last (offset - 1)). *)
Theorem nextPrevStem_offset (reg : Product -> ProductInfo) p l a :
  isStem reg p l = true ->
  offsetWithin reg p (nextPrevStem reg p l a)
  = Z.max 0 (Z.min (lastOffset reg p (subRangeOf reg p l))
                   (if a then offsetWithin reg p l + 1
                    else offsetWithin reg p l - 1)).
Proof.
  intros H.
  pose (f := fun p k =>
    isStem originRegistry p (nextPrevStem originRegistry p k a)
    && (offsetWithin originRegistry p (nextPrevStem originRegistry p k a)
        =? Z.max 0 (Z.min (lastOffset originRegistry p (subRangeOf originRegistry p k))
                          (if a then offsetWithin originRegistry p k + 1
                           else offsetWithin originRegistry p k - 1)))).
  assert (Hf : f p (l - registryBase reg p) = true).
  { apply PS_stems; [destruct a; vm_compute; reflexivity|].
    rewrite <- PS_isStem_shift. exact H. }
  unfold f in Hf. apply andb_true_iff in Hf. destruct Hf as [S E].
  apply Z.eqb_eq in E.
  destruct (PS_offset_last_shift reg p l H) as [Eo El].
  rewrite (PS_nextPrevStem_shift _ _ _ a H).
  rewrite (PS_offsetWithin_shift _ _ _ (PS_isStem_unshift reg _ _ S)), add_sub_cancel, E.
  rewrite Eo, El. reflexivity.
Qed.

Lemma nextPrevStem_offset_witness :
  offsetWithin sampleRegistry AMISTEM
    (nextPrevStem sampleRegistry AMISTEM
       (Amistem.s3 (sampleRegistry AMISTEM) Amistem.S3UID.STEM_LAT_3) true) = 4
  /\ offsetWithin sampleRegistry AMISTEM
       (nextPrevStem sampleRegistry AMISTEM
          (Amistem.s3 (sampleRegistry AMISTEM) Amistem.S3UID.STEM_LAT_3) false) = 2
  /\ offsetWithin sampleRegistry AMISTEM
       (nextPrevStem sampleRegistry AMISTEM
          (Amistem.s3 (sampleRegistry AMISTEM) Amistem.S3UID.STEM_LAT_8) true) = 8.
Proof.
  split; [|split].
  - refine (eq_trans
      (nextPrevStem_offset sampleRegistry AMISTEM
         (Amistem.s3 (sampleRegistry AMISTEM) Amistem.S3UID.STEM_LAT_3) true _) _);
      vm_compute; reflexivity.
  - refine (eq_trans
      (nextPrevStem_offset sampleRegistry AMISTEM
         (Amistem.s3 (sampleRegistry AMISTEM) Amistem.S3UID.STEM_LAT_3) false _) _);
      vm_compute; reflexivity.
  - refine (eq_trans
      (nextPrevStem_offset sampleRegistry AMISTEM
         (Amistem.s3 (sampleRegistry AMISTEM) Amistem.S3UID.STEM_LAT_8) true _) _);
      vm_compute; reflexivity.
Defined.

(** A step that moved is undone by the step in the other direction. *)
Theorem nextPrevStem_inverse (reg : Product -> ProductInfo) p l a :
  isStem reg p l = true ->
  nextPrevStem reg p l a <> l ->
  nextPrevStem reg p (nextPrevStem reg p l a) (negb a) = l.
Proof.
  intros H Hne.
  pose (f := fun p k =>
    isStem originRegistry p (nextPrevStem originRegistry p k a)
    && ((nextPrevStem originRegistry p k a =? k)
        || (nextPrevStem originRegistry p (nextPrevStem originRegistry p k a) (negb a)
            =? k))).
  assert (Hf : f p (l - registryBase reg p) = true).
  { apply PS_stems; [destruct a; vm_compute; reflexivity|].
    rewrite <- PS_isStem_shift. exact H. }
  unfold f in Hf. apply andb_true_iff in Hf. destruct Hf as [S E].
  rewrite (PS_nextPrevStem_shift _ _ _ a H) in Hne |- *.
  rewrite (PS_nextPrevStem_shift _ _ _ (negb a) (PS_isStem_unshift reg _ _ S)),
    add_sub_cancel.
  apply orb_true_iff in E. destruct E as [E|E]; apply Z.eqb_eq in E.
  - exfalso. apply Hne. rewrite E. lia.
  - rewrite E. lia.
Qed.

Lemma nextPrevStem_inverse_witness :
  nextPrevStem sampleRegistry ACTIS
    (nextPrevStem sampleRegistry ACTIS
       (Actis.s3 (sampleRegistry ACTIS) Actis.S3UID.STEM_HO_3) false) true
  = Actis.s3 (sampleRegistry ACTIS) Actis.S3UID.STEM_HO_3.
Proof.
  apply (nextPrevStem_inverse sampleRegistry ACTIS
           (Actis.s3 (sampleRegistry ACTIS) Actis.S3UID.STEM_HO_3) false).
  - vm_compute; reflexivity.
  - vm_compute; discriminate.
Defined.

(** ** Families and offsets *)

(** A stem is the label of its family at its offset, and that offset is one
    of the offsets of the family. *)
Theorem stem_is_family_at_offset (reg : Product -> ProductInfo) p l :
  isStem reg p l = true ->
  l = next (firstLabel reg p (subRangeOf reg p l)) (offsetWithin reg p l)
  /\ 0 <= offsetWithin reg p l <= lastOffset reg p (subRangeOf reg p l).
Proof.
  intros H.
  pose (f := fun p k =>
    (k =? next (firstLabel originRegistry p (subRangeOf originRegistry p k))
            (offsetWithin originRegistry p k))
    && (0 <=? offsetWithin originRegistry p k)
    && (offsetWithin originRegistry p k
        <=? lastOffset originRegistry p (subRangeOf originRegistry p k))).
  assert (Hf : f p (l - registryBase reg p) = true).
  { apply PS_stems; [vm_compute; reflexivity|]. rewrite <- PS_isStem_shift. exact H. }
  unfold f in Hf.
  apply andb_true_iff in Hf. destruct Hf as [Hf E3].
  apply andb_true_iff in Hf. destruct Hf as [E1 E2].
  apply Z.eqb_eq in E1. apply Z.leb_le in E2. apply Z.leb_le in E3.
  rewrite (PS_firstLabel_shift _ _ _ (PS_range_is_marker _ _ _ H)).
  rewrite (PS_offsetWithin_shift _ _ _ H), (PS_lastOffset_shift reg),
    (PS_subRangeOf_shift _ _ _ H), add_sub_cancel.
  split; [|split; assumption].
  unfold next in *. lia.
Qed.

Lemma stem_is_family_at_offset_witness :
  Corail.s3 (sampleRegistry CORAIL) Corail.S3UID.STEM_SN_A_6
  = next (firstLabel sampleRegistry CORAIL
            (Corail.s3 (sampleRegistry CORAIL) Corail.S3UID.RANGE_CCD_SN_A)) 6.
Proof.
  refine (eq_trans (proj1
    (stem_is_family_at_offset sampleRegistry CORAIL
       (Corail.s3 (sampleRegistry CORAIL) Corail.S3UID.STEM_SN_A_6) _)) _).
  - vm_compute; reflexivity.
  - vm_compute; reflexivity.
Defined.

(** Conversely every offset of a family is taken by one of its stems: the
    offsets of a family are contiguous from 0 to its last offset. *)
Theorem family_offsets_are_stems (reg : Product -> ProductInfo) p r i :
  In r (rangeMarkers reg p) ->
  0 <= i <= lastOffset reg p r ->
  let l := next (firstLabel reg p r) i in
  isStem reg p l = true
  /\ subRangeOf reg p l = r
  /\ offsetWithin reg p l = i.
Proof.
  intros Hr Hi. cbv zeta.
  pose proof (PS_markers_shift _ _ _ Hr) as Hr0.
  rewrite (PS_lastOffset_shift reg) in Hi.
  set (b := registryBase reg p) in *.
  pose (g := fun r i =>
    let l := next (firstLabel originRegistry p r) i in
    (lastOffset originRegistry p r <? i)
    || (isStem originRegistry p l
        && (subRangeOf originRegistry p l =? r)
        && (offsetWithin originRegistry p l =? i))).
  assert (Hall : forallb (fun r => allInRange (g r) 0 14)
                   (rangeMarkers originRegistry p) = true)
    by (destruct p; vm_compute; reflexivity).
  rewrite forallb_forall in Hall. specialize (Hall _ Hr0).
  assert (Hb : lastOffset originRegistry p (r - b) <= 13).
  { assert (Hl : forallb (fun r => lastOffset originRegistry p r <=? 13)
                   (rangeMarkers originRegistry p) = true)
      by (destruct p; vm_compute; reflexivity).
    rewrite forallb_forall in Hl. apply Z.leb_le. exact (Hl _ Hr0). }
  assert (Hg : g (r - b) i = true).
  { apply (allInRange_spec _ 14 0 Hall). change (Z.of_nat 14) with 14. lia. }
  unfold g in Hg. cbv zeta in Hg.
  apply orb_true_iff in Hg. destruct Hg as [Hg|Hg]; [apply Z.ltb_lt in Hg; lia|].
  apply andb_true_iff in Hg. destruct Hg as [Hg E3].
  apply andb_true_iff in Hg. destruct Hg as [S E2].
  apply Z.eqb_eq in E2. apply Z.eqb_eq in E3.
  rewrite (PS_firstLabel_shift _ _ _ Hr). fold b.
  replace (next (firstLabel originRegistry p (r - b) + b) i)
    with (next (firstLabel originRegistry p (r - b)) i + b) by (unfold next; lia).
  pose proof (PS_isStem_unshift reg _ _ S) as S'. fold b in S'.
  split; [exact S'|]. split.
  - rewrite (PS_subRangeOf_shift _ _ _ S'). fold b. rewrite add_sub_cancel, E2. lia.
  - rewrite (PS_offsetWithin_shift _ _ _ S'). fold b. rewrite add_sub_cancel. exact E3.
Qed.

Lemma family_offsets_are_stems_witness :
  isStem sampleRegistry ECOFIT
    (next (firstLabel sampleRegistry ECOFIT
             (Ecofit.s3 (sampleRegistry ECOFIT) Ecofit.S3UID.RANGE_CCD_CV)) 9) = true.
Proof.
  apply (family_offsets_are_stems sampleRegistry ECOFIT
           (Ecofit.s3 (sampleRegistry ECOFIT) Ecofit.S3UID.RANGE_CCD_CV) 9).
  - vm_compute; tauto.
  - vm_compute. split; discriminate.
Defined.

(** ** The configuration facade *)

(** The facade in one expression, for every product. *)
Lemma fillAndValidAssembly_closed (reg : Product -> ProductInfo) p c :
  fillAndValidAssembly reg p c
  = if SboAnatomLocation.eqb (requestedSide c) SboAnatomLocation.None
    then setValidAssembly false c
    else
      let cut := if isSet (cutPlaneLabel c) then cutPlaneLabel c
                 else cutPlaneS3 reg p in
      if isStem reg p (stemLabel c) && isHead reg p (headLabel c)
         && negb (isSet (neckLabel c))
      then mkFemIC (requestedSide c)
             (if sideFree p then SboAnatomLocation.None else requestedSide c)
             (stemLabel c) (headLabel c) (neckLabel c) cut
             (productNameOf reg p) EmptyString (productNameOf reg p) EmptyString true
      else mkFemIC (requestedSide c) (implantSide c)
             (stemLabel c) (headLabel c) (neckLabel c) cut
             (stemProductName c) (distalShaftProductName c)
             (headProductName c) (neckProductName c) false.
Proof.
  destruct c as [rs ims sl hl nl cl spn dpn hpn npn va].
  unfold productNameOf, sideFree.
  destruct p, rs; facade_unfold; try reflexivity;
    destruct (isSet cl); facade_fields; facade_cases; reflexivity.
Qed.

(** Validating twice is validating once. *)
Theorem fillAndValidAssembly_idempotent (reg : Product -> ProductInfo) p c :
  fillAndValidAssembly reg p (fillAndValidAssembly reg p c)
  = fillAndValidAssembly reg p c.
Proof.
  rewrite (fillAndValidAssembly_closed reg p c).
  destruct c as [rs ims sl hl nl cl spn dpn hpn npn va]. facade_fields. cbv zeta.
  destruct (SboAnatomLocation.eqb rs SboAnatomLocation.None) eqn:Hside.
  - rewrite fillAndValidAssembly_closed. facade_fields. rewrite Hside. reflexivity.
  - destruct (isStem reg p sl && isHead reg p hl && negb (isSet nl)) eqn:Hb;
      rewrite fillAndValidAssembly_closed; facade_fields; cbv zeta;
      rewrite Hside, Hb;
      destruct (isSet cl) eqn:Hcl; rewrite ?Hcl;
      try reflexivity;
      destruct (isSet (cutPlaneS3 reg p)); reflexivity.
Qed.

(** What a successful validation writes: the product name on stem and head,
    no name on distal shaft and neck, and as implant side "none" for the
    side-free products and the requested side for the others. *)
Theorem fillAndValidAssembly_success_fields (reg : Product -> ProductInfo) p c :
  isValidAssembly (fillAndValidAssembly reg p c) = true ->
  let c' := fillAndValidAssembly reg p c in
  stemProductName c' = productNameOf reg p
  /\ headProductName c' = productNameOf reg p
  /\ distalShaftProductName c' = EmptyString
  /\ neckProductName c' = EmptyString
  /\ implantSide c' = (if sideFree p then SboAnatomLocation.None else requestedSide c).
Proof.
  destruct c as [rs ims sl hl nl cl spn dpn hpn npn va]. cbv zeta.
  unfold productNameOf.
  destruct p, rs; facade_unfold; intros H; try discriminate H;
    revert H; facade_cases; intros H; try discriminate H;
    repeat split; reflexivity.
Qed.

Lemma fillAndValidAssembly_success_fields_witness :
  let c := sampleConfig SboAnatomLocation.Left
             (Ecofit.s3 (sampleRegistry ECOFIT) Ecofit.S3UID.STEM_CV_3)
             (Ecofit.s3 (sampleRegistry ECOFIT) Ecofit.S3UID.HEAD_P4) in
  implantSide (fillAndValidAssembly sampleRegistry ECOFIT c) = SboAnatomLocation.Left.
Proof.
  cbv zeta.
  apply (fillAndValidAssembly_success_fields sampleRegistry ECOFIT
           (sampleConfig SboAnatomLocation.Left
              (Ecofit.s3 (sampleRegistry ECOFIT) Ecofit.S3UID.STEM_CV_3)
              (Ecofit.s3 (sampleRegistry ECOFIT) Ecofit.S3UID.HEAD_P4))).
  vm_compute; reflexivity.
Defined.

(** The facade never touches the requested side and the stem, head and neck
    labels, and never overwrites a cut-plane label that is set. *)
Theorem fillAndValidAssembly_keeps_labels (reg : Product -> ProductInfo) p c :
  let c' := fillAndValidAssembly reg p c in
  requestedSide c' = requestedSide c
  /\ stemLabel c' = stemLabel c
  /\ headLabel c' = headLabel c
  /\ neckLabel c' = neckLabel c
  /\ (isSet (cutPlaneLabel c) = true -> cutPlaneLabel c' = cutPlaneLabel c).
Proof.
  destruct c as [rs ims sl hl nl cl spn dpn hpn npn va]. cbv zeta. facade_fields.
  destruct p, rs; facade_unfold; try (repeat split; reflexivity);
    destruct (isSet cl) eqn:Hcl; facade_fields; facade_cases;
    repeat split; try reflexivity; intros Habs; discriminate Habs.
Qed.

Lemma fillAndValidAssembly_keeps_labels_witness :
  let c := mkFemIC SboAnatomLocation.Left SboAnatomLocation.None 7 8 0 5
             EmptyString EmptyString EmptyString EmptyString false in
  cutPlaneLabel (fillAndValidAssembly sampleRegistry AMISTEM c) = 5.
Proof.
  cbv zeta.
  apply (proj2 (proj2 (proj2 (proj2
    (fillAndValidAssembly_keeps_labels sampleRegistry AMISTEM
       (mkFemIC SboAnatomLocation.Left SboAnatomLocation.None 7 8 0 5
          EmptyString EmptyString EmptyString EmptyString false)))))).
  vm_compute; reflexivity.
Defined.

(** Stepping the stem of a configuration that validates gives a
    configuration that validates. *)
Theorem nextPrev_keeps_validity (reg : Product -> ProductInfo) p c a :
  isValidAssembly (fillAndValidAssembly reg p c) = true ->
  isValidAssembly (fillAndValidAssembly reg p (nextPrev reg p c a)) = true.
Proof.
  rewrite !fillAndValidAssembly_flag.
  assert (Hn : nextPrev reg p c a
               = setStemLabel (nextPrevStem reg p (stemLabel c) a) c)
    by (destruct p; reflexivity).
  rewrite Hn. destruct c as [rs ims sl hl nl cl spn dpn hpn npn va]. facade_fields.
  intros H.
  apply andb_true_iff in H. destruct H as [H Hneck].
  apply andb_true_iff in H. destruct H as [H Hhead].
  apply andb_true_iff in H. destruct H as [Hside Hstem].
  rewrite Hside, Hhead, Hneck, !andb_true_r.
  destruct p; unfold nextPrevStem, isStem in *.
  - apply (Corail_nextPrev_char _ _ a Hstem).
  - apply (Amistem_nextPrev_char _ _ a Hstem).
  - apply (Ecofit_nextPrev_char _ _ a Hstem).
  - apply (Actis_nextPrev_char _ _ a Hstem).
  - apply (Optimys_nextPrev_char _ a Hstem).
Qed.

Lemma nextPrev_keeps_validity_witness :
  let c := sampleConfig SboAnatomLocation.Right
             (Optimys.s3 Optimys.S3UID.STEM_LAT_14)
             (Optimys.s3 Optimys.S3UID.HEAD_P8) in
  isValidAssembly
    (fillAndValidAssembly sampleRegistry OPTIMYS
       (nextPrev sampleRegistry OPTIMYS c true)) = true.
Proof.
  cbv zeta.
  apply (nextPrev_keeps_validity sampleRegistry OPTIMYS).
  vm_compute; reflexivity.
Defined.

(** Without a requested side nothing is checked: the facade returns the
    configuration with the validity flag cleared and no other change, not
    even the cut-plane label. *)
Theorem fillAndValidAssembly_without_side (reg : Product -> ProductInfo) p c :
  requestedSide c = SboAnatomLocation.None ->
  fillAndValidAssembly reg p c = setValidAssembly false c.
Proof.
  destruct c as [rs ims sl hl nl cl spn dpn hpn npn va]. facade_fields.
  intros ->. destruct p; facade_unfold; reflexivity.
Qed.

Lemma fillAndValidAssembly_without_side_witness :
  let c := sampleConfig SboAnatomLocation.None
             (Actis.s3 (sampleRegistry ACTIS) Actis.S3UID.STEM_STD_6)
             (Actis.s3 (sampleRegistry ACTIS) Actis.S3UID.HEAD_P0) in
  fillAndValidAssembly sampleRegistry ACTIS c = setValidAssembly false c.
Proof.
  cbv zeta. apply (fillAndValidAssembly_without_side sampleRegistry ACTIS). reflexivity.
Defined.

(** ** Classes of labels *)

(** Under any registry, a label in the range of a product is of exactly one
    class (stem, head, cut plane or range marker) and a label outside that
    range is of none. *)
Theorem label_classes_partition (reg : Product -> ProductInfo) p l :
  classCount reg p l = if inRange reg p l then 1 else 0.
Proof.
  unfold classCount.
  rewrite PS_isStem_shift, PS_isHead_shift, PS_isCutPlane_shift,
    PS_isRangeMarker_shift, PS_inRange_shift.
  apply PS_classes_origin.
Qed.

(** The default configuration validates exactly when a side is requested;
    its stem label is a stem, its head label a head, it has no neck and it
    carries the cut-plane label of the product. *)
Theorem defaultFemIC_valid (reg : Product -> ProductInfo) p side :
  let c := defaultFemIC reg p side in
  isValidAssembly c = negb (SboAnatomLocation.eqb side SboAnatomLocation.None)
  /\ requestedSide c = side
  /\ isStem reg p (stemLabel c) = true
  /\ isHead reg p (headLabel c) = true
  /\ isSet (neckLabel c) = false
  /\ cutPlaneLabel c = cutPlaneS3 reg p.
Proof.
  cbv zeta.
  assert (Hd : exists st hd ims,
             defaultFemIC reg p side
             = fillAndValidAssembly reg p
                 (mkFemIC side ims st hd nullLabel (cutPlaneS3 reg p)
                    (productNameOf reg p) (productNameOf reg p) (productNameOf reg p)
                    EmptyString false)
             /\ isStem reg p st = true /\ isHead reg p hd = true).
  { destruct p.
    - exists (Corail.s3 (reg CORAIL) Corail.defaultS3StemRUID),
        (Corail.s3 (reg CORAIL) Corail.defaultS3HeadUID), SboAnatomLocation.None.
      split; [reflexivity|].
      rewrite PS_isStem_shift, PS_isHead_shift. ps_unfold.
      rewrite !(Corail_s3_shift (reg CORAIL)), !add_sub_cancel_l.
      split; vm_compute; reflexivity.
    - exists (Amistem.s3 (reg AMISTEM) Amistem.defaultS3StemRUID),
        (Amistem.s3 (reg AMISTEM) Amistem.defaultS3HeadUID), SboAnatomLocation.None.
      split; [reflexivity|].
      rewrite PS_isStem_shift, PS_isHead_shift. ps_unfold.
      rewrite !(Amistem_s3_shift (reg AMISTEM)), !add_sub_cancel_l.
      split; vm_compute; reflexivity.
    - exists (Ecofit.s3 (reg ECOFIT) Ecofit.defaultS3StemUID),
        (Ecofit.s3 (reg ECOFIT) Ecofit.defaultS3HeadUID), side.
      split; [reflexivity|].
      rewrite PS_isStem_shift, PS_isHead_shift. ps_unfold.
      rewrite !(Ecofit_s3_shift (reg ECOFIT)), !add_sub_cancel_l.
      split; vm_compute; reflexivity.
    - exists (Actis.s3 (reg ACTIS) Actis.defaultS3StemUID),
        (Actis.s3 (reg ACTIS) Actis.defaultS3HeadUID), side.
      split; [reflexivity|].
      rewrite PS_isStem_shift, PS_isHead_shift. ps_unfold.
      rewrite !(Actis_s3_shift (reg ACTIS)), !add_sub_cancel_l.
      split; vm_compute; reflexivity.
    - exists (Optimys.s3 Optimys.defaultS3StemUID),
        (Optimys.s3 Optimys.defaultS3HeadUID), SboAnatomLocation.None.
      split; [reflexivity|]. split; vm_compute; reflexivity. }
  destruct Hd as (st & hd & ims & -> & Hst & Hhd).
  rewrite fillAndValidAssembly_closed. facade_fields. cbv zeta.
  rewrite Hst, Hhd. change (isSet nullLabel) with false. cbn [negb andb].
  destruct side; cbn [SboAnatomLocation.eqb negb]; facade_fields;
    (repeat split; try assumption; try reflexivity);
    destruct (isSet (cutPlaneS3 reg p)); reflexivity.
Qed.

(** ** Transforms between stems *)

(** In every scheme but Amistem the transform from a stem to itself is the
    identity, and the transforms from [a] to [b] and from [b] to [a] undo
    each other: their translations are opposite vectors and their product
    is the identity.  (The translation from [a] to [b] is one coordinate-wise
    difference and the one from [b] to [a] the same difference with the
    operands swapped, so the statement does not depend on how the
    differences are rounded.) *)
Theorem stemToStemMatrix_inverse (reg : Product -> ProductInfo) p a b :
  p <> AMISTEM ->
  meq (stemToStemMatrix reg p a a) idMat3
  /\ peq (translation (stemToStemMatrix reg p b a))
         (psub (Point3 0 0 0) (translation (stemToStemMatrix reg p a b)))
  /\ meq (mulMat3 (stemToStemMatrix reg p b a) (stemToStemMatrix reg p a b)) idMat3.
Proof.
  intros Hp.
  assert (Ht : forall u v : SboPoint3,
             meq (transMat3 (psub u u)) idMat3
             /\ peq (translation (transMat3 (psub v u)))
                    (psub (Point3 0 0 0) (translation (transMat3 (psub u v))))
             /\ meq (mulMat3 (transMat3 (psub v u)) (transMat3 (psub u v))) idMat3).
  { intros u v. destruct u as [ux uy uz], v as [vx vy vz].
    unfold meq, peq, mulMat3, transMat3, idMat3, applyLin, col, pdot, padd, psub.
    cbn [px py pz row1 row2 row3 translation]. repeat split; ring. }
  destruct p; unfold stemToStemMatrix.
  - apply Ht.
  - contradiction.
  - apply Ht.
  - apply Ht.
  - unfold Optimys.stemToStemMatrix. repeat split; vm_compute; reflexivity.
Qed.

Lemma stemToStemMatrix_inverse_witness :
  let cfg := fun e => sampleConfig SboAnatomLocation.Left
                        (Corail.s3 (sampleRegistry CORAIL) e) nullLabel in
  meq (mulMat3
         (stemToStemMatrix sampleRegistry CORAIL
            (cfg Corail.S3UID.STEM_KLA_125_2) (cfg Corail.S3UID.STEM_KS_STD135_4))
         (stemToStemMatrix sampleRegistry CORAIL
            (cfg Corail.S3UID.STEM_KS_STD135_4) (cfg Corail.S3UID.STEM_KLA_125_2)))
      idMat3.
Proof.
  cbv zeta.
  refine (proj2 (proj2 (stemToStemMatrix_inverse sampleRegistry CORAIL _ _ _))).
  discriminate.
Defined.

(** In the Amistem scheme the transform from a stem to the label the search
    gives for it in any family, followed by the transform back, is the
    identity. *)
Theorem Amistem_stemToStem_similar_inverse (info : ProductInfo) co ct r :
  Amistem.isStem info (stemLabel co) = true ->
  In r (map snd (Amistem.families info)) ->
  stemLabel ct = Amistem.similarLabel info (stemLabel co) r ->
  meq (mulMat3 (Amistem.stemToStemMatrix info ct co)
               (Amistem.stemToStemMatrix info co ct))
      idMat3.
Proof.
  intros Ho Hr Ht. unfold Amistem.similarLabel in Ht.
  pose proof Ho as Ho0. rewrite (Amistem_isStem_shift info) in Ho0.
  pose proof (Amistem_markers_shift info r Hr) as Hr0.
  set (b := productRangeStartsAt info) in *.
  pose (f := fun o =>
    forallb (fun r =>
      let t := Amistem.getSimilarLabel originInfo o r in
      Amistem.isStem originInfo t
      && meqb (mulMat3
                 (Amistem.stemToStemMatrix originInfo
                    (sampleConfig SboAnatomLocation.None t nullLabel)
                    (sampleConfig SboAnatomLocation.None o nullLabel))
                 (Amistem.stemToStemMatrix originInfo
                    (sampleConfig SboAnatomLocation.None o nullLabel)
                    (sampleConfig SboAnatomLocation.None t nullLabel)))
              idMat3) (map snd (Amistem.families originInfo))).
  assert (Hf : f (stemLabel co - b) = true)
    by (apply Amistem_origin_stems; [vm_compute; reflexivity|exact Ho0]).
  unfold f in Hf. rewrite forallb_forall in Hf. specialize (Hf _ Hr0). cbv zeta in Hf.
  apply andb_true_iff in Hf. destruct Hf as [St Hm]. apply meqb_spec in Hm.
  assert (Ht' : Amistem.isStem info (stemLabel ct) = true).
  { rewrite Ht, (Amistem_getSimilarLabel_shift info _ _ Ho Hr). fold b.
    rewrite (Amistem_isStem_shift info). fold b. rewrite add_sub_cancel. exact St. }
  rewrite (Amistem_stemToStem_shift info ct co Ht' Ho),
    (Amistem_stemToStem_shift info co ct Ho Ht').
  fold b.
  assert (Et : stemLabel ct - b = Amistem.getSimilarLabel originInfo (stemLabel co - b) (r - b)).
  { rewrite Ht, (Amistem_getSimilarLabel_shift info _ _ Ho Hr). fold b. lia. }
  rewrite Et. exact Hm.
Qed.

Lemma Amistem_stemToStem_similar_inverse_witness :
  let info := sampleRegistry AMISTEM in
  let co := sampleConfig SboAnatomLocation.Left
              (Amistem.s3 info Amistem.S3UID.STEM_STD_5) nullLabel in
  let ct := sampleConfig SboAnatomLocation.Left
              (Amistem.s3 info Amistem.S3UID.STEM_LAT_SN_4) nullLabel in
  meq (mulMat3 (Amistem.stemToStemMatrix info ct co)
               (Amistem.stemToStemMatrix info co ct))
      idMat3.
Proof.
  cbv zeta.
  apply (Amistem_stemToStem_similar_inverse (sampleRegistry AMISTEM) _ _
           (Amistem.s3 (sampleRegistry AMISTEM) Amistem.S3UID.RANGE_CCD_LAT_SN)).
  - vm_compute; reflexivity.
  - vm_compute; tauto.
  - vm_compute; reflexivity.
Defined.

(** ** Landmarks *)

Lemma Qlt_of_bool (a b : Q) : Qle_bool b a = false -> (a < b)%Q.
Proof.
  intros H. apply Qnot_le_lt. intros Hle. apply Qle_bool_iff in Hle. congruence.
Qed.

(** For every Corail stem the neck origin RES_01 and the head centre TPR_01
    lie in the plane y = 0 and the head centre has a strictly smaller x and
    a strictly larger z than the neck origin: the neck axis that
    [headToStemMatrix] normalises is never the zero vector. *)
Theorem Corail_neck_axis_defined (info : ProductInfo) l :
  Corail.isStem info l = true ->
  let t := Corail.getTPR_01 info l in
  let r := Corail.getRES_01 info l in
  (py t == 0)%Q /\ (py r == 0)%Q /\ (px t < px r)%Q /\ (pz r < pz t)%Q
  /\ ~ peq (psub t r) (Point3 0 0 0).
Proof.
  intros H. cbv zeta.
  rewrite (Corail_getTPR_01_shift info), (Corail_getRES_01_shift info).
  rewrite (Corail_isStem_shift info) in H.
  set (k := l - productRangeStartsAt info) in *.
  pose (f := fun k =>
    let t := Corail.getTPR_01 originInfo k in
    let r := Corail.getRES_01 originInfo k in
    Qeq_bool (py t) 0 && Qeq_bool (py r) 0
    && negb (Qle_bool (px r) (px t)) && negb (Qle_bool (pz t) (pz r))).
  assert (Hf : f k = true)
    by (apply Corail_origin_stems; [vm_compute; reflexivity|exact H]).
  unfold f in Hf. cbv zeta in Hf.
  apply andb_true_iff in Hf. destruct Hf as [Hf H4].
  apply andb_true_iff in Hf. destruct Hf as [Hf H3].
  apply andb_true_iff in Hf. destruct Hf as [H1 H2].
  apply Qeq_bool_iff in H1. apply Qeq_bool_iff in H2.
  apply negb_true_iff, Qlt_of_bool in H3. apply negb_true_iff, Qlt_of_bool in H4.
  repeat (split; [assumption|]).
  intros (_ & _ & Hz). unfold psub in Hz. cbn [pz] in Hz.
  apply (Qlt_irrefl (pz (Corail.getRES_01 originInfo k))).
  assert (E : (pz (Corail.getTPR_01 originInfo k) == pz (Corail.getRES_01 originInfo k))%Q).
  { rewrite <- (Qplus_0_l (pz (Corail.getRES_01 originInfo k))), <- Hz. ring. }
  rewrite <- E at 2. exact H4.
Qed.

Lemma Corail_neck_axis_defined_witness :
  ~ peq (psub (Corail.getTPR_01 (sampleRegistry CORAIL)
                 (Corail.s3 (sampleRegistry CORAIL) Corail.S3UID.STEM_KLA_125_0))
              (Corail.getRES_01 (sampleRegistry CORAIL)
                 (Corail.s3 (sampleRegistry CORAIL) Corail.S3UID.STEM_KLA_125_0)))
        (Point3 0 0 0).
Proof.
  apply (Corail_neck_axis_defined (sampleRegistry CORAIL)
           (Corail.s3 (sampleRegistry CORAIL) Corail.S3UID.STEM_KLA_125_0)).
  vm_compute; reflexivity.
Defined.

(** The same for every Amistem stem, in the plane x = 0. *)
Theorem Amistem_neck_axis_defined (info : ProductInfo) l :
  Amistem.isStem info l = true ->
  let t := Amistem.getTPR_01 info l in
  let r := Amistem.getRES_01 info l in
  (px t == 0)%Q /\ (px r == 0)%Q /\ (py r < py t)%Q /\ (pz r < pz t)%Q
  /\ ~ peq (psub t r) (Point3 0 0 0).
Proof.
  intros H. cbv zeta.
  rewrite (Amistem_getTPR_01_shift info l H), (Amistem_getRES_01_shift info l H).
  rewrite (Amistem_isStem_shift info) in H.
  set (k := l - productRangeStartsAt info) in *.
  pose (f := fun k =>
    let t := Amistem.getTPR_01 originInfo k in
    let r := Amistem.getRES_01 originInfo k in
    Qeq_bool (px t) 0 && Qeq_bool (px r) 0
    && negb (Qle_bool (py t) (py r)) && negb (Qle_bool (pz t) (pz r))).
  assert (Hf : f k = true)
    by (apply Amistem_origin_stems; [vm_compute; reflexivity|exact H]).
  unfold f in Hf. cbv zeta in Hf.
  apply andb_true_iff in Hf. destruct Hf as [Hf H4].
  apply andb_true_iff in Hf. destruct Hf as [Hf H3].
  apply andb_true_iff in Hf. destruct Hf as [H1 H2].
  apply Qeq_bool_iff in H1. apply Qeq_bool_iff in H2.
  apply negb_true_iff, Qlt_of_bool in H3. apply negb_true_iff, Qlt_of_bool in H4.
  repeat (split; [assumption|]).
  intros (_ & _ & Hz). unfold psub in Hz. cbn [pz] in Hz.
  apply (Qlt_irrefl (pz (Amistem.getRES_01 originInfo k))).
  assert (E : (pz (Amistem.getTPR_01 originInfo k) == pz (Amistem.getRES_01 originInfo k))%Q).
  { rewrite <- (Qplus_0_l (pz (Amistem.getRES_01 originInfo k))), <- Hz. ring. }
  rewrite <- E at 2. exact H4.
Qed.

Lemma Amistem_neck_axis_defined_witness :
  ~ peq (psub (Amistem.getTPR_01 (sampleRegistry AMISTEM)
                 (Amistem.s3 (sampleRegistry AMISTEM) Amistem.S3UID.STEM_LAT_SN_2))
              (Amistem.getRES_01 (sampleRegistry AMISTEM)
                 (Amistem.s3 (sampleRegistry AMISTEM) Amistem.S3UID.STEM_LAT_SN_2)))
        (Point3 0 0 0).
Proof.
  apply (Amistem_neck_axis_defined (sampleRegistry AMISTEM)
           (Amistem.s3 (sampleRegistry AMISTEM) Amistem.S3UID.STEM_LAT_SN_2)).
  vm_compute; reflexivity.
Defined.

(** ** Attributes of Corail families *)

Lemma Corail_hasCollar_shift info l :
  Corail.hasCollar info l = Corail.hasCollar originInfo (l - productRangeStartsAt info).
Proof. unfold Corail.hasCollar. corail_preds info. reflexivity. Qed.

(** Collar and shaft angle belong to the family: two Corail stems of one
    family agree on both, only collared stems being stems of the families
    KHO_A, KA, KLA, STD125_A and SN_A, and only the stems of KLA having the
    angle 55. *)
Theorem Corail_collar_and_angle_by_family (info : ProductInfo) l1 l2 :
  Corail.isStem info l1 = true ->
  Corail.isStem info l2 = true ->
  Corail.getCCDRange info l1 = Corail.getCCDRange info l2 ->
  Corail.hasCollar info l1 = Corail.hasCollar info l2
  /\ Corail.getShaftAngle info l1 = Corail.getShaftAngle info l2
  /\ Corail.hasCollar info l1
     = existsb (Z.eqb (Corail.getCCDRange info l1))
         (map (Corail.s3 info)
            [Corail.S3UID.RANGE_CCD_KHO_A_135; Corail.S3UID.RANGE_CCD_KA_STD135;
             Corail.S3UID.RANGE_CCD_KLA_125; Corail.S3UID.RANGE_CCD_STD125_A;
             Corail.S3UID.RANGE_CCD_SN_A])
  /\ Corail.getShaftAngle info l1
     = if Corail.getCCDRange info l1 =? Corail.s3 info Corail.S3UID.RANGE_CCD_KLA_125
       then 55%Q else 45%Q.
Proof.
  intros H1 H2 Hr.
  rewrite (Corail_getCCDRange_shift info l1 H1), (Corail_getCCDRange_shift info l2 H2) in Hr.
  unfold Corail.getShaftAngle.
  rewrite !(Corail_hasCollar_shift info), !(Corail_isCCD_KLA_125_shift info),
    (Corail_getCCDRange_shift info l1 H1).
  cbn [map existsb]. rewrite !(Corail_s3_shift info), !eqb_shift_sum.
  rewrite (Corail_isStem_shift info) in H1, H2.
  set (b := productRangeStartsAt info) in *.
  set (k1 := l1 - b) in *. set (k2 := l2 - b) in *.
  pose (g := fun k1 k2 =>
    negb (Corail.getCCDRange originInfo k1 =? Corail.getCCDRange originInfo k2)
    || (Bool.eqb (Corail.hasCollar originInfo k1) (Corail.hasCollar originInfo k2)
        && Bool.eqb (Corail.isCCD_KLA_125 originInfo k1) (Corail.isCCD_KLA_125 originInfo k2))).
  pose (f := fun k =>
    allInRange (g k) 90 76
    && Bool.eqb (Corail.hasCollar originInfo k)
         (existsb (Z.eqb (Corail.getCCDRange originInfo k))
            (map (Corail.s3 originInfo)
               [Corail.S3UID.RANGE_CCD_KHO_A_135; Corail.S3UID.RANGE_CCD_KA_STD135;
                Corail.S3UID.RANGE_CCD_KLA_125; Corail.S3UID.RANGE_CCD_STD125_A;
                Corail.S3UID.RANGE_CCD_SN_A]))
    && Bool.eqb (Corail.isCCD_KLA_125 originInfo k)
         (Corail.getCCDRange originInfo k
          =? Corail.s3 originInfo Corail.S3UID.RANGE_CCD_KLA_125)).
  assert (Hf : f k1 = true)
    by (apply Corail_origin_stems; [vm_compute; reflexivity|exact H1]).
  unfold f in Hf.
  apply andb_true_iff in Hf. destruct Hf as [Hf E4].
  apply andb_true_iff in Hf. destruct Hf as [Hg E3].
  assert (Hg2 : g k1 k2 = true) by (apply (Corail_origin_stems (g k1)); assumption).
  unfold g in Hg2.
  assert (Hc : (Corail.getCCDRange originInfo k1 =? Corail.getCCDRange originInfo k2) = true)
    by (apply Z.eqb_eq; lia).
  rewrite Hc in Hg2. cbn [negb orb] in Hg2.
  apply andb_true_iff in Hg2. destruct Hg2 as [E1 E2].
  apply Bool.eqb_prop in E1. apply Bool.eqb_prop in E2.
  apply Bool.eqb_prop in E3. apply Bool.eqb_prop in E4.
  cbn [map existsb] in E3.
  split; [exact E1|]. split; [rewrite E2; reflexivity|].
  split; [exact E3|]. rewrite E4. reflexivity.
Qed.

Lemma Corail_collar_and_angle_by_family_witness :
  Corail.hasCollar (sampleRegistry CORAIL)
    (Corail.s3 (sampleRegistry CORAIL) Corail.S3UID.STEM_KA_STD135_0)
  = Corail.hasCollar (sampleRegistry CORAIL)
      (Corail.s3 (sampleRegistry CORAIL) Corail.S3UID.STEM_KA_STD135_10).
Proof.
  apply (Corail_collar_and_angle_by_family (sampleRegistry CORAIL)
           (Corail.s3 (sampleRegistry CORAIL) Corail.S3UID.STEM_KA_STD135_0)
           (Corail.s3 (sampleRegistry CORAIL) Corail.S3UID.STEM_KA_STD135_10)).
  - vm_compute; reflexivity.
  - vm_compute; reflexivity.
  - vm_compute; reflexivity.
Defined.

(** ** The FIT scheme *)

Ltac fit_consts :=
  change (Fit.s3 Fit.S3UID.STEM_1_R) with 60750 in *;
  change (Fit.s3 Fit.S3UID.STEM_2_R) with 60751 in *;
  change (Fit.s3 Fit.S3UID.STEM_3_R) with 60752 in *;
  change (Fit.s3 Fit.S3UID.STEM_4_R) with 60753 in *;
  change (Fit.s3 Fit.S3UID.STEM_5_R) with 60754 in *;
  change (Fit.s3 Fit.S3UID.STEM_6_R) with 60755 in *;
  change (Fit.s3 Fit.S3UID.STEM_7_R) with 60756 in *;
  change (Fit.s3 Fit.S3UID.STEM_1_L) with 60757 in *;
  change (Fit.s3 Fit.S3UID.STEM_2_L) with 60758 in *;
  change (Fit.s3 Fit.S3UID.STEM_3_L) with 60759 in *;
  change (Fit.s3 Fit.S3UID.STEM_4_L) with 60760 in *;
  change (Fit.s3 Fit.S3UID.STEM_5_L) with 60761 in *;
  change (Fit.s3 Fit.S3UID.STEM_6_L) with 60762 in *;
  change (Fit.s3 Fit.S3UID.STEM_7_L) with 60763 in *;
  change (Fit.s3 Fit.lowerS3UID) with 60750 in *.

(** A label that is not one of the stems of size 1 to 6 has size 7. *)
Lemma Fit_getItemSize_outside l :
  ~ (60750 <= l <= 60763) -> Fit.getItemSize l = 7.
Proof.
  intros H. unfold Fit.getItemSize. fit_consts.
  repeat match goal with
  | |- context [l =? ?c] =>
      replace (l =? c) with false by (symmetry; apply Z.eqb_neq; lia)
  end.
  reflexivity.
Qed.

Lemma Fit_size_cases l :
  Fit.getItemSize l = 1 \/ Fit.getItemSize l = 2 \/ Fit.getItemSize l = 3
  \/ Fit.getItemSize l = 4 \/ Fit.getItemSize l = 5 \/ Fit.getItemSize l = 6
  \/ Fit.getItemSize l = 7.
Proof.
  unfold Fit.getItemSize.
  repeat match goal with
  | |- context [if ?c then _ else _] => destruct c
  end; lia.
Qed.

(** [getItemSize] is the position of a stem among the right or among the
    left stems; every label has a size from 1 to 7, a right stem and the
    left stem seven labels further have the same size, and no left stem is
    a right one. *)
Theorem Fit_getItemSize_spec l :
  1 <= Fit.getItemSize l <= 7
  /\ (Fit.isRight l = true ->
      l = next (Fit.s3 Fit.S3UID.STEM_1_R) (Fit.getItemSize l - 1)
      /\ Fit.getItemSize (next l 7) = Fit.getItemSize l
      /\ Fit.isRight (next l 7) = false)
  /\ (SboML.in_closed_range l (Fit.s3 Fit.S3UID.STEM_1_L) (Fit.s3 Fit.S3UID.STEM_7_L) = true ->
      l = next (Fit.s3 Fit.S3UID.STEM_1_L) (Fit.getItemSize l - 1)
      /\ Fit.isRight l = false).
Proof.
  pose (f := fun l =>
    (1 <=? Fit.getItemSize l) && (Fit.getItemSize l <=? 7)
    && (negb (Fit.isRight l)
        || ((l =? next (Fit.s3 Fit.S3UID.STEM_1_R) (Fit.getItemSize l - 1))
            && (Fit.getItemSize (next l 7) =? Fit.getItemSize l)
            && negb (Fit.isRight (next l 7))))
    && (negb (SboML.in_closed_range l (Fit.s3 Fit.S3UID.STEM_1_L)
                (Fit.s3 Fit.S3UID.STEM_7_L))
        || ((l =? next (Fit.s3 Fit.S3UID.STEM_1_L) (Fit.getItemSize l - 1))
            && negb (Fit.isRight l)))).
  assert (Hall : allInRange f 60750 14 = true) by (vm_compute; reflexivity).
  destruct (Z_le_dec 60750 l) as [Hlo|Hlo];
    [destruct (Z_le_dec l 60763) as [Hhi|Hhi]|].
  - assert (Hf : f l = true)
      by (apply (allInRange_spec f 14 60750 Hall); change (Z.of_nat 14) with 14; lia).
    unfold f in Hf.
    apply andb_true_iff in Hf. destruct Hf as [Hf H4].
    apply andb_true_iff in Hf. destruct Hf as [Hf H3].
    apply andb_true_iff in Hf. destruct Hf as [H1 H2].
    apply Z.leb_le in H1. apply Z.leb_le in H2.
    split; [lia|]. split.
    + intros Hr. rewrite Hr in H3. cbn [negb orb] in H3.
      apply andb_true_iff in H3. destruct H3 as [H3 H3c].
      apply andb_true_iff in H3. destruct H3 as [H3a H3b].
      apply Z.eqb_eq in H3a. apply Z.eqb_eq in H3b. apply negb_true_iff in H3c. auto.
    + intros Hl. rewrite Hl in H4. cbn [negb orb] in H4.
      apply andb_true_iff in H4. destruct H4 as [H4a H4b].
      apply Z.eqb_eq in H4a. apply negb_true_iff in H4b. auto.
  - rewrite (Fit_getItemSize_outside l) by lia.
    split; [lia|]. split; intros Hr; exfalso;
      unfold Fit.isRight in Hr; apply in_closed_range_bounds in Hr; fit_consts; lia.
  - rewrite (Fit_getItemSize_outside l) by lia.
    split; [lia|]. split; intros Hr; exfalso;
      unfold Fit.isRight in Hr; apply in_closed_range_bounds in Hr; fit_consts; lia.
Qed.

Lemma Fit_getItemSize_spec_witness :
  Fit.s3 Fit.S3UID.STEM_4_R
  = next (Fit.s3 Fit.S3UID.STEM_1_R) (Fit.getItemSize (Fit.s3 Fit.S3UID.STEM_4_R) - 1).
Proof.
  apply (proj1 (proj2 (Fit_getItemSize_spec (Fit.s3 Fit.S3UID.STEM_4_R)))).
  vm_compute; reflexivity.
Defined.

(** For every label the cut plane passes through the centre of the box
    [cutPlaneBbox] returns, with its normal along x: the box encloses the
    trace of the plane. *)
Theorem Fit_cutPlane_centre_of_bbox l :
  let P := planePoint (Fit.cutPlane l) in
  let B := Fit.cutPlaneBbox l in
  peq (bboxMin B) (psub P (Point3 25 25 25))
  /\ peq (bboxMax B) (padd P (Point3 25 25 25))
  /\ planeNormal (Fit.cutPlane l) = Point3 1 0 0.
Proof.
  cbv zeta. unfold Fit.cutPlane, Fit.cutPlaneBbox. cbv zeta.
  destruct (Fit_size_cases l) as [E|[E|[E|[E|[E|[E|E]]]]]]; rewrite E;
    (split; [apply peqb_spec; vm_compute; reflexivity|]);
    (split; [apply peqb_spec; vm_compute; reflexivity|reflexivity]).
Qed.

(** The larger the size, the further the cut plane along -x and the larger
    the offset [offsetFF] returns. *)
Theorem Fit_size_monotone l1 l2 :
  Fit.getItemSize l1 < Fit.getItemSize l2 ->
  (px (planePoint (Fit.cutPlane l2)) < px (planePoint (Fit.cutPlane l1)))%Q
  /\ (px (Fit.offsetFF l1) < px (Fit.offsetFF l2))%Q.
Proof.
  intros H. unfold Fit.cutPlane, Fit.offsetFF. cbv zeta.
  destruct (Fit_size_cases l1) as [E1|[E1|[E1|[E1|[E1|[E1|E1]]]]]];
    destruct (Fit_size_cases l2) as [E2|[E2|[E2|[E2|[E2|[E2|E2]]]]]];
    rewrite E1, E2 in *; try lia; split; vm_compute; reflexivity.
Qed.

Lemma Fit_size_monotone_witness :
  (px (Fit.offsetFF (Fit.s3 Fit.S3UID.STEM_2_L))
   < px (Fit.offsetFF (Fit.s3 Fit.S3UID.STEM_6_R)))%Q.
Proof.
  apply (Fit_size_monotone (Fit.s3 Fit.S3UID.STEM_2_L) (Fit.s3 Fit.S3UID.STEM_6_R)).
  vm_compute; reflexivity.
Defined.

(** ** Landmarks of the Ecofit and Actis stems *)

Lemma Ecofit_getTPR_01_shift info l :
  Ecofit.getTPR_01 info l = Ecofit.getTPR_01 originInfo (l - productRangeStartsAt info).
Proof. unfold Ecofit.getTPR_01. ecofit_preds info. reflexivity. Qed.

Lemma Actis_label_eqb_shift info l (e : Actis.S3UID.t) :
  (l =? Actis.s3 info e) = (l - productRangeStartsAt info =? Actis.s3 originInfo e).
Proof. rewrite (Actis_s3_shift info). apply eqb_shift. Qed.

Lemma Actis_range_eqb_shift info l (e : Actis.S3UID.t) :
  Actis.isStem info l = true ->
  (Actis.R.subRange (Actis.getRangeStats info l) =? Actis.s3 info e)
  = (Actis.R.subRange (Actis.getRangeStats originInfo (l - productRangeStartsAt info))
     =? Actis.s3 originInfo e).
Proof.
  intros H. rewrite (Actis_subRange_shift info l H), (Actis_s3_shift info).
  apply eqb_shift_sum.
Qed.

Lemma Actis_getRES_01_shift info l :
  Actis.isStem info l = true ->
  Actis.getRES_01 info l = Actis.getRES_01 originInfo (l - productRangeStartsAt info).
Proof.
  intros H. unfold Actis.getRES_01. cbv zeta.
  rewrite (Actis_range_eqb_shift info l _ H), !(Actis_label_eqb_shift info l).
  reflexivity.
Qed.

Lemma Actis_getTPR_01_shift info l :
  Actis.isStem info l = true ->
  Actis.getTPR_01 info l = Actis.getTPR_01 originInfo (l - productRangeStartsAt info).
Proof.
  intros H. unfold Actis.getTPR_01. cbv zeta.
  rewrite (Actis_range_eqb_shift info l _ H), !(Actis_label_eqb_shift info l).
  reflexivity.
Qed.

(** For every Ecofit stem the neck origin RES_01 is the origin of the
    frame and the head centre TPR_01 lies in the plane z = 0 with positive x
    and y: the neck axis is never the zero vector. *)
Theorem Ecofit_neck_axis_defined (info : ProductInfo) l :
  Ecofit.isStem info l = true ->
  let t := Ecofit.getTPR_01 info l in
  let r := Ecofit.getRES_01 l in
  r = Point3 0 0 0
  /\ (0 < px t)%Q /\ (0 < py t)%Q /\ (pz t == 0)%Q
  /\ ~ peq (psub t r) (Point3 0 0 0).
Proof.
  intros H. cbv zeta.
  rewrite (Ecofit_getTPR_01_shift info). rewrite (Ecofit_isStem_shift info) in H.
  set (k := l - productRangeStartsAt info) in *.
  pose (f := fun k =>
    let t := Ecofit.getTPR_01 originInfo k in
    negb (Qle_bool (px t) 0) && negb (Qle_bool (py t) 0) && Qeq_bool (pz t) 0).
  assert (Hf : f k = true)
    by (apply Ecofit_origin_stems; [vm_compute; reflexivity|exact H]).
  unfold f in Hf. cbv zeta in Hf.
  apply andb_true_iff in Hf. destruct Hf as [Hf H3].
  apply andb_true_iff in Hf. destruct Hf as [H1 H2].
  apply negb_true_iff, Qlt_of_bool in H1. apply negb_true_iff, Qlt_of_bool in H2.
  apply Qeq_bool_iff in H3.
  split; [reflexivity|]. repeat (split; [assumption|]).
  intros (Hx & _ & _). unfold psub, Ecofit.getRES_01 in Hx. cbn [px] in Hx.
  apply (Qlt_irrefl 0).
  assert (E : (px (Ecofit.getTPR_01 originInfo k) == 0)%Q) by (rewrite <- Hx; ring).
  rewrite <- E at 2. exact H1.
Qed.

Lemma Ecofit_neck_axis_defined_witness :
  (0 < px (Ecofit.getTPR_01 (sampleRegistry ECOFIT)
             (Ecofit.s3 (sampleRegistry ECOFIT) Ecofit.S3UID.STEM_CV_0)))%Q.
Proof.
  apply (Ecofit_neck_axis_defined (sampleRegistry ECOFIT)
           (Ecofit.s3 (sampleRegistry ECOFIT) Ecofit.S3UID.STEM_CV_0)).
  vm_compute; reflexivity.
Defined.

(** For every Actis stem RES_01 and TPR_01 lie in the plane y = 0 and the
    head centre has a strictly larger x and a strictly larger z than the
    neck origin. *)
Theorem Actis_neck_axis_defined (info : ProductInfo) l :
  Actis.isStem info l = true ->
  let t := Actis.getTPR_01 info l in
  let r := Actis.getRES_01 info l in
  (py t == 0)%Q /\ (py r == 0)%Q /\ (px r < px t)%Q /\ (pz r < pz t)%Q
  /\ ~ peq (psub t r) (Point3 0 0 0).
Proof.
  intros H. cbv zeta.
  rewrite (Actis_getTPR_01_shift info l H), (Actis_getRES_01_shift info l H).
  rewrite (Actis_isStem_shift info) in H.
  set (k := l - productRangeStartsAt info) in *.
  pose (f := fun k =>
    let t := Actis.getTPR_01 originInfo k in
    let r := Actis.getRES_01 originInfo k in
    Qeq_bool (py t) 0 && Qeq_bool (py r) 0
    && negb (Qle_bool (px t) (px r)) && negb (Qle_bool (pz t) (pz r))).
  assert (Hf : f k = true)
    by (apply Actis_origin_stems; [vm_compute; reflexivity|exact H]).
  unfold f in Hf. cbv zeta in Hf.
  apply andb_true_iff in Hf. destruct Hf as [Hf H4].
  apply andb_true_iff in Hf. destruct Hf as [Hf H3].
  apply andb_true_iff in Hf. destruct Hf as [H1 H2].
  apply Qeq_bool_iff in H1. apply Qeq_bool_iff in H2.
  apply negb_true_iff, Qlt_of_bool in H3. apply negb_true_iff, Qlt_of_bool in H4.
  repeat (split; [assumption|]).
  intros (_ & _ & Hz). unfold psub in Hz. cbn [pz] in Hz.
  apply (Qlt_irrefl (pz (Actis.getRES_01 originInfo k))).
  assert (E : (pz (Actis.getTPR_01 originInfo k) == pz (Actis.getRES_01 originInfo k))%Q).
  { rewrite <- (Qplus_0_l (pz (Actis.getRES_01 originInfo k))), <- Hz. ring. }
  rewrite <- E at 2. exact H4.
Qed.

Lemma Actis_neck_axis_defined_witness :
  (px (Actis.getRES_01 (sampleRegistry ACTIS)
         (Actis.s3 (sampleRegistry ACTIS) Actis.S3UID.STEM_HO_7))
   < px (Actis.getTPR_01 (sampleRegistry ACTIS)
           (Actis.s3 (sampleRegistry ACTIS) Actis.S3UID.STEM_HO_7)))%Q.
Proof.
  apply (Actis_neck_axis_defined (sampleRegistry ACTIS)
           (Actis.s3 (sampleRegistry ACTIS) Actis.S3UID.STEM_HO_7)).
  vm_compute; reflexivity.
Defined.

(** ** Head positions *)

Lemma Ecofit_s3_eqb info (e1 e2 : Ecofit.S3UID.t) :
  (Ecofit.s3 info e1 =? Ecofit.s3 info e2)
  = (Ecofit.S3UID.index e1 =? Ecofit.S3UID.index e2).
Proof.
  rewrite !(Ecofit_s3_shift info), eqb_shift_l, add_sub_cancel_l.
  unfold Ecofit.s3, Ecofit.utype, Ecofit.ProductRangeStartsAt, originInfo.
  cbn [productRangeStartsAt].
  destruct (Z.eqb_spec (0 + 90 + Ecofit.S3UID.index e1) (0 + 90 + Ecofit.S3UID.index e2)),
           (Z.eqb_spec (Ecofit.S3UID.index e1) (Ecofit.S3UID.index e2));
    try reflexivity; lia.
Qed.

Lemma Actis_s3_eqb info (e1 e2 : Actis.S3UID.t) :
  (Actis.s3 info e1 =? Actis.s3 info e2)
  = (Actis.S3UID.index e1 =? Actis.S3UID.index e2).
Proof.
  rewrite !(Actis_s3_shift info), eqb_shift_l, add_sub_cancel_l.
  unfold Actis.s3, Actis.utype, Actis.ProductRangeStartsAt, originInfo.
  cbn [productRangeStartsAt].
  destruct (Z.eqb_spec (0 + 90 + Actis.S3UID.index e1) (0 + 90 + Actis.S3UID.index e2)),
           (Z.eqb_spec (Actis.S3UID.index e1) (Actis.S3UID.index e2));
    try reflexivity; lia.
Qed.

Lemma on_axis_zero (h a : SboPoint3) (z : Q) : (z == 0)%Q -> peq (padd h (pscale a z)) h.
Proof.
  intros Hz. destruct h as [hx hy hz], a as [ax ay az]. unfold peq, padd, pscale.
  cbn [px py pz]. rewrite Hz. repeat split; ring.
Qed.

Lemma on_axis_plus (h a : SboPoint3) (z k : Q) :
  (z == k)%Q -> peq (padd h (pscale a z)) (padd h (pscale a k)).
Proof.
  intros Hz. destruct h as [hx hy hz], a as [ax ay az]. unfold peq, padd, pscale.
  cbn [px py pz]. rewrite Hz. repeat split; ring.
Qed.

Lemma on_axis_minus (h a : SboPoint3) (z k : Q) :
  (z == - k)%Q -> peq (padd h (pscale a z)) (psub h (pscale a k)).
Proof.
  intros Hz. destruct h as [hx hy hz], a as [ax ay az]. unfold peq, padd, psub, pscale.
  cbn [px py pz]. rewrite Hz. repeat split; ring.
Qed.

(** In the Corail, Ecofit and Actis schemes, for a stem label and whatever
    the normalisation of the neck axis: the head HEAD_P0 sits at TPR_01,
    the head HEAD_P4 at TPR_01 + d and the head HEAD_M4 at TPR_01 - d, where
    d is the unit neck axis scaled by 3.5 (Corail, Actis) or 3.53 (Ecofit).
    (The two heads use the same length with opposite signs and HEAD_P0 the
    length 0, so the statement does not depend on how the product and the
    sum are rounded.) *)
Theorem head_positions_symmetric (ci ei ai : ProductInfo)
        (unit3 : SboVector3 -> SboVector3) (stem : SboShape3Label) :
  (Corail.isStem ci stem = true ->
   let t := fun h => translation (Corail.headToStemMatrix ci unit3 (Corail.s3 ci h) stem) in
   let tpr := Corail.getTPR_01 ci stem in
   let d := pscale (unit3 (psub tpr (Corail.getRES_01 ci stem))) 3.5 in
   peq (t Corail.S3UID.HEAD_P0) tpr
   /\ peq (t Corail.S3UID.HEAD_P4) (padd tpr d)
   /\ peq (t Corail.S3UID.HEAD_M4) (psub tpr d))
  /\ (Ecofit.isStem ei stem = true ->
      let t := fun h => translation (Ecofit.headToStemMatrix ei unit3 (Ecofit.s3 ei h) stem) in
      let tpr := Ecofit.getTPR_01 ei stem in
      let d := pscale (unit3 (psub tpr (Ecofit.getRES_01 stem))) 3.53 in
      peq (t Ecofit.S3UID.HEAD_P0) tpr
      /\ peq (t Ecofit.S3UID.HEAD_P4) (padd tpr d)
      /\ peq (t Ecofit.S3UID.HEAD_M4) (psub tpr d))
  /\ (Actis.isStem ai stem = true ->
      let t := fun h => translation (Actis.headToStemMatrix ai unit3 (Actis.s3 ai h) stem) in
      let tpr := Actis.getTPR_01 ai stem in
      let d := pscale (unit3 (psub tpr (Actis.getRES_01 ai stem))) 3.5 in
      peq (t Actis.S3UID.HEAD_P0) tpr
      /\ peq (t Actis.S3UID.HEAD_P4) (padd tpr d)
      /\ peq (t Actis.S3UID.HEAD_M4) (psub tpr d)).
Proof.
  split; [|split]; intros _; cbv zeta;
    unfold Corail.headToStemMatrix, Ecofit.headToStemMatrix, Actis.headToStemMatrix;
    cbv zeta; rewrite ?Corail_s3_eqb, ?Ecofit_s3_eqb, ?Actis_s3_eqb;
    cbn [Corail.S3UID.index Ecofit.S3UID.index Actis.S3UID.index Z.eqb Pos.eqb
         translation transMat3];
    (split; [|split]);
    first [apply on_axis_zero; reflexivity
          |apply on_axis_plus; reflexivity
          |apply on_axis_minus; reflexivity].
Qed.

Lemma head_positions_symmetric_witness :
  let stem := Corail.s3 (sampleRegistry CORAIL) Corail.S3UID.STEM_KS_STD135_5 in
  peq (translation
         (Corail.headToStemMatrix (sampleRegistry CORAIL) (fun v => v)
            (Corail.s3 (sampleRegistry CORAIL) Corail.S3UID.HEAD_P0) stem))
      (Corail.getTPR_01 (sampleRegistry CORAIL) stem).
Proof.
  cbv zeta.
  refine (proj1 (proj1
    (head_positions_symmetric (sampleRegistry CORAIL) (sampleRegistry ECOFIT)
       (sampleRegistry ACTIS) (fun v => v)
       (Corail.s3 (sampleRegistry CORAIL) Corail.S3UID.STEM_KS_STD135_5)) _)).
  vm_compute; reflexivity.
Defined.

(** ** The Optimys head top *)

(** Of two stems of one family the one of the larger size has the higher
    head top, and the lateral stem the search gives for a standard stem has
    its head top higher than the standard stem's by more than 3.99 and less
    than 4.01.  (The margins are far above the rounding error of the
    single-precision sums the source evaluates.) *)
Theorem Optimys_getHeadTop_monotone l1 l2 :
  Optimys.isStem l1 = true ->
  Optimys.isStem l2 = true ->
  (Optimys.getCCDRange l1 = Optimys.getCCDRange l2 ->
   Optimys.getSize l1 < Optimys.getSize l2 ->
   (Optimys.getHeadTop l1 < Optimys.getHeadTop l2)%Q)
  /\ (Optimys.isCCD_STD l1 = true ->
      exists m, Optimys.similarLabel l1 (Optimys.s3 Optimys.S3UID.RANGE_CCD_LAT) = Some m
                /\ Optimys.getSize m = Optimys.getSize l1
                /\ (Optimys.getHeadTop l1 + 3.99 < Optimys.getHeadTop m)%Q
                /\ (Optimys.getHeadTop m < Optimys.getHeadTop l1 + 4.01)%Q).
Proof.
  intros H1 H2.
  pose (g := fun k1 k2 =>
    negb (Optimys.getCCDRange k1 =? Optimys.getCCDRange k2)
    || negb (Optimys.getSize k1 <? Optimys.getSize k2)
    || negb (Qle_bool (Optimys.getHeadTop k2) (Optimys.getHeadTop k1))).
  pose (f := fun k =>
    negb (Optimys.isCCD_STD k)
    || match Optimys.similarLabel k (Optimys.s3 Optimys.S3UID.RANGE_CCD_LAT) with
       | Some m =>
           (Optimys.getSize m =? Optimys.getSize k)
           && negb (Qle_bool (Optimys.getHeadTop m) (Optimys.getHeadTop k + 3.99))
           && negb (Qle_bool (Optimys.getHeadTop k + 4.01) (Optimys.getHeadTop m))
       | None => false
       end).
  assert (Hg : g l1 l2 = true).
  { apply (Optimys_stems (g l1)); [|exact H2].
    apply (Optimys_stems (fun k1 => allInRange (g k1) Optimys.MYSRangeStartAt 28));
      [vm_compute; reflexivity|exact H1]. }
  assert (Hf : f l1 = true) by (apply Optimys_stems; [vm_compute; reflexivity|exact H1]).
  unfold g in Hg. unfold f in Hf. split.
  - intros Hr Hlt. rewrite Hr, Z.eqb_refl in Hg. cbn [negb orb] in Hg.
    apply Z.ltb_lt in Hlt. rewrite Hlt in Hg. cbn [negb orb] in Hg.
    apply negb_true_iff, Qlt_of_bool in Hg. exact Hg.
  - intros Hs. rewrite Hs in Hf. cbn [negb orb] in Hf.
    destruct (Optimys.similarLabel l1 _) as [m|]; [|discriminate].
    exists m. split; [reflexivity|].
    apply andb_true_iff in Hf. destruct Hf as [Hf H5].
    apply andb_true_iff in Hf. destruct Hf as [H3 H4].
    apply Z.eqb_eq in H3.
    apply negb_true_iff, Qlt_of_bool in H4. apply negb_true_iff, Qlt_of_bool in H5.
    auto.
Qed.

Lemma Optimys_getHeadTop_monotone_witness :
  (Optimys.getHeadTop (Optimys.s3 Optimys.S3UID.STEM_STD_6)
   < Optimys.getHeadTop (Optimys.s3 Optimys.S3UID.STEM_STD_9))%Q.
Proof.
  apply (proj1 (Optimys_getHeadTop_monotone
                  (Optimys.s3 Optimys.S3UID.STEM_STD_6)
                  (Optimys.s3 Optimys.S3UID.STEM_STD_9)
                  ltac:(vm_compute; reflexivity) ltac:(vm_compute; reflexivity))).
  - vm_compute; reflexivity.
  - vm_compute; reflexivity.
Defined.

(** ** Cut-plane boxes *)



Lemma bbox_about (r lo hi : SboPoint3) :
  (px lo <= 0 <= px hi)%Q -> (py lo <= 0 <= py hi)%Q -> (pz lo <= 0 <= pz hi)%Q ->
  let b := makeBbox3 (applyMat3 (transMat3 r) lo) (applyMat3 (transMat3 r) hi) in
  peq (bboxMin b) (padd r lo) /\ peq (bboxMax b) (padd r hi) /\ inBbox r b.
Proof.
  destruct r as [rx ry rz], lo as [lx ly lz], hi as [hx hy hz].
  cbn [px py pz]. intros Hx Hy Hz. cbv zeta.
  unfold inBbox, peq, applyMat3, applyLin, transMat3, pdot, padd.
  cbn [bboxMin bboxMax row1 row2 row3 translation px py pz].
  repeat split; try ring; lra.
Qed.

(** In the Amistem, Ecofit and Actis schemes the box is the box of the
    authored half-extents moved to the neck origin RES_01 of the label, which
    therefore lies inside it, for every label. *)
Theorem cutPlaneBbox_about_neck_origin (ai ki : ProductInfo) l :
  (peq (bboxMin (Amistem.cutPlaneBbox ai l))
       (padd (Amistem.getRES_01 ai l) (Point3 (-40.0) (-80.0) (-40.0)))
   /\ peq (bboxMax (Amistem.cutPlaneBbox ai l))
          (padd (Amistem.getRES_01 ai l) (Point3 40.0 80.0 40.0))
   /\ inBbox (Amistem.getRES_01 ai l) (Amistem.cutPlaneBbox ai l))
  /\ (peq (bboxMin (Ecofit.cutPlaneBbox l))
          (padd (Ecofit.getRES_01 l) (Point3 (-25.0) (-25.0) (-25.0)))
      /\ peq (bboxMax (Ecofit.cutPlaneBbox l))
             (padd (Ecofit.getRES_01 l) (Point3 25.0 25.0 25.0))
      /\ inBbox (Ecofit.getRES_01 l) (Ecofit.cutPlaneBbox l))
  /\ (peq (bboxMin (Actis.cutPlaneBbox ki l))
          (padd (Actis.getRES_01 ki l) (Point3 (-50.0) (-25.0) (-25.0)))
      /\ peq (bboxMax (Actis.cutPlaneBbox ki l))
             (padd (Actis.getRES_01 ki l) (Point3 50.0 25.0 25.0))
      /\ inBbox (Actis.getRES_01 ki l) (Actis.cutPlaneBbox ki l)).
Proof.
  split; [|split].
  - apply (bbox_about (Amistem.getRES_01 ai l)
             (Point3 (-40.0) (-80.0) (-40.0)) (Point3 40.0 80.0 40.0));
      cbn [px py pz]; split; vm_compute; discriminate.
  - apply (bbox_about (Ecofit.getRES_01 l)
             (Point3 (-25.0) (-25.0) (-25.0)) (Point3 25.0 25.0 25.0));
      cbn [px py pz]; split; vm_compute; discriminate.
  - apply (bbox_about (Actis.getRES_01 ki l)
             (Point3 (-50.0) (-25.0) (-25.0)) (Point3 50.0 25.0 25.0));
      cbn [px py pz]; split; vm_compute; discriminate.
Qed.
